(* ===== verification/_CoqProject ===== *)
-Q . S2P
Prelude.v
Memory.v
CString.v
Kernel.v
Spinlock.v
Kalloc.v
Vm.v
PageTable.v
VmSpec.v
AddrSpace.v
Sched.v
Sleeplock.v
Bio.v
BufList.v
BioSpec.v
VirtioDisk.v
VirtioSpec.v
Log.v
LogSpec.v
LogGroup.v
TxnSpec.v
Uart.v
Printf.v
Copy.v
Console.v
ConsoleSpec.v
Pipe.v
PipeSpec.v
Fs.v
FsSpec.v
FileSpec.v
DirSpec.v
File.v
Proc.v
Exec.v
Sysarg.v
Sysfile.v
Syscall.v
Trap.v
Riscv.v
Asm.v
AsmSpec.v
Boot.v
User.v
ULib.v
UPrintf.v
Umalloc.v
UmallocSpec.v
Grep.v
UProgs.v
UTests.v
Usertests.v
Sh.v
ShSpec.v
Mkfs.v
MkfsSpec.v
