(* ===== verification/Prelude.v ===== *)
(** * Verification of the xv6 kernel and its user programs (felipedavid/flashy-xv6)

    xv6 is a small Unix for RISC-V multiprocessors.  This library models the
    kernel (src/kernel), the program that builds the file system image (src/mkfs)
    and the user programs (src/user) as Rocq functions, and proves what makes them
    correct.

    ** The program and how its parts interact

    A hart starts in machine mode (entry.S, start.c), continues in supervisor mode
    (main.c), initialises every part and enters the scheduler (proc.c, swtch.S).  A
    user program traps through trampoline.S into trap.c, which dispatches system
    calls (syscall.c, sysproc.c, sysfile.c) and device interrupts (plic.c, uart.c,
    virtio_disk.c).  System calls work on processes (proc.c, exec.c), on their
    address spaces (vm.c, on top of the page allocator kalloc.c) and on open files
    (file.c): pipes (pipe.c), the console (console.c on uart.c) and inodes.  Inodes,
    directories and path names (fs.c) are changed in transactions of the log
    (log.c), which reads and writes blocks through the buffer cache (bio.c) and the
    disk driver.  All of them synchronise with spinlocks (spinlock.c) and
    sleep-locks (sleeplock.c).  User programs see the kernel through the calls of
    user.h, and use ulib.c, printf.c and umalloc.c.

    ** How code becomes a definition

    A C function is one definition with the name it has in the source; an auxiliary
    definition is a loop or a block of the function that precedes it.  C integers
    are [Z]; every conversion and every wrap-around is written out ([u8], [u32],
    [i32], ... below).  Structs are records, with [r <| f := v |>] for an
    assignment; pointers to table entries are indices; other pointers are addresses
    of byte memory ([Memory.mem]).  Three monads carry effects:

    - [Kernel.K], a kernel thread on a [world]: the shared variables of the kernel
      ([kstate]), the spinlocks the thread holds, its process, and a schedule.  The
      schedule says what all other threads and devices do to the shared state each
      time the thread gives up the CPU, as an arbitrary function; a theorem about a
      thread that sleeps holds for all schedules that keep the invariant it states.
      The outcomes are a value, [panic], being blocked for ever, and running out of
      fuel.  Spinlock.v justifies the lock set: there locks are words, [acquire] is
      the atomic swap and what surrounds it, and harts interleave.
    - [Riscv.core], one hart with its registers, control registers, privilege,
      program counter and memory, on which the assembly files and [start] run.
    - [User.U], a user program over its memory and the system; the system is the
      parameter [OS], a function from calls to results.

    ** Files

    Generic: Prelude.v (this file: machine integers, byte strings, lists), Memory.v
    (byte memory), CString.v (string.c), Kernel.v (the headers, the state and the
    monad of the kernel).

    Locks and scheduling: Spinlock.v (spinlock.c), Sched.v (sched, yield, sleep,
    wakeup, kill, scheduler of proc.c), Sleeplock.v (sleeplock.c).

    Memory: Kalloc.v (kalloc.c), Vm.v (vm.c), PageTable.v (page tables in memory as
    abstract maps), VmSpec.v (walk, mappages, uvmunmap, copyin, copyout),
    AddrSpace.v (uvmcopy, uvmalloc, uvmdealloc).

    Disk: Bio.v (bio.c), BufList.v (its linked list), BioSpec.v (what the cache
    promises), VirtioDisk.v and VirtioSpec.v (virtio_disk.c), Log.v (log.c),
    LogSpec.v (crash safety), LogGroup.v (several calls in one transaction),
    TxnSpec.v (blocks inside a transaction), Fs.v (fs.c), FsSpec.v (the bitmap),
    FileSpec.v (file contents), DirSpec.v (directories and path names).

    Devices and pipes: Uart.v (uart.c), Printf.v (printf.c), Copy.v (either_copyin,
    either_copyout), Console.v and ConsoleSpec.v (console.c), Pipe.v and PipeSpec.v
    (pipe.c).

    Processes and traps: File.v (file.c), Proc.v (the rest of proc.c), Exec.v
    (exec.c), Sysarg.v and Syscall.v (syscall.c, sysproc.c), Sysfile.v (sysfile.c),
    Trap.v (trap.c, plic.c), Riscv.v (riscv.h and the core), Asm.v and AsmSpec.v
    (entry.S, swtch.S, trampoline.S, kernelvec.S), Boot.v (start.c, main.c).

    User space: User.v (user.h), ULib.v (ulib.c), UPrintf.v (printf.c), Umalloc.v
    and UmallocSpec.v (umalloc.c), Grep.v (grep.c), UProgs.v (the small programs),
    Sh.v and ShSpec.v (sh.c), UTests.v (forktest.c, stressfs.c, sysinfotest.c,
    grind.c), Usertests.v (usertests.c).

    The image: Mkfs.v and MkfsSpec.v (mkfs.c).

    ** Interfaces

    Components are verified against what the components below them promise:
    [BioSpec.DiskSpec] is the disk driver as the buffer cache uses it, discharged in
    VirtioSpec.v; the abstract cache of BioSpec.v carries the proofs of the log, and
    the transactions of TxnSpec.v those of fs.c; [Kalloc.free_pages] carries the
    page tables, and [PageTable.amap] what is built on them; [User.Output],
    [User.Input] and [UmallocSpec.Heap] are what programs rely on.

    ** What the theorems show

    - Log and disk.  A commit cut off after any number of disk writes is, after a
      reboot, either complete or without effect, and recovery may itself be cut off.
      In any interleaving of calls the log has room for what it admitted, as long as
      it is as large as [begin_op] takes it to be; that mkfs makes it one block
      smaller is a counterexample with three calls.  The buffer cache is a map from
      blocks to contents, and the driver serves its requests.
    - Files.  [readi] and [writei] read and change exactly the bytes they are asked
      for, [writei] allocates blocks no other file uses, and [readi] reads back what
      was written.  [dirlookup] finds the first entry with a name, [dirlink] adds an
      entry and changes no other, and path names are split at their slashes.  The
      image mkfs builds holds its files, and the kernel reads them
      from it.
    - Memory.  Page tables implement maps; [copyout] writes exactly the user range;
      [uvmcopy] copies an address space or leaves nothing behind; [uvmalloc] extends
      one and [uvmdealloc] undoes it; the page allocator is a stack of pages.
    - Locks and scheduling.  Mutual exclusion for every interleaving of harts, the
      lock set is implemented, the scheduler serves every runnable process in one
      round, and [wakeup] wakes exactly the sleepers on its channel.
    - Traps and boot.  What the assembly routines save they restore: a trap from
      user space and the return to it, an interrupt in the kernel, a context switch.
      [start] enters [main] as it should, and [usertrapret] returns to the program.
    - Pipes and console.  Pipes deliver bytes in order under any interference; the
      console implements a line editor, and a read delivers a line.
    - User space.  [malloc] and [free] keep a heap of disjoint blocks; a request of
      nearly 2^32 bytes breaks it, and that is a theorem too.  The matcher of grep
      decides the textbook relation; the parser of the shell terminates and inverts
      the printing of commands; the generator of grind is that of Park and Miller;
      the reader of the test pipe1 accepts exactly what its writer sends.

    ** Fuel

    A loop over a range or a list recurses on it.  A loop that sleeps uses up one
    entry of the schedule in each round, so one more than its length is enough
    ([Kernel.env_fuel]).  Other loops of the kernel have a bound that their
    definition states: levels of a page table, pages of a range, blocks of a file,
    bytes of a string.  [scheduler] and the loops of user programs that depend on
    what the system answers take their fuel as an argument; the theorems about them
    say how much is enough (the number of rounds for the scheduler, the number of
    free blocks for malloc, the length of the input for grep, pipe1 and the shell).

    ** Parameters

    The virtio device and its registers; the addresses the linker script provides
    ([Kalloc.Image]) and those of symbols ([Proc.Symbols], [Boot.BootSymbols]); address translation on the core ([Riscv.Mmu]); the values
    of control registers at a trap; padding bytes of struct stat and bytes of
    uninitialised stack memory; for user programs the system, and which memory they
    may touch ([Usertests.Access]).

    ** Not modelled

    - ramdisk.c: it is not part of the build, and refers to members that struct buf
      no longer has.
    - usys.S and initcode.S: the system call stubs are generated by usys.pl; the
      first program is the array of bytes in proc.c that Proc.v has as [initcode].
    - defs.h, types.h and the linker scripts: declarations only.
    - The TLB, caches and the memory order of the harts: accesses are sequentially
      consistent, as the locks of the code make them.
    - A user program sees its own process; other processes are part of [OS], and
      memory shared by [fork] does not exist in xv6. *)

From Stdlib Require Export Ascii ZArith Lia.
From stdpp Require Export base tactics option list gmap sets fin_sets functions strings numbers.

#[global] Open Scope Z_scope.

(** ** Record update

    [r <| f := v |>] and [r <| f ::= g |>] update one field of a struct, as a
    C assignment [r.f = v] does.  Each struct declares a [Setter] per field. *)

Class Setter {R T} (f : R → T) := set_field : (T → T) → R → R.
Arguments set_field {R T} f {_} _ _.

Notation "r <| f ::= g |>" := (set_field f g r)
  (at level 1, f at next level, left associativity, format "r  <| f  ::=  g |>").
Notation "r <| f := v |>" := (set_field f (fun _ => v) r)
  (at level 1, f at next level, left associativity, format "r  <| f  :=  v |>").

(** ** Machine integers

    C integers are kept as [Z]; a cast or a wrapping operation is written out. *)

Definition u8 (x : Z) : Z := x mod 2 ^ 8.
Definition u16 (x : Z) : Z := x mod 2 ^ 16.
Definition u32 (x : Z) : Z := x mod 2 ^ 32.
Definition u64 (x : Z) : Z := x mod 2 ^ 64.

(** Conversion to a signed type of [n] bits (two's complement). *)
Definition sx (n : Z) (x : Z) : Z :=
  let y := x mod 2 ^ n in if y <? 2 ^ (n - 1) then y else y - 2 ^ n.
Definition i16 (x : Z) : Z := sx 16 x.
Definition i32 (x : Z) : Z := sx 32 x.
Definition i64 (x : Z) : Z := sx 64 x.

Lemma u32_small x : 0 <= x < 2 ^ 32 → u32 x = x.
Proof. apply Z.mod_small. Qed.

Lemma u64_small x : 0 <= x < 2 ^ 64 → u64 x = x.
Proof. apply Z.mod_small. Qed.

Lemma u32_range x : 0 <= u32 x < 2 ^ 32.
Proof. apply Z.mod_pos_bound. lia. Qed.

Lemma u64_range x : 0 <= u64 x < 2 ^ 64.
Proof. apply Z.mod_pos_bound. lia. Qed.

Lemma sx_small n x : 0 < n → - 2 ^ (n - 1) <= x < 2 ^ (n - 1) → sx n x = x.
Proof.
  intros Hn Hx. unfold sx.
  assert (2 ^ n = 2 * 2 ^ (n - 1)) as E.
  { rewrite <- Z.pow_succ_r by lia. f_equal. lia. }
  destruct (decide (0 <= x)).
  - rewrite Z.mod_small by lia. destruct (Z.ltb_spec x (2 ^ (n - 1))); lia.
  - assert (x mod 2 ^ n = x + 2 ^ n) as ->.
    { symmetry. apply Z.mod_unique with (-1); lia. }
    destruct (Z.ltb_spec (x + 2 ^ n) (2 ^ (n - 1))); lia.
Qed.

Lemma i32_small x : - 2 ^ 31 <= x < 2 ^ 31 → i32 x = x.
Proof. intros. apply sx_small; lia. Qed.

Lemma u32_add_u32 a b : u32 (u32 a + b) = u32 (a + b).
Proof. unfold u32. by rewrite Zplus_mod_idemp_l. Qed.

Lemma u32_succ_mod x : u32 (u32 x + 1) = u32 (x + 1).
Proof. unfold u32. rewrite Zplus_mod_idemp_l. done. Qed.

(** ** Alignment *)

Definition aligned (n a : Z) : Prop := a mod n = 0.

#[global] Instance aligned_dec n a : Decision (aligned n a).
Proof. unfold aligned. apply _. Defined.

Lemma aligned_add n a b : 0 < n → aligned n a → aligned n b → aligned n (a + b).
Proof.
  unfold aligned. intros Hn Ha Hb.
  rewrite Z.add_mod, Ha, Hb by lia. simpl. apply Z.mod_0_l. lia.
Qed.

Lemma aligned_mul n k : 0 < n → aligned n (n * k).
Proof. intros. unfold aligned. rewrite Z.mul_comm. apply Z.mod_mul. lia. Qed.

(** Two distinct aligned addresses are at least [n] apart. *)
Lemma aligned_apart n a b :
  0 < n → aligned n a → aligned n b → a ≠ b → a + n <= b ∨ b + n <= a.
Proof.
  unfold aligned. intros Hn Ha Hb Hne.
  apply Z.mod_divide in Ha as [x ->]; [|lia]. apply Z.mod_divide in Hb as [y ->]; [|lia].
  destruct (Z.lt_total x y) as [?|[->|?]]; [left; nia|done|right; nia].
Qed.

(** Clearing the low bits is rounding down: [a & ~(2^k - 1)]. *)
Lemma land_lnot_mask a k : 0 <= k → Z.land a (Z.lnot (Z.ones k)) = a - a mod 2 ^ k.
Proof.
  intros Hk.
  assert (Z.land a (Z.lnot (Z.ones k)) = Z.ldiff a (Z.ones k)) as ->.
  { apply Z.bits_inj'. intros n Hn.
    rewrite Z.land_spec, Z.ldiff_spec, Z.lnot_spec by done. done. }
  rewrite Z.ldiff_ones_r by done. rewrite Z.shiftl_mul_pow2, Z.shiftr_div_pow2 by done.
  pose proof (Z.div_mod a (2 ^ k)). lia.
Qed.

(** ** Characters and C string literals *)

Definition ch (c : Ascii.ascii) : Z := Z.of_nat (Ascii.nat_of_ascii c).
Arguments ch c%_char_scope.

Fixpoint str (s : string) : list Z :=
  match s with
  | EmptyString => []
  | String c s => ch c :: str s
  end.

(** ** Lists of bytes and little-endian integers *)

Definition is_byte (b : Z) : Prop := 0 <= b < 256.

Fixpoint le_enc (n : nat) (v : Z) : list Z :=
  match n with
  | O => []
  | S n => v mod 256 :: le_enc n (v / 256)
  end.

Fixpoint le_dec (l : list Z) : Z :=
  match l with
  | [] => 0
  | b :: l => b + 256 * le_dec l
  end.

Lemma length_le_enc n v : length (le_enc n v) = n.
Proof. revert v. induction n; intros; simpl; [done | by rewrite IHn]. Qed.

Lemma le_enc_bytes n v : Forall is_byte (le_enc n v).
Proof.
  revert v. induction n; intros; simpl; constructor; [|done].
  apply Z.mod_pos_bound. lia.
Qed.

Lemma le_dec_enc n v : le_dec (le_enc n v) = v mod 256 ^ Z.of_nat n.
Proof.
  revert v. induction n; intros v; [by rewrite Z.mod_1_r|].
  cbn [le_enc le_dec]. rewrite IHn.
  rewrite Nat2Z.inj_succ, Z.pow_succ_r by lia.
  rewrite Z.rem_mul_r by lia. done.
Qed.

Lemma le_dec_enc_small n v : 0 <= v < 256 ^ Z.of_nat n → le_dec (le_enc n v) = v.
Proof. intros. rewrite le_dec_enc. by apply Z.mod_small. Qed.

Lemma le_dec_range l : Forall is_byte l → 0 <= le_dec l < 256 ^ Z.of_nat (length l).
Proof.
  induction 1 as [|b l Hb Hl IH]; simpl length; [simpl; lia|].
  rewrite Nat2Z.inj_succ, Z.pow_succ_r by lia. unfold is_byte in Hb. cbn [le_dec]. nia.
Qed.

Lemma le_enc_dec l : Forall is_byte l → le_enc (length l) (le_dec l) = l.
Proof.
  induction 1 as [|b l Hb Hl IH]; [done|]. unfold is_byte in Hb.
  cbn [length le_enc le_dec]. f_equal.
  - rewrite Z.mul_comm, Z.mod_add by lia. apply Z.mod_small. lia.
  - rewrite Z.mul_comm, Z.div_add by lia. rewrite Z.div_small by lia. done.
Qed.

Lemma le_dec_zeros n : le_dec (replicate n 0) = 0.
Proof. induction n; simpl; lia. Qed.

(** Overwriting the bytes of a list from index [n] on: what
    [memmove(buf + n, src, len)] does to an array that is long enough. *)
Definition splice {A} (n : nat) (new : list A) (l : list A) : list A :=
  take n l ++ new ++ drop (n + length new) l.

Lemma length_splice {A} n (new l : list A) :
  (n + length new <= length l)%nat → length (splice n new l) = length l.
Proof. intros. unfold splice. rewrite !length_app, length_take, length_drop. lia. Qed.

Lemma lookup_splice_new {A} n (new l : list A) i :
  (n + length new <= length l)%nat → (n <= i < n + length new)%nat →
  splice n new l !! i = new !! (i - n)%nat.
Proof.
  intros. unfold splice. rewrite lookup_app_r by (rewrite length_take; lia).
  rewrite length_take, Nat.min_l by lia. rewrite lookup_app_l by lia. done.
Qed.

Lemma lookup_splice_old {A} n (new l : list A) i :
  (n + length new <= length l)%nat → (i < n ∨ n + length new <= i)%nat →
  splice n new l !! i = l !! i.
Proof.
  intros Hl [Hi|Hi]; unfold splice.
  - rewrite lookup_app_l by (rewrite length_take; lia). by apply lookup_take_lt.
  - rewrite lookup_app_r by (rewrite length_take; lia).
    rewrite length_take, Nat.min_l by lia. rewrite lookup_app_r by lia.
    rewrite lookup_drop. f_equal. lia.
Qed.

Lemma suffix_incl {A} (l l' : list A) : l' `suffix_of` l → ∀ a, a ∈ l' → a ∈ l.
Proof. intros [k ->] a Ha. apply elem_of_app. by right. Qed.

(** ** Integers inside byte arrays *)

Definition get16 (l : list Z) (off : nat) : Z := le_dec (take 2 (drop off l)).
Definition get32 (l : list Z) (off : nat) : Z := le_dec (take 4 (drop off l)).
Definition set16 (off : nat) (v : Z) (l : list Z) : list Z := splice off (le_enc 2 v) l.
Definition set32 (off : nat) (v : Z) (l : list Z) : list Z := splice off (le_enc 4 v) l.

Lemma take_drop_splice {A} n (new l : list A) :
  (n + length new <= length l)%nat → take (length new) (drop n (splice n new l)) = new.
Proof.
  intros H. unfold splice. rewrite drop_app_length' by (rewrite length_take; lia).
  by rewrite take_app_length.
Qed.

Lemma take_drop_splice_disj {A} n (new l : list A) o k :
  (n + length new <= length l)%nat → (o + k <= n ∨ n + length new <= o)%nat →
  take k (drop o (splice n new l)) = take k (drop o l).
Proof.
  intros Hl Ho. apply list_eq. intros i.
  destruct (decide (i < k)%nat); [|by rewrite !lookup_take_ge by lia].
  rewrite !lookup_take_lt, !lookup_drop by lia. apply lookup_splice_old; [done|lia].
Qed.

Lemma get32_set32 off v l : (off + 4 <= length l)%nat → get32 (set32 off v l) off = u32 v.
Proof.
  intros H. unfold get32, set32. change 4%nat with (length (le_enc 4 v)) at 1.
  rewrite take_drop_splice by done. by rewrite le_dec_enc.
Qed.

Lemma get32_set32_disj off off' v l :
  (off + 4 <= length l)%nat → (off' + 4 <= off ∨ off + 4 <= off')%nat →
  get32 (set32 off v l) off' = get32 l off'.
Proof. intros. unfold get32, set32. by rewrite take_drop_splice_disj. Qed.

Lemma length_set32 off v l : (off + 4 <= length l)%nat → length (set32 off v l) = length l.
Proof. intros. by apply length_splice. Qed.

(** ** Updates of list elements *)

Lemma alter_ext_at {A} (f g : A → A) i (l : list A) :
  (∀ x, l !! i = Some x → f x = g x) → alter f i l = alter g i l.
Proof.
  intros H. apply list_eq. intros j. rewrite !list_lookup_alter. case_decide; [|done].
  destruct (l !! i) as [x|]; [|done]. simpl. f_equal. by apply H.
Qed.

Lemma alter_id_at {A} (f : A → A) i (l : list A) :
  (∀ x, l !! i = Some x → f x = x) → alter f i l = l.
Proof.
  intros H. apply list_eq. intros j. rewrite list_lookup_alter. case_decide as E; [|done].
  subst j. destruct (l !! i) as [x|]; [|done]. simpl. f_equal. by apply H.
Qed.

Lemma alter_alter {A} (f g : A → A) i (l : list A) : alter f i (alter g i l) = alter (λ x, f (g x)) i l.
Proof.
  apply list_eq. intros j. rewrite !list_lookup_alter. case_decide; [|done].
  rewrite decide_True by done. by destruct (l !! i).
Qed.

Lemma alter_insert_same {A} (f : A → A) i x (l : list A) : alter f i (<[i := x]> l) = <[i := f x]> l.
Proof. revert i. induction l as [|y l IH]; intros [|i]; [done|done|done|]. cbn. f_equal. apply IH. Qed.

(** Fields of list elements under an update of one element. *)
Lemma fmap_alter {A B} (f : A → B) (g : A → A) (h : B → B) i (l : list A) :
  (∀ x, f (g x) = h (f x)) → f <$> alter g i l = alter h i (f <$> l).
Proof.
  intros H. apply list_eq. intros j. rewrite list_lookup_alter, !list_lookup_fmap, list_lookup_alter.
  case_decide; [|done]. destruct (l !! i); [|done]. simpl. by rewrite H.
Qed.

Lemma fmap_alter_same {A B} (f : A → B) (g : A → A) i (l : list A) :
  (∀ x, f (g x) = f x) → f <$> alter g i l = f <$> l.
Proof. intros H. rewrite (fmap_alter f g id); [|done]. by apply alter_id_at. Qed.

Lemma lookup_total_alter_field {A} `{!Inhabited A} {B} (f : A → B) (g : A → A) (l : list A) i j :
  (∀ x, f (g x) = f x) → f (alter g i l !!! j) = f (l !!! j).
Proof.
  intros Hf. destruct (decide (j = i)) as [->|?]; [|by rewrite list_lookup_total_alter_ne].
  destruct (decide (i < length l)%nat); [by rewrite list_lookup_total_alter_eq, Hf by done|].
  by rewrite !list_lookup_total_alt, list_lookup_alter_eq, (lookup_ge_None_2 l i) by lia.
Qed.

(** Equality of finite maps built by insertions and deletions, key by key. *)
Ltac map_cases k :=
  apply map_eq; intros k;
  repeat match goal with
  | |- context [<[?i := ?x]> ?m !! ?i] => rewrite (lookup_insert_eq m i x)
  | |- context [delete ?i ?m !! ?i] => rewrite (lookup_delete_eq m i)
  | |- context [<[?i := _]> ?m !! ?j] =>
    destruct (decide (j = i)); [subst|rewrite (lookup_insert_ne m i j) by congruence]
  | |- context [delete ?i ?m !! ?j] =>
    destruct (decide (j = i)); [subst|rewrite (lookup_delete_ne m i j) by congruence]
  end; try congruence.
