(* ===== verification/Memory.v ===== *)
(** * Byte-addressed memory

    Physical memory as the kernel sees it: a total map from addresses to bytes.
    Loads and stores of wider integers are little-endian, as on RISC-V.  The
    lemmas give read-over-write for byte ranges that are equal or disjoint. *)

From S2P Require Import Prelude.

Abbreviation mem := (Z → Z).

Definition upd (m : mem) (a v : Z) : mem := λ x, if x =? a then v else m x.

Lemma upd_eq m a v : upd m a v a = v.
Proof. unfold upd. by rewrite Z.eqb_refl. Qed.

Lemma upd_ne m a v x : x ≠ a → upd m a v x = m x.
Proof. unfold upd. intros. by destruct (Z.eqb_spec x a). Qed.

(** [n] bytes from address [a]. *)
Fixpoint bytes_at (m : mem) (a : Z) (n : nat) : list Z :=
  match n with
  | O => []
  | S n => m a :: bytes_at m (a + 1) n
  end.

(** Store the bytes [l] from address [a] on. *)
Fixpoint st_bytes (m : mem) (a : Z) (l : list Z) : mem :=
  match l with
  | [] => m
  | b :: l => upd (st_bytes m (a + 1) l) a b
  end.

Lemma length_bytes_at m a n : length (bytes_at m a n) = n.
Proof. revert a. induction n; intros; simpl; [done|]. by rewrite IHn. Qed.

Lemma bytes_at_lookup m a n i : (i < n)%nat → bytes_at m a n !! i = Some (m (a + Z.of_nat i)).
Proof.
  revert a i. induction n; intros a i Hi; [lia|]. destruct i; simpl.
  - by rewrite Z.add_0_r.
  - rewrite IHn by lia. do 2 f_equal. lia.
Qed.

Lemma bytes_at_ext m m' a n :
  (∀ x, a <= x < a + Z.of_nat n → m x = m' x) → bytes_at m a n = bytes_at m' a n.
Proof.
  revert a. induction n; intros a H; [done|]. cbn [bytes_at].
  rewrite H by lia. f_equal. apply IHn. intros. apply H. lia.
Qed.

Lemma bytes_at_app m a n k :
  bytes_at m a (n + k) = bytes_at m a n ++ bytes_at m (a + Z.of_nat n) k.
Proof.
  revert a. induction n; intros; simpl; [by rewrite Z.add_0_r|].
  f_equal. rewrite IHn. do 2 f_equal. lia.
Qed.

Lemma st_bytes_out m a l x : x < a ∨ a + Z.of_nat (length l) <= x → st_bytes m a l x = m x.
Proof.
  revert a. induction l; intros a' H; simpl in *; [done|].
  rewrite upd_ne by lia. apply IHl. lia.
Qed.

Lemma st_bytes_in m a l i b : l !! i = Some b → st_bytes m a l (a + Z.of_nat i) = b.
Proof.
  revert a i. induction l as [|c l IH]; intros a i H; [done|]. destruct i; simpl in *.
  - injection H as ->. rewrite Z.add_0_r. apply upd_eq.
  - rewrite upd_ne by lia. replace (a + Z.of_nat (S i)) with (a + 1 + Z.of_nat i) by lia. by apply IH.
Qed.

Lemma bytes_at_st_bytes m a l : bytes_at (st_bytes m a l) a (length l) = l.
Proof.
  apply list_eq. intros i. destruct (decide (i < length l)%nat) as [Hi|Hi].
  - destruct (lookup_lt_is_Some_2 l i Hi) as [b Hb].
    rewrite bytes_at_lookup by done. rewrite Hb. f_equal. by apply st_bytes_in.
  - rewrite !lookup_ge_None_2; [done|lia|]. rewrite length_bytes_at. lia.
Qed.

Lemma bytes_at_st_bytes_disj m a l b n :
  b + Z.of_nat n <= a ∨ a + Z.of_nat (length l) <= b →
  bytes_at (st_bytes m a l) b n = bytes_at m b n.
Proof. intros. apply bytes_at_ext. intros. apply st_bytes_out. lia. Qed.

Lemma bytes_at_is_byte m a n : (∀ x, is_byte (m x)) → Forall is_byte (bytes_at m a n).
Proof. intros H. revert a. induction n; intros; simpl; constructor; auto. Qed.

(** ** 64-bit words *)

Definition ld64 (m : mem) (a : Z) : Z := le_dec (bytes_at m a 8).
Definition sd64 (m : mem) (a v : Z) : mem := st_bytes m a (le_enc 8 v).

Lemma ld64_sd64 m a v : ld64 (sd64 m a v) a = u64 v.
Proof.
  unfold ld64, sd64. change 8%nat with (length (le_enc 8 v)) at 1.
  rewrite bytes_at_st_bytes. rewrite le_dec_enc. done.
Qed.

Lemma ld64_sd64_disj m a v b : b + 8 <= a ∨ a + 8 <= b → ld64 (sd64 m a v) b = ld64 m b.
Proof.
  intros. unfold ld64, sd64. rewrite bytes_at_st_bytes_disj; [done|].
  rewrite length_le_enc. lia.
Qed.

Lemma sd64_out m a v x : x < a ∨ a + 8 <= x → sd64 m a v x = m x.
Proof. intros. apply st_bytes_out. rewrite length_le_enc. lia. Qed.

Lemma ld64_ext m m' a : (∀ x, a <= x < a + 8 → m x = m' x) → ld64 m a = ld64 m' a.
Proof. intros H. unfold ld64. f_equal. apply bytes_at_ext. intros. apply H. lia. Qed.

Lemma ld64_zero m a : (∀ x, a <= x < a + 8 → m x = 0) → ld64 m a = 0.
Proof.
  intros H. rewrite (ld64_ext m (λ _, 0)) by done. reflexivity.
Qed.

(** ** 32-bit words *)

Definition ld32 (m : mem) (a : Z) : Z := le_dec (bytes_at m a 4).
Definition sd32 (m : mem) (a v : Z) : mem := st_bytes m a (le_enc 4 v).

Lemma ld32_sd32 m a v : ld32 (sd32 m a v) a = u32 v.
Proof.
  unfold ld32, sd32. change 4%nat with (length (le_enc 4 v)) at 1.
  rewrite bytes_at_st_bytes. rewrite le_dec_enc. done.
Qed.

Lemma sd32_out m a v x : x < a ∨ a + 4 <= x → sd32 m a v x = m x.
Proof. intros. apply st_bytes_out. rewrite length_le_enc. lia. Qed.

Lemma ld32_ext m m' a : (∀ x, a <= x < a + 4 → m x = m' x) → ld32 m a = ld32 m' a.
Proof. intros H. unfold ld32. f_equal. apply bytes_at_ext. intros. apply H. lia. Qed.

(** The memory outside a range is untouched. *)
Definition same_outside (m m' : mem) (lo hi : Z) : Prop :=
  ∀ x, x < lo ∨ hi <= x → m' x = m x.

#[global] Opaque ld64 sd64 ld32 sd32.
