(* ===== verification/CString.v ===== *)
(** * kernel/string.c

    Every routine of string.c as it is written: pointers are addresses of
    [Memory.mem], [uint] and [int] arguments are kept at their width, and the
    loops are recursions on the number of iterations.  Strings that the kernel
    holds by value (path elements, process names) use the list versions of
    [strncmp], [strncpy] and [safestrcpy], whose lists hold the bytes from the
    pointer on; reading past the end of such a list yields a NUL. *)

From S2P Require Import Prelude Memory.

(** ** memset *)

(** [for(i = 0; i < n; i++) cdst[i] = c;] from iteration [i] on, [k] to go. *)
Fixpoint memset_loop (k : nat) (dst c i : Z) (m : mem) : mem :=
  match k with
  | O => m
  | S k => memset_loop k dst c (i + 1) (upd m (dst + i) (u8 c))
  end.

Definition memset (dst c n : Z) (m : mem) : mem :=
  memset_loop (Z.to_nat (u32 n)) dst c 0 m.

(** ** memmove, memcpy *)

(** [while(n-- > 0) *d++ = *s++;] *)
Fixpoint copy_up (k : nat) (d s : Z) (m : mem) : mem :=
  match k with
  | O => m
  | S k => copy_up k (d + 1) (s + 1) (upd m d (m s))
  end.

(** [while(n-- > 0) *--d = *--s;] *)
Fixpoint copy_down (k : nat) (d s : Z) (m : mem) : mem :=
  match k with
  | O => m
  | S k => copy_down k (d - 1) (s - 1) (upd m (d - 1) (m (s - 1)))
  end.

Definition memmove (dst src n : Z) (m : mem) : mem :=
  let n := u32 n in
  if n =? 0 then m
  else if (src <? dst) && (dst <? src + n)
  then copy_down (Z.to_nat n) (dst + n) (src + n) m
  else copy_up (Z.to_nat n) dst src m.

Definition memcpy (dst src n : Z) (m : mem) : mem := memmove dst src n m.

(** ** memcmp *)

Fixpoint memcmp_loop (k : nat) (s1 s2 : Z) (m : mem) : Z :=
  match k with
  | O => 0
  | S k => if m s1 =? m s2 then memcmp_loop k (s1 + 1) (s2 + 1) m else m s1 - m s2
  end.

Definition memcmp (v1 v2 n : Z) (m : mem) : Z := memcmp_loop (Z.to_nat (u32 n)) v1 v2 m.

(** ** strncmp, strncpy, safestrcpy, strlen on byte lists *)

Definition byte0 (l : list Z) : Z := hd 0 l.

Fixpoint strncmp_loop (n : nat) (p q : list Z) : Z :=
  match n with
  | O => 0
  | S n => if negb (byte0 p =? 0) && (byte0 p =? byte0 q)
           then strncmp_loop n (tl p) (tl q)
           else byte0 p - byte0 q
  end.

Definition strncmp (p q : list Z) (n : Z) : Z := strncmp_loop (Z.to_nat (u32 n)) p q.

(** [while(n-- > 0 && ( *s++ = *t++ ) != 0);] then [while(n-- > 0) *s++ = 0;]:
    the [n] bytes written from [s] on. *)
Fixpoint strncpy_loop (n : nat) (t : list Z) : list Z :=
  match n with
  | O => []
  | S n => if byte0 t =? 0 then 0 :: replicate n 0 else byte0 t :: strncpy_loop n (tl t)
  end.

Definition strncpy (s t : list Z) (n : Z) : list Z :=
  splice 0 (strncpy_loop (Z.to_nat n) t) s.

(** [while(--n > 0 && ( *s++ = *t++ ) != 0); *s = 0;]: when the loop stops on
    the NUL it has copied, the final store hits the following byte. *)
Fixpoint safestrcpy_loop (n : nat) (t : list Z) : list Z :=
  match n with
  | O => [0]
  | S n => if byte0 t =? 0 then [0; 0] else byte0 t :: safestrcpy_loop n (tl t)
  end.

Definition safestrcpy (s t : list Z) (n : Z) : list Z :=
  if n <=? 0 then s else splice 0 (safestrcpy_loop (Z.to_nat (n - 1)) t) s.

Fixpoint strlen (s : list Z) : Z :=
  match s with
  | [] => 0
  | b :: s => if b =? 0 then 0 else 1 + strlen s
  end.

(** The characters of the C string in a buffer: the bytes before the first NUL. *)
Fixpoint cstr (s : list Z) : list Z :=
  match s with
  | [] => []
  | b :: s => if b =? 0 then [] else b :: cstr s
  end.

(** ** Theorems *)

Lemma memset_loop_spec k dst c i m x :
  memset_loop k dst c i m x =
  if (dst + i <=? x) && (x <? dst + i + Z.of_nat k) then u8 c else m x.
Proof.
  revert i m. induction k; intros i m; cbn [memset_loop].
  - destruct (Z.leb_spec (dst + i) x), (Z.ltb_spec x (dst + i + Z.of_nat 0)); done || lia.
  - rewrite IHk. unfold upd.
    destruct (Z.leb_spec (dst + (i + 1)) x), (Z.ltb_spec x (dst + (i + 1) + Z.of_nat k)),
      (Z.leb_spec (dst + i) x), (Z.ltb_spec x (dst + i + Z.of_nat (S k))),
      (Z.eqb_spec x (dst + i)); simpl; done || lia.
Qed.

Lemma memset_spec dst c n m x :
  0 <= n < 2 ^ 32 →
  memset dst c n m x = if (dst <=? x) && (x <? dst + n) then u8 c else m x.
Proof.
  intros Hn. unfold memset. rewrite memset_loop_spec, Z.add_0_r, u32_small by done.
  by rewrite Z2Nat.id by lia.
Qed.

Lemma copy_up_spec k d s m x :
  ¬ (s < d < s + Z.of_nat k) →
  copy_up k d s m x = if (d <=? x) && (x <? d + Z.of_nat k) then m (s + (x - d)) else m x.
Proof.
  revert d s m. induction k; intros d s m Hov; cbn [copy_up].
  - destruct (Z.leb_spec d x), (Z.ltb_spec x (d + Z.of_nat 0)); done || lia.
  - rewrite IHk by lia. unfold upd.
    destruct (Z.leb_spec (d + 1) x), (Z.ltb_spec x (d + 1 + Z.of_nat k)),
      (Z.leb_spec d x), (Z.ltb_spec x (d + Z.of_nat (S k))); simpl; try lia.
    + destruct (Z.eqb_spec (s + 1 + (x - (d + 1))) d).
      * assert (s = d) by lia. assert (x = d) by lia. lia.
      * f_equal. lia.
    + destruct (Z.eqb_spec x d); [lia|done].
    + destruct (Z.eqb_spec x d); [|lia]. f_equal. lia.
    + destruct (Z.eqb_spec x d); [lia|done].
Qed.

Lemma copy_down_spec k d s m x :
  ¬ (d < s < d + Z.of_nat k) →
  copy_down k d s m x =
  if (d - Z.of_nat k <=? x) && (x <? d) then m (s + (x - d)) else m x.
Proof.
  revert d s m. induction k; intros d s m Hov; cbn [copy_down].
  - destruct (Z.leb_spec (d - Z.of_nat 0) x), (Z.ltb_spec x d); done || lia.
  - rewrite IHk by lia. unfold upd.
    destruct (Z.leb_spec (d - 1 - Z.of_nat k) x), (Z.ltb_spec x (d - 1)),
      (Z.leb_spec (d - Z.of_nat (S k)) x), (Z.ltb_spec x d); simpl; try lia.
    + destruct (Z.eqb_spec (s - 1 + (x - (d - 1))) (d - 1)).
      * lia.
      * f_equal. lia.
    + destruct (Z.eqb_spec x (d - 1)); [|lia]. f_equal. lia.
    + destruct (Z.eqb_spec x (d - 1)); [lia|done].
    + destruct (Z.eqb_spec x (d - 1)); [lia|done].
Qed.

(** [memmove] is correct for every overlap of source and destination: each
    of the [n] destination bytes receives the byte its source address held
    before the call, and no other byte changes. *)
Theorem memmove_correct (dst src n : Z) (m : mem) (x : Z) :
  0 <= n < 2 ^ 32 →
  memmove dst src n m x = if (dst <=? x) && (x <? dst + n) then m (src + (x - dst)) else m x.
Proof.
  intros Hn. unfold memmove. rewrite u32_small by done.
  destruct (Z.eqb_spec n 0) as [->|Hn0].
  { destruct (Z.leb_spec dst x), (Z.ltb_spec x (dst + 0)); done || lia. }
  destruct (Z.ltb_spec src dst), (Z.ltb_spec dst (src + n)); simpl.
  - rewrite copy_down_spec by lia. rewrite Z2Nat.id by lia.
    replace (dst + n - n) with dst by lia.
    replace (src + n + (x - (dst + n))) with (src + (x - dst)) by lia. done.
  - rewrite copy_up_spec by lia. by rewrite Z2Nat.id by lia.
  - rewrite copy_up_spec by lia. by rewrite Z2Nat.id by lia.
  - rewrite copy_up_spec by lia. by rewrite Z2Nat.id by lia.
Qed.

(** Overlap in both directions on a six byte memory. *)
Lemma memmove_correct_witness :
  memmove 2 0 4 (λ a, a) 5 = 3 ∧ memmove 0 2 4 (λ a, a) 3 = 5.
Proof.
  split.
  - rewrite (memmove_correct 2 0 4 (λ a, a) 5) by lia. reflexivity.
  - rewrite (memmove_correct 0 2 4 (λ a, a) 3) by lia. reflexivity.
Defined.

Lemma memcmp_loop_zero k s1 s2 m :
  memcmp_loop k s1 s2 m = 0 ↔ bytes_at m s1 k = bytes_at m s2 k.
Proof.
  revert s1 s2. induction k; intros; simpl; [done|].
  destruct (Z.eqb_spec (m s1) (m s2)) as [E|E].
  - rewrite E, IHk. split; [by intros -> | by intros [= ?]].
  - split; [lia | by intros [= ?]].
Qed.

Lemma cstr_nonzero s : Forall (λ b, b ≠ 0) (cstr s).
Proof. induction s as [|b s IH]; simpl; [constructor|]. destruct (Z.eqb_spec b 0); by constructor. Qed.

Lemma strlen_cstr s : strlen s = Z.of_nat (length (cstr s)).
Proof.
  induction s as [|b s IH]; simpl; [done|]. destruct (b =? 0); simpl; [done|]. rewrite IH. lia.
Qed.

Lemma strncmp_loop_zero n p q :
  strncmp_loop n p q = 0 ↔ cstr (take n p) = cstr (take n q).
Proof.
  revert p q. induction n; intros p q; simpl; [done|].
  destruct p as [|a p], q as [|b q]; simpl.
  - done.
  - destruct (Z.eqb_spec b 0) as [->|]; simpl; [done|]. split; [lia|done].
  - destruct (Z.eqb_spec a 0) as [->|]; simpl; [done|].
    destruct (Z.eqb_spec a 0); simpl; [done|]. split; [lia|done].
  - destruct (Z.eqb_spec a 0) as [->|Ha]; simpl.
    + destruct (Z.eqb_spec b 0) as [->|]; [done|]. split; [lia|done].
    + destruct (Z.eqb_spec a b) as [->|Hab]; simpl.
      * rewrite IHn. destruct (Z.eqb_spec b 0); [done|].
        split; [by intros -> | by intros [= ?]].
      * split; [lia|]. destruct (Z.eqb_spec b 0); [done|]. by intros [= ??].
Qed.

(** [strncmp] returns 0 exactly when the two strings agree on their first [n]
    bytes up to the terminating NUL. *)
Lemma strncmp_zero p q n :
  0 <= n < 2 ^ 32 →
  strncmp p q n = 0 ↔ cstr (take (Z.to_nat n) p) = cstr (take (Z.to_nat n) q).
Proof. intros. unfold strncmp. rewrite u32_small by done. apply strncmp_loop_zero. Qed.

Lemma length_strncpy_loop n t : length (strncpy_loop n t) = n.
Proof.
  revert t. induction n; intros; simpl; [done|].
  destruct (byte0 t =? 0); simpl; [by rewrite length_replicate | by rewrite IHn].
Qed.

Lemma strncpy_loop_spec n t : strncpy_loop n t = take n (cstr t ++ replicate n 0).
Proof.
  revert t. induction n as [|n IH]; intros t; simpl; [done|].
  destruct t as [|b t]; simpl.
  - by rewrite take_replicate, Nat.min_id.
  - destruct (Z.eqb_spec b 0) as [->|]; simpl.
    + by rewrite take_replicate, Nat.min_id.
    + f_equal. rewrite IH. clear. generalize (cstr t). intros l.
      destruct (decide (n <= length l)%nat).
      * by rewrite !take_app_le by lia.
      * rewrite !take_app_ge by lia. f_equal. change (0 :: replicate n 0) with (replicate (S n) 0).
        rewrite !take_replicate. f_equal. lia.
Qed.

Lemma safestrcpy_loop_length n t : (1 <= length (safestrcpy_loop n t) <= S n)%nat.
Proof.
  revert t. induction n; intros t; simpl; [lia|]. destruct (byte0 t =? 0); simpl; [lia|].
  specialize (IHn (tl t)). lia.
Qed.

Lemma safestrcpy_loop_cstr n t r : cstr (safestrcpy_loop n t ++ r) = take n (cstr t).
Proof.
  revert t. induction n as [|n IH]; intros t; simpl; [done|].
  destruct t as [|b t]; simpl; [done|].
  destruct (Z.eqb_spec b 0) as [->|Hb]; simpl; [done|].
  destruct (Z.eqb_spec b 0); [done|]. f_equal. apply IH.
Qed.

(** [safestrcpy(s, t, n)] always leaves a NUL-terminated string in the
    [n]-byte buffer [s]: the string is the longest prefix of [t] of at most
    [n - 1] characters, and bytes at index [n] and beyond are not written. *)
Theorem safestrcpy_correct (s t : list Z) (n : Z) :
  0 < n <= Z.of_nat (length s) →
  cstr (safestrcpy s t n) = take (Z.to_nat (n - 1)) (cstr t)
  ∧ (length (cstr (safestrcpy s t n)) < Z.to_nat n)%nat
  ∧ length (safestrcpy s t n) = length s
  ∧ ∀ i, (Z.to_nat n <= i)%nat → safestrcpy s t n !! i = s !! i.
Proof.
  intros Hn. unfold safestrcpy. destruct (Z.leb_spec n 0); [lia|].
  pose proof (safestrcpy_loop_length (Z.to_nat (n - 1)) t) as Hl.
  assert (cstr (splice 0 (safestrcpy_loop (Z.to_nat (n - 1)) t) s)
          = take (Z.to_nat (n - 1)) (cstr t)) as E.
  { unfold splice. rewrite take_0. apply safestrcpy_loop_cstr. }
  rewrite E, length_splice by lia. repeat split.
  - rewrite length_take. lia.
  - intros i Hi. apply lookup_splice_old; lia.
Qed.

Lemma safestrcpy_correct_witness :
  cstr (safestrcpy (replicate 4 7) (str "initcode") 4) = str "ini".
Proof.
  destruct (safestrcpy_correct (replicate 4 7) (str "initcode") 4) as [-> _]; [simpl; lia|].
  reflexivity.
Defined.

(** Clients use the specifications above. *)
#[global] Opaque memset memmove.
