(* ===== verification/Kernel.v ===== *)
(** * Kernel state and kernel threads

    The constants of param.h, memlayout.h, fs.h and riscv.h, the structs of the
    kernel's header files, the kernel's global variables as one record
    [kstate], and the monad [K] of one kernel thread.

    A kernel thread runs on [world]: the shared kernel state [ks], the spinlocks
    it holds ([held]), its process ([me], what [myproc()] returns), and a
    schedule [env].  Each entry of [env] is what the rest of the system does to
    the shared state while this thread is switched out once: [swtch] consumes
    one entry, and a thread whose schedule is exhausted is [Blocked].  Between
    two switches a thread is not interfered with on the data its spinlocks
    protect (Spinlock.v proves mutual exclusion of the locks themselves).

    C [panic] is the outcome [Panic]; a loop that exceeds the fuel its
    definition gives it is the outcome [Diverge]. *)

From S2P Require Import Prelude Memory.

(** ** Constants *)

(** param.h *)
Definition NPROC : Z := 64.
Definition NCPU : Z := 8.
Definition NOFILE : Z := 16.
Definition NFILE : Z := 100.
Definition NINODE : Z := 50.
Definition NDEV : Z := 10.
Definition ROOTDEV : Z := 1.
Definition MAXARG : Z := 32.
Definition MAXOPBLOCKS : Z := 10.
Definition LOGSIZE : Z := MAXOPBLOCKS * 3.
Definition NBUF : Z := MAXOPBLOCKS * 3.
Definition FSSIZE : Z := 2000.
Definition MAXPATH : Z := 128.

(** riscv.h *)
Definition PGSIZE : Z := 4096.
Definition PGROUNDUP (sz : Z) : Z := Z.land (u64 (sz + PGSIZE - 1)) (Z.lnot (PGSIZE - 1)).
Definition PGROUNDDOWN (a : Z) : Z := Z.land a (Z.lnot (PGSIZE - 1)).
Definition PTE_V : Z := Z.shiftl 1 0.
Definition PTE_R : Z := Z.shiftl 1 1.
Definition PTE_W : Z := Z.shiftl 1 2.
Definition PTE_X : Z := Z.shiftl 1 3.
Definition PTE_U : Z := Z.shiftl 1 4.
Definition PA2PTE (pa : Z) : Z := u64 (Z.shiftl (Z.shiftr pa 12) 10).
Definition PTE2PA (pte : Z) : Z := u64 (Z.shiftl (Z.shiftr pte 10) 12).
Definition PTE_FLAGS (pte : Z) : Z := Z.land pte 0x3FF.
Definition PXSHIFT (level : Z) : Z := 12 + 9 * level.
Definition PX (level va : Z) : Z := Z.land (Z.shiftr va (PXSHIFT level)) 0x1FF.
Definition MAXVA : Z := Z.shiftl 1 (9 + 9 + 9 + 12 - 1).

(** memlayout.h *)
Definition KERNBASE : Z := 0x80000000.
Definition PHYSTOP : Z := KERNBASE + 128 * 1024 * 1024.
Definition TRAMPOLINE : Z := MAXVA - PGSIZE.
Definition KSTACK (p : Z) : Z := TRAMPOLINE - (p + 1) * 2 * PGSIZE.
Definition TRAPFRAME : Z := TRAMPOLINE - PGSIZE.

(** fs.h, stat.h, fcntl.h, file.h *)
Definition ROOTINO : Z := 1.
Definition BSIZE : Z := 1024.
Definition FSMAGIC : Z := 0x10203040.
Definition NDIRECT : Z := 12.
Definition NINDIRECT : Z := BSIZE / 4.
Definition MAXFILE : Z := NDIRECT + NINDIRECT.
Definition DIRSIZ : Z := 14.
Definition T_DIR : Z := 1.
Definition T_FILE : Z := 2.
Definition T_DEVICE : Z := 3.
Definition O_RDONLY : Z := 0x000.
Definition O_WRONLY : Z := 0x001.
Definition O_RDWR : Z := 0x002.
Definition O_CREATE : Z := 0x200.
Definition O_TRUNC : Z := 0x400.
Definition CONSOLE : Z := 1.
Definition PIPESIZE : Z := 512.
Definition INPUT_BUF_SIZE : Z := 128.
Definition UART_TX_BUF_SIZE : Z := 32.

(** ** Page rounding *)

Lemma PGROUNDDOWN_eq a : PGROUNDDOWN a = a - a mod PGSIZE.
Proof. unfold PGROUNDDOWN. change (PGSIZE - 1) with (Z.ones 12). by rewrite land_lnot_mask. Qed.

Lemma PGROUNDDOWN_spec a : aligned PGSIZE (PGROUNDDOWN a) ∧ PGROUNDDOWN a <= a < PGROUNDDOWN a + PGSIZE.
Proof.
  rewrite PGROUNDDOWN_eq. pose proof (Z.mod_pos_bound a PGSIZE ltac:(done)).
  split; [|lia]. unfold aligned. by rewrite Zminus_mod_idemp_r, Z.sub_diag.
Qed.

Lemma PGROUNDUP_spec a :
  0 <= a < 2 ^ 64 - PGSIZE →
  aligned PGSIZE (PGROUNDUP a) ∧ a <= PGROUNDUP a < a + PGSIZE.
Proof.
  intros Ha. unfold PGROUNDUP. rewrite u64_small by (unfold PGSIZE in *; lia).
  change (PGSIZE - 1) with (Z.ones 12). rewrite land_lnot_mask by lia. change (2 ^ 12) with PGSIZE.
  pose proof (Z.mod_pos_bound (a + PGSIZE - 1) PGSIZE ltac:(done)).
  split; [|unfold PGSIZE in *; lia]. unfold aligned. by rewrite Zminus_mod_idemp_r, Z.sub_diag.
Qed.

(** ** Identities of locks and sleep channels

    Locks and channels are addresses in C; here each address the kernel uses is
    a constructor, so that distinct objects have distinct identities. *)

(** A sleep-lock is embedded in a buffer or in an inode. *)
Inductive slid := SLBuf (i : nat) | SLInode (i : nat).

Inductive lockid :=
| LKmem | LPid | LWait | LProc (i : nat) | LBcache | LLog | LItable | LFtable
| LPipe (a : Z) | LCons | LUart | LTicks | LVdisk | LPr | LSleep (s : slid).

Inductive chan :=
| ChNull | ChProc (i : nat) | ChLog | ChPipeR (a : Z) | ChPipeW (a : Z) | ChTicks
| ChBuf (i : nat) | ChCons | ChUart | ChVdisk | ChSleep (s : slid).

#[global] Instance slid_eq_dec : EqDecision slid.
Proof. solve_decision. Defined.
#[global] Instance lockid_eq_dec : EqDecision lockid.
Proof. solve_decision. Defined.
#[global] Instance chan_eq_dec : EqDecision chan.
Proof. solve_decision. Defined.

Definition lockid_code (l : lockid) : nat * Z :=
  match l with
  | LKmem => (0%nat, 0) | LPid => (1%nat, 0) | LWait => (2%nat, 0)
  | LProc i => (3%nat, Z.of_nat i) | LBcache => (4%nat, 0) | LLog => (5%nat, 0)
  | LItable => (6%nat, 0) | LFtable => (7%nat, 0) | LPipe a => (8%nat, a)
  | LCons => (9%nat, 0) | LUart => (10%nat, 0) | LTicks => (11%nat, 0)
  | LVdisk => (12%nat, 0) | LPr => (13%nat, 0)
  | LSleep (SLBuf i) => (14%nat, Z.of_nat i) | LSleep (SLInode i) => (15%nat, Z.of_nat i)
  end.

Definition lockid_decode (c : nat * Z) : option lockid :=
  match c with
  | (0%nat, _) => Some LKmem | (1%nat, _) => Some LPid | (2%nat, _) => Some LWait
  | (3%nat, a) => Some (LProc (Z.to_nat a)) | (4%nat, _) => Some LBcache
  | (5%nat, _) => Some LLog | (6%nat, _) => Some LItable | (7%nat, _) => Some LFtable
  | (8%nat, a) => Some (LPipe a) | (9%nat, _) => Some LCons | (10%nat, _) => Some LUart
  | (11%nat, _) => Some LTicks | (12%nat, _) => Some LVdisk | (13%nat, _) => Some LPr
  | (14%nat, a) => Some (LSleep (SLBuf (Z.to_nat a)))
  | (15%nat, a) => Some (LSleep (SLInode (Z.to_nat a)))
  | _ => None
  end.

#[global] Instance lockid_countable : Countable lockid.
Proof.
  apply (inj_countable lockid_code lockid_decode).
  intros []; simpl; rewrite ?Nat2Z.id; try done.
  destruct s; simpl; by rewrite Nat2Z.id.
Defined.

(** ** Structs *)

(** sleeplock.h; the inner spinlock is [LSleep] of its identity. *)
Record sleeplock := MkSleeplock {
  sl_locked : Z;
  sl_pid : Z
}.
#[global] Instance set_sl_locked : Setter sl_locked :=
  λ g r, MkSleeplock (g (sl_locked r)) (sl_pid r).
#[global] Instance set_sl_pid : Setter sl_pid :=
  λ g r, MkSleeplock (sl_locked r) (g (sl_pid r)).

Inductive procstate := UNUSED | USED | SLEEPING | RUNNABLE | RUNNING | ZOMBIE.
#[global] Instance procstate_eq_dec : EqDecision procstate.
Proof. solve_decision. Defined.

(** proc.h: saved registers for kernel context switches. *)
Record context := MkContext {
  c_ra : Z;
  c_sp : Z;
  c_s0 : Z;
  c_s1 : Z;
  c_s2 : Z;
  c_s3 : Z;
  c_s4 : Z;
  c_s5 : Z;
  c_s6 : Z;
  c_s7 : Z;
  c_s8 : Z;
  c_s9 : Z;
  c_s10 : Z;
  c_s11 : Z
}.
#[global] Instance set_c_ra : Setter c_ra :=
  λ g r, MkContext (g (c_ra r)) (c_sp r) (c_s0 r) (c_s1 r) (c_s2 r) (c_s3 r) (c_s4 r) (c_s5 r) (c_s6 r) (c_s7 r) (c_s8 r) (c_s9 r) (c_s10 r) (c_s11 r).
#[global] Instance set_c_sp : Setter c_sp :=
  λ g r, MkContext (c_ra r) (g (c_sp r)) (c_s0 r) (c_s1 r) (c_s2 r) (c_s3 r) (c_s4 r) (c_s5 r) (c_s6 r) (c_s7 r) (c_s8 r) (c_s9 r) (c_s10 r) (c_s11 r).

(** proc.h: user registers saved by the trampoline. *)
Record trapframe := MkTrapframe {
  tf_kernel_satp : Z;
  tf_kernel_sp : Z;
  tf_kernel_trap : Z;
  tf_epc : Z;
  tf_kernel_hartid : Z;
  tf_ra : Z;
  tf_sp : Z;
  tf_gp : Z;
  tf_tp : Z;
  tf_t0 : Z;
  tf_t1 : Z;
  tf_t2 : Z;
  tf_s0 : Z;
  tf_s1 : Z;
  tf_a0 : Z;
  tf_a1 : Z;
  tf_a2 : Z;
  tf_a3 : Z;
  tf_a4 : Z;
  tf_a5 : Z;
  tf_a6 : Z;
  tf_a7 : Z;
  tf_s2 : Z;
  tf_s3 : Z;
  tf_s4 : Z;
  tf_s5 : Z;
  tf_s6 : Z;
  tf_s7 : Z;
  tf_s8 : Z;
  tf_s9 : Z;
  tf_s10 : Z;
  tf_s11 : Z;
  tf_t3 : Z;
  tf_t4 : Z;
  tf_t5 : Z;
  tf_t6 : Z
}.
#[global] Instance set_tf_kernel_satp : Setter tf_kernel_satp :=
  λ g r, MkTrapframe (g (tf_kernel_satp r)) (tf_kernel_sp r) (tf_kernel_trap r) (tf_epc r) (tf_kernel_hartid r) (tf_ra r) (tf_sp r) (tf_gp r) (tf_tp r) (tf_t0 r) (tf_t1 r) (tf_t2 r) (tf_s0 r) (tf_s1 r) (tf_a0 r) (tf_a1 r) (tf_a2 r) (tf_a3 r) (tf_a4 r) (tf_a5 r) (tf_a6 r) (tf_a7 r) (tf_s2 r) (tf_s3 r) (tf_s4 r) (tf_s5 r) (tf_s6 r) (tf_s7 r) (tf_s8 r) (tf_s9 r) (tf_s10 r) (tf_s11 r) (tf_t3 r) (tf_t4 r) (tf_t5 r) (tf_t6 r).
#[global] Instance set_tf_kernel_sp : Setter tf_kernel_sp :=
  λ g r, MkTrapframe (tf_kernel_satp r) (g (tf_kernel_sp r)) (tf_kernel_trap r) (tf_epc r) (tf_kernel_hartid r) (tf_ra r) (tf_sp r) (tf_gp r) (tf_tp r) (tf_t0 r) (tf_t1 r) (tf_t2 r) (tf_s0 r) (tf_s1 r) (tf_a0 r) (tf_a1 r) (tf_a2 r) (tf_a3 r) (tf_a4 r) (tf_a5 r) (tf_a6 r) (tf_a7 r) (tf_s2 r) (tf_s3 r) (tf_s4 r) (tf_s5 r) (tf_s6 r) (tf_s7 r) (tf_s8 r) (tf_s9 r) (tf_s10 r) (tf_s11 r) (tf_t3 r) (tf_t4 r) (tf_t5 r) (tf_t6 r).
#[global] Instance set_tf_kernel_trap : Setter tf_kernel_trap :=
  λ g r, MkTrapframe (tf_kernel_satp r) (tf_kernel_sp r) (g (tf_kernel_trap r)) (tf_epc r) (tf_kernel_hartid r) (tf_ra r) (tf_sp r) (tf_gp r) (tf_tp r) (tf_t0 r) (tf_t1 r) (tf_t2 r) (tf_s0 r) (tf_s1 r) (tf_a0 r) (tf_a1 r) (tf_a2 r) (tf_a3 r) (tf_a4 r) (tf_a5 r) (tf_a6 r) (tf_a7 r) (tf_s2 r) (tf_s3 r) (tf_s4 r) (tf_s5 r) (tf_s6 r) (tf_s7 r) (tf_s8 r) (tf_s9 r) (tf_s10 r) (tf_s11 r) (tf_t3 r) (tf_t4 r) (tf_t5 r) (tf_t6 r).
#[global] Instance set_tf_epc : Setter tf_epc :=
  λ g r, MkTrapframe (tf_kernel_satp r) (tf_kernel_sp r) (tf_kernel_trap r) (g (tf_epc r)) (tf_kernel_hartid r) (tf_ra r) (tf_sp r) (tf_gp r) (tf_tp r) (tf_t0 r) (tf_t1 r) (tf_t2 r) (tf_s0 r) (tf_s1 r) (tf_a0 r) (tf_a1 r) (tf_a2 r) (tf_a3 r) (tf_a4 r) (tf_a5 r) (tf_a6 r) (tf_a7 r) (tf_s2 r) (tf_s3 r) (tf_s4 r) (tf_s5 r) (tf_s6 r) (tf_s7 r) (tf_s8 r) (tf_s9 r) (tf_s10 r) (tf_s11 r) (tf_t3 r) (tf_t4 r) (tf_t5 r) (tf_t6 r).
#[global] Instance set_tf_kernel_hartid : Setter tf_kernel_hartid :=
  λ g r, MkTrapframe (tf_kernel_satp r) (tf_kernel_sp r) (tf_kernel_trap r) (tf_epc r) (g (tf_kernel_hartid r)) (tf_ra r) (tf_sp r) (tf_gp r) (tf_tp r) (tf_t0 r) (tf_t1 r) (tf_t2 r) (tf_s0 r) (tf_s1 r) (tf_a0 r) (tf_a1 r) (tf_a2 r) (tf_a3 r) (tf_a4 r) (tf_a5 r) (tf_a6 r) (tf_a7 r) (tf_s2 r) (tf_s3 r) (tf_s4 r) (tf_s5 r) (tf_s6 r) (tf_s7 r) (tf_s8 r) (tf_s9 r) (tf_s10 r) (tf_s11 r) (tf_t3 r) (tf_t4 r) (tf_t5 r) (tf_t6 r).
#[global] Instance set_tf_sp : Setter tf_sp :=
  λ g r, MkTrapframe (tf_kernel_satp r) (tf_kernel_sp r) (tf_kernel_trap r) (tf_epc r) (tf_kernel_hartid r) (tf_ra r) (g (tf_sp r)) (tf_gp r) (tf_tp r) (tf_t0 r) (tf_t1 r) (tf_t2 r) (tf_s0 r) (tf_s1 r) (tf_a0 r) (tf_a1 r) (tf_a2 r) (tf_a3 r) (tf_a4 r) (tf_a5 r) (tf_a6 r) (tf_a7 r) (tf_s2 r) (tf_s3 r) (tf_s4 r) (tf_s5 r) (tf_s6 r) (tf_s7 r) (tf_s8 r) (tf_s9 r) (tf_s10 r) (tf_s11 r) (tf_t3 r) (tf_t4 r) (tf_t5 r) (tf_t6 r).
#[global] Instance set_tf_a0 : Setter tf_a0 :=
  λ g r, MkTrapframe (tf_kernel_satp r) (tf_kernel_sp r) (tf_kernel_trap r) (tf_epc r) (tf_kernel_hartid r) (tf_ra r) (tf_sp r) (tf_gp r) (tf_tp r) (tf_t0 r) (tf_t1 r) (tf_t2 r) (tf_s0 r) (tf_s1 r) (g (tf_a0 r)) (tf_a1 r) (tf_a2 r) (tf_a3 r) (tf_a4 r) (tf_a5 r) (tf_a6 r) (tf_a7 r) (tf_s2 r) (tf_s3 r) (tf_s4 r) (tf_s5 r) (tf_s6 r) (tf_s7 r) (tf_s8 r) (tf_s9 r) (tf_s10 r) (tf_s11 r) (tf_t3 r) (tf_t4 r) (tf_t5 r) (tf_t6 r).
#[global] Instance set_tf_a1 : Setter tf_a1 :=
  λ g r, MkTrapframe (tf_kernel_satp r) (tf_kernel_sp r) (tf_kernel_trap r) (tf_epc r) (tf_kernel_hartid r) (tf_ra r) (tf_sp r) (tf_gp r) (tf_tp r) (tf_t0 r) (tf_t1 r) (tf_t2 r) (tf_s0 r) (tf_s1 r) (tf_a0 r) (g (tf_a1 r)) (tf_a2 r) (tf_a3 r) (tf_a4 r) (tf_a5 r) (tf_a6 r) (tf_a7 r) (tf_s2 r) (tf_s3 r) (tf_s4 r) (tf_s5 r) (tf_s6 r) (tf_s7 r) (tf_s8 r) (tf_s9 r) (tf_s10 r) (tf_s11 r) (tf_t3 r) (tf_t4 r) (tf_t5 r) (tf_t6 r).

Definition zero_context : context := MkContext 0 0 0 0 0 0 0 0 0 0 0 0 0 0.
Definition zero_trapframe : trapframe := MkTrapframe 0 0 0 0 0 0 0 0 0 0 0 0 0 0 0 0 0 0 0 0 0 0 0 0 0 0 0 0 0 0 0 0 0 0 0 0.

(** proc.h: per-process state.  [p_parent] is an index of the process table,
    [p_ofile] holds indices of the file table, [p_cwd] of the inode table;
    [p_pagetable] and [p_trapframe] are physical addresses, 0 being NULL. *)
Record proc := MkProc {
  p_state : procstate;
  p_chan : chan;
  p_killed : Z;
  p_xstate : Z;
  p_pid : Z;
  p_parent : option nat;
  p_kstack : Z;
  p_sz : Z;
  p_pagetable : Z;
  p_trapframe : Z;
  p_context : context;
  p_ofile : list (option nat);
  p_cwd : option nat;
  p_name : list Z;
  p_trace_mask : Z
}.
#[global] Instance set_p_state : Setter p_state :=
  λ g r, MkProc (g (p_state r)) (p_chan r) (p_killed r) (p_xstate r) (p_pid r) (p_parent r) (p_kstack r) (p_sz r) (p_pagetable r) (p_trapframe r) (p_context r) (p_ofile r) (p_cwd r) (p_name r) (p_trace_mask r).
#[global] Instance set_p_chan : Setter p_chan :=
  λ g r, MkProc (p_state r) (g (p_chan r)) (p_killed r) (p_xstate r) (p_pid r) (p_parent r) (p_kstack r) (p_sz r) (p_pagetable r) (p_trapframe r) (p_context r) (p_ofile r) (p_cwd r) (p_name r) (p_trace_mask r).
#[global] Instance set_p_killed : Setter p_killed :=
  λ g r, MkProc (p_state r) (p_chan r) (g (p_killed r)) (p_xstate r) (p_pid r) (p_parent r) (p_kstack r) (p_sz r) (p_pagetable r) (p_trapframe r) (p_context r) (p_ofile r) (p_cwd r) (p_name r) (p_trace_mask r).
#[global] Instance set_p_xstate : Setter p_xstate :=
  λ g r, MkProc (p_state r) (p_chan r) (p_killed r) (g (p_xstate r)) (p_pid r) (p_parent r) (p_kstack r) (p_sz r) (p_pagetable r) (p_trapframe r) (p_context r) (p_ofile r) (p_cwd r) (p_name r) (p_trace_mask r).
#[global] Instance set_p_pid : Setter p_pid :=
  λ g r, MkProc (p_state r) (p_chan r) (p_killed r) (p_xstate r) (g (p_pid r)) (p_parent r) (p_kstack r) (p_sz r) (p_pagetable r) (p_trapframe r) (p_context r) (p_ofile r) (p_cwd r) (p_name r) (p_trace_mask r).
#[global] Instance set_p_parent : Setter p_parent :=
  λ g r, MkProc (p_state r) (p_chan r) (p_killed r) (p_xstate r) (p_pid r) (g (p_parent r)) (p_kstack r) (p_sz r) (p_pagetable r) (p_trapframe r) (p_context r) (p_ofile r) (p_cwd r) (p_name r) (p_trace_mask r).
#[global] Instance set_p_kstack : Setter p_kstack :=
  λ g r, MkProc (p_state r) (p_chan r) (p_killed r) (p_xstate r) (p_pid r) (p_parent r) (g (p_kstack r)) (p_sz r) (p_pagetable r) (p_trapframe r) (p_context r) (p_ofile r) (p_cwd r) (p_name r) (p_trace_mask r).
#[global] Instance set_p_sz : Setter p_sz :=
  λ g r, MkProc (p_state r) (p_chan r) (p_killed r) (p_xstate r) (p_pid r) (p_parent r) (p_kstack r) (g (p_sz r)) (p_pagetable r) (p_trapframe r) (p_context r) (p_ofile r) (p_cwd r) (p_name r) (p_trace_mask r).
#[global] Instance set_p_pagetable : Setter p_pagetable :=
  λ g r, MkProc (p_state r) (p_chan r) (p_killed r) (p_xstate r) (p_pid r) (p_parent r) (p_kstack r) (p_sz r) (g (p_pagetable r)) (p_trapframe r) (p_context r) (p_ofile r) (p_cwd r) (p_name r) (p_trace_mask r).
#[global] Instance set_p_trapframe : Setter p_trapframe :=
  λ g r, MkProc (p_state r) (p_chan r) (p_killed r) (p_xstate r) (p_pid r) (p_parent r) (p_kstack r) (p_sz r) (p_pagetable r) (g (p_trapframe r)) (p_context r) (p_ofile r) (p_cwd r) (p_name r) (p_trace_mask r).
#[global] Instance set_p_context : Setter p_context :=
  λ g r, MkProc (p_state r) (p_chan r) (p_killed r) (p_xstate r) (p_pid r) (p_parent r) (p_kstack r) (p_sz r) (p_pagetable r) (p_trapframe r) (g (p_context r)) (p_ofile r) (p_cwd r) (p_name r) (p_trace_mask r).
#[global] Instance set_p_ofile : Setter p_ofile :=
  λ g r, MkProc (p_state r) (p_chan r) (p_killed r) (p_xstate r) (p_pid r) (p_parent r) (p_kstack r) (p_sz r) (p_pagetable r) (p_trapframe r) (p_context r) (g (p_ofile r)) (p_cwd r) (p_name r) (p_trace_mask r).
#[global] Instance set_p_cwd : Setter p_cwd :=
  λ g r, MkProc (p_state r) (p_chan r) (p_killed r) (p_xstate r) (p_pid r) (p_parent r) (p_kstack r) (p_sz r) (p_pagetable r) (p_trapframe r) (p_context r) (p_ofile r) (g (p_cwd r)) (p_name r) (p_trace_mask r).
#[global] Instance set_p_name : Setter p_name :=
  λ g r, MkProc (p_state r) (p_chan r) (p_killed r) (p_xstate r) (p_pid r) (p_parent r) (p_kstack r) (p_sz r) (p_pagetable r) (p_trapframe r) (p_context r) (p_ofile r) (p_cwd r) (g (p_name r)) (p_trace_mask r).
#[global] Instance set_p_trace_mask : Setter p_trace_mask :=
  λ g r, MkProc (p_state r) (p_chan r) (p_killed r) (p_xstate r) (p_pid r) (p_parent r) (p_kstack r) (p_sz r) (p_pagetable r) (p_trapframe r) (p_context r) (p_ofile r) (p_cwd r) (p_name r) (g (p_trace_mask r)).

Inductive ftype := FD_NONE | FD_PIPE | FD_INODE | FD_DEVICE.
#[global] Instance ftype_eq_dec : EqDecision ftype.
Proof. solve_decision. Defined.

(** file.h: an open file. *)
Record file := MkFile {
  f_type : ftype;
  f_ref : Z;
  f_readable : Z;
  f_writable : Z;
  f_pipe : Z;
  f_ip : option nat;
  f_off : Z;
  f_major : Z
}.
#[global] Instance set_f_type : Setter f_type :=
  λ g r, MkFile (g (f_type r)) (f_ref r) (f_readable r) (f_writable r) (f_pipe r) (f_ip r) (f_off r) (f_major r).
#[global] Instance set_f_ref : Setter f_ref :=
  λ g r, MkFile (f_type r) (g (f_ref r)) (f_readable r) (f_writable r) (f_pipe r) (f_ip r) (f_off r) (f_major r).
#[global] Instance set_f_readable : Setter f_readable :=
  λ g r, MkFile (f_type r) (f_ref r) (g (f_readable r)) (f_writable r) (f_pipe r) (f_ip r) (f_off r) (f_major r).
#[global] Instance set_f_writable : Setter f_writable :=
  λ g r, MkFile (f_type r) (f_ref r) (f_readable r) (g (f_writable r)) (f_pipe r) (f_ip r) (f_off r) (f_major r).
#[global] Instance set_f_pipe : Setter f_pipe :=
  λ g r, MkFile (f_type r) (f_ref r) (f_readable r) (f_writable r) (g (f_pipe r)) (f_ip r) (f_off r) (f_major r).
#[global] Instance set_f_ip : Setter f_ip :=
  λ g r, MkFile (f_type r) (f_ref r) (f_readable r) (f_writable r) (f_pipe r) (g (f_ip r)) (f_off r) (f_major r).
#[global] Instance set_f_off : Setter f_off :=
  λ g r, MkFile (f_type r) (f_ref r) (f_readable r) (f_writable r) (f_pipe r) (f_ip r) (g (f_off r)) (f_major r).
#[global] Instance set_f_major : Setter f_major :=
  λ g r, MkFile (f_type r) (f_ref r) (f_readable r) (f_writable r) (f_pipe r) (f_ip r) (f_off r) (g (f_major r)).

(** file.h: in-memory copy of an inode. *)
Record inode := MkInode {
  i_dev : Z;
  i_inum : Z;
  i_ref : Z;
  i_lock : sleeplock;
  i_valid : Z;
  i_type : Z;
  i_major : Z;
  i_minor : Z;
  i_nlink : Z;
  i_size : Z;
  i_addrs : list Z
}.
#[global] Instance set_i_dev : Setter i_dev :=
  λ g r, MkInode (g (i_dev r)) (i_inum r) (i_ref r) (i_lock r) (i_valid r) (i_type r) (i_major r) (i_minor r) (i_nlink r) (i_size r) (i_addrs r).
#[global] Instance set_i_inum : Setter i_inum :=
  λ g r, MkInode (i_dev r) (g (i_inum r)) (i_ref r) (i_lock r) (i_valid r) (i_type r) (i_major r) (i_minor r) (i_nlink r) (i_size r) (i_addrs r).
#[global] Instance set_i_ref : Setter i_ref :=
  λ g r, MkInode (i_dev r) (i_inum r) (g (i_ref r)) (i_lock r) (i_valid r) (i_type r) (i_major r) (i_minor r) (i_nlink r) (i_size r) (i_addrs r).
#[global] Instance set_i_lock : Setter i_lock :=
  λ g r, MkInode (i_dev r) (i_inum r) (i_ref r) (g (i_lock r)) (i_valid r) (i_type r) (i_major r) (i_minor r) (i_nlink r) (i_size r) (i_addrs r).
#[global] Instance set_i_valid : Setter i_valid :=
  λ g r, MkInode (i_dev r) (i_inum r) (i_ref r) (i_lock r) (g (i_valid r)) (i_type r) (i_major r) (i_minor r) (i_nlink r) (i_size r) (i_addrs r).
#[global] Instance set_i_type : Setter i_type :=
  λ g r, MkInode (i_dev r) (i_inum r) (i_ref r) (i_lock r) (i_valid r) (g (i_type r)) (i_major r) (i_minor r) (i_nlink r) (i_size r) (i_addrs r).
#[global] Instance set_i_major : Setter i_major :=
  λ g r, MkInode (i_dev r) (i_inum r) (i_ref r) (i_lock r) (i_valid r) (i_type r) (g (i_major r)) (i_minor r) (i_nlink r) (i_size r) (i_addrs r).
#[global] Instance set_i_minor : Setter i_minor :=
  λ g r, MkInode (i_dev r) (i_inum r) (i_ref r) (i_lock r) (i_valid r) (i_type r) (i_major r) (g (i_minor r)) (i_nlink r) (i_size r) (i_addrs r).
#[global] Instance set_i_nlink : Setter i_nlink :=
  λ g r, MkInode (i_dev r) (i_inum r) (i_ref r) (i_lock r) (i_valid r) (i_type r) (i_major r) (i_minor r) (g (i_nlink r)) (i_size r) (i_addrs r).
#[global] Instance set_i_size : Setter i_size :=
  λ g r, MkInode (i_dev r) (i_inum r) (i_ref r) (i_lock r) (i_valid r) (i_type r) (i_major r) (i_minor r) (i_nlink r) (g (i_size r)) (i_addrs r).
#[global] Instance set_i_addrs : Setter i_addrs :=
  λ g r, MkInode (i_dev r) (i_inum r) (i_ref r) (i_lock r) (i_valid r) (i_type r) (i_major r) (i_minor r) (i_nlink r) (i_size r) (g (i_addrs r)).

(** fs.h: on-disk inode. *)
Record dinode := MkDinode {
  di_type : Z;
  di_major : Z;
  di_minor : Z;
  di_nlink : Z;
  di_size : Z;
  di_addrs : list Z
}.
#[global] Instance set_di_type : Setter di_type :=
  λ g r, MkDinode (g (di_type r)) (di_major r) (di_minor r) (di_nlink r) (di_size r) (di_addrs r).
#[global] Instance set_di_major : Setter di_major :=
  λ g r, MkDinode (di_type r) (g (di_major r)) (di_minor r) (di_nlink r) (di_size r) (di_addrs r).
#[global] Instance set_di_minor : Setter di_minor :=
  λ g r, MkDinode (di_type r) (di_major r) (g (di_minor r)) (di_nlink r) (di_size r) (di_addrs r).
#[global] Instance set_di_nlink : Setter di_nlink :=
  λ g r, MkDinode (di_type r) (di_major r) (di_minor r) (g (di_nlink r)) (di_size r) (di_addrs r).
#[global] Instance set_di_size : Setter di_size :=
  λ g r, MkDinode (di_type r) (di_major r) (di_minor r) (di_nlink r) (g (di_size r)) (di_addrs r).
#[global] Instance set_di_addrs : Setter di_addrs :=
  λ g r, MkDinode (di_type r) (di_major r) (di_minor r) (di_nlink r) (di_size r) (g (di_addrs r)).

(** fs.h: the super block. *)
Record superblock := MkSuperblock {
  sb_magic : Z;
  sb_size : Z;
  sb_nblocks : Z;
  sb_ninodes : Z;
  sb_nlog : Z;
  sb_logstart : Z;
  sb_inodestart : Z;
  sb_bmapstart : Z
}.

(** buf.h: a cached disk block.  [b_prev] and [b_next] are indices into
    [bcache.buf], with [NBUF] standing for [&bcache.head]. *)
Record buf := MkBuf {
  b_valid : Z;
  b_disk : Z;
  b_dev : Z;
  b_blockno : Z;
  b_lock : sleeplock;
  b_refcnt : Z;
  b_prev : nat;
  b_next : nat;
  b_data : list Z
}.
#[global] Instance set_b_valid : Setter b_valid :=
  λ g r, MkBuf (g (b_valid r)) (b_disk r) (b_dev r) (b_blockno r) (b_lock r) (b_refcnt r) (b_prev r) (b_next r) (b_data r).
#[global] Instance set_b_disk : Setter b_disk :=
  λ g r, MkBuf (b_valid r) (g (b_disk r)) (b_dev r) (b_blockno r) (b_lock r) (b_refcnt r) (b_prev r) (b_next r) (b_data r).
#[global] Instance set_b_dev : Setter b_dev :=
  λ g r, MkBuf (b_valid r) (b_disk r) (g (b_dev r)) (b_blockno r) (b_lock r) (b_refcnt r) (b_prev r) (b_next r) (b_data r).
#[global] Instance set_b_blockno : Setter b_blockno :=
  λ g r, MkBuf (b_valid r) (b_disk r) (b_dev r) (g (b_blockno r)) (b_lock r) (b_refcnt r) (b_prev r) (b_next r) (b_data r).
#[global] Instance set_b_lock : Setter b_lock :=
  λ g r, MkBuf (b_valid r) (b_disk r) (b_dev r) (b_blockno r) (g (b_lock r)) (b_refcnt r) (b_prev r) (b_next r) (b_data r).
#[global] Instance set_b_refcnt : Setter b_refcnt :=
  λ g r, MkBuf (b_valid r) (b_disk r) (b_dev r) (b_blockno r) (b_lock r) (g (b_refcnt r)) (b_prev r) (b_next r) (b_data r).
#[global] Instance set_b_prev : Setter b_prev :=
  λ g r, MkBuf (b_valid r) (b_disk r) (b_dev r) (b_blockno r) (b_lock r) (b_refcnt r) (g (b_prev r)) (b_next r) (b_data r).
#[global] Instance set_b_next : Setter b_next :=
  λ g r, MkBuf (b_valid r) (b_disk r) (b_dev r) (b_blockno r) (b_lock r) (b_refcnt r) (b_prev r) (g (b_next r)) (b_data r).
#[global] Instance set_b_data : Setter b_data :=
  λ g r, MkBuf (b_valid r) (b_disk r) (b_dev r) (b_blockno r) (b_lock r) (b_refcnt r) (b_prev r) (b_next r) (g (b_data r)).

(** bio.c: the buffer cache; the head contributes its two links. *)
Record bcache := MkBcache {
  bc_buf : list buf;
  bc_head_prev : nat;
  bc_head_next : nat
}.
#[global] Instance set_bc_buf : Setter bc_buf :=
  λ g r, MkBcache (g (bc_buf r)) (bc_head_prev r) (bc_head_next r).
#[global] Instance set_bc_head_prev : Setter bc_head_prev :=
  λ g r, MkBcache (bc_buf r) (g (bc_head_prev r)) (bc_head_next r).
#[global] Instance set_bc_head_next : Setter bc_head_next :=
  λ g r, MkBcache (bc_buf r) (bc_head_prev r) (g (bc_head_next r)).

(** log.c: struct log, with [lh.n] and [lh.block] of the in-memory header. *)
Record logst := MkLog {
  l_start : Z;
  l_size : Z;
  l_outstanding : Z;
  l_committing : Z;
  l_dev : Z;
  l_n : Z;
  l_block : list Z
}.
#[global] Instance set_l_start : Setter l_start :=
  λ g r, MkLog (g (l_start r)) (l_size r) (l_outstanding r) (l_committing r) (l_dev r) (l_n r) (l_block r).
#[global] Instance set_l_size : Setter l_size :=
  λ g r, MkLog (l_start r) (g (l_size r)) (l_outstanding r) (l_committing r) (l_dev r) (l_n r) (l_block r).
#[global] Instance set_l_outstanding : Setter l_outstanding :=
  λ g r, MkLog (l_start r) (l_size r) (g (l_outstanding r)) (l_committing r) (l_dev r) (l_n r) (l_block r).
#[global] Instance set_l_committing : Setter l_committing :=
  λ g r, MkLog (l_start r) (l_size r) (l_outstanding r) (g (l_committing r)) (l_dev r) (l_n r) (l_block r).
#[global] Instance set_l_dev : Setter l_dev :=
  λ g r, MkLog (l_start r) (l_size r) (l_outstanding r) (l_committing r) (g (l_dev r)) (l_n r) (l_block r).
#[global] Instance set_l_n : Setter l_n :=
  λ g r, MkLog (l_start r) (l_size r) (l_outstanding r) (l_committing r) (l_dev r) (g (l_n r)) (l_block r).
#[global] Instance set_l_block : Setter l_block :=
  λ g r, MkLog (l_start r) (l_size r) (l_outstanding r) (l_committing r) (l_dev r) (l_n r) (g (l_block r)).

(** pipe.c: struct pipe. *)
Record pipe := MkPipe {
  pi_data : list Z;
  pi_nread : Z;
  pi_nwrite : Z;
  pi_readopen : Z;
  pi_writeopen : Z
}.
#[global] Instance set_pi_data : Setter pi_data :=
  λ g r, MkPipe (g (pi_data r)) (pi_nread r) (pi_nwrite r) (pi_readopen r) (pi_writeopen r).
#[global] Instance set_pi_nread : Setter pi_nread :=
  λ g r, MkPipe (pi_data r) (g (pi_nread r)) (pi_nwrite r) (pi_readopen r) (pi_writeopen r).
#[global] Instance set_pi_nwrite : Setter pi_nwrite :=
  λ g r, MkPipe (pi_data r) (pi_nread r) (g (pi_nwrite r)) (pi_readopen r) (pi_writeopen r).
#[global] Instance set_pi_readopen : Setter pi_readopen :=
  λ g r, MkPipe (pi_data r) (pi_nread r) (pi_nwrite r) (g (pi_readopen r)) (pi_writeopen r).
#[global] Instance set_pi_writeopen : Setter pi_writeopen :=
  λ g r, MkPipe (pi_data r) (pi_nread r) (pi_nwrite r) (pi_readopen r) (g (pi_writeopen r)).

(** console.c: the input buffer. *)
Record consst := MkCons {
  cs_buf : list Z;
  cs_r : Z;
  cs_w : Z;
  cs_e : Z
}.
#[global] Instance set_cs_buf : Setter cs_buf :=
  λ g r, MkCons (g (cs_buf r)) (cs_r r) (cs_w r) (cs_e r).
#[global] Instance set_cs_r : Setter cs_r :=
  λ g r, MkCons (cs_buf r) (g (cs_r r)) (cs_w r) (cs_e r).
#[global] Instance set_cs_w : Setter cs_w :=
  λ g r, MkCons (cs_buf r) (cs_r r) (g (cs_w r)) (cs_e r).
#[global] Instance set_cs_e : Setter cs_e :=
  λ g r, MkCons (cs_buf r) (cs_r r) (cs_w r) (g (cs_e r)).

(** uart.c: the transmit ring, and the 16550 device the driver talks to:
    [ua_idle] is what successive reads of LSR report for TX_IDLE (idle once the
    list is exhausted), [ua_rx] the received bytes waiting in RHR, [ua_thr] the
    bytes written to THR, [ua_regs] the writes to the other registers; both
    are in reverse order. *)
Record uartst := MkUart {
  ua_tx_buf : list Z;
  ua_tx_w : Z;
  ua_tx_r : Z;
  ua_idle : list bool;
  ua_rx : list Z;
  ua_thr : list Z;
  ua_regs : list (Z * Z)
}.
#[global] Instance set_ua_tx_buf : Setter ua_tx_buf :=
  λ g r, MkUart (g (ua_tx_buf r)) (ua_tx_w r) (ua_tx_r r) (ua_idle r) (ua_rx r) (ua_thr r) (ua_regs r).
#[global] Instance set_ua_tx_w : Setter ua_tx_w :=
  λ g r, MkUart (ua_tx_buf r) (g (ua_tx_w r)) (ua_tx_r r) (ua_idle r) (ua_rx r) (ua_thr r) (ua_regs r).
#[global] Instance set_ua_tx_r : Setter ua_tx_r :=
  λ g r, MkUart (ua_tx_buf r) (ua_tx_w r) (g (ua_tx_r r)) (ua_idle r) (ua_rx r) (ua_thr r) (ua_regs r).
#[global] Instance set_ua_idle : Setter ua_idle :=
  λ g r, MkUart (ua_tx_buf r) (ua_tx_w r) (ua_tx_r r) (g (ua_idle r)) (ua_rx r) (ua_thr r) (ua_regs r).
#[global] Instance set_ua_rx : Setter ua_rx :=
  λ g r, MkUart (ua_tx_buf r) (ua_tx_w r) (ua_tx_r r) (ua_idle r) (g (ua_rx r)) (ua_thr r) (ua_regs r).
#[global] Instance set_ua_thr : Setter ua_thr :=
  λ g r, MkUart (ua_tx_buf r) (ua_tx_w r) (ua_tx_r r) (ua_idle r) (ua_rx r) (g (ua_thr r)) (ua_regs r).
#[global] Instance set_ua_regs : Setter ua_regs :=
  λ g r, MkUart (ua_tx_buf r) (ua_tx_w r) (ua_tx_r r) (ua_idle r) (ua_rx r) (ua_thr r) (g (ua_regs r)).

(** The disk: its blocks, and the writes that reached it, in reverse order. *)
Record diskst := MkDisk {
  d_blocks : Z → list Z;
  d_hist : list (Z * list Z)
}.
#[global] Instance set_d_blocks : Setter d_blocks :=
  λ g r, MkDisk (g (d_blocks r)) (d_hist r).
#[global] Instance set_d_hist : Setter d_hist :=
  λ g r, MkDisk (d_blocks r) (g (d_hist r)).

(** virtio_disk.c: what a descriptor's [addr] field points to. *)
Inductive dma := DmaNull | DmaReq (i : nat) | DmaBuf (b : nat) | DmaStatus (i : nat).

(** virtio.h: a descriptor. *)
Record virtq_desc := MkDesc {
  vq_addr : dma;
  vq_len : Z;
  vq_flags : Z;
  vq_next : Z
}.
#[global] Instance set_vq_addr : Setter vq_addr :=
  λ g r, MkDesc (g (vq_addr r)) (vq_len r) (vq_flags r) (vq_next r).
#[global] Instance set_vq_len : Setter vq_len :=
  λ g r, MkDesc (vq_addr r) (g (vq_len r)) (vq_flags r) (vq_next r).
#[global] Instance set_vq_flags : Setter vq_flags :=
  λ g r, MkDesc (vq_addr r) (vq_len r) (g (vq_flags r)) (vq_next r).
#[global] Instance set_vq_next : Setter vq_next :=
  λ g r, MkDesc (vq_addr r) (vq_len r) (vq_flags r) (g (vq_next r)).

(** virtio_disk.c: struct disk.  [vd_seen] is its field [used_idx], [vd_used_idx] the
    index [used->idx] the device advances; [vd_ops] holds type and sector of
    each command header, [vd_regs] the writes to the device's registers, in
    reverse order. *)
Record vdiskst := MkVdisk {
  vd_desc : list virtq_desc;
  vd_avail_idx : Z;
  vd_avail_ring : list Z;
  vd_used_idx : Z;
  vd_used_ring : list Z;
  vd_free : list Z;
  vd_seen : Z;
  vd_info_b : list (option nat);
  vd_info_status : list Z;
  vd_ops : list (Z * Z);
  vd_regs : list (Z * Z)
}.
#[global] Instance set_vd_desc : Setter vd_desc :=
  λ g r, MkVdisk (g (vd_desc r)) (vd_avail_idx r) (vd_avail_ring r) (vd_used_idx r) (vd_used_ring r) (vd_free r) (vd_seen r) (vd_info_b r) (vd_info_status r) (vd_ops r) (vd_regs r).
#[global] Instance set_vd_avail_idx : Setter vd_avail_idx :=
  λ g r, MkVdisk (vd_desc r) (g (vd_avail_idx r)) (vd_avail_ring r) (vd_used_idx r) (vd_used_ring r) (vd_free r) (vd_seen r) (vd_info_b r) (vd_info_status r) (vd_ops r) (vd_regs r).
#[global] Instance set_vd_avail_ring : Setter vd_avail_ring :=
  λ g r, MkVdisk (vd_desc r) (vd_avail_idx r) (g (vd_avail_ring r)) (vd_used_idx r) (vd_used_ring r) (vd_free r) (vd_seen r) (vd_info_b r) (vd_info_status r) (vd_ops r) (vd_regs r).
#[global] Instance set_vd_used_idx : Setter vd_used_idx :=
  λ g r, MkVdisk (vd_desc r) (vd_avail_idx r) (vd_avail_ring r) (g (vd_used_idx r)) (vd_used_ring r) (vd_free r) (vd_seen r) (vd_info_b r) (vd_info_status r) (vd_ops r) (vd_regs r).
#[global] Instance set_vd_used_ring : Setter vd_used_ring :=
  λ g r, MkVdisk (vd_desc r) (vd_avail_idx r) (vd_avail_ring r) (vd_used_idx r) (g (vd_used_ring r)) (vd_free r) (vd_seen r) (vd_info_b r) (vd_info_status r) (vd_ops r) (vd_regs r).
#[global] Instance set_vd_free : Setter vd_free :=
  λ g r, MkVdisk (vd_desc r) (vd_avail_idx r) (vd_avail_ring r) (vd_used_idx r) (vd_used_ring r) (g (vd_free r)) (vd_seen r) (vd_info_b r) (vd_info_status r) (vd_ops r) (vd_regs r).
#[global] Instance set_vd_seen : Setter vd_seen :=
  λ g r, MkVdisk (vd_desc r) (vd_avail_idx r) (vd_avail_ring r) (vd_used_idx r) (vd_used_ring r) (vd_free r) (g (vd_seen r)) (vd_info_b r) (vd_info_status r) (vd_ops r) (vd_regs r).
#[global] Instance set_vd_info_b : Setter vd_info_b :=
  λ g r, MkVdisk (vd_desc r) (vd_avail_idx r) (vd_avail_ring r) (vd_used_idx r) (vd_used_ring r) (vd_free r) (vd_seen r) (g (vd_info_b r)) (vd_info_status r) (vd_ops r) (vd_regs r).
#[global] Instance set_vd_info_status : Setter vd_info_status :=
  λ g r, MkVdisk (vd_desc r) (vd_avail_idx r) (vd_avail_ring r) (vd_used_idx r) (vd_used_ring r) (vd_free r) (vd_seen r) (vd_info_b r) (g (vd_info_status r)) (vd_ops r) (vd_regs r).
#[global] Instance set_vd_ops : Setter vd_ops :=
  λ g r, MkVdisk (vd_desc r) (vd_avail_idx r) (vd_avail_ring r) (vd_used_idx r) (vd_used_ring r) (vd_free r) (vd_seen r) (vd_info_b r) (vd_info_status r) (g (vd_ops r)) (vd_regs r).
#[global] Instance set_vd_regs : Setter vd_regs :=
  λ g r, MkVdisk (vd_desc r) (vd_avail_idx r) (vd_avail_ring r) (vd_used_idx r) (vd_used_ring r) (vd_free r) (vd_seen r) (vd_info_b r) (vd_info_status r) (vd_ops r) (g (vd_regs r)).

(** The kernel's global variables.  [k_mem] is physical memory; objects that C
    keeps in a page of their own (trapframes, pipes) are in typed stores keyed
    by the address of that page; [k_devsw] says which device numbers have
    read and write functions; [k_first] is the static variable of forkret. *)
Record kstate := MkKstate {
  k_mem : mem;
  k_freelist : Z;
  k_pagetable : Z;
  k_procs : list proc;
  k_initproc : option nat;
  k_nextpid : Z;
  k_ticks : Z;
  k_tf : gmap Z trapframe;
  k_bcache : bcache;
  k_disk : diskst;
  k_vdisk : vdiskst;
  k_log : logst;
  k_sb : superblock;
  k_itable : list inode;
  k_ftable : list file;
  k_devsw : list bool;
  k_pipes : gmap Z pipe;
  k_cons : consst;
  k_uart : uartst;
  k_panicked : Z;
  k_prlocking : Z;
  k_first : Z
}.
#[global] Instance set_k_mem : Setter k_mem :=
  λ g r, MkKstate (g (k_mem r)) (k_freelist r) (k_pagetable r) (k_procs r) (k_initproc r) (k_nextpid r) (k_ticks r) (k_tf r) (k_bcache r) (k_disk r) (k_vdisk r) (k_log r) (k_sb r) (k_itable r) (k_ftable r) (k_devsw r) (k_pipes r) (k_cons r) (k_uart r) (k_panicked r) (k_prlocking r) (k_first r).
#[global] Instance set_k_freelist : Setter k_freelist :=
  λ g r, MkKstate (k_mem r) (g (k_freelist r)) (k_pagetable r) (k_procs r) (k_initproc r) (k_nextpid r) (k_ticks r) (k_tf r) (k_bcache r) (k_disk r) (k_vdisk r) (k_log r) (k_sb r) (k_itable r) (k_ftable r) (k_devsw r) (k_pipes r) (k_cons r) (k_uart r) (k_panicked r) (k_prlocking r) (k_first r).
#[global] Instance set_k_pagetable : Setter k_pagetable :=
  λ g r, MkKstate (k_mem r) (k_freelist r) (g (k_pagetable r)) (k_procs r) (k_initproc r) (k_nextpid r) (k_ticks r) (k_tf r) (k_bcache r) (k_disk r) (k_vdisk r) (k_log r) (k_sb r) (k_itable r) (k_ftable r) (k_devsw r) (k_pipes r) (k_cons r) (k_uart r) (k_panicked r) (k_prlocking r) (k_first r).
#[global] Instance set_k_procs : Setter k_procs :=
  λ g r, MkKstate (k_mem r) (k_freelist r) (k_pagetable r) (g (k_procs r)) (k_initproc r) (k_nextpid r) (k_ticks r) (k_tf r) (k_bcache r) (k_disk r) (k_vdisk r) (k_log r) (k_sb r) (k_itable r) (k_ftable r) (k_devsw r) (k_pipes r) (k_cons r) (k_uart r) (k_panicked r) (k_prlocking r) (k_first r).
#[global] Instance set_k_initproc : Setter k_initproc :=
  λ g r, MkKstate (k_mem r) (k_freelist r) (k_pagetable r) (k_procs r) (g (k_initproc r)) (k_nextpid r) (k_ticks r) (k_tf r) (k_bcache r) (k_disk r) (k_vdisk r) (k_log r) (k_sb r) (k_itable r) (k_ftable r) (k_devsw r) (k_pipes r) (k_cons r) (k_uart r) (k_panicked r) (k_prlocking r) (k_first r).
#[global] Instance set_k_nextpid : Setter k_nextpid :=
  λ g r, MkKstate (k_mem r) (k_freelist r) (k_pagetable r) (k_procs r) (k_initproc r) (g (k_nextpid r)) (k_ticks r) (k_tf r) (k_bcache r) (k_disk r) (k_vdisk r) (k_log r) (k_sb r) (k_itable r) (k_ftable r) (k_devsw r) (k_pipes r) (k_cons r) (k_uart r) (k_panicked r) (k_prlocking r) (k_first r).
#[global] Instance set_k_ticks : Setter k_ticks :=
  λ g r, MkKstate (k_mem r) (k_freelist r) (k_pagetable r) (k_procs r) (k_initproc r) (k_nextpid r) (g (k_ticks r)) (k_tf r) (k_bcache r) (k_disk r) (k_vdisk r) (k_log r) (k_sb r) (k_itable r) (k_ftable r) (k_devsw r) (k_pipes r) (k_cons r) (k_uart r) (k_panicked r) (k_prlocking r) (k_first r).
#[global] Instance set_k_tf : Setter k_tf :=
  λ g r, MkKstate (k_mem r) (k_freelist r) (k_pagetable r) (k_procs r) (k_initproc r) (k_nextpid r) (k_ticks r) (g (k_tf r)) (k_bcache r) (k_disk r) (k_vdisk r) (k_log r) (k_sb r) (k_itable r) (k_ftable r) (k_devsw r) (k_pipes r) (k_cons r) (k_uart r) (k_panicked r) (k_prlocking r) (k_first r).
#[global] Instance set_k_bcache : Setter k_bcache :=
  λ g r, MkKstate (k_mem r) (k_freelist r) (k_pagetable r) (k_procs r) (k_initproc r) (k_nextpid r) (k_ticks r) (k_tf r) (g (k_bcache r)) (k_disk r) (k_vdisk r) (k_log r) (k_sb r) (k_itable r) (k_ftable r) (k_devsw r) (k_pipes r) (k_cons r) (k_uart r) (k_panicked r) (k_prlocking r) (k_first r).
#[global] Instance set_k_disk : Setter k_disk :=
  λ g r, MkKstate (k_mem r) (k_freelist r) (k_pagetable r) (k_procs r) (k_initproc r) (k_nextpid r) (k_ticks r) (k_tf r) (k_bcache r) (g (k_disk r)) (k_vdisk r) (k_log r) (k_sb r) (k_itable r) (k_ftable r) (k_devsw r) (k_pipes r) (k_cons r) (k_uart r) (k_panicked r) (k_prlocking r) (k_first r).
#[global] Instance set_k_vdisk : Setter k_vdisk :=
  λ g r, MkKstate (k_mem r) (k_freelist r) (k_pagetable r) (k_procs r) (k_initproc r) (k_nextpid r) (k_ticks r) (k_tf r) (k_bcache r) (k_disk r) (g (k_vdisk r)) (k_log r) (k_sb r) (k_itable r) (k_ftable r) (k_devsw r) (k_pipes r) (k_cons r) (k_uart r) (k_panicked r) (k_prlocking r) (k_first r).
#[global] Instance set_k_log : Setter k_log :=
  λ g r, MkKstate (k_mem r) (k_freelist r) (k_pagetable r) (k_procs r) (k_initproc r) (k_nextpid r) (k_ticks r) (k_tf r) (k_bcache r) (k_disk r) (k_vdisk r) (g (k_log r)) (k_sb r) (k_itable r) (k_ftable r) (k_devsw r) (k_pipes r) (k_cons r) (k_uart r) (k_panicked r) (k_prlocking r) (k_first r).
#[global] Instance set_k_sb : Setter k_sb :=
  λ g r, MkKstate (k_mem r) (k_freelist r) (k_pagetable r) (k_procs r) (k_initproc r) (k_nextpid r) (k_ticks r) (k_tf r) (k_bcache r) (k_disk r) (k_vdisk r) (k_log r) (g (k_sb r)) (k_itable r) (k_ftable r) (k_devsw r) (k_pipes r) (k_cons r) (k_uart r) (k_panicked r) (k_prlocking r) (k_first r).
#[global] Instance set_k_itable : Setter k_itable :=
  λ g r, MkKstate (k_mem r) (k_freelist r) (k_pagetable r) (k_procs r) (k_initproc r) (k_nextpid r) (k_ticks r) (k_tf r) (k_bcache r) (k_disk r) (k_vdisk r) (k_log r) (k_sb r) (g (k_itable r)) (k_ftable r) (k_devsw r) (k_pipes r) (k_cons r) (k_uart r) (k_panicked r) (k_prlocking r) (k_first r).
#[global] Instance set_k_ftable : Setter k_ftable :=
  λ g r, MkKstate (k_mem r) (k_freelist r) (k_pagetable r) (k_procs r) (k_initproc r) (k_nextpid r) (k_ticks r) (k_tf r) (k_bcache r) (k_disk r) (k_vdisk r) (k_log r) (k_sb r) (k_itable r) (g (k_ftable r)) (k_devsw r) (k_pipes r) (k_cons r) (k_uart r) (k_panicked r) (k_prlocking r) (k_first r).
#[global] Instance set_k_devsw : Setter k_devsw :=
  λ g r, MkKstate (k_mem r) (k_freelist r) (k_pagetable r) (k_procs r) (k_initproc r) (k_nextpid r) (k_ticks r) (k_tf r) (k_bcache r) (k_disk r) (k_vdisk r) (k_log r) (k_sb r) (k_itable r) (k_ftable r) (g (k_devsw r)) (k_pipes r) (k_cons r) (k_uart r) (k_panicked r) (k_prlocking r) (k_first r).
#[global] Instance set_k_pipes : Setter k_pipes :=
  λ g r, MkKstate (k_mem r) (k_freelist r) (k_pagetable r) (k_procs r) (k_initproc r) (k_nextpid r) (k_ticks r) (k_tf r) (k_bcache r) (k_disk r) (k_vdisk r) (k_log r) (k_sb r) (k_itable r) (k_ftable r) (k_devsw r) (g (k_pipes r)) (k_cons r) (k_uart r) (k_panicked r) (k_prlocking r) (k_first r).
#[global] Instance set_k_cons : Setter k_cons :=
  λ g r, MkKstate (k_mem r) (k_freelist r) (k_pagetable r) (k_procs r) (k_initproc r) (k_nextpid r) (k_ticks r) (k_tf r) (k_bcache r) (k_disk r) (k_vdisk r) (k_log r) (k_sb r) (k_itable r) (k_ftable r) (k_devsw r) (k_pipes r) (g (k_cons r)) (k_uart r) (k_panicked r) (k_prlocking r) (k_first r).
#[global] Instance set_k_uart : Setter k_uart :=
  λ g r, MkKstate (k_mem r) (k_freelist r) (k_pagetable r) (k_procs r) (k_initproc r) (k_nextpid r) (k_ticks r) (k_tf r) (k_bcache r) (k_disk r) (k_vdisk r) (k_log r) (k_sb r) (k_itable r) (k_ftable r) (k_devsw r) (k_pipes r) (k_cons r) (g (k_uart r)) (k_panicked r) (k_prlocking r) (k_first r).
#[global] Instance set_k_panicked : Setter k_panicked :=
  λ g r, MkKstate (k_mem r) (k_freelist r) (k_pagetable r) (k_procs r) (k_initproc r) (k_nextpid r) (k_ticks r) (k_tf r) (k_bcache r) (k_disk r) (k_vdisk r) (k_log r) (k_sb r) (k_itable r) (k_ftable r) (k_devsw r) (k_pipes r) (k_cons r) (k_uart r) (g (k_panicked r)) (k_prlocking r) (k_first r).
#[global] Instance set_k_prlocking : Setter k_prlocking :=
  λ g r, MkKstate (k_mem r) (k_freelist r) (k_pagetable r) (k_procs r) (k_initproc r) (k_nextpid r) (k_ticks r) (k_tf r) (k_bcache r) (k_disk r) (k_vdisk r) (k_log r) (k_sb r) (k_itable r) (k_ftable r) (k_devsw r) (k_pipes r) (k_cons r) (k_uart r) (k_panicked r) (g (k_prlocking r)) (k_first r).
#[global] Instance set_k_first : Setter k_first :=
  λ g r, MkKstate (k_mem r) (k_freelist r) (k_pagetable r) (k_procs r) (k_initproc r) (k_nextpid r) (k_ticks r) (k_tf r) (k_bcache r) (k_disk r) (k_vdisk r) (k_log r) (k_sb r) (k_itable r) (k_ftable r) (k_devsw r) (k_pipes r) (k_cons r) (k_uart r) (k_panicked r) (k_prlocking r) (g (k_first r)).

(** One kernel thread and the system around it. *)
Record world := MkWorld {
  ks : kstate;
  held : gset lockid;
  me : option nat;
  env : list (kstate → kstate)
}.
#[global] Instance set_ks : Setter ks :=
  λ g r, MkWorld (g (ks r)) (held r) (me r) (env r).
#[global] Instance set_held : Setter held :=
  λ g r, MkWorld (ks r) (g (held r)) (me r) (env r).
#[global] Instance set_me : Setter me :=
  λ g r, MkWorld (ks r) (held r) (g (me r)) (env r).
#[global] Instance set_env : Setter env :=
  λ g r, MkWorld (ks r) (held r) (me r) (g (env r)).

#[global] Instance sleeplock_inhabited : Inhabited sleeplock := populate (MkSleeplock 0 0).
#[global] Instance proc_inhabited : Inhabited proc :=
  populate (MkProc UNUSED ChNull 0 0 0 None 0 0 0 0 zero_context [] None [] 0).
#[global] Instance file_inhabited : Inhabited file := populate (MkFile FD_NONE 0 0 0 0 None 0 0).
#[global] Instance inode_inhabited : Inhabited inode :=
  populate (MkInode 0 0 0 inhabitant 0 0 0 0 0 0 []).
#[global] Instance buf_inhabited : Inhabited buf :=
  populate (MkBuf 0 0 0 0 inhabitant 0 0 0 []).
#[global] Instance pipe_inhabited : Inhabited pipe := populate (MkPipe [] 0 0 0 0).
#[global] Instance trapframe_inhabited : Inhabited trapframe := populate zero_trapframe.

(** ** The monad of a kernel thread *)

Inductive outcome (A : Type) :=
| Ok (a : A) (w : world)
| Panic (msg : string)
| Blocked
| Diverge.
Arguments Ok {A} _ _.
Arguments Panic {A} _.
Arguments Blocked {A}.
Arguments Diverge {A}.

Definition K (A : Type) : Type := world → outcome A.

#[global] Instance K_ret : MRet K := λ A a w, Ok a w.
#[global] Instance K_bind : MBind K := λ A B f m w,
  match m w with
  | Ok a w' => f a w'
  | Panic s => Panic s
  | Blocked => Blocked
  | Diverge => Diverge
  end.

Definition panic {A} (s : string) : K A := λ _, Panic s.
Definition diverge {A} : K A := λ _, Diverge.
Definition gets {A} (f : kstate → A) : K A := λ w, Ok (f (ks w)) w.
Definition modify (f : kstate → kstate) : K unit := λ w, Ok tt (w <| ks ::= f |>).
Definition when (b : bool) (m : K unit) : K unit := if b then m else mret ().

(** [if(b) panic(s);] *)
Definition panic_if (b : bool) (s : string) : K unit := if b then panic s else mret ().

(** A loop that sleeps uses up one entry of the schedule in each iteration; its
    fuel is one more than there are entries. *)
Definition env_fuel {A} (f : nat → K A) : K A := λ w, f (S (length (env w))) w.

(** [for(x in l) f(x);] *)
Fixpoint mfor {A} (l : list A) (f : A → K unit) : K unit :=
  match l with
  | [] => mret ()
  | x :: l => f x;; mfor l f
  end.

(** ** Spinlocks and the current process, as a kernel thread sees them *)

Definition acquire (lk : lockid) : K unit := λ w,
  if decide (lk ∈ held w) then Panic "acquire"
  else Ok tt (w <| held ::= λ h, {[lk]} ∪ h |>).

Definition release (lk : lockid) : K unit := λ w,
  if decide (lk ∈ held w) then Ok tt (w <| held ::= λ h, h ∖ {[lk]} |>)
  else Panic "release".

(** A lock under initialisation is free: no thread holds it. *)
Definition initlock (lk : lockid) : K unit := mret ().

Definition holding (lk : lockid) : K bool := λ w, Ok (bool_decide (lk ∈ held w)) w.

Definition myproc : K (option nat) := λ w, Ok (me w) w.

(** The current process where the code dereferences [myproc()]; with no current
    process that is a NULL dereference. *)
Definition curproc : K nat := λ w,
  match me w with Some p => Ok p w | None => Panic "null myproc" end.

Definition get_proc (i : nat) (s : kstate) : proc := k_procs s !!! i.
Definition upd_proc (i : nat) (f : proc → proc) (s : kstate) : kstate :=
  s <| k_procs ::= alter f i |>.

Definition all_procs : list nat := seq 0 (Z.to_nat NPROC).

(** The sleep channel that a [struct proc *] is. *)
Definition chan_of_proc (p : option nat) : chan :=
  match p with Some i => ChProc i | None => ChNull end.

(** ** Total correctness of a thread's code

    [wp m Q w]: from [w], [m] returns, in a state and with a value in [Q].
    [wsafe] also admits that the thread sleeps and is never woken. *)

Definition wp {A} (m : K A) (Q : A → world → Prop) (w : world) : Prop :=
  match m w with Ok a w' => Q a w' | _ => False end.

Definition wsafe {A} (m : K A) (Q : A → world → Prop) (w : world) : Prop :=
  match m w with Ok a w' => Q a w' | Blocked => True | _ => False end.

Lemma wp_ok {A} (m : K A) Q w : wp m Q w ↔ ∃ a w', m w = Ok a w' ∧ Q a w'.
Proof. unfold wp. destruct (m w); naive_solver. Qed.

Lemma bind_ok {A B} (m : K A) (f : A → K B) w a w' :
  m w = Ok a w' → (m ≫= f) w = f a w'.
Proof. intros H. unfold mbind, K_bind. by rewrite H. Qed.

Lemma bind_assoc {A B C} (m : K A) (f : A → K B) (g : B → K C) w :
  ((m ≫= f) ≫= g) w = (m ≫= λ a, f a ≫= g) w.
Proof. unfold mbind, K_bind. by destruct (m w). Qed.

Lemma bind_inv {A B} (m : K A) (f : A → K B) w b w' :
  (m ≫= f) w = Ok b w' → ∃ a w1, m w = Ok a w1 ∧ f a w1 = Ok b w'.
Proof. unfold mbind, K_bind. destruct (m w) eqn:E; naive_solver. Qed.

Lemma wp_bind {A B} (m : K A) (f : A → K B) Q w :
  wp m (λ a w', wp (f a) Q w') w → wp (m ≫= f) Q w.
Proof. unfold wp, mbind, K_bind. destruct (m w); naive_solver. Qed.

Lemma wsafe_bind {A B} (m : K A) (f : A → K B) Q w :
  wsafe m (λ a w', wsafe (f a) Q w') w → wsafe (m ≫= f) Q w.
Proof. unfold wsafe, mbind, K_bind. destruct (m w); naive_solver. Qed.

Lemma wp_mono {A} (m : K A) (Q R : A → world → Prop) w :
  wp m Q w → (∀ a w', Q a w' → R a w') → wp m R w.
Proof. unfold wp. destruct (m w); naive_solver. Qed.

Lemma wsafe_mono {A} (m : K A) (Q R : A → world → Prop) w :
  wsafe m Q w → (∀ a w', Q a w' → R a w') → wsafe m R w.
Proof. unfold wsafe. destruct (m w); naive_solver. Qed.

Lemma wp_wsafe {A} (m : K A) Q w : wp m Q w → wsafe m Q w.
Proof. unfold wp, wsafe. by destruct (m w). Qed.

(** A [for] loop with a loop invariant. *)
Lemma mfor_seq_inv (Inv : nat → world → Prop) (body : nat → K unit) (s n : nat) w :
  (∀ i w, (s <= i < s + n)%nat → Inv i w → ∃ w', body i w = Ok () w' ∧ Inv (S i) w') →
  Inv s w → ∃ w', mfor (seq s n) body w = Ok () w' ∧ Inv (s + n)%nat w'.
Proof.
  revert s w. induction n as [|n IH]; intros s w Hb Hi.
  - exists w. by rewrite Nat.add_0_r.
  - destruct (Hb s w) as (w1 & E1 & H1); [lia|done|]. cbn [seq mfor]. rewrite (bind_ok _ _ _ _ _ E1).
    destruct (IH (S s) w1) as (w2 & E2 & H2); [intros; apply Hb; [lia|done]|done|].
    exists w2. split; [done|]. by rewrite Nat.add_succ_r.
Qed.

Lemma acquire_free lk w :
  lk ∉ held w → acquire lk w = Ok () (w <| held ::= λ h, {[lk]} ∪ h |>).
Proof. intros. unfold acquire. by rewrite decide_False. Qed.

Lemma acquire_held lk w : lk ∈ held w → acquire lk w = Panic "acquire".
Proof. intros. unfold acquire. by rewrite decide_True. Qed.

Lemma release_held lk w :
  lk ∈ held w → release lk w = Ok () (w <| held ::= λ h, h ∖ {[lk]} |>).
Proof. intros. unfold release. by rewrite decide_True. Qed.

(** A critical section in its pure form: acquire, change the shared state,
    release leaves the set of held locks as it was. *)
Lemma locked_section lk w s' :
  lk ∉ held w →
  release lk (MkWorld s' ({[lk]} ∪ held w) (me w) (env w)) = Ok () (w <| ks := s' |>).
Proof.
  intros H. rewrite release_held by (simpl; set_solver).
  f_equal. unfold set_field, set_held, set_ks. simpl. f_equal. set_solver.
Qed.

(** Symbolic execution of straight-line code. *)
Ltac kunfold := unfold mret, K_ret, gets, modify, when, panic_if, panic, diverge, myproc, curproc.

Ltac kstep :=
  match goal with
  | |- context [(?m ≫= ?f) ?w] =>
    first [ erewrite (bind_ok m f w) by (eassumption || reflexivity)
          | erewrite (bind_ok m f w) by (apply acquire_free; simpl; set_solver) ]
  end.

(** Compute record updates away: field by field, so that two states written
    with different sequences of updates become syntactically equal. *)
Ltac rsimpl :=
  cbv beta delta [set_field
    set_sl_locked set_sl_pid set_c_ra set_c_sp set_tf_kernel_satp set_tf_kernel_sp
    set_tf_kernel_trap set_tf_epc set_tf_kernel_hartid set_tf_sp set_tf_a0 set_tf_a1
    set_p_state set_p_chan set_p_killed set_p_xstate set_p_pid set_p_parent set_p_kstack
    set_p_sz set_p_pagetable set_p_trapframe set_p_context set_p_ofile set_p_cwd set_p_name
    set_p_trace_mask set_f_type set_f_ref set_f_readable set_f_writable set_f_pipe set_f_ip
    set_f_off set_f_major set_i_dev set_i_inum set_i_ref set_i_lock set_i_valid set_i_type
    set_i_major set_i_minor set_i_nlink set_i_size set_i_addrs set_di_type set_di_major
    set_di_minor set_di_nlink set_di_size set_di_addrs set_b_valid set_b_disk set_b_dev
    set_b_blockno set_b_lock set_b_refcnt set_b_prev set_b_next set_b_data set_bc_buf
    set_bc_head_prev set_bc_head_next set_l_start set_l_size set_l_outstanding
    set_l_committing set_l_dev set_l_n set_l_block set_pi_data set_pi_nread set_pi_nwrite
    set_pi_readopen set_pi_writeopen set_cs_buf set_cs_r set_cs_w set_cs_e set_ua_tx_buf
    set_ua_tx_w set_ua_tx_r set_ua_idle set_ua_rx set_ua_thr set_ua_regs set_d_blocks
    set_d_hist set_vq_addr set_vq_len set_vq_flags set_vq_next set_vd_desc set_vd_avail_idx
    set_vd_avail_ring set_vd_used_idx set_vd_used_ring set_vd_free set_vd_seen set_vd_info_b
    set_vd_info_status set_vd_ops set_vd_regs set_k_mem set_k_freelist set_k_pagetable
    set_k_procs set_k_initproc set_k_nextpid set_k_ticks set_k_tf set_k_bcache set_k_disk
    set_k_vdisk set_k_log set_k_sb set_k_itable set_k_ftable set_k_devsw set_k_pipes
    set_k_cons set_k_uart set_k_panicked set_k_prlocking set_k_first set_ks set_held set_me
    set_env];
  cbn [
    sl_locked sl_pid c_ra c_sp c_s0 c_s1 c_s2 c_s3 c_s4 c_s5 c_s6 c_s7 c_s8 c_s9 c_s10 c_s11
    tf_kernel_satp tf_kernel_sp tf_kernel_trap tf_epc tf_kernel_hartid tf_ra tf_sp tf_gp tf_tp
    tf_t0 tf_t1 tf_t2 tf_s0 tf_s1 tf_a0 tf_a1 tf_a2 tf_a3 tf_a4 tf_a5 tf_a6 tf_a7 tf_s2 tf_s3
    tf_s4 tf_s5 tf_s6 tf_s7 tf_s8 tf_s9 tf_s10 tf_s11 tf_t3 tf_t4 tf_t5 tf_t6 p_state p_chan
    p_killed p_xstate p_pid p_parent p_kstack p_sz p_pagetable p_trapframe p_context p_ofile
    p_cwd p_name p_trace_mask f_type f_ref f_readable f_writable f_pipe f_ip f_off f_major
    i_dev i_inum i_ref i_lock i_valid i_type i_major i_minor i_nlink i_size i_addrs di_type
    di_major di_minor di_nlink di_size di_addrs sb_magic sb_size sb_nblocks sb_ninodes sb_nlog
    sb_logstart sb_inodestart sb_bmapstart b_valid b_disk b_dev b_blockno b_lock b_refcnt
    b_prev b_next b_data bc_buf bc_head_prev bc_head_next l_start l_size l_outstanding
    l_committing l_dev l_n l_block pi_data pi_nread pi_nwrite pi_readopen pi_writeopen cs_buf
    cs_r cs_w cs_e ua_tx_buf ua_tx_w ua_tx_r ua_idle ua_rx ua_thr ua_regs d_blocks d_hist
    vq_addr vq_len vq_flags vq_next vd_desc vd_avail_idx vd_avail_ring vd_used_idx
    vd_used_ring vd_free vd_seen vd_info_b vd_info_status vd_ops vd_regs k_mem k_freelist
    k_pagetable k_procs k_initproc k_nextpid k_ticks k_tf k_bcache k_disk k_vdisk k_log k_sb
    k_itable k_ftable k_devsw k_pipes k_cons k_uart k_panicked k_prlocking k_first ks held me
    env].

Tactic Notation "rsimpl" "in" hyp(H) :=
  cbv beta delta [set_field
    set_sl_locked set_sl_pid set_c_ra set_c_sp set_tf_kernel_satp set_tf_kernel_sp
    set_tf_kernel_trap set_tf_epc set_tf_kernel_hartid set_tf_sp set_tf_a0 set_tf_a1
    set_p_state set_p_chan set_p_killed set_p_xstate set_p_pid set_p_parent set_p_kstack
    set_p_sz set_p_pagetable set_p_trapframe set_p_context set_p_ofile set_p_cwd set_p_name
    set_p_trace_mask set_f_type set_f_ref set_f_readable set_f_writable set_f_pipe set_f_ip
    set_f_off set_f_major set_i_dev set_i_inum set_i_ref set_i_lock set_i_valid set_i_type
    set_i_major set_i_minor set_i_nlink set_i_size set_i_addrs set_di_type set_di_major
    set_di_minor set_di_nlink set_di_size set_di_addrs set_b_valid set_b_disk set_b_dev
    set_b_blockno set_b_lock set_b_refcnt set_b_prev set_b_next set_b_data set_bc_buf
    set_bc_head_prev set_bc_head_next set_l_start set_l_size set_l_outstanding
    set_l_committing set_l_dev set_l_n set_l_block set_pi_data set_pi_nread set_pi_nwrite
    set_pi_readopen set_pi_writeopen set_cs_buf set_cs_r set_cs_w set_cs_e set_ua_tx_buf
    set_ua_tx_w set_ua_tx_r set_ua_idle set_ua_rx set_ua_thr set_ua_regs set_d_blocks
    set_d_hist set_vq_addr set_vq_len set_vq_flags set_vq_next set_vd_desc set_vd_avail_idx
    set_vd_avail_ring set_vd_used_idx set_vd_used_ring set_vd_free set_vd_seen set_vd_info_b
    set_vd_info_status set_vd_ops set_vd_regs set_k_mem set_k_freelist set_k_pagetable
    set_k_procs set_k_initproc set_k_nextpid set_k_ticks set_k_tf set_k_bcache set_k_disk
    set_k_vdisk set_k_log set_k_sb set_k_itable set_k_ftable set_k_devsw set_k_pipes
    set_k_cons set_k_uart set_k_panicked set_k_prlocking set_k_first set_ks set_held set_me
    set_env] in H;
  cbn [
    sl_locked sl_pid c_ra c_sp c_s0 c_s1 c_s2 c_s3 c_s4 c_s5 c_s6 c_s7 c_s8 c_s9 c_s10 c_s11
    tf_kernel_satp tf_kernel_sp tf_kernel_trap tf_epc tf_kernel_hartid tf_ra tf_sp tf_gp tf_tp
    tf_t0 tf_t1 tf_t2 tf_s0 tf_s1 tf_a0 tf_a1 tf_a2 tf_a3 tf_a4 tf_a5 tf_a6 tf_a7 tf_s2 tf_s3
    tf_s4 tf_s5 tf_s6 tf_s7 tf_s8 tf_s9 tf_s10 tf_s11 tf_t3 tf_t4 tf_t5 tf_t6 p_state p_chan
    p_killed p_xstate p_pid p_parent p_kstack p_sz p_pagetable p_trapframe p_context p_ofile
    p_cwd p_name p_trace_mask f_type f_ref f_readable f_writable f_pipe f_ip f_off f_major
    i_dev i_inum i_ref i_lock i_valid i_type i_major i_minor i_nlink i_size i_addrs di_type
    di_major di_minor di_nlink di_size di_addrs sb_magic sb_size sb_nblocks sb_ninodes sb_nlog
    sb_logstart sb_inodestart sb_bmapstart b_valid b_disk b_dev b_blockno b_lock b_refcnt
    b_prev b_next b_data bc_buf bc_head_prev bc_head_next l_start l_size l_outstanding
    l_committing l_dev l_n l_block pi_data pi_nread pi_nwrite pi_readopen pi_writeopen cs_buf
    cs_r cs_w cs_e ua_tx_buf ua_tx_w ua_tx_r ua_idle ua_rx ua_thr ua_regs d_blocks d_hist
    vq_addr vq_len vq_flags vq_next vd_desc vd_avail_idx vd_avail_ring vd_used_idx
    vd_used_ring vd_free vd_seen vd_info_b vd_info_status vd_ops vd_regs k_mem k_freelist
    k_pagetable k_procs k_initproc k_nextpid k_ticks k_tf k_bcache k_disk k_vdisk k_log k_sb
    k_itable k_ftable k_devsw k_pipes k_cons k_uart k_panicked k_prlocking k_first ks held me
    env] in H.

(** ** The state at power-on: zeroed globals, no thread state *)

Definition boot_kstate : kstate :=
  MkKstate (λ _, 0) 0 0 (replicate 64 inhabitant) None 1 0 ∅
    (MkBcache (replicate 30 (MkBuf 0 0 0 0 inhabitant 0 0 0 (replicate 1024 0))) 0 0)
    (MkDisk (λ _, replicate 1024 0) [])
    (MkVdisk (replicate 8 (MkDesc DmaNull 0 0 0)) 0 (replicate 8 0) 0 (replicate 8 0) (replicate 8 0) 0
       (replicate 8 None) (replicate 8 0) (replicate 8 (0, 0)) [])
    (MkLog 0 0 0 0 0 0 (replicate 30 0))
    (MkSuperblock 0 0 0 0 0 0 0 0)
    (replicate 50 (MkInode 0 0 0 inhabitant 0 0 0 0 0 0 (replicate 13 0)))
    (replicate 100 inhabitant) (replicate 10 false) ∅ (MkCons (replicate 128 0) 0 0 0)
    (MkUart (replicate 32 0) 0 0 [] [] [] []) 0 0 1.

Definition boot_world : world := MkWorld boot_kstate ∅ None [].
