(* ===== verification/Spinlock.v ===== *)
(** * kernel/spinlock.c

    Spinlocks at the level of the hardware: every hart (CPU) has its [struct
    cpu] nesting counters and its interrupt-enable bit, every lock its [locked]
    word and owner field.  [acquire] and [release] are composed of the atomic
    pieces the code executes (the amoswap of __sync_lock_test_and_set, the
    store to [lk->cpu], the release store), which a step relation interleaves
    over all harts.

    Shown: mutual exclusion, exactness of [holding], that a hart in a critical
    section has interrupts off, that matched [push_off]/[pop_off] restore the
    interrupt state, and that [acquire]/[release] implement the lock-set
    operations [Kernel.acquire] and [Kernel.release] that the rest of the
    development is written against. *)

From stdpp Require Import functions.
From S2P Require Import Prelude Kernel.

(** ** State *)

(** proc.h: the fields of [struct cpu] used here, and sstatus.SIE of the hart. *)
Record hart := MkHart { noff : Z; intena : Z; sie : bool }.

(** spinlock.h *)
Record spinlock := MkSpinlock { locked : Z; name : string; cpu : option nat }.

Record smp := MkSmp { locks : lockid → spinlock; cpus : nat → hart }.

Inductive result := ROk (s : smp) | RPanic (msg : string) | RSpin (s : smp).

(** ** riscv.h: interrupt enable *)

Definition intr_on (h : hart) : hart := MkHart (noff h) (intena h) true.
Definition intr_off (h : hart) : hart := MkHart (noff h) (intena h) false.
Definition intr_get (h : hart) : bool := sie h.

(** ** push_off, pop_off *)

Definition push_off (h : hart) : hart :=
  let old := intr_get h in
  let h := intr_off h in
  let h := if noff h =? 0 then MkHart (noff h) (if old then 1 else 0) (sie h) else h in
  MkHart (noff h + 1) (intena h) (sie h).

Definition pop_off (h : hart) : hart + string :=
  if intr_get h then inr "pop_off - interruptible"
  else if noff h <? 1 then inr "pop_off"
  else
    let h := MkHart (noff h - 1) (intena h) (sie h) in
    inl (if (noff h =? 0) && negb (intena h =? 0) then intr_on h else h).

(** ** Locks *)

Definition initlock (lk : lockid) (nm : string) (s : smp) : smp :=
  MkSmp (<[lk := MkSpinlock 0 nm None]> (locks s)) (cpus s).

Definition holding (c : nat) (lk : lockid) (s : smp) : bool :=
  negb (locked (locks s lk) =? 0) && bool_decide (cpu (locks s lk) = Some c).

Definition set_cpu (c : nat) (h : hart) (s : smp) : smp := MkSmp (locks s) (<[c := h]> (cpus s)).

Definition set_locked (lk : lockid) (v : Z) (s : smp) : smp :=
  let l := locks s lk in MkSmp (<[lk := MkSpinlock v (name l) (cpu l)]> (locks s)) (cpus s).

Definition set_owner (lk : lockid) (o : option nat) (s : smp) : smp :=
  let l := locks s lk in MkSmp (<[lk := MkSpinlock (locked l) (name l) o]> (locks s)) (cpus s).

(** __sync_lock_test_and_set(&lk->locked, 1) *)
Definition test_and_set (lk : lockid) (s : smp) : Z * smp :=
  (locked (locks s lk), set_locked lk 1 s).

(** The code of [acquire] up to its spin loop. *)
Definition acquire_enter (c : nat) (lk : lockid) (s : smp) : result :=
  let s := set_cpu c (push_off (cpus s c)) s in
  if holding c lk s then RPanic "acquire" else ROk s.

Definition acquire (c : nat) (lk : lockid) (s : smp) : result :=
  match acquire_enter c lk s with
  | ROk s =>
    match test_and_set lk s with
    | (0, s) => ROk (set_owner lk (Some c) s)
    | (_, s) => RSpin s
    end
  | r => r
  end.

(** The code of [release] up to clearing the owner. *)
Definition release_enter (c : nat) (lk : lockid) (s : smp) : result :=
  if negb (holding c lk s) then RPanic "release" else ROk (set_owner lk None s).

Definition release (c : nat) (lk : lockid) (s : smp) : result :=
  match release_enter c lk s with
  | ROk s =>
    let s := set_locked lk 0 s in
    match pop_off (cpus s c) with
    | inl h => ROk (set_cpu c h s)
    | inr m => RPanic m
    end
  | r => r
  end.

(** ** Interleaved execution

    Where a hart is inside [acquire] or [release]; [Run] is anywhere else. *)
Inductive hpc := Run | Spin (lk : lockid) | Got (lk : lockid) | Rel (lk : lockid) | Rel2 (lk : lockid).

(** [owns] and [raw] are ghost: the locks whose amoswap hart [c] won and has
    not yet undone, and its pending [push_off] calls outside any lock. *)
Record config := MkConfig {
  st : smp; pc : nat → hpc; owns : nat → gset lockid; raw : nat → nat }.

Inductive step : config → config → Prop :=
| step_enter s pc ow rw c lk s' :
    pc c = Run → acquire_enter c lk s = ROk s' →
    step (MkConfig s pc ow rw) (MkConfig s' (<[c := Spin lk]> pc) ow rw)
| step_spin s pc ow rw c lk v s' :
    pc c = Spin lk → test_and_set lk s = (v, s') → v ≠ 0 →
    step (MkConfig s pc ow rw) (MkConfig s' pc ow rw)
| step_got s pc ow rw c lk s' :
    pc c = Spin lk → test_and_set lk s = (0, s') →
    step (MkConfig s pc ow rw)
         (MkConfig s' (<[c := Got lk]> pc) (<[c := {[lk]} ∪ ow c]> ow) rw)
| step_owner s pc ow rw c lk :
    pc c = Got lk →
    step (MkConfig s pc ow rw) (MkConfig (set_owner lk (Some c) s) (<[c := Run]> pc) ow rw)
| step_release s pc ow rw c lk s' :
    pc c = Run → release_enter c lk s = ROk s' →
    step (MkConfig s pc ow rw) (MkConfig s' (<[c := Rel lk]> pc) ow rw)
| step_unlock s pc ow rw c lk :
    pc c = Rel lk →
    step (MkConfig s pc ow rw)
         (MkConfig (set_locked lk 0 s) (<[c := Rel2 lk]> pc) (<[c := ow c ∖ {[lk]}]> ow) rw)
| step_pop s pc ow rw c lk h :
    pc c = Rel2 lk → pop_off (cpus s c) = inl h →
    step (MkConfig s pc ow rw) (MkConfig (set_cpu c h s) (<[c := Run]> pc) ow rw)
| step_push_raw s pc ow rw c :
    pc c = Run →
    step (MkConfig s pc ow rw)
         (MkConfig (set_cpu c (push_off (cpus s c)) s) pc ow (<[c := S (rw c)]> rw))
| step_pop_raw s pc ow rw c h n :
    pc c = Run → rw c = S n → pop_off (cpus s c) = inl h →
    step (MkConfig s pc ow rw) (MkConfig (set_cpu c h s) pc ow (<[c := n]> rw))
| step_intr s pc ow rw c (b : bool) :
    pc c = Run → noff (cpus s c) = 0 →
    step (MkConfig s pc ow rw)
         (MkConfig (set_cpu c ((if b then intr_on else intr_off) (cpus s c)) s) pc ow rw).

Definition init (c : config) : Prop :=
  (∀ lk, locked (locks (st c) lk) = 0 ∧ cpu (locks (st c) lk) = None)
  ∧ (∀ i, noff (cpus (st c) i) = 0) ∧ (∀ i, pc c i = Run)
  ∧ (∀ i, owns c i = ∅) ∧ (∀ i, raw c i = O).

Inductive reachable : config → Prop :=
| reach_init c : init c → reachable c
| reach_step c c' : reachable c → step c c' → reachable c'.

(** A [push_off] that the hart has done for a lock it does not own (yet, or any more). *)
Definition in_transit (p : hpc) : Z := match p with Spin _ | Rel2 _ => 1 | _ => 0 end.

(** The owner field of a lock this hart owns is already, or still, set. *)
Definition owner_set (p : hpc) (lk : lockid) : Prop := p ≠ Got lk ∧ p ≠ Rel lk.

Record inv (c : config) : Prop := {
  inv_bit : ∀ lk, locked (locks (st c) lk) = 0 ∨ locked (locks (st c) lk) = 1;
  inv_locked : ∀ lk, locked (locks (st c) lk) = 1 ↔ ∃ i, lk ∈ owns c i;
  inv_uniq : ∀ lk i j, lk ∈ owns c i → lk ∈ owns c j → i = j;
  inv_cpu : ∀ lk i, cpu (locks (st c) lk) = Some i ↔ lk ∈ owns c i ∧ owner_set (pc c i) lk;
  inv_pc : ∀ i lk, pc c i = Got lk ∨ pc c i = Rel lk → lk ∈ owns c i;
  inv_spin : ∀ i lk, pc c i = Spin lk ∨ pc c i = Rel2 lk → lk ∉ owns c i;
  inv_noff : ∀ i, noff (cpus (st c) i)
                  = Z.of_nat (size (owns c i)) + Z.of_nat (raw c i) + in_transit (pc c i);
  inv_sie : ∀ i, noff (cpus (st c) i) ≠ 0 → sie (cpus (st c) i) = false
}.

Lemma push_off_noff h : noff (push_off h) = noff h + 1.
Proof. unfold push_off. simpl. by destruct (noff h =? 0). Qed.

Lemma push_off_sie h : sie (push_off h) = false.
Proof. unfold push_off. simpl. by destruct (noff h =? 0). Qed.

Lemma pop_off_inl h h' :
  pop_off h = inl h' → 1 <= noff h ∧ noff h' = noff h - 1 ∧ (noff h' ≠ 0 → sie h' = false).
Proof.
  unfold pop_off, intr_get. destruct (sie h) eqn:Es; [done|].
  destruct (Z.ltb_spec (noff h) 1); [done|]. intros [= <-]. simpl.
  destruct (Z.eqb_spec (noff h - 1) 0), (intena h =? 0); simpl; repeat split; auto; lia.
Qed.

Lemma holding_true c lk s :
  holding c lk s = true ↔ locked (locks s lk) ≠ 0 ∧ cpu (locks s lk) = Some c.
Proof.
  unfold holding. rewrite andb_true_iff, negb_true_iff, Z.eqb_neq, bool_decide_eq_true. done.
Qed.

#[local] Opaque push_off pop_off.

Lemma inv_init c : init c → inv c.
Proof.
  intros (Hl & Hn & Hp & Ho & Hr). split.
  - intros lk. left. apply Hl.
  - intros lk. destruct (Hl lk) as [-> _]. split; [done|]. intros [i Hi]. rewrite Ho in Hi. set_solver.
  - intros lk i j Hi. rewrite Ho in Hi. set_solver.
  - intros lk i. destruct (Hl lk) as [_ ->]. rewrite Ho. set_solver.
  - intros i lk. rewrite Hp. intros [?|?]; done.
  - intros i lk. rewrite Hp. intros [?|?]; done.
  - intros i. rewrite Hn, Ho, Hr, Hp. done.
  - intros i. rewrite Hn. done.
Qed.

(** Look at hart [i] of a configuration that has changed at hart [c]. *)
Ltac at_hart c i :=
  destruct (decide (c = i)) as [<-|];
  [ repeat match goal with H : _ |- _ => progress rewrite fn_lookup_insert in H end;
    rewrite ?fn_lookup_insert; simpl
  | repeat match goal with H : context [<[c:=_]> _ i] |- _ => rewrite fn_lookup_insert_ne in H by done end;
    rewrite ?fn_lookup_insert_ne by done; simpl ].

Ltac at_lock lk lk' :=
  destruct (decide (lk = lk')) as [<-|];
  [ rewrite ?fn_lookup_insert; simpl | rewrite ?fn_lookup_insert_ne by done; simpl ].

Section preservation.
Variables (s : smp) (pc0 : nat → hpc) (ow : nat → gset lockid) (rw : nat → nat).
Hypothesis I : inv (MkConfig s pc0 ow rw).

Lemma run_owns_holding c lk : pc0 c = Run → lk ∈ ow c ↔ holding c lk s = true.
Proof.
  intros Hc. rewrite holding_true. rewrite (inv_cpu _ I). simpl. rewrite Hc. split.
  - intros H. split; [|done].
    assert (locked (locks s lk) = 1) as -> by (apply (inv_locked _ I); eauto). done.
  - by intros (_ & H & _).
Qed.

Lemma inv_enter c lk s' :
  pc0 c = Run → acquire_enter c lk s = ROk s' → inv (MkConfig s' (<[c := Spin lk]> pc0) ow rw).
Proof.
  intros Hc. unfold acquire_enter. destruct (holding _ _ _) eqn:Hh; intros [= <-].
  change (holding c lk s = false) in Hh.
  assert (lk ∉ ow c) as Hno.
  { rewrite run_owns_holding by done. by rewrite Hh. }
  destruct I as [I1 I2 I3 I4 I5 I6 I7 I8]; simpl in *. split; simpl; try done.
  - intros lk' i. rewrite I4. at_hart c i; [|done]. unfold owner_set. rewrite Hc. intuition congruence.
  - intros i lk'. at_hart c i; [intuition congruence|apply I5].
  - intros i lk'. at_hart c i; [intuition congruence|apply I6].
  - intros i. at_hart c i; [|apply I7]. rewrite push_off_noff, I7, Hc. simpl. lia.
  - intros i. at_hart c i; [|apply I8]. by rewrite push_off_sie.
Qed.

Lemma inv_spinning c lk v s' :
  pc0 c = Spin lk → test_and_set lk s = (v, s') → v ≠ 0 → inv (MkConfig s' pc0 ow rw).
Proof.
  intros Hc [= <- <-] Hv.
  assert (locked (locks s lk) = 1) as Hl by (destruct (inv_bit _ I lk); simpl in *; congruence).
  assert (∀ lk', locked (locks (set_locked lk 1 s) lk') = locked (locks s lk')
                 ∧ cpu (locks (set_locked lk 1 s) lk') = cpu (locks s lk')) as E.
  { intros lk'. unfold set_locked. simpl. at_lock lk lk'; [by rewrite Hl|done]. }
  destruct I as [I1 I2 I3 I4 I5 I6 I7 I8]. split; simpl in *; try done; intros lk'; destruct (E lk') as [E1 E2].
  - by rewrite E1.
  - by rewrite E1.
  - intros i. by rewrite E2.
Qed.

Lemma inv_got c lk s' :
  pc0 c = Spin lk → test_and_set lk s = (0, s') →
  inv (MkConfig s' (<[c := Got lk]> pc0) (<[c := {[lk]} ∪ ow c]> ow) rw).
Proof.
  intros Hc [= Hl <-]. destruct I as [I1 I2 I3 I4 I5 I6 I7 I8]; simpl in *.
  assert (∀ i, lk ∉ ow i) as Hno.
  { intros i Hi. assert (locked (locks s lk) = 1) by (apply I2; eauto). congruence. }
  split; simpl.
  - intros lk'. at_lock lk lk'; [by right|apply I1].
  - intros lk'. at_lock lk lk'.
    + split; [intros _|done]. exists c. rewrite fn_lookup_insert. set_solver.
    + rewrite I2. split; intros [i Hi]; exists i; revert Hi; at_hart c i; set_solver.
  - intros lk' i j. at_hart c i; at_hart c j; try done.
    + intros Hi Hj. apply elem_of_union in Hi as [Hi|Hi]; [|eauto].
      apply elem_of_singleton in Hi as ->. by destruct (Hno j).
    + intros Hi Hj. apply elem_of_union in Hj as [Hj|Hj]; [|eauto].
      apply elem_of_singleton in Hj as ->. by destruct (Hno i).
    + apply I3.
  - intros lk' i. unfold owner_set. at_lock lk lk'.
    + rewrite I4. at_hart c i; [|done]. specialize (Hno c). intuition congruence.
    + rewrite I4. at_hart c i; [|done]. unfold owner_set. rewrite Hc. set_solver.
  - intros i lk'. at_hart c i; [|apply I5]. intros [[= ->]|?]; [set_solver|done].
  - intros i lk'. at_hart c i; [intuition congruence|apply I6].
  - intros i. at_hart c i; [|apply I7]. rewrite I7, Hc, size_union by (specialize (Hno c); set_solver).
    rewrite size_singleton. simpl. lia.
  - done.
Qed.

Lemma inv_owner c lk :
  pc0 c = Got lk → inv (MkConfig (set_owner lk (Some c) s) (<[c := Run]> pc0) ow rw).
Proof.
  intros Hc. destruct I as [I1 I2 I3 I4 I5 I6 I7 I8]; simpl in *.
  assert (lk ∈ ow c) as Hin by (apply I5; auto).
  split; simpl.
  - intros lk'. at_lock lk lk'; apply I1.
  - intros lk'. at_lock lk lk'; apply I2.
  - done.
  - intros lk' i. unfold owner_set. at_lock lk lk'.
    + split; [intros [= <-]; rewrite fn_lookup_insert; done|].
      intros [Hi _]. f_equal. by eapply I3.
    + rewrite I4. at_hart c i; [|done]. unfold owner_set. rewrite Hc. intuition congruence.
  - intros i lk'. at_hart c i; [intuition congruence|apply I5].
  - intros i lk'. at_hart c i; [intuition congruence|apply I6].
  - intros i. at_hart c i; [|apply I7]. by rewrite I7, Hc.
  - done.
Qed.

Lemma inv_release c lk s' :
  pc0 c = Run → release_enter c lk s = ROk s' → inv (MkConfig s' (<[c := Rel lk]> pc0) ow rw).
Proof.
  intros Hc. unfold release_enter. destruct (holding c lk s) eqn:Hh; intros [= <-].
  apply run_owns_holding in Hh as Hin; [|done].
  destruct I as [I1 I2 I3 I4 I5 I6 I7 I8]; simpl in *. split; simpl.
  - intros lk'. at_lock lk lk'; apply I1.
  - intros lk'. at_lock lk lk'; apply I2.
  - done.
  - intros lk' i. unfold owner_set. at_lock lk lk'.
    + split; [done|]. intros [Hi Ho]. assert (c = i) as <- by (by eapply I3).
      rewrite fn_lookup_insert in Ho. intuition congruence.
    + rewrite I4. at_hart c i; [|done]. unfold owner_set. rewrite Hc. intuition congruence.
  - intros i lk'. at_hart c i; [|apply I5]. intros [?|[= ->]]; done.
  - intros i lk'. at_hart c i; [intuition congruence|apply I6].
  - intros i. at_hart c i; [|apply I7]. by rewrite I7, Hc.
  - done.
Qed.

Lemma inv_unlock c lk :
  pc0 c = Rel lk →
  inv (MkConfig (set_locked lk 0 s) (<[c := Rel2 lk]> pc0) (<[c := ow c ∖ {[lk]}]> ow) rw).
Proof.
  intros Hc. destruct I as [I1 I2 I3 I4 I5 I6 I7 I8]; simpl in *.
  assert (lk ∈ ow c) as Hin by (apply I5; auto).
  split; simpl.
  - intros lk'. at_lock lk lk'; [by left|apply I1].
  - intros lk'. at_lock lk lk'.
    + split; [done|]. intros [i Hi]. exfalso. revert Hi. at_hart c i; [set_solver|].
      intros Hi. by assert (c = i) by (by eapply I3).
    + rewrite I2. split; intros [i Hi]; exists i; revert Hi; at_hart c i; set_solver.
  - intros lk' i j. at_hart c i; at_hart c j; set_solver.
  - intros lk' i. at_lock lk lk'.
    + rewrite I4. unfold owner_set. at_hart c i; [rewrite Hc; set_solver|done].
    + rewrite I4. unfold owner_set. at_hart c i; [|done]. rewrite Hc. set_solver.
  - intros i lk'. at_hart c i; [intuition congruence|apply I5].
  - intros i lk'. at_hart c i; [|apply I6]. intros [?|[= ->]]; set_solver.
  - intros i. at_hart c i; [|apply I7]. rewrite I7, Hc, size_difference by set_solver.
    rewrite size_singleton. simpl.
    assert (size (ow c) ≠ 0%nat) by (apply size_non_empty_iff; set_solver). lia.
  - done.
Qed.

(** A step that changes only the nesting counters of hart [c]. *)
Lemma inv_hart c h pc' rw' :
  (∀ i, c ≠ i → pc' i = pc0 i ∧ rw' i = rw i) →
  (pc' c = pc0 c ∨ (∃ lk, pc0 c = Rel2 lk) ∧ pc' c = Run) →
  noff h = Z.of_nat (size (ow c)) + Z.of_nat (rw' c) + in_transit (pc' c) →
  (noff h ≠ 0 → sie h = false) →
  inv (MkConfig (set_cpu c h s) pc' ow rw').
Proof.
  intros Ho Hp Hn Hs. destruct I as [I1 I2 I3 I4 I5 I6 I7 I8]; simpl in *. split; simpl; try done.
  - intros lk' i. rewrite I4. unfold owner_set. destruct (decide (c = i)) as [<-|Hi].
    + destruct Hp as [->|[[lk Hlk] ->]]; [done|]. rewrite Hlk. intuition congruence.
    + by destruct (Ho i Hi) as [-> _].
  - intros i lk'. destruct (decide (c = i)) as [<-|Hi].
    + destruct Hp as [->|[[lk Hlk] ->]]; [apply I5|]. intuition congruence.
    + destruct (Ho i Hi) as [-> _]. apply I5.
  - intros i lk'. destruct (decide (c = i)) as [<-|Hi].
    + destruct Hp as [->|[[lk Hlk] ->]]; [apply I6|]. intuition congruence.
    + destruct (Ho i Hi) as [-> _]. apply I6.
  - intros i. at_hart c i; [done|]. destruct (Ho i n) as [-> ->]. apply I7.
  - intros i. at_hart c i; [done|apply I8].
Qed.

End preservation.

Lemma inv_step c c' : inv c → step c c' → inv c'.
Proof.
  intros I Hs. destruct Hs as [s pc ow rw c lk s' Hc Hs'|s pc ow rw c lk v s' Hc Hv Hv0
    |s pc ow rw c lk s' Hc Hv|s pc ow rw c lk Hc|s pc ow rw c lk s' Hc Hs'|s pc ow rw c lk Hc
    |s pc ow rw c lk h Hc Hh|s pc ow rw c Hc|s pc ow rw c h n Hc Hn Hh|s pc ow rw c b Hc Hn].
  - eapply inv_enter; eauto.
  - eapply inv_spinning; eauto.
  - eapply inv_got; eauto.
  - eapply inv_owner; eauto.
  - eapply inv_release; eauto.
  - eapply inv_unlock; eauto.
  - apply pop_off_inl in Hh as (Hge & E & Hsie). pose proof (inv_noff _ I c) as Hno. simpl in Hno.
    rewrite Hc in Hno. simpl in Hno. eapply inv_hart; eauto.
    + intros i Hi. by rewrite fn_lookup_insert_ne.
    + rewrite fn_lookup_insert. eauto.
    + rewrite fn_lookup_insert. simpl. lia.
  - pose proof (inv_noff _ I c) as Hno. simpl in Hno. eapply inv_hart; eauto.
    + intros i Hi. by rewrite fn_lookup_insert_ne.
    + rewrite push_off_noff, fn_lookup_insert. lia.
    + intros _. apply push_off_sie.
  - apply pop_off_inl in Hh as (Hge & E & Hsie). pose proof (inv_noff _ I c) as Hno. simpl in Hno.
    eapply inv_hart; eauto.
    + intros i Hi. by rewrite fn_lookup_insert_ne.
    + rewrite fn_lookup_insert. lia.
  - pose proof (inv_noff _ I c) as Hno. simpl in Hno. eapply inv_hart; eauto; destruct b; simpl; lia.
Qed.

Lemma reachable_inv c : reachable c → inv c.
Proof. induction 1; [by apply inv_init | by eapply inv_step]. Qed.

(** C21: mutual exclusion over all interleavings of all harts.  In every
    reachable configuration at most one hart is inside the critical section of
    a lock; it has interrupts disabled, and [holding] answers true exactly on
    the hart that has completed [acquire] and not yet begun [release]. *)
Theorem mutual_exclusion (c : config) :
  reachable c →
  ∀ lk i, lk ∈ owns c i →
    (∀ j, lk ∈ owns c j → j = i)
    ∧ sie (cpus (st c) i) = false
    ∧ (pc c i = Run → ∀ j, pc c j = Run → holding j lk (st c) = true ↔ j = i).
Proof.
  intros Hr lk i Hi. pose proof (reachable_inv c Hr) as I. repeat split.
  - intros j Hj. by eapply (inv_uniq _ I).
  - apply (inv_sie _ I). rewrite (inv_noff _ I).
    assert (size (owns c i) ≠ 0%nat) by (apply size_non_empty_iff; set_solver).
    destruct (pc c i); simpl; lia.
  - destruct c as [s pc0 ow rw]. simpl in *. intros Hj.
    apply (run_owns_holding s pc0 ow rw I) in Hj; [|done]. by eapply (inv_uniq _ I).
  - destruct c as [s pc0 ow rw]. simpl in *. intros ->.
    by apply (run_owns_holding s pc0 ow rw I).
Qed.

(** Hart 0 takes the lock of the log; hart 1 is spinning on it. *)
Definition ex_s0 : smp := MkSmp (λ _, MkSpinlock 0 "" None) (λ _, MkHart 0 0 true).
Definition ex_s1 : smp := set_cpu 0 (push_off (cpus ex_s0 0%nat)) ex_s0.
Definition ex_s2 : smp := set_locked LLog 1 ex_s1.
Definition ex_s3 : smp := set_owner LLog (Some 0%nat) ex_s2.
Definition ex_ow : nat → gset lockid := <[0%nat := {[LLog]} ∪ ∅]> (λ _, ∅).
Definition ex_pc : nat → hpc :=
  <[0%nat := Run]> (<[0%nat := Got LLog]> (<[0%nat := Spin LLog]> (λ _, Run))).
Definition example_config : config :=
  MkConfig (set_cpu 1 (push_off (cpus ex_s3 1%nat)) ex_s3) (<[1%nat := Spin LLog]> ex_pc) ex_ow (λ _, O).

Lemma example_reachable : reachable example_config.
Proof.
  eapply reach_step; [|apply (step_enter ex_s3 ex_pc ex_ow _ 1%nat LLog); reflexivity].
  eapply reach_step; [|apply (step_owner ex_s2 _ ex_ow _ 0%nat LLog); reflexivity].
  eapply reach_step; [|apply (step_got ex_s1 _ (λ _, ∅) _ 0%nat LLog); reflexivity].
  eapply reach_step; [|apply (step_enter ex_s0 _ _ _ 0%nat LLog); reflexivity].
  apply reach_init. repeat split.
Qed.

Lemma mutual_exclusion_witness :
  holding 0 LLog (st example_config) = true ∧ sie (cpus (st example_config) 0%nat) = false.
Proof.
  assert (LLog ∈ owns example_config 0%nat) as Hin.
  { simpl. unfold ex_ow. rewrite fn_lookup_insert. set_solver. }
  destruct (mutual_exclusion example_config example_reachable LLog 0%nat Hin) as (_ & Hs & Hh).
  split; [by apply Hh | exact Hs].
Defined.

(** ** Nesting of push_off and pop_off *)

Fixpoint pop_n (n : nat) (h : hart) : hart + string :=
  match n with
  | O => inl h
  | S n => match pop_off h with inl h => pop_n n h | inr m => inr m end
  end.

#[local] Transparent push_off pop_off.

Lemma pop_n_S n h :
  pop_n (S n) h = match pop_off h with inl h => pop_n n h | inr m => inr m end.
Proof. done. Qed.

Lemma pop_n_spec m g :
  Z.of_nat (S m) <= noff g → sie g = false →
  pop_n (S m) g =
  inl (MkHart (noff g - Z.of_nat (S m)) (intena g)
         ((noff g - Z.of_nat (S m) =? 0) && negb (intena g =? 0))).
Proof.
  revert g. induction m as [|m IH]; intros g Hn Hs; rewrite pop_n_S; unfold pop_off, intr_get;
    rewrite Hs; destruct (Z.ltb_spec (noff g) 1); try lia; cbn -[pop_n Z.of_nat].
  - unfold intr_on. simpl. change (Z.of_nat 1) with 1.
    by destruct ((noff g - 1 =? 0) && negb (intena g =? 0)).
  - destruct (Z.eqb_spec (noff g - 1) 0); [lia|]. cbn -[pop_n Z.of_nat].
    rewrite IH by (cbn -[Z.of_nat]; done || lia). cbn -[Z.of_nat].
    by replace (noff g - 1 - Z.of_nat (S m)) with (noff g - Z.of_nat (S (S m))) by lia.
Qed.

Lemma iter_push_off n h :
  0 <= noff h →
  Nat.iter (S n) push_off h =
  MkHart (noff h + Z.of_nat (S n))
    (if noff h =? 0 then if sie h then 1 else 0 else intena h) false.
Proof.
  intros Hn. induction n as [|n IH].
  - unfold push_off, intr_get, intr_off. simpl. by destruct (noff h =? 0).
  - change (Nat.iter (S (S n)) push_off h) with (push_off (Nat.iter (S n) push_off h)).
    rewrite IH. unfold push_off, intr_off. simpl.
    destruct (Z.eqb_spec (noff h + Z.of_nat (S n)) 0); [lia|]. simpl. f_equal. lia.
Qed.

(** [push_off] and [pop_off] are matched: [n] nested [push_off]s followed by
    [n] [pop_off]s do not panic and restore the nesting count and the
    interrupt-enable bit of the hart; in between interrupts are off. *)
Theorem push_pop_matched (n : nat) (h : hart) :
  0 <= noff h → (noff h ≠ 0 → sie h = false) →
  (∃ h', pop_n n (Nat.iter n push_off h) = inl h' ∧ noff h' = noff h ∧ sie h' = sie h)
  ∧ ((0 < n)%nat → sie (Nat.iter n push_off h) = false).
Proof.
  intros Hn Hs. destruct n as [|n]; [split; [by eauto|lia]|].
  rewrite iter_push_off by done. split; [|done].
  rewrite pop_n_spec by (cbn -[Z.of_nat]; done || lia). eexists. split; [done|]. cbn -[Z.of_nat].
  rewrite Z.add_simpl_r. split; [done|].
  destruct (Z.eqb_spec (noff h) 0); [by destruct (sie h)|]. simpl. by rewrite Hs.
Qed.

Lemma push_pop_matched_witness :
  ∃ h', pop_n 3 (Nat.iter 3 push_off (MkHart 0 0 true)) = inl h' ∧ noff h' = 0 ∧ sie h' = true.
Proof.
  destruct (push_pop_matched 3 (MkHart 0 0 true)) as [H _]; [simpl; lia|simpl; lia|]. exact H.
Defined.

(** ** Refinement: the lock set of a kernel thread *)

(** Hart [c] of [s] runs the kernel thread [w], which holds the locks that
    [holding] reports and has no other [push_off] pending. *)
Record sim (c : nat) (s : smp) (w : world) : Prop := {
  sim_held : ∀ lk, lk ∈ held w ↔ holding c lk s = true;
  sim_noff : noff (cpus s c) = Z.of_nat (size (held w));
  sim_sie : noff (cpus s c) ≠ 0 → sie (cpus s c) = false
}.

Lemma holding_set_cpu c c' h lk s : holding c lk (set_cpu c' h s) = holding c lk s.
Proof. done. Qed.

Lemma acquire_sim c lk s w :
  sim c s w → lk ∉ held w → locked (locks s lk) = 0 →
  ∃ s', acquire c lk s = ROk s' ∧ sim c s' (w <| held ::= λ h, {[lk]} ∪ h |>).
Proof.
  intros [Hh Hn Hs] Hno Hl. unfold acquire, acquire_enter. rewrite holding_set_cpu.
  destruct (holding c lk s) eqn:E; [by apply Hh in E|].
  unfold test_and_set. simpl. rewrite Hl. eexists. split; [done|]. split; simpl.
  - intros lk'. unfold holding, set_locked, set_owner. simpl. at_lock lk lk'.
    + rewrite bool_decide_eq_true_2 by done. set_solver.
    + rewrite elem_of_union, elem_of_singleton, Hh. unfold holding.
      rewrite ?fn_lookup_insert_ne by done. intuition congruence.
  - rewrite fn_lookup_insert, push_off_noff, Hn, size_union by set_solver.
    rewrite size_singleton. lia.
  - rewrite fn_lookup_insert. intros _. apply push_off_sie.
Qed.

Lemma release_sim c lk s w :
  sim c s w → lk ∈ held w →
  ∃ s', release c lk s = ROk s' ∧ sim c s' (w <| held ::= λ h, h ∖ {[lk]} |>).
Proof.
  intros [Hh Hn Hs] Hin. unfold release, release_enter.
  rewrite (proj1 (Hh lk) Hin). simpl.
  assert (size (held w) ≠ 0%nat) by (apply size_non_empty_iff; set_solver).
  assert (sie (cpus s c) = false) as Hsie by (apply Hs; lia).
  destruct (pop_off (cpus s c)) as [h|m] eqn:Ep.
  - apply pop_off_inl in Ep as (Hge & E & Hsie'). eexists. split; [done|]. split; simpl.
    + intros lk'. unfold holding, set_locked, set_owner. simpl. at_lock lk lk'; [set_solver|].
      rewrite ?fn_lookup_insert_ne by done. rewrite elem_of_difference, Hh, elem_of_singleton.
      unfold holding. intuition congruence.
    + rewrite fn_lookup_insert, E, Hn, size_difference by set_solver. rewrite size_singleton. lia.
    + by rewrite fn_lookup_insert.
  - exfalso. unfold pop_off, intr_get in Ep. rewrite Hsie in Ep.
    destruct (Z.ltb_spec (noff (cpus s c)) 1); [lia|done].
Qed.

(** C22: the spinlock code of a hart implements the lock-set operations that the
    kernel model uses.  [acquire] panics exactly when [Kernel.acquire] does,
    otherwise it enters the critical section, or spins because another owner
    has the lock; [release] agrees with [Kernel.release] in both outcomes. *)
Theorem lockset_refinement (c : nat) (lk : lockid) (s : smp) (w : world) :
  sim c s w →
  match acquire c lk s, Kernel.acquire lk w with
  | ROk s', Ok _ w' => sim c s' w'
  | RPanic m, Panic m' => m = m'
  | RSpin _, Ok _ _ => locked (locks s lk) ≠ 0
  | _, _ => False
  end
  ∧ match release c lk s, Kernel.release lk w with
    | ROk s', Ok _ w' => sim c s' w'
    | RPanic m, Panic m' => m = m'
    | _, _ => False
    end.
Proof.
  intros Hsim. destruct (decide (lk ∈ held w)) as [Hin|Hin].
  - rewrite acquire_held, release_held by done.
    destruct (release_sim c lk s w Hsim Hin) as (s' & -> & Hs'). split; [|done].
    unfold acquire, acquire_enter. rewrite holding_set_cpu.
    by rewrite (proj1 (sim_held _ _ _ Hsim lk) Hin).
  - rewrite acquire_free by done. unfold Kernel.release. rewrite decide_False by done.
    assert (holding c lk s = false) as Hf.
    { apply not_true_iff_false. by rewrite <- (sim_held _ _ _ Hsim). }
    split; [|unfold release, release_enter; by rewrite Hf].
    destruct (decide (locked (locks s lk) = 0)) as [Hl|Hl].
    + by destruct (acquire_sim c lk s w Hsim Hin Hl) as (s' & -> & Hs').
    + unfold acquire, acquire_enter. rewrite holding_set_cpu, Hf. unfold test_and_set. simpl.
      by destruct (locked (locks s lk)).
Qed.

Lemma lockset_refinement_witness :
  ∃ s', acquire 0 LKmem ex_s0 = ROk s' ∧ holding 0 LKmem s' = true.
Proof.
  destruct (lockset_refinement 0 LKmem ex_s0 boot_world) as [H _].
  { split; simpl; [|reflexivity|done]. intros lk. unfold holding. simpl. set_solver. }
  rewrite acquire_free in H by (simpl; set_solver).
  assert (acquire 0 LKmem ex_s0 = ROk (set_owner LKmem (Some 0%nat) (set_locked LKmem 1 ex_s1))) as E by reflexivity.
  rewrite E in H. eexists. split; [exact E|]. apply (sim_held _ _ _ H). simpl. set_solver.
Defined.
