(* ===== verification/Kalloc.v ===== *)
(** * kernel/kalloc.c

    The physical page allocator.  The free list is threaded through the free
    pages themselves: the first 8 bytes of a free page hold the address of the
    next one.  [free_pages] is the abstract contract, the list of free pages;
    [kalloc] pops it, [kfree] pushes onto it. *)

From S2P Require Import Prelude Memory CString Kernel.

(** Symbols the linker script (kernel.ld) provides. *)
Class Image := {
  kend : Z;         (** end: first address after the kernel *)
  ketext : Z;       (** etext: end of the kernel text *)
  ktrampoline : Z   (** trampoline: physical address of the trampoline page *)
}.

(** What kernel.ld guarantees about them. *)
Class ImageOk `{Image} := {
  kend_range : KERNBASE < kend <= PHYSTOP;
  ketext_range : KERNBASE < ketext <= kend;
  ketext_aligned : aligned PGSIZE ketext;
  ktrampoline_range : KERNBASE <= ktrampoline < ketext;
  ktrampoline_aligned : aligned PGSIZE ktrampoline
}.

Section kalloc.
Context `{Image}.

(** ** Operations *)

Definition kfree (pa : Z) : K unit :=
  panic_if (negb (pa mod PGSIZE =? 0) || (pa <? kend) || (PHYSTOP <=? pa)) "kfree";;
  modify (λ s, s <| k_mem ::= memset pa 1 PGSIZE |>);;
  acquire LKmem;;
  fl ← gets k_freelist;
  modify (λ s, s <| k_mem ::= λ m, sd64 m pa fl |>);;
  modify (λ s, s <| k_freelist := pa |>);;
  release LKmem.

Definition kalloc : K Z :=
  acquire LKmem;;
  r ← gets k_freelist;
  when (negb (r =? 0)) (modify (λ s, s <| k_freelist := ld64 (k_mem s) r |>));;
  release LKmem;;
  when (negb (r =? 0)) (modify (λ s, s <| k_mem ::= memset r 5 PGSIZE |>));;
  mret r.

Fixpoint freerange_loop (fuel : nat) (p pa_end : Z) : K unit :=
  match fuel with
  | O => diverge
  | S fuel =>
    if p + PGSIZE <=? pa_end then kfree p;; freerange_loop fuel (p + PGSIZE) pa_end
    else mret ()
  end.

(** At most [pa_end / PGSIZE] pages end at or below [pa_end]. *)
Definition freerange (pa_start pa_end : Z) : K unit :=
  freerange_loop (S (Z.to_nat (pa_end / PGSIZE))) (PGROUNDUP pa_start) pa_end.

Definition kinit : K unit :=
  initlock LKmem;;
  freerange kend PHYSTOP.

Fixpoint get_freemem_loop (fuel : nat) (p freemem : Z) (m : mem) : option Z :=
  match fuel with
  | O => None
  | S fuel => if p =? 0 then Some freemem
              else get_freemem_loop fuel (ld64 m p) (i32 (freemem + PGSIZE)) m
  end.

(** The fuel exceeds the number of pages in RAM. *)
Definition get_freemem : K Z :=
  s ← gets id;
  match get_freemem_loop (S (Z.to_nat ((PHYSTOP - KERNBASE) / PGSIZE))) (k_freelist s) 0 (k_mem s) with
  | Some v => mret v
  | None => diverge
  end.

(** ** The abstract free list *)

Definition page_ok (a : Z) : Prop := aligned PGSIZE a ∧ kend <= a < PHYSTOP.

Fixpoint flist (m : mem) (p : Z) (l : list Z) : Prop :=
  match l with
  | [] => p = 0
  | a :: l => p = a ∧ flist m (ld64 m a) l
  end.

Definition free_pages (k : kstate) (l : list Z) : Prop :=
  flist (k_mem k) (k_freelist k) l ∧ NoDup l ∧ Forall page_ok l.

(** [x] is a byte of page [a]. *)
Definition in_page (a x : Z) : Prop := a <= x < a + PGSIZE.

(** ** Lemmas *)

Lemma flist_ext m m' p l :
  (∀ a, a ∈ l → ∀ x, a <= x < a + 8 → m' x = m x) → flist m p l → flist m' p l.
Proof.
  revert p. induction l as [|a l IH]; intros p Hm; simpl; [done|]. intros [-> Hl]. split; [done|].
  rewrite (ld64_ext m' m) by (intros; apply (Hm a); set_solver). apply IH; [set_solver|done].
Qed.

Lemma page_ok_nonzero `{!ImageOk} a : page_ok a → a ≠ 0.
Proof. intros [_ Ha]. pose proof kend_range. unfold KERNBASE in *. lia. Qed.

Lemma pages_apart a b x y :
  page_ok a → page_ok b → a ≠ b → in_page a x → in_page b y → x ≠ y.
Proof.
  intros [Ha _] [Hb _] Hne Hx Hy. unfold in_page, PGSIZE in *.
  destruct (aligned_apart 4096 a b); try done; lia.
Qed.

(** What [kfree] and [kalloc] do to the shared state. *)
Definition kfree_upd (pa : Z) (k : kstate) : kstate :=
  k <| k_mem := sd64 (memset pa 1 PGSIZE (k_mem k)) pa (k_freelist k) |> <| k_freelist := pa |>.

Definition kalloc_upd (r : Z) (k : kstate) : kstate :=
  k <| k_freelist := ld64 (k_mem k) r |> <| k_mem := memset r 5 PGSIZE (k_mem k) |>.

Lemma kfree_run pa w :
  page_ok pa → LKmem ∉ held w → kfree pa w = Ok () (w <| ks ::= kfree_upd pa |>).
Proof.
  intros [Hal Hr] Hlk. unfold kfree.
  assert (negb (pa mod PGSIZE =? 0) || (pa <? kend) || (PHYSTOP <=? pa) = false) as ->.
  { unfold aligned in Hal. rewrite Hal.
    destruct (Z.ltb_spec pa kend), (Z.leb_spec PHYSTOP pa); simpl; try done; lia. }
  repeat kstep. exact (locked_section LKmem w (kfree_upd pa (ks w)) Hlk).
Qed.

Lemma kfree_bad pa w : ¬ page_ok pa → kfree pa w = Panic "kfree".
Proof.
  intros Hbad. unfold kfree.
  assert (negb (pa mod PGSIZE =? 0) || (pa <? kend) || (PHYSTOP <=? pa) = true) as ->; [|done].
  destruct (Z.eqb_spec (pa mod PGSIZE) 0), (Z.ltb_spec pa kend), (Z.leb_spec PHYSTOP pa); try done.
  exfalso. apply Hbad. split; [done|lia].
Qed.

Lemma kalloc_run_nonnull w :
  k_freelist (ks w) ≠ 0 → LKmem ∉ held w →
  kalloc w = Ok (k_freelist (ks w)) (w <| ks ::= kalloc_upd (k_freelist (ks w)) |>).
Proof.
  intros Hr Hlk. unfold kalloc. repeat kstep. simpl.
  apply Z.eqb_neq in Hr. rewrite Hr. simpl. repeat kstep.
  erewrite bind_ok by exact (locked_section LKmem w
    ((ks w) <| k_freelist := ld64 (k_mem (ks w)) (k_freelist (ks w)) |>) Hlk).
  repeat kstep. reflexivity.
Qed.

Lemma kalloc_run_null w :
  k_freelist (ks w) = 0 → LKmem ∉ held w → kalloc w = Ok 0 w.
Proof.
  intros Hr Hlk. unfold kalloc. repeat kstep. simpl. rewrite Hr. simpl. repeat kstep.
  erewrite bind_ok by exact (locked_section LKmem w (ks w) Hlk).
  destruct w. reflexivity.
Qed.

Lemma kfree_mem_out pa k x : ¬ in_page pa x → k_mem (kfree_upd pa k) x = k_mem k x.
Proof.
  unfold in_page. intros Hx. simpl. rewrite sd64_out by (unfold PGSIZE in Hx; lia).
  rewrite memset_spec by (unfold PGSIZE; lia).
  destruct (Z.leb_spec pa x), (Z.ltb_spec x (pa + PGSIZE)); simpl; done || lia.
Qed.

Lemma kalloc_mem_out r k x : ¬ in_page r x → k_mem (kalloc_upd r k) x = k_mem k x.
Proof.
  unfold in_page. intros Hx. simpl. rewrite memset_spec by (unfold PGSIZE; lia).
  destruct (Z.leb_spec r x), (Z.ltb_spec x (r + PGSIZE)); simpl; done || lia.
Qed.

Lemma kalloc_mem_in r k x : in_page r x → k_mem (kalloc_upd r k) x = 5.
Proof.
  unfold in_page. intros Hx. simpl. rewrite memset_spec by (unfold PGSIZE; lia).
  destruct (Z.leb_spec r x), (Z.ltb_spec x (r + PGSIZE)); simpl; done || lia.
Qed.

Lemma flist_range m p l : flist m p l → Forall page_ok l → 0 <= p < 2 ^ 64 ∨ kend < 0.
Proof.
  destruct l; simpl; [lia|]. intros [-> _] Hf. apply Forall_cons_1 in Hf as [[_ Hr] _].
  unfold PHYSTOP, KERNBASE in Hr. lia.
Qed.

Lemma free_pages_kfree `{!ImageOk} pa k l :
  page_ok pa → pa ∉ l → free_pages k l → free_pages (kfree_upd pa k) (pa :: l).
Proof.
  intros Hpa Hni (Hf & Hnd & Hok). split; [|split; [by constructor|by constructor]].
  simpl. split; [done|]. rewrite ld64_sd64.
  assert (0 <= k_freelist k < 2 ^ 64) as Hr.
  { destruct (flist_range _ _ _ Hf Hok); [done|]. pose proof kend_range. unfold KERNBASE in *. lia. }
  rewrite u64_small by done.
  apply (flist_ext (k_mem k)); [|done]. intros a Ha x Hx.
  apply (kfree_mem_out pa k x). intros Hin. rewrite list.Forall_forall in Hok.
  assert (pa ≠ a) as Hne by (intros ->; done).
  apply (pages_apart pa a x x Hpa (Hok a Ha) Hne); [done| |done]. unfold in_page, PGSIZE. lia.
Qed.

Lemma free_pages_kalloc `{!ImageOk} a k l :
  free_pages k (a :: l) → k_freelist k = a ∧ free_pages (kalloc_upd a k) l.
Proof.
  intros ([Hp Hf] & Hnd & Hok). apply list.NoDup_cons in Hnd as [Hni Hnd].
  apply Forall_cons_1 in Hok as [Ha Hok]. split; [done|]. split; [|done]. simpl.
  apply (flist_ext (k_mem k)); [|done]. intros b Hb x Hx.
  apply (kalloc_mem_out a k x). intros Hin. rewrite list.Forall_forall in Hok.
  assert (a ≠ b) as Hne by (intros ->; done).
  apply (pages_apart a b x x Ha (Hok b Hb) Hne); [done| |done]. unfold in_page, PGSIZE. lia.
Qed.

(** ** freerange and kinit *)

Fixpoint pages (p : Z) (n : nat) : list Z :=
  match n with
  | O => []
  | S n => p :: pages (p + PGSIZE) n
  end.

Lemma elem_of_pages p n a :
  a ∈ pages p n ↔ ∃ i, 0 <= i < Z.of_nat n ∧ a = p + PGSIZE * i.
Proof.
  revert p. induction n as [|n IH]; intros p; cbn [pages].
  - rewrite elem_of_nil. split; [done|]. intros (i & Hi & _). lia.
  - rewrite elem_of_cons, IH. split.
    + intros [->|(i & Hi & ->)]; [exists 0; lia | exists (i + 1); lia].
    + intros (i & Hi & ->). destruct (decide (i = 0)) as [->|]; [left; lia|].
      right. exists (i - 1). lia.
Qed.

(** The shared state differs only in the memory and the free list head. *)
Definition mem_only (w w' : world) : Prop :=
  ∃ m fl, w' = w <| ks ::= λ k, k <| k_mem := m |> <| k_freelist := fl |> |>.

Lemma mem_only_trans w1 w2 w3 : mem_only w1 w2 → mem_only w2 w3 → mem_only w1 w3.
Proof. intros (m1 & f1 & ->) (m2 & f2 & ->). by exists m2, f2. Qed.

Lemma mem_only_refl w : mem_only w w.
Proof. exists (k_mem (ks w)), (k_freelist (ks w)). by destruct w as [[] ? ? ?]. Qed.

Lemma mem_only_kfree p w : mem_only w (w <| ks ::= kfree_upd p |>).
Proof. exists (k_mem (kfree_upd p (ks w))), p. unfold set_field at 1 2, set_ks. by f_equal. Qed.

Lemma mem_only_kalloc r w : mem_only w (w <| ks ::= kalloc_upd r |>).
Proof.
  exists (k_mem (kalloc_upd r (ks w))), (ld64 (k_mem (ks w)) r).
  unfold set_field at 1 2, set_ks. by f_equal.
Qed.

Lemma freerange_loop_spec `{!ImageOk} n fuel p pa_end w l :
  (n < fuel)%nat → p + PGSIZE * Z.of_nat n <= pa_end < p + PGSIZE * (Z.of_nat n + 1) →
  aligned PGSIZE p → kend <= p → pa_end <= PHYSTOP →
  LKmem ∉ held w → free_pages (ks w) l → (∀ a, a ∈ l → a < p) →
  ∃ w', freerange_loop fuel p pa_end w = Ok () w' ∧ mem_only w w'
        ∧ free_pages (ks w') (reverse (pages p n) ++ l).
Proof.
  revert fuel p w l. induction n as [|n IH]; intros fuel p w l Hfuel Hn Hal Hp Hend Hlk Hfp Hl;
    destruct fuel as [|fuel]; try lia; cbn [freerange_loop].
  - destruct (Z.leb_spec (p + PGSIZE) pa_end); [lia|].
    exists w. repeat split; [apply mem_only_refl|apply Hfp..].
  - destruct (Z.leb_spec (p + PGSIZE) pa_end) as [_|]; [|unfold PGSIZE in *; lia].
    assert (page_ok p) as Hok by (split; [done|unfold PGSIZE in *; lia]).
    rewrite (bind_ok _ _ _ _ _ (kfree_run p w Hok Hlk)).
    destruct (IH fuel (p + PGSIZE) (w <| ks ::= kfree_upd p |>) (p :: l)) as (w' & E & Hm & Hf).
    + lia.
    + lia.
    + apply aligned_add; [unfold PGSIZE; lia|done|]. apply Z.mod_same. unfold PGSIZE. lia.
    + unfold PGSIZE in *. lia.
    + done.
    + done.
    + apply free_pages_kfree; [done| |done]. intros Hin. specialize (Hl p Hin). lia.
    + intros a [->|Hin]%elem_of_cons; [unfold PGSIZE; lia|]. specialize (Hl a Hin). unfold PGSIZE. lia.
    + exists w'. split; [done|]. split.
      * eapply mem_only_trans; [apply mem_only_kfree|done].
      * cbn [pages]. by rewrite reverse_cons, <- app_assoc.
Qed.

Lemma page_ok_index `{!ImageOk} a :
  let p := PGROUNDUP kend in
  page_ok a ↔ a ∈ pages p (Z.to_nat ((PHYSTOP - p) / PGSIZE)).
Proof.
  intros p. pose proof kend_range as Hk.
  destruct (PGROUNDUP_spec kend) as [Hal Hp]; [unfold PHYSTOP, KERNBASE, PGSIZE in *; lia|].
  fold p in Hal, Hp. rewrite elem_of_pages. unfold page_ok, aligned, PHYSTOP, KERNBASE, PGSIZE in *.
  apply Z.mod_divide in Hal as [q Hq]; [|lia]. rewrite Hq in *. clear Hq p.
  replace (2147483648 + 128 * 1024 * 1024 - q * 4096) with ((557056 - q) * 4096) by lia.
  rewrite Z.div_mul by lia. rewrite Z2Nat.id by lia. split.
  - intros [Ha Hr]. apply Z.mod_divide in Ha as [r ->]; [|lia]. exists (r - q). lia.
  - intros (i & Hi & ->). split; [|lia].
    replace (q * 4096 + 4096 * i) with ((q + i) * 4096) by lia. apply Z.mod_mul. lia.
Qed.

(** ** Theorems *)

(** C37: [kalloc] implements "take a page off the free list": with no free page it
    returns 0 and changes nothing; otherwise it returns a page that is aligned,
    inside RAM and no longer free, filled with junk, and no byte outside that
    page and no other kernel variable changes. *)
Theorem kalloc_refines `{!ImageOk} (w : world) (l : list Z) :
  free_pages (ks w) l → LKmem ∉ held w →
  match l with
  | [] => kalloc w = Ok 0 w
  | a :: l' =>
    ∃ w', kalloc w = Ok a w' ∧ mem_only w w' ∧ free_pages (ks w') l' ∧ page_ok a ∧ a ∉ l'
      ∧ (∀ x, in_page a x → k_mem (ks w') x = 5)
      ∧ (∀ x, ¬ in_page a x → k_mem (ks w') x = k_mem (ks w) x)
  end.
Proof.
  intros Hf Hlk. destruct l as [|a l'].
  - apply kalloc_run_null; [apply Hf|done].
  - destruct (free_pages_kalloc a (ks w) l' Hf) as [E Hf'].
    destruct Hf as (_ & Hnd & Hok).
    apply list.NoDup_cons in Hnd as [Hni _]. apply list.Forall_cons in Hok as [Ha _].
    eexists. rewrite <- E at 1. rewrite <- E in Ha, Hf'.
    split; [apply kalloc_run_nonnull; [by apply page_ok_nonzero|done]|].
    rewrite E in *. split; [apply mem_only_kalloc|]. repeat split; auto; try apply Hf'; try apply Ha.
    + intros x. apply kalloc_mem_in.
    + intros x. apply kalloc_mem_out.
Qed.

(** [kfree] implements "put a page on the free list" for a page of RAM that
    is not already free, touching only that page; any other address panics
    before anything is changed. *)
Theorem kfree_refines `{!ImageOk} (w : world) (l : list Z) (pa : Z) :
  free_pages (ks w) l → LKmem ∉ held w → pa ∉ l →
  (page_ok pa →
   ∃ w', kfree pa w = Ok () w' ∧ mem_only w w' ∧ free_pages (ks w') (pa :: l)
     ∧ ∀ x, ¬ in_page pa x → k_mem (ks w') x = k_mem (ks w) x)
  ∧ (¬ page_ok pa → kfree pa w = Panic "kfree").
Proof.
  intros Hf Hlk Hni. split; [|apply kfree_bad]. intros Hok. eexists.
  split; [by apply kfree_run|]. split; [apply mem_only_kfree|].
  split; [by apply free_pages_kfree|]. intros x. apply kfree_mem_out.
Qed.

Lemma kinit_spec `{!ImageOk} w :
  k_freelist (ks w) = 0 → LKmem ∉ held w →
  ∃ w', kinit w = Ok () w' ∧ mem_only w w'
    ∧ free_pages (ks w') (reverse (pages (PGROUNDUP kend)
                                     (Z.to_nat ((PHYSTOP - PGROUNDUP kend) / PGSIZE)))).
Proof.
  intros Hz Hlk. pose proof kend_range as Hk.
  destruct (PGROUNDUP_spec kend) as [Hal Hp]; [unfold PHYSTOP, KERNBASE, PGSIZE in *; lia|].
  assert (PGROUNDUP kend <= PHYSTOP) as Hle.
  { unfold aligned, PHYSTOP, KERNBASE, PGSIZE in *. apply Z.mod_divide in Hal as [q Hq]; lia. }
  unfold kinit, freerange. erewrite bind_ok by reflexivity.
  set (p := PGROUNDUP kend) in *.
  destruct (freerange_loop_spec (Z.to_nat ((PHYSTOP - p) / PGSIZE))
              (S (Z.to_nat (PHYSTOP / PGSIZE))) p PHYSTOP w []) as (w' & E & Hm & Hf).
  - assert ((PHYSTOP - p) / PGSIZE <= PHYSTOP / PGSIZE); [|lia].
    apply Z.div_le_mono; [done|]. unfold KERNBASE in *. lia.
  - rewrite Z2Nat.id by (apply Z.div_pos; [lia|done]).
    pose proof (Z.div_mod (PHYSTOP - p) PGSIZE ltac:(done)).
    pose proof (Z.mod_pos_bound (PHYSTOP - p) PGSIZE ltac:(done)). lia.
  - done.
  - lia.
  - done.
  - done.
  - split; [done|]. by split; constructor.
  - set_solver.
  - exists w'. by rewrite app_nil_r in Hf.
Qed.

(** after [kinit] the free list holds every page of physical memory between
    the end of the kernel and PHYSTOP, each exactly once, and nothing else. *)
Theorem kinit_frees_all `{!ImageOk} (w : world) :
  k_freelist (ks w) = 0 → LKmem ∉ held w →
  ∃ w' l, kinit w = Ok () w' ∧ free_pages (ks w') l ∧ NoDup l ∧ ∀ a, a ∈ l ↔ page_ok a.
Proof.
  intros Hz Hlk. destruct (kinit_spec w Hz Hlk) as (w' & E & _ & Hf).
  eexists w', _. split; [done|]. split; [done|]. split; [apply Hf|].
  intros a. rewrite elem_of_reverse. symmetry. apply page_ok_index.
Qed.

Lemma length_pages p n : length (pages p n) = n.
Proof. revert p. induction n; intros; simpl; [done|]. by rewrite IHn. Qed.

Lemma free_pages_length `{!ImageOk} k l :
  free_pages k l → Z.of_nat (length l) <= (PHYSTOP - KERNBASE) / PGSIZE.
Proof.
  intros (_ & Hnd & Hok).
  assert (l ⊆+ pages (PGROUNDUP kend) (Z.to_nat ((PHYSTOP - PGROUNDUP kend) / PGSIZE))) as Hs.
  { apply NoDup_submseteq; [done|]. intros a Ha. apply page_ok_index.
    rewrite list.Forall_forall in Hok. by apply Hok. }
  apply submseteq_length in Hs. rewrite length_pages in Hs.
  pose proof kend_range as Hk.
  destruct (PGROUNDUP_spec kend) as [_ Hp]; [unfold PHYSTOP, KERNBASE, PGSIZE in *; lia|].
  assert ((PHYSTOP - PGROUNDUP kend) / PGSIZE <= (PHYSTOP - KERNBASE) / PGSIZE).
  { apply Z.div_le_mono; [done|]. lia. }
  assert (0 <= (PHYSTOP - KERNBASE) / PGSIZE) by done. lia.
Qed.

Lemma get_freemem_loop_spec `{!ImageOk} m p l fuel acc :
  flist m p l → Forall page_ok l → (length l < fuel)%nat →
  0 <= acc → acc + PGSIZE * Z.of_nat (length l) < 2 ^ 31 →
  get_freemem_loop fuel p acc m = Some (acc + PGSIZE * Z.of_nat (length l)).
Proof.
  revert p fuel acc. induction l as [|a l IH]; intros p fuel acc Hf Hok Hfuel Ha Hb;
    destruct fuel as [|fuel]; simpl in Hfuel; try lia; cbn [get_freemem_loop].
  - rewrite Hf. simpl. f_equal. lia.
  - destruct Hf as [-> Hf]. apply list.Forall_cons in Hok as [Hpa Hok].
    destruct (Z.eqb_spec a 0) as [E|_]; [by apply page_ok_nonzero in Hpa|].
    simpl length in *. unfold PGSIZE in *.
    rewrite i32_small by lia. rewrite IH; [|done..|lia|lia|lia]. f_equal. lia.
Qed.

(** [get_freemem] (the sysinfo extension) terminates on a well-formed free
    list and returns exactly PGSIZE times its length; its [int] accumulator
    cannot overflow, however many pages are free. *)
Theorem get_freemem_exact `{!ImageOk} (w : world) (l : list Z) :
  free_pages (ks w) l →
  get_freemem w = Ok (PGSIZE * Z.of_nat (length l)) w
  ∧ 0 <= PGSIZE * Z.of_nat (length l) <= 128 * 1024 * 1024.
Proof.
  intros Hf. pose proof (free_pages_length _ _ Hf) as Hlen.
  change ((PHYSTOP - KERNBASE) / PGSIZE) with 32768 in *. destruct Hf as (Hf & Hnd & Hok).
  split; [|unfold PGSIZE; lia].
  unfold get_freemem. change ((PHYSTOP - KERNBASE) / PGSIZE) with 32768.
  erewrite bind_ok by reflexivity.
  erewrite get_freemem_loop_spec; [reflexivity|done..|lia|lia|].
  unfold PGSIZE. lia.
Qed.

End kalloc.

(** ** Witnesses: a kernel image that leaves two pages of RAM free *)

Definition two_pages : Image := {| kend := PHYSTOP - 8192; ketext := KERNBASE + 8192; ktrampoline := KERNBASE + 4096 |}.

Lemma two_pages_ok : @ImageOk two_pages.
Proof. split; simpl; unfold PHYSTOP, KERNBASE; try lia; reflexivity. Qed.

Definition pg0 : Z := PHYSTOP - 8192.
Definition pg1 : Z := PHYSTOP - 4096.

(** Power-on memory with both pages on the free list. *)
Definition two_free : kstate :=
  @kfree_upd pg1 (@kfree_upd pg0 boot_kstate).

Lemma two_free_pages : @free_pages two_pages two_free [pg1; pg0].
Proof.
  pose proof two_pages_ok.
  assert (@page_ok two_pages pg0) by (split; [reflexivity|simpl; unfold pg0, PHYSTOP, KERNBASE; lia]).
  assert (@page_ok two_pages pg1) by (split; [reflexivity|simpl; unfold pg1, PHYSTOP, KERNBASE; lia]).
  apply (free_pages_kfree (H:=two_pages)); [done|unfold pg0, pg1; set_solver by lia|].
  apply (free_pages_kfree (H:=two_pages)); [done|set_solver|].
  split; [done|]. by split; constructor.
Qed.

Definition two_world : world := boot_world <| ks := two_free |>.

Lemma kalloc_refines_witness : ∃ w', @kalloc two_world = Ok pg1 w' ∧ k_mem (ks w') pg1 = 5.
Proof.
  destruct (@kalloc_refines two_pages two_pages_ok two_world [pg1; pg0] two_free_pages)
    as (w' & E & _ & _ & _ & _ & Hin & _); [simpl; set_solver|].
  exists w'. split; [exact E|]. apply Hin. unfold in_page, PGSIZE. lia.
Defined.

Lemma kfree_refines_witness : @kfree two_pages 12345 two_world = Panic "kfree".
Proof.
  destruct (@kfree_refines two_pages two_pages_ok two_world [pg1; pg0] 12345 two_free_pages) as [_ H].
  - simpl. set_solver.
  - unfold pg0, pg1, PHYSTOP, KERNBASE. rewrite !elem_of_cons, elem_of_nil. lia.
  - apply H. intros [Hal _]. discriminate Hal.
Defined.

Lemma kinit_frees_all_witness :
  ∃ w' l, @kinit two_pages boot_world = Ok () w' ∧ @free_pages two_pages (ks w') l ∧ pg0 ∈ l.
Proof.
  destruct (@kinit_frees_all two_pages two_pages_ok boot_world) as (w' & l & E & Hf & _ & Hl).
  - reflexivity.
  - simpl. set_solver.
  - exists w', l. split; [exact E|]. split; [exact Hf|]. apply Hl.
    split; [reflexivity|]. simpl. unfold pg0, PHYSTOP, KERNBASE. lia.
Defined.

Lemma get_freemem_exact_witness : get_freemem two_world = Ok 8192 two_world.
Proof.
  destruct (@get_freemem_exact two_pages two_pages_ok two_world [pg1; pg0] two_free_pages) as [E _].
  exact E.
Defined.
