(* ===== verification/Vm.v ===== *)
(** * kernel/vm.c

    Sv39 page tables in physical memory.  A page table is the address of its
    root page; page-table entries are 64-bit words read and written with
    [ld64]/[sd64]; page-table pages and user pages come from [Kalloc.kalloc].
    A C function that returns a null pointer on failure returns [None] here
    ([walk]) or 0 ([walkaddr], [uvmalloc], ...), as its callers test it.

    Kernel buffers that [copyout], [copyin] and [copyinstr] transfer are byte
    lists: [copyout] is given the bytes at [src], [copyin] and [copyinstr]
    return, next to their result, the bytes they stored at [dst]. *)

From S2P Require Import Prelude Memory CString Kernel Kalloc.

Section vm.
Context `{Image}.

(** ** walk *)

(** One iteration of the loop of [walk]; [None] is [return 0]. *)
Definition walk_level (level va : Z) (alloc : bool) (pagetable : Z) : K (option Z) :=
  let ptea := pagetable + 8 * PX level va in
  pte ← gets (λ s, ld64 (k_mem s) ptea);
  if negb (Z.land pte PTE_V =? 0) then mret (Some (PTE2PA pte))
  else if negb alloc then mret None
  else
    pt ← kalloc;
    if pt =? 0 then mret None
    else
      modify (λ s, s <| k_mem ::= memset pt 0 PGSIZE |>);;
      modify (λ s, s <| k_mem ::= λ m, sd64 m ptea (Z.lor (PA2PTE pt) PTE_V) |>);;
      mret (Some pt).

Definition walk (pagetable va : Z) (alloc : bool) : K (option Z) :=
  panic_if (MAXVA <=? va) "walk";;
  r ← walk_level 2 va alloc pagetable;
  match r with
  | None => mret None
  | Some pt =>
    r ← walk_level 1 va alloc pt;
    match r with
    | None => mret None
    | Some pt => mret (Some (pt + 8 * PX 0 va))
    end
  end.

Definition walkaddr (pagetable va : Z) : K Z :=
  if MAXVA <=? va then mret 0
  else
    r ← walk pagetable va false;
    match r with
    | None => mret 0
    | Some ptea =>
      pte ← gets (λ s, ld64 (k_mem s) ptea);
      if Z.land pte PTE_V =? 0 then mret 0
      else if Z.land pte PTE_U =? 0 then mret 0
      else mret (PTE2PA pte)
    end.

(** ** mappages *)

Fixpoint mappages_loop (fuel : nat) (pagetable a last pa perm : Z) : K Z :=
  match fuel with
  | O => diverge
  | S fuel =>
    r ← walk pagetable a true;
    match r with
    | None => mret (-1)
    | Some ptea =>
      pte ← gets (λ s, ld64 (k_mem s) ptea);
      panic_if (negb (Z.land pte PTE_V =? 0)) "mappages: remap";;
      modify (λ s, s <| k_mem ::= λ m, sd64 m ptea (Z.lor (Z.lor (PA2PTE pa) perm) PTE_V) |>);;
      if a =? last then mret 0
      else mappages_loop fuel pagetable (u64 (a + PGSIZE)) last (u64 (pa + PGSIZE)) perm
    end
  end.

(** The loop visits one page per iteration from [a] to [last]; should [last] be
    below [a], it runs into the panic of [walk] at MAXVA. *)
Definition mappages (pagetable va size pa perm : Z) : K Z :=
  panic_if (size =? 0) "mappages: size";;
  let a := PGROUNDDOWN va in
  let last := PGROUNDDOWN (u64 (va + size - 1)) in
  let fuel := if a <=? last then S (Z.to_nat ((last - a) / PGSIZE))
              else S (Z.to_nat ((MAXVA - a) / PGSIZE)) in
  mappages_loop fuel pagetable a last pa perm.

Definition kvmmap (kpgtbl va pa sz perm : Z) : K unit :=
  r ← mappages kpgtbl va sz pa perm;
  panic_if (negb (r =? 0)) "kvmmap".

(** ** uvmunmap *)

Fixpoint uvmunmap_loop (fuel : nat) (pagetable a aend : Z) (do_free : bool) : K unit :=
  match fuel with
  | O => diverge
  | S fuel =>
    if a <? aend then
      r ← walk pagetable a false;
      match r with
      | None => panic "uvmunmap: walk"
      | Some ptea =>
        pte ← gets (λ s, ld64 (k_mem s) ptea);
        panic_if (Z.land pte PTE_V =? 0) "uvmunmap: not mapped";;
        panic_if (PTE_FLAGS pte =? PTE_V) "uvmunmap: not a leaf";;
        when do_free (kfree (PTE2PA pte));;
        modify (λ s, s <| k_mem ::= λ m, sd64 m ptea 0 |>);;
        uvmunmap_loop fuel pagetable (a + PGSIZE) aend do_free
      end
    else mret ()
  end.

Definition uvmunmap (pagetable va npages : Z) (do_free : bool) : K unit :=
  panic_if (negb (va mod PGSIZE =? 0)) "uvmunmap: not aligned";;
  uvmunmap_loop (S (Z.to_nat npages)) pagetable va (u64 (va + u64 (npages * PGSIZE))) do_free.

(** ** uvmcreate, uvmfirst *)

Definition uvmcreate : K Z :=
  pagetable ← kalloc;
  if pagetable =? 0 then mret 0
  else modify (λ s, s <| k_mem ::= memset pagetable 0 PGSIZE |>);; mret pagetable.

Definition uvmfirst (pagetable : Z) (src : list Z) (sz : Z) : K unit :=
  panic_if (PGSIZE <=? sz) "uvmfirst: more than a page";;
  m ← kalloc;
  modify (λ s, s <| k_mem ::= memset m 0 PGSIZE |>);;
  _ ← mappages pagetable 0 PGSIZE m (Z.lor (Z.lor (Z.lor PTE_W PTE_R) PTE_X) PTE_U);
  modify (λ s, s <| k_mem ::= λ mm, st_bytes mm m (take (Z.to_nat sz) src) |>).

(** ** uvmdealloc, uvmalloc *)

Definition uvmdealloc (pagetable oldsz newsz : Z) : K Z :=
  if oldsz <=? newsz then mret oldsz
  else
    when (PGROUNDUP newsz <? PGROUNDUP oldsz)
      (let npages := i32 ((PGROUNDUP oldsz - PGROUNDUP newsz) / PGSIZE) in
       uvmunmap pagetable (PGROUNDUP newsz) npages true);;
    mret newsz.

Fixpoint uvmalloc_loop (fuel : nat) (pagetable a oldsz newsz xperm : Z) : K Z :=
  match fuel with
  | O => diverge
  | S fuel =>
    if a <? newsz then
      m ← kalloc;
      if m =? 0 then uvmdealloc pagetable a oldsz;; mret 0
      else
        modify (λ s, s <| k_mem ::= memset m 0 PGSIZE |>);;
        r ← mappages pagetable a PGSIZE m (Z.lor (Z.lor PTE_R PTE_U) xperm);
        if negb (r =? 0) then kfree m;; uvmdealloc pagetable a oldsz;; mret 0
        else uvmalloc_loop fuel pagetable (a + PGSIZE) oldsz newsz xperm
    else mret newsz
  end.

Definition uvmalloc (pagetable oldsz newsz xperm : Z) : K Z :=
  if newsz <? oldsz then mret oldsz
  else
    let oldsz := PGROUNDUP oldsz in
    uvmalloc_loop (S (S (Z.to_nat ((newsz - oldsz) / PGSIZE)))) pagetable oldsz oldsz newsz xperm.

(** ** freewalk, uvmfree *)

(** The loop over the 512 entries, from entry [i] with [n] to go. *)
Fixpoint freewalk_loop (rec : Z → K unit) (n : nat) (i pagetable : Z) : K unit :=
  match n with
  | O => mret ()
  | S n =>
    pte ← gets (λ s, ld64 (k_mem s) (pagetable + 8 * i));
    (if negb (Z.land pte PTE_V =? 0) && (Z.land pte (Z.lor (Z.lor PTE_R PTE_W) PTE_X) =? 0)
     then
       rec (PTE2PA pte);;
       modify (λ s, s <| k_mem ::= λ m, sd64 m (pagetable + 8 * i) 0 |>)
     else panic_if (negb (Z.land pte PTE_V =? 0)) "freewalk: leaf");;
    freewalk_loop rec n (i + 1) pagetable
  end.

(** A page table of three levels needs a recursion depth of three. *)
Fixpoint freewalk_depth (depth : nat) (pagetable : Z) : K unit :=
  match depth with
  | O => diverge
  | S depth => freewalk_loop (freewalk_depth depth) 512 0 pagetable;; kfree pagetable
  end.

Definition freewalk (pagetable : Z) : K unit := freewalk_depth 3 pagetable.

Definition uvmfree (pagetable sz : Z) : K unit :=
  when (0 <? sz) (uvmunmap pagetable 0 (PGROUNDUP sz / PGSIZE) true);;
  freewalk pagetable.

(** ** uvmcopy, uvmclear *)

Fixpoint uvmcopy_loop (fuel : nat) (old new i sz : Z) : K Z :=
  match fuel with
  | O => diverge
  | S fuel =>
    if i <? sz then
      r ← walk old i false;
      match r with
      | None => panic "uvmcopy: pte should exist"
      | Some ptea =>
        pte ← gets (λ s, ld64 (k_mem s) ptea);
        panic_if (Z.land pte PTE_V =? 0) "uvmcopy: page not present";;
        let pa := PTE2PA pte in
        let flags := PTE_FLAGS pte in
        m ← kalloc;
        if m =? 0 then uvmunmap new 0 (i / PGSIZE) true;; mret (-1)
        else
          modify (λ s, s <| k_mem ::= memmove m pa PGSIZE |>);;
          r ← mappages new i PGSIZE m flags;
          if negb (r =? 0) then kfree m;; uvmunmap new 0 (i / PGSIZE) true;; mret (-1)
          else uvmcopy_loop fuel old new (i + PGSIZE) sz
      end
    else mret 0
  end.

Definition uvmcopy (old new sz : Z) : K Z :=
  uvmcopy_loop (S (S (Z.to_nat (sz / PGSIZE)))) old new 0 sz.

Definition uvmclear (pagetable va : Z) : K unit :=
  r ← walk pagetable va false;
  match r with
  | None => panic "uvmclear"
  | Some ptea =>
    modify (λ s, s <| k_mem ::= λ m, sd64 m ptea (Z.land (ld64 m ptea) (Z.lnot PTE_U)) |>)
  end.

(** ** copyout, copyin, copyinstr *)

(** Every iteration but the first and the last moves a whole page. *)
Fixpoint copyout_loop (fuel : nat) (pagetable dstva : Z) (src : list Z) (len : Z) : K Z :=
  match fuel with
  | O => diverge
  | S fuel =>
    if 0 <? len then
      let va0 := PGROUNDDOWN dstva in
      pa0 ← walkaddr pagetable va0;
      if pa0 =? 0 then mret (-1)
      else
        let n := Z.min (PGSIZE - (dstva - va0)) len in
        modify (λ s, s <| k_mem ::= λ m, st_bytes m (pa0 + (dstva - va0)) (take (Z.to_nat n) src) |>);;
        copyout_loop fuel pagetable (u64 (va0 + PGSIZE)) (drop (Z.to_nat n) src) (len - n)
    else mret 0
  end.

Definition copyout (pagetable dstva : Z) (src : list Z) (len : Z) : K Z :=
  copyout_loop (S (S (S (Z.to_nat (len / PGSIZE))))) pagetable dstva src len.

Fixpoint copyin_loop (fuel : nat) (pagetable srcva len : Z) (dst : list Z) : K (Z * list Z) :=
  match fuel with
  | O => diverge
  | S fuel =>
    if 0 <? len then
      let va0 := PGROUNDDOWN srcva in
      pa0 ← walkaddr pagetable va0;
      if pa0 =? 0 then mret (-1, dst)
      else
        let n := Z.min (PGSIZE - (srcva - va0)) len in
        bytes ← gets (λ s, bytes_at (k_mem s) (pa0 + (srcva - va0)) (Z.to_nat n));
        copyin_loop fuel pagetable (u64 (va0 + PGSIZE)) (len - n) (dst ++ bytes)
    else mret (0, dst)
  end.

Definition copyin (pagetable srcva len : Z) : K (Z * list Z) :=
  copyin_loop (S (S (S (Z.to_nat (len / PGSIZE))))) pagetable srcva len [].

(** The inner loop of [copyinstr] over the [n] bytes at [p]: whether it met a
    NUL, and the bytes it stored. *)
Fixpoint copyinstr_page (n : nat) (p : Z) (m : mem) : bool * list Z :=
  match n with
  | O => (false, [])
  | S n =>
    if m p =? 0 then (true, [0])
    else let '(got, l) := copyinstr_page n (p + 1) m in (got, m p :: l)
  end.

Fixpoint copyinstr_loop (fuel : nat) (pagetable srcva max : Z) (dst : list Z) : K (Z * list Z) :=
  match fuel with
  | O => diverge
  | S fuel =>
    if 0 <? max then
      let va0 := PGROUNDDOWN srcva in
      pa0 ← walkaddr pagetable va0;
      if pa0 =? 0 then mret (-1, dst)
      else
        let n := Z.min (PGSIZE - (srcva - va0)) max in
        r ← gets (λ s, copyinstr_page (Z.to_nat n) (pa0 + (srcva - va0)) (k_mem s));
        if r.1 : bool then mret (0, dst ++ r.2)
        else copyinstr_loop fuel pagetable (u64 (va0 + PGSIZE)) (max - n) (dst ++ r.2)
    else mret (-1, dst)
  end.

Definition copyinstr (pagetable srcva max : Z) : K (Z * list Z) :=
  copyinstr_loop (S (S (S (Z.to_nat (max / PGSIZE))))) pagetable srcva max [].

(** ** The kernel's own page table *)

(** proc.c: map a kernel stack for each of the [n] processes from [i] on. *)
Fixpoint proc_mapstacks_loop (n : nat) (i kpgtbl : Z) : K unit :=
  match n with
  | O => mret ()
  | S n =>
    pa ← kalloc;
    panic_if (pa =? 0) "kalloc";;
    kvmmap kpgtbl (KSTACK i) pa PGSIZE (Z.lor PTE_R PTE_W);;
    proc_mapstacks_loop n (i + 1) kpgtbl
  end.

Definition proc_mapstacks (kpgtbl : Z) : K unit := proc_mapstacks_loop (Z.to_nat NPROC) 0 kpgtbl.

Definition UART0 : Z := 0x10000000.
Definition VIRTIO0 : Z := 0x10001000.
Definition PLIC : Z := 0x0c000000.

Definition kvmmake : K Z :=
  kpgtbl ← kalloc;
  modify (λ s, s <| k_mem ::= memset kpgtbl 0 PGSIZE |>);;
  kvmmap kpgtbl UART0 UART0 PGSIZE (Z.lor PTE_R PTE_W);;
  kvmmap kpgtbl VIRTIO0 VIRTIO0 PGSIZE (Z.lor PTE_R PTE_W);;
  kvmmap kpgtbl PLIC PLIC 0x400000 (Z.lor PTE_R PTE_W);;
  kvmmap kpgtbl KERNBASE KERNBASE (ketext - KERNBASE) (Z.lor PTE_R PTE_X);;
  kvmmap kpgtbl ketext ketext (PHYSTOP - ketext) (Z.lor PTE_R PTE_W);;
  kvmmap kpgtbl TRAMPOLINE ktrampoline PGSIZE (Z.lor PTE_R PTE_X);;
  proc_mapstacks kpgtbl;;
  mret kpgtbl.

Definition kvminit : K unit :=
  pt ← kvmmake;
  modify (λ s, s <| k_pagetable := pt |>).

End vm.
