(* ===== verification/PageTable.v ===== *)
(** * The abstract page table

    A page table in memory denotes a total map from virtual pages to
    page-table entries, 0 where there is none ([amap]).  [pt_wf] says that the
    page-table pages reachable from the root form a tree of distinct RAM pages
    outside the free list.  This file relates the operations of vm.c to that
    abstract map: [walk] finds entries and allocates tables without changing
    the map, [mappages] and [uvmunmap] update it on exactly their range, and
    copying to and from user memory goes through it. *)

From S2P Require Import Prelude Memory CString Kernel Kalloc Vm.

(** ** Page-table entries *)

Lemma lor_shifted x f k : 0 <= k → 0 <= f < 2 ^ k → Z.lor (x * 2 ^ k) f = x * 2 ^ k + f.
Proof.
  intros Hk Hf. rewrite <- Z.shiftl_mul_pow2 by done.
  assert (Z.land (Z.shiftl x k) f = 0) as E.
  { apply Z.bits_inj'. intros n Hn. rewrite Z.land_spec, Z.bits_0, Z.shiftl_spec by done.
    destruct (decide (n < k)); [by rewrite Z.testbit_neg_r by lia|].
    replace f with (f mod 2 ^ k) by (by apply Z.mod_small).
    rewrite Z.mod_pow2_bits_high by lia. apply andb_false_r. }
  rewrite Z.add_nocarry_lxor by done. by rewrite Z.lxor_lor.
Qed.

Lemma PA2PTE_eq pa : aligned PGSIZE pa → 0 <= pa < 2 ^ 56 → PA2PTE pa = (pa / PGSIZE) * 2 ^ 10.
Proof.
  intros _ Hr. unfold PA2PTE. rewrite Z.shiftr_div_pow2, Z.shiftl_mul_pow2 by lia.
  change (2 ^ 12) with PGSIZE. apply u64_small. unfold PGSIZE.
  assert (0 <= pa / 4096 < 2 ^ 44); [|lia].
  split; [apply Z.div_pos; lia|apply Z.div_lt_upper_bound; lia].
Qed.

(** The entry [mappages] writes. *)
Definition mk_pte (pa perm : Z) : Z := Z.lor (Z.lor (PA2PTE pa) perm) PTE_V.

Lemma mk_pte_eq pa perm :
  aligned PGSIZE pa → 0 <= pa < 2 ^ 56 → 0 <= perm < 2 ^ 10 →
  mk_pte pa perm = (pa / PGSIZE) * 2 ^ 10 + Z.lor perm 1 ∧ 0 <= Z.lor perm 1 < 2 ^ 10.
Proof.
  intros Ha Hr Hp. unfold mk_pte. rewrite PA2PTE_eq by done. rewrite <- Z.lor_assoc.
  change PTE_V with 1.
  assert (0 <= Z.lor perm 1 < 2 ^ 10) as Hl.
  { split; [apply Z.lor_nonneg; lia|].
    destruct (decide (Z.lor perm 1 = 0)) as [->|]; [lia|].
    apply Z.log2_lt_pow2; [apply Z.le_neq; split; [apply Z.lor_nonneg; lia|done]|].
    rewrite Z.log2_lor by lia. simpl. destruct (decide (perm = 0)) as [->|]; [simpl; lia|].
    assert (Z.log2 perm < 10) by (apply Z.log2_lt_pow2; lia). lia. }
  split; [|done]. by apply lor_shifted.
Qed.

Lemma PTE2PA_mk_pte pa perm :
  aligned PGSIZE pa → 0 <= pa < 2 ^ 56 → 0 <= perm < 2 ^ 10 → PTE2PA (mk_pte pa perm) = pa.
Proof.
  intros Ha Hr Hp. destruct (mk_pte_eq pa perm) as [-> Hl]; try done.
  unfold PTE2PA. rewrite Z.shiftr_div_pow2, Z.shiftl_mul_pow2 by lia.
  rewrite Z.add_comm, Z.div_add, Z.div_small by lia. simpl (0 + _).
  unfold aligned, PGSIZE in *. apply Z.mod_divide in Ha as [q ->]; [|lia].
  rewrite Z.div_mul by lia. apply u64_small. lia.
Qed.

Lemma mk_pte_range pa perm :
  aligned PGSIZE pa → 0 <= pa < 2 ^ 56 → 0 <= perm < 2 ^ 10 → 0 <= mk_pte pa perm < 2 ^ 64.
Proof.
  intros Ha Hr Hp. destruct (mk_pte_eq pa perm) as [-> Hl]; try done.
  assert (0 <= pa / PGSIZE < 2 ^ 44); [|lia]. unfold PGSIZE.
  split; [apply Z.div_pos; lia|apply Z.div_lt_upper_bound; lia].
Qed.

Lemma PTE_FLAGS_mk_pte pa perm :
  aligned PGSIZE pa → 0 <= pa < 2 ^ 56 → 0 <= perm < 2 ^ 10 →
  PTE_FLAGS (mk_pte pa perm) = Z.lor perm PTE_V.
Proof.
  intros Ha Hr Hp. destruct (mk_pte_eq pa perm) as [-> Hl]; try done.
  unfold PTE_FLAGS. change 0x3FF with (Z.ones 10). rewrite Z.land_ones by lia.
  rewrite Z.add_comm, Z.mod_add by lia. by rewrite Z.mod_small.
Qed.

(** [pte & PTE_V] *)
Definition pte_v (pte : Z) : bool := negb (Z.land pte PTE_V =? 0).

Lemma pte_v_mk_pte pa perm : pte_v (mk_pte pa perm) = true.
Proof.
  unfold pte_v, mk_pte. destruct (Z.eqb_spec (Z.land (Z.lor (Z.lor (PA2PTE pa) perm) PTE_V) PTE_V) 0) as [E|]; [|done].
  apply (f_equal (λ z, Z.testbit z 0)) in E. rewrite Z.land_spec, Z.lor_spec in E.
  change (Z.testbit PTE_V 0) with true in E. by rewrite orb_true_r in E.
Qed.

Lemma pte_v_0 : pte_v 0 = false.
Proof. reflexivity. Qed.

(** ** Virtual addresses *)

Lemma PX_eq level va : 0 <= level → PX level va = (va / 2 ^ (12 + 9 * level)) mod 512.
Proof.
  intros. unfold PX, PXSHIFT. rewrite Z.shiftr_div_pow2 by lia.
  change 0x1FF with (Z.ones 9). by rewrite Z.land_ones by lia.
Qed.

Lemma PX_range level va : 0 <= level → 0 <= PX level va < 512.
Proof. intros. rewrite PX_eq by done. apply Z.mod_pos_bound. lia. Qed.

Lemma MAXVA_eq : MAXVA = 2 ^ 38.
Proof. reflexivity. Qed.

Lemma PX_inj va va' :
  0 <= va < MAXVA → 0 <= va' < MAXVA →
  PX 2 va = PX 2 va' → PX 1 va = PX 1 va' → PX 0 va = PX 0 va' → va / PGSIZE = va' / PGSIZE.
Proof.
  rewrite MAXVA_eq. intros H1 H2. rewrite !PX_eq by lia. unfold PGSIZE.
  change (2 ^ (12 + 9 * 2)) with (4096 * 512 * 512). change (2 ^ (12 + 9 * 1)) with (4096 * 512).
  change (2 ^ (12 + 9 * 0)) with 4096. rewrite <- !Z.div_div by lia.
  assert (0 <= va / 4096 < 2 ^ 26) by (split; [apply Z.div_pos; lia|apply Z.div_lt_upper_bound; lia]).
  assert (0 <= va' / 4096 < 2 ^ 26) by (split; [apply Z.div_pos; lia|apply Z.div_lt_upper_bound; lia]).
  generalize dependent (va / 4096). generalize dependent (va' / 4096). intros y Hy x Hx E2 E1 E0.
  rewrite (Z.mod_small (x / 512 / 512)), (Z.mod_small (y / 512 / 512)) in E2.
  - rewrite (Z.div_mod x 512), (Z.div_mod y 512), E0 by lia. f_equal. f_equal.
    rewrite (Z.div_mod (x / 512) 512), (Z.div_mod (y / 512) 512), E1, E2 by lia. done.
  - rewrite Z.div_div by lia. split; [apply Z.div_pos; lia|apply Z.div_lt_upper_bound; lia].
  - rewrite Z.div_div by lia. split; [apply Z.div_pos; lia|apply Z.div_lt_upper_bound; lia].
Qed.

Lemma PX_same_page va va' level : 0 <= level → va / PGSIZE = va' / PGSIZE → PX level va = PX level va'.
Proof.
  intros Hl E. rewrite !PX_eq by done. rewrite Z.pow_add_r by lia. change (2 ^ 12) with PGSIZE.
  rewrite <- !Z.div_div by (unfold PGSIZE; lia). by rewrite E.
Qed.

(** ** The tree of page-table pages *)

(** The page-table page that entry [i] of the page [pg] points to. *)
Definition child (m : mem) (pg i : Z) : option Z :=
  let pte := ld64 m (pg + 8 * i) in if pte_v pte then Some (PTE2PA pte) else None.

(** The page reached from [pg] along the indices [path]. *)
Fixpoint npage (m : mem) (pg : Z) (path : list Z) : option Z :=
  match path with
  | [] => Some pg
  | i :: path => child m pg i ≫= λ q, npage m q path
  end.

Definition path_ok (path : list Z) : Prop := Forall (λ i, 0 <= i < 512) path ∧ (length path <= 2)%nat.

(** The address of the entry for [va], if its page-table page exists. *)
Definition pte_slot (m : mem) (root va : Z) : option Z :=
  p ← npage m root [PX 2 va; PX 1 va]; Some (p + 8 * PX 0 va).

(** The abstract page table: the entry for [va], 0 if there is none. *)
Definition amap (m : mem) (root va : Z) : Z :=
  match pte_slot m root va with Some a => ld64 m a | None => 0 end.

Lemma npage_snoc m pg path i : npage m pg (path ++ [i]) = (npage m pg path ≫= λ q, child m q i).
Proof.
  revert pg. induction path as [|j path IH]; intros pg; simpl.
  - by destruct (child m pg i).
  - destruct (child m pg j); simpl; [apply IH|done].
Qed.

Lemma npage_app_none m pg path k : npage m pg path = None → npage m pg (path ++ k) = None.
Proof.
  revert pg. induction path as [|j path IH]; intros pg; simpl; [done|].
  destruct (child m pg j); simpl; [apply IH|done].
Qed.

Lemma path_ok_snoc path i : path_ok (path ++ [i]) ↔ path_ok path ∧ (length path <= 1)%nat ∧ 0 <= i < 512.
Proof.
  unfold path_ok. rewrite Forall_app, Forall_singleton, length_app. simpl.
  split; [intros [[? ?] ?]|intros ([? ?] & ? & ?)]; repeat split; try done; lia.
Qed.

Lemma path_ok_va va : path_ok [PX 2 va; PX 1 va].
Proof. split; [|simpl; lia]. repeat constructor; apply PX_range; lia. Qed.

Lemma child_ext m m' p i :
  (∀ x, p + 8 * i <= x < p + 8 * i + 8 → m' x = m x) → child m' p i = child m p i.
Proof. intros E. unfold child. by rewrite (ld64_ext m' m). Qed.

Section pagetable.
Context `{Image, !ImageOk}.

(** Page-table pages are RAM pages outside the free list [l], and no page
    occurs twice in the tree. *)
Record pt_wf (m : mem) (root : Z) (l : list Z) : Prop := {
  wf_page path p : path_ok path → npage m root path = Some p → page_ok p ∧ p ∉ l;
  wf_inj path path' p : path_ok path → path_ok path' →
    npage m root path = Some p → npage m root path' = Some p → path = path'
}.

Lemma page_ok_range p : page_ok p → aligned PGSIZE p ∧ 0 <= p < 2 ^ 56.
Proof.
  intros [Hal Hr]. split; [done|]. pose proof kend_range.
  unfold KERNBASE, PHYSTOP, KERNBASE in *. lia.
Qed.

Lemma in_page_entry p i x : 0 <= i < 512 → p + 8 * i <= x < p + 8 * i + 8 → in_page p x.
Proof. unfold in_page, PGSIZE. lia. Qed.

(** A store that leaves the directory pages alone leaves the tree alone. *)
Lemma npage_frame m m' root path :
  path_ok path →
  (∀ path' p, path_ok path' → (length path' < length path)%nat → npage m root path' = Some p →
     ∀ x, in_page p x → m' x = m x) →
  npage m' root path = npage m root path.
Proof.
  induction path as [|i path IH] using rev_ind; intros Hok Hm; [done|].
  apply path_ok_snoc in Hok as (Hok & Hlen & Hi). rewrite !npage_snoc.
  rewrite length_app in Hm. simpl in Hm.
  rewrite IH; [|done|]; [|intros; eapply Hm; eauto; lia].
  destruct (npage m root path) as [p|] eqn:E; [|done]. simpl.
  apply child_ext. intros x Hx. eapply (Hm path p); eauto; [lia|]. by eapply in_page_entry.
Qed.

(** Replacing an entry of a directory page by one that points to a zeroed new
    page [a] adds exactly that page to the tree. *)
Section link.
Variables (m m' : mem) (root p a i : Z) (l : list Z) (path : list Z).
Hypothesis Hwf : pt_wf m root (a :: l).
Hypothesis Ha : page_ok a.
Hypothesis Hpath : path_ok (path ++ [i]).
Hypothesis Hp : npage m root path = Some p.
Hypothesis Hnone : child m p i = None.
Hypothesis Hnew : ld64 m' (p + 8 * i) = Z.lor (PA2PTE a) PTE_V.
Hypothesis Hzero : ∀ x, in_page a x → m' x = 0.
Hypothesis Hsame : ∀ x, ¬ in_page a x → (x < p + 8 * i ∨ p + 8 * i + 8 <= x) → m' x = m x.

Lemma link_child_new : child m' p i = Some a.
Proof.
  unfold child. rewrite Hnew. destruct (page_ok_range a Ha) as [Hal Hr].
  replace (Z.lor (PA2PTE a) PTE_V) with (mk_pte a 0) by (unfold mk_pte; by rewrite Z.lor_0_r).
  rewrite pte_v_mk_pte, PTE2PA_mk_pte; done || lia.
Qed.

Lemma link_child_zero j : 0 <= j < 512 → child m' a j = None.
Proof.
  intros Hj. unfold child. rewrite ld64_zero; [done|]. intros. apply Hzero. by eapply in_page_entry.
Qed.

Lemma link_child_old q path' j :
  path_ok (path' ++ [j]) → npage m root path' = Some q → path' ++ [j] ≠ path ++ [i] →
  child m' q j = child m q j.
Proof.
  intros Hok Hq Hne. apply child_ext. intros x Hx.
  apply path_ok_snoc in Hok as (Hok & _ & Hj). apply path_ok_snoc in Hpath as (Hpok & _ & Hi).
  destruct (wf_page _ _ _ Hwf path' q) as [Hqok Hqni]; [done..|].
  destruct (wf_page _ _ _ Hwf path p) as [Hpk _]; [done..|].
  assert (in_page q x) as Hin by (by eapply in_page_entry).
  apply Hsame.
  - intros Hin'. eapply (pages_apart a q x x); eauto. set_solver.
  - destruct (decide (q = p)) as [->|Hqp].
    + assert (path' = path) as -> by (eapply wf_inj; eauto).
      destruct (decide (j = i)) as [->|]; [done|]. lia.
    + destruct (decide (x < p + 8 * i)); [by left|]. right.
      destruct (decide (p + 8 * i + 8 <= x)); [done|]. exfalso.
      eapply (pages_apart q p x x); eauto. eapply in_page_entry; [exact Hi|lia].
Qed.

(** The paths of the new tree. *)
Lemma link_npage path' :
  path_ok path' →
  npage m' root path' =
    if decide (path' = path ++ [i]) then Some a
    else if decide (path ++ [i] `prefix_of` path') then None
    else npage m root path'.
Proof.
  induction path' as [|j path' IH] using rev_ind; intros Hok.
  { rewrite decide_False by (by destruct path). rewrite decide_False; [done|].
    intros [? E]. by destruct path. }
  pose proof Hok as (Hok' & Hlen & Hj)%path_ok_snoc. rewrite !npage_snoc, IH by done. clear IH.
  destruct (decide (path' = path ++ [i])) as [->|Hne].
  { apply path_ok_snoc in Hpath. rewrite length_app in Hlen. simpl in *.
    rewrite link_child_zero by done. rewrite decide_False by (intros E%(f_equal length); rewrite !length_app in E; simpl in E; lia).
    rewrite decide_True by (by exists [j]). done. }
  destruct (decide (path ++ [i] `prefix_of` path')) as [Hpre|Hpre].
  { simpl. rewrite decide_False, decide_True; [done|by apply prefix_app_r|].
    intros E. apply prefix_length in Hpre. rewrite length_app in Hpre. apply (f_equal length) in E.
    rewrite !length_app in E. simpl in *. lia. }
  destruct (decide (path' ++ [j] = path ++ [i])) as [[-> [= ->]]%app_inj_2|Hne']; [|done|].
  { rewrite Hp. simpl. apply link_child_new. }
  rewrite decide_False.
  - destruct (npage m root path') as [q|] eqn:Eq; [|done]. simpl. by eapply link_child_old.
  - intros [k E]. destruct k as [|j' k _] using rev_ind; [by rewrite app_nil_r in E|].
    rewrite app_assoc in E. apply app_inj_2 in E as [-> _]; [|done]. apply Hpre. by exists k.
Qed.

Lemma link_fresh path' : path_ok path' → npage m root path' ≠ Some a.
Proof. intros Hok E. destruct (wf_page _ _ _ Hwf path' a) as [_ Hni]; [done..|]. set_solver. Qed.

Lemma link_wf : a ∉ l → pt_wf m' root l.
Proof.
  intros Hal. split.
  - intros path' q Hok. rewrite link_npage by done.
    case_decide; [intros [= <-]; done|]. case_decide; [done|]. intros Hq.
    destruct (wf_page _ _ _ Hwf path' q) as [? ?]; [done..|]. split; [done|set_solver].
  - intros path1 path2 q Hok1 Hok2. rewrite !link_npage by done.
    destruct (decide (path1 = path ++ [i])) as [->|], (decide (path2 = path ++ [i])) as [->|]; [done|..].
    + case_decide; [done|]. intros [= <-] E. by apply link_fresh in E.
    + case_decide; [done|]. intros E [= <-]. by apply link_fresh in E.
    + do 2 case_decide; try done. intros. by eapply wf_inj.
Qed.

Lemma link_none : npage m root (path ++ [i]) = None.
Proof. rewrite npage_snoc, Hp. done. Qed.

Lemma link_amap va : amap m' root va = amap m root va.
Proof.
  assert (∀ k, npage m root ((path ++ [i]) ++ k) = None) as Hn.
  { intros k. apply npage_app_none, link_none. }
  unfold amap, pte_slot. pose proof (path_ok_va va) as Hok. rewrite link_npage by done.
  destruct (decide ([PX 2 va; PX 1 va] = path ++ [i])) as [E|E].
  - rewrite E, link_none. simpl. apply ld64_zero. intros. apply Hzero.
    eapply in_page_entry; [apply (PX_range 0 va); lia|done].
  - destruct (decide (path ++ [i] `prefix_of` [PX 2 va; PX 1 va])) as [[k Hk]|Hpre].
    + rewrite Hk, Hn. done.
    + destruct (npage m root [PX 2 va; PX 1 va]) as [q|] eqn:Eq; [|done]. simpl.
      apply ld64_ext. intros x Hx.
      destruct (wf_page _ _ _ Hwf _ q Hok Eq) as [Hqok Hqni].
      apply path_ok_snoc in Hpath as (Hpok & Hplen & Hi).
      destruct (wf_page _ _ _ Hwf path p) as [Hpk _]; [done..|].
      assert (in_page q x) as Hin by (eapply in_page_entry; [apply (PX_range 0 va); lia|done]).
      assert (q ≠ p) as Hqp.
      { intros ->. assert ([PX 2 va; PX 1 va] = path) as E' by (eapply wf_inj; eauto).
        rewrite <- E' in Hplen. simpl in Hplen. lia. }
      apply Hsame.
      * intros Hin'. eapply (pages_apart a q x x); eauto. set_solver.
      * destruct (decide (x < p + 8 * i)); [by left|]. right.
        destruct (decide (p + 8 * i + 8 <= x)); [done|]. exfalso.
        eapply (pages_apart q p x x); eauto. eapply in_page_entry; [exact Hi|lia].
Qed.
End link.

(** ** Stores outside the directory pages *)

(** [x] is a byte of a page-table page. *)
Definition tree_byte (m : mem) (root x : Z) : Prop :=
  ∃ path p, path_ok path ∧ npage m root path = Some p ∧ in_page p x.

Lemma tree_frame m m' root :
  (∀ x, tree_byte m root x → m' x = m x) →
  (∀ path, path_ok path → npage m' root path = npage m root path)
  ∧ (∀ va, pte_slot m' root va = pte_slot m root va)
  ∧ ∀ va, amap m' root va = amap m root va.
Proof.
  intros Hm.
  assert (∀ path, path_ok path → npage m' root path = npage m root path) as Hn.
  { intros path Hok. apply npage_frame; [done|]. intros path' p Hok' _ Hp x Hx.
    apply Hm. by exists path', p. }
  assert (∀ va, pte_slot m' root va = pte_slot m root va) as Hs.
  { intros va. unfold pte_slot. by rewrite Hn by apply path_ok_va. }
  split; [done|]. split; [done|]. intros va. unfold amap. rewrite Hs.
  unfold pte_slot. destruct (npage m root _) as [q|] eqn:Eq; [|done]. simpl.
  apply ld64_ext. intros x Hx. apply Hm. eexists _, q. split; [apply path_ok_va|]. split; [done|].
  eapply in_page_entry; [apply (PX_range 0 va); lia|done].
Qed.

Lemma pt_wf_ext m m' root l l' :
  (∀ path, path_ok path → npage m' root path = npage m root path) → (∀ a, a ∈ l' → a ∈ l) →
  pt_wf m root l → pt_wf m' root l'.
Proof.
  intros E Hl Hwf. split.
  - intros path p Hok. rewrite E by done. intros Hp.
    destruct (wf_page _ _ _ Hwf path p Hok Hp) as [? ?]. split; [done|]. intros ?%Hl. done.
  - intros path path' p Hok Hok'. rewrite !E by done. by apply (wf_inj _ _ _ Hwf).
Qed.

Lemma slot_inv m root s va l :
  pt_wf m root l → pte_slot m root va = Some s →
  ∃ q, npage m root [PX 2 va; PX 1 va] = Some q ∧ s = q + 8 * PX 0 va ∧ page_ok q ∧ q ∉ l.
Proof.
  intros Hwf Hs. unfold pte_slot in Hs. destruct (npage m root _) as [q|] eqn:Eq; [|done]. simpl in Hs.
  injection Hs as <-. exists q. split; [done|]. split; [done|].
  by apply (wf_page _ _ _ Hwf) in Eq; [|apply path_ok_va].
Qed.

Lemma slot_in_page s va q x : s = q + 8 * PX 0 va → ¬ in_page q x → x < s ∨ s + 8 <= x.
Proof. intros ->. pose proof (PX_range 0 va). unfold in_page, PGSIZE. lia. Qed.

(** Overwriting the entry for [va]. *)
Section leaf.
Variables (m m' : mem) (root s va : Z) (l : list Z).
Hypothesis Hwf : pt_wf m root l.
Hypothesis Hs : pte_slot m root va = Some s.
Hypothesis Hsame : ∀ x, x < s ∨ s + 8 <= x → m' x = m x.

Lemma leaf_npage path : path_ok path → npage m' root path = npage m root path.
Proof.
  intros Hok. apply npage_frame; [done|]. intros path' p Hok' Hlt Hp x Hx.
  destruct (slot_inv m root s va l Hwf Hs) as (q & Hq & Hsq & Hqok & _). apply Hsame.
  apply (slot_in_page s va q); [done|]. intros Hin.
  destruct (wf_page _ _ _ Hwf path' p) as [Hpok _]; [done..|].
  apply (pages_apart p q x x Hpok Hqok); [|done|done|done].
  intros ->. assert (path' = [PX 2 va; PX 1 va]) as ->.
  { eapply (wf_inj _ _ _ Hwf); eauto using path_ok_va. }
  destruct Hok as [_ Hlen]. simpl in Hlt. lia.
Qed.

Lemma leaf_slot va' : pte_slot m' root va' = pte_slot m root va'.
Proof. unfold pte_slot. by rewrite leaf_npage by apply path_ok_va. Qed.

Lemma leaf_wf : pt_wf m' root l.
Proof. eapply pt_wf_ext; [apply leaf_npage|by intros|done]. Qed.

Lemma leaf_amap va' :
  0 <= va < MAXVA → 0 <= va' < MAXVA →
  amap m' root va' = if decide (va' / PGSIZE = va / PGSIZE) then ld64 m' s else amap m root va'.
Proof.
  intros Hva Hva'. unfold amap. rewrite leaf_slot. case_decide as Hd.
  - unfold pte_slot in *. rewrite !(PX_same_page va' va) by done. by rewrite Hs.
  - unfold pte_slot. destruct (npage m root [PX 2 va'; PX 1 va']) as [q'|] eqn:Eq'; [|done]. simpl.
    apply ld64_ext. intros x Hx. apply Hsame.
    destruct (slot_inv m root s va l Hwf Hs) as (q & Hq & Hsq & Hqok & _).
    destruct (wf_page _ _ _ Hwf _ _ (path_ok_va va') Eq') as [Hqok' _].
    pose proof (PX_range 0 va ltac:(lia)). pose proof (PX_range 0 va' ltac:(lia)).
    destruct (decide (q' = q)) as [->|Hne].
    + assert ([PX 2 va'; PX 1 va'] = [PX 2 va; PX 1 va]) as [= E2 E1].
      { eapply (wf_inj _ _ _ Hwf); eauto using path_ok_va. }
      destruct (decide (PX 0 va' = PX 0 va)) as [E0|]; [by destruct Hd; apply PX_inj|]. lia.
    + apply (slot_in_page s va q); [done|]. intros Hin.
      apply (pages_apart q' q x x Hqok' Hqok Hne); [|done|done]. eapply in_page_entry; [|done]. done.
Qed.
End leaf.

(** ** Growing the tree *)

(** The common effect of the operations on a page table: memory changes only in
    page-table pages and in pages taken from the free list, and page-table
    pages stay where they are. *)
Record pt_step (w w' : world) (root : Z) (l l' : list Z) : Prop := {
  ps_mem : mem_only w w';
  ps_free : free_pages (ks w') l';
  ps_suffix : l' `suffix_of` l;
  ps_wf : pt_wf (k_mem (ks w')) root l';
  ps_keep path p : path_ok path → npage (k_mem (ks w)) root path = Some p →
    npage (k_mem (ks w')) root path = Some p;
  ps_new path p : path_ok path → npage (k_mem (ks w')) root path = Some p →
    npage (k_mem (ks w)) root path = Some p ∨ p ∈ l;
  ps_frame x : (∀ a, a ∈ l → ¬ in_page a x) → ¬ tree_byte (k_mem (ks w)) root x →
    k_mem (ks w') x = k_mem (ks w) x
}.

Lemma pt_step_refl w root l :
  free_pages (ks w) l → pt_wf (k_mem (ks w)) root l → pt_step w w root l l.
Proof. split; auto using mem_only_refl. Qed.

Lemma pt_step_trans w1 w2 w3 root l1 l2 l3 :
  pt_step w1 w2 root l1 l2 → pt_step w2 w3 root l2 l3 → pt_step w1 w3 root l1 l3.
Proof.
  intros A B. pose proof (suffix_incl _ _ (ps_suffix _ _ _ _ _ A)) as Hsub. split.
  - eapply mem_only_trans; [apply A|apply B].
  - apply B.
  - etrans; [apply B|apply A].
  - apply B.
  - intros. eapply ps_keep; [exact B|done|]. by eapply ps_keep.
  - intros path p Hok Hp. destruct (ps_new _ _ _ _ _ B path p Hok Hp) as [Hp'|Hp'].
    + by apply (ps_new _ _ _ _ _ A).
    + right. by apply Hsub.
  - intros x Hl Ht. rewrite (ps_frame _ _ _ _ _ B).
    + by apply (ps_frame _ _ _ _ _ A).
    + intros a Ha. by apply Hl, Hsub.
    + intros (path & p & Hok & Hp & Hin).
      destruct (ps_new _ _ _ _ _ A path p Hok Hp) as [Hp'|Hp'].
      * apply Ht. by exists path, p.
      * by apply (Hl p).
Qed.

Lemma free_pages_ext k k' l :
  k_freelist k' = k_freelist k → (∀ a x, a ∈ l → in_page a x → k_mem k' x = k_mem k x) →
  free_pages k l → free_pages k' l.
Proof.
  intros Ef Hm (Hf & Hnd & Hok). split; [|done]. rewrite Ef.
  apply (flist_ext (k_mem k)); [|done]. intros a Ha x Hx. apply (Hm a); [done|].
  unfold in_page, PGSIZE. lia.
Qed.

(** ** walk *)

Lemma walk_level_lookup level va pt w :
  walk_level level va false pt w = Ok (child (k_mem (ks w)) pt (PX level va)) w.
Proof.
  unfold walk_level, child, pte_v. erewrite bind_ok by reflexivity. simpl. by case_match.
Qed.

Lemma walk_lookup root va w :
  0 <= va < MAXVA → walk root va false w = Ok (pte_slot (k_mem (ks w)) root va) w.
Proof.
  intros Hva. unfold walk, pte_slot. destruct (Z.leb_spec MAXVA va); [lia|].
  erewrite bind_ok by reflexivity. erewrite bind_ok by apply walk_level_lookup. simpl.
  destruct (child _ root _) as [p1|]; [|done]. simpl.
  erewrite bind_ok by apply walk_level_lookup.
  by destruct (child _ p1 _) as [p0|].
Qed.

(** The store [walk] leaves after linking the fresh page [a] at [ptea]. *)
Definition walk_upd (a ptea : Z) (k : kstate) : kstate :=
  (kalloc_upd a k) <| k_mem := sd64 (memset a 0 PGSIZE (k_mem (kalloc_upd a k))) ptea
                                (Z.lor (PA2PTE a) PTE_V) |>.

Lemma walk_upd_new a ptea k : page_ok a → ld64 (k_mem (walk_upd a ptea k)) ptea = Z.lor (PA2PTE a) PTE_V.
Proof.
  intros Ha. destruct (page_ok_range a Ha) as [Hal Hr]. simpl. rewrite ld64_sd64. apply u64_small.
  replace (Z.lor (PA2PTE a) PTE_V) with (mk_pte a 0) by (unfold mk_pte; by rewrite Z.lor_0_r).
  apply mk_pte_range; done || lia.
Qed.

Lemma walk_upd_zero a ptea k x :
  in_page a x → x < ptea ∨ ptea + 8 <= x → k_mem (walk_upd a ptea k) x = 0.
Proof.
  intros Hx Hd. simpl. rewrite sd64_out by done. rewrite memset_spec by (unfold PGSIZE; lia).
  unfold in_page in Hx. destruct (Z.leb_spec a x), (Z.ltb_spec x (a + PGSIZE)); simpl; done || lia.
Qed.

Lemma walk_upd_same a ptea k x :
  ¬ in_page a x → x < ptea ∨ ptea + 8 <= x → k_mem (walk_upd a ptea k) x = k_mem k x.
Proof.
  intros Hx Hd. etrans; [|by apply (kalloc_mem_out a k x)].
  unfold walk_upd. simpl k_mem at 1. rewrite sd64_out by done. rewrite memset_spec by (unfold PGSIZE; lia).
  unfold in_page in Hx. destruct (Z.leb_spec a x), (Z.ltb_spec x (a + PGSIZE)); simpl; done || lia.
Qed.

Lemma walk_level_alloc_run level va pt w :
  child (k_mem (ks w)) pt (PX level va) = None → LKmem ∉ held w → k_freelist (ks w) ≠ 0 →
  walk_level level va true pt w =
    Ok (Some (k_freelist (ks w))) (w <| ks ::= walk_upd (k_freelist (ks w)) (pt + 8 * PX level va) |>).
Proof.
  intros Hc Hlk Hf. unfold walk_level. erewrite bind_ok by reflexivity.
  unfold child, pte_v in Hc. simpl in Hc |- *. destruct (negb _); [done|].
  erewrite bind_ok by (by apply kalloc_run_nonnull).
  apply Z.eqb_neq in Hf. rewrite Hf. repeat (erewrite bind_ok by reflexivity).
  unfold mret, K_ret, walk_upd, kalloc_upd. rsimpl. reflexivity.
Qed.

Lemma walk_level_step level va p path w root l :
  let i := PX level va in
  path_ok (path ++ [i]) → npage (k_mem (ks w)) root path = Some p →
  free_pages (ks w) l → pt_wf (k_mem (ks w)) root l → LKmem ∉ held w →
  ∃ r w' l', walk_level level va true p w = Ok r w' ∧ pt_step w w' root l l'
    ∧ (∀ va', amap (k_mem (ks w')) root va' = amap (k_mem (ks w)) root va')
    ∧ npage (k_mem (ks w')) root (path ++ [i]) = r ∧ (r = None → l' = []).
Proof.
  intros i Hok Hp Hf Hwf Hlk. set (m := k_mem (ks w)) in *.
  destruct (child m p i) as [q|] eqn:Hc.
  { exists (Some q), w, l. split; [|split; [by apply pt_step_refl|split; [done|split; [|done]]]].
    - unfold walk_level. erewrite bind_ok by reflexivity. unfold child, pte_v in Hc.
      subst m i. simpl in Hc |- *. destruct (negb _); [|done]. by injection Hc as <-.
    - fold m. rewrite npage_snoc, Hp. exact Hc. }
  destruct l as [|a l].
  { exists None, w, []. split; [|split; [by apply pt_step_refl|split; [done|split; [|done]]]].
    - unfold walk_level. erewrite bind_ok by reflexivity. unfold child, pte_v in Hc.
      subst m i. simpl in Hc |- *. destruct (negb _); [done|].
      erewrite bind_ok by (apply kalloc_run_null; [apply Hf|done]). done.
    - fold m. rewrite npage_snoc, Hp. exact Hc. }
  pose proof (free_pages_kalloc a (ks w) l Hf) as [Efl Hf'].
  destruct Hf as (_ & [Hal Hnd]%list.NoDup_cons & [Ha Hl]%list.Forall_cons).
  pose proof Hok as (Hpok & Hplen & Hi)%path_ok_snoc.
  destruct (wf_page _ _ _ Hwf path p) as [Hpk Hpni]; [done..|].
  set (ptea := p + 8 * i). set (k' := walk_upd a ptea (ks w)).
  assert (∀ b x, page_ok b → b ≠ p → in_page b x → x < ptea ∨ ptea + 8 <= x) as Hd.
  { intros b x Hb Hne Hx. destruct (decide (x < ptea)); [by left|]. right.
    destruct (decide (ptea + 8 <= x)); [done|]. exfalso.
    apply (pages_apart b p x x); try done. eapply in_page_entry; [exact Hi|]. fold ptea. lia. }
  assert (a ≠ p) as Hap by set_solver.
  assert (ld64 (k_mem k') (p + 8 * i) = Z.lor (PA2PTE a) PTE_V) as Hnew by (by apply walk_upd_new).
  assert (∀ x, in_page a x → k_mem k' x = 0) as Hzero.
  { intros x Hx. apply walk_upd_zero; [done|]. by apply (Hd a). }
  assert (∀ x, ¬ in_page a x → (x < p + 8 * i ∨ p + 8 * i + 8 <= x) → k_mem k' x = m x) as Hsame.
  { intros. by apply walk_upd_same. }
  assert (∀ path', path_ok path' → npage (k_mem k') root path' =
    if decide (path' = path ++ [i]) then Some a
    else if decide (path ++ [i] `prefix_of` path') then None else npage m root path') as Hn.
  { intros. by eapply link_npage. }
  exists (Some a), (w <| ks ::= walk_upd a ptea |>), l.
  split; [rewrite <- Efl; by apply walk_level_alloc_run; [| |rewrite Efl; apply page_ok_nonzero]|].
  split; [|split; [|split; [|done]]].
  - split.
    + exists (k_mem k'), (k_freelist k'). unfold set_field at 1 2, set_ks. by f_equal.
    + apply (free_pages_ext (kalloc_upd a (ks w))); [done| |done].
      intros b x Hb Hx. rewrite list.Forall_forall in Hl.
      assert (a ≠ b) by set_solver.
      assert (¬ in_page a x). { intros Hx'. by apply (pages_apart a b x x); auto. }
      etrans; [|symmetry; by apply kalloc_mem_out]. apply walk_upd_same; [done|].
      apply (Hd b); auto. set_solver.
    + by exists [a].
    + by eapply (link_wf m).
    + intros path' q Hok' Hq. simpl. fold k'. rewrite Hn by done.
      assert (npage m root (path ++ [i]) = None) as Hnn by (by eapply link_none).
      fold m in Hq. case_decide as E; [by rewrite E, Hnn in Hq|]. case_decide as Hpre; [|done].
      destruct Hpre as [k ->]. by rewrite npage_app_none in Hq.
    + intros path' q Hok'. simpl. fold k'. rewrite Hn by done.
      case_decide; [intros [= <-]; right; set_solver|]. case_decide; [done|]. by left.
    + intros x Hx Ht. simpl. fold k'. apply Hsame.
      * apply Hx. set_solver.
      * destruct (decide (x < p + 8 * i)); [by left|]. right.
        destruct (decide (p + 8 * i + 8 <= x)); [done|]. exfalso. apply Ht. exists path, p.
        split; [done|]. split; [done|]. eapply in_page_entry; [exact Hi|lia].
  - intros va'. by eapply (link_amap m).
  - simpl. fold k'. rewrite Hn by done. by rewrite decide_True.
Qed.

Lemma mem_only_held w w' : mem_only w w' → held w' = held w.
Proof. by intros (m & fl & ->). Qed.

Lemma walk_alloc_step root va w l :
  0 <= va < MAXVA → free_pages (ks w) l → pt_wf (k_mem (ks w)) root l → LKmem ∉ held w →
  ∃ r w' l', walk root va true w = Ok r w' ∧ pt_step w w' root l l'
    ∧ (∀ va', amap (k_mem (ks w')) root va' = amap (k_mem (ks w)) root va')
    ∧ pte_slot (k_mem (ks w')) root va = r ∧ (r = None → l' = []).
Proof.
  intros Hva Hf Hwf Hlk. unfold walk. destruct (Z.leb_spec MAXVA va); [lia|].
  erewrite bind_ok by reflexivity. unfold pte_slot.
  destruct (walk_level_step 2 va root [] w root l) as (r & w1 & l1 & E1 & S1 & A1 & N1 & F1); try done.
  { apply path_ok_snoc. split; [split; [constructor|simpl; lia]|]. split; [simpl; lia|by apply PX_range]. }
  rewrite (bind_ok _ _ _ _ _ E1). destruct r as [p1|].
  2:{ exists None, w1, l1. split; [done|]. split; [done|]. split; [done|]. split; [|done].
      change [PX 2 va; PX 1 va] with ([PX 2 va] ++ [PX 1 va]).
      by rewrite (npage_app_none _ _ _ _ N1). }
  destruct (walk_level_step 1 va p1 [PX 2 va] w1 root l1) as (r & w2 & l2 & E2 & S2 & A2 & N2 & F2); try done.
  { apply (path_ok_va va). }
  { apply S1. }
  { apply S1. }
  { by rewrite (mem_only_held _ _ (ps_mem _ _ _ _ _ S1)). }
  rewrite (bind_ok _ _ _ _ _ E2).
  assert (∀ va', amap (k_mem (ks w2)) root va' = amap (k_mem (ks w)) root va') as HA.
  { intros va'. by rewrite A2, A1. }
  pose proof (pt_step_trans _ _ _ _ _ _ _ S1 S2) as S12. cbn [app] in N2.
  destruct r as [p0|]; eexists _, w2, l2;
    (split; [done|]; split; [done|]; split; [done|]; split; [by rewrite N2|]); [done|].
  intros _. by apply F2.
Qed.

(** ** mappages *)

Lemma leaf_step root va w l s v :
  free_pages (ks w) l → pt_wf (k_mem (ks w)) root l → pte_slot (k_mem (ks w)) root va = Some s →
  pt_step w (w <| ks ::= λ k, k <| k_mem ::= λ m, sd64 m s v |> |>) root l l.
Proof.
  intros Hf Hwf Hs. set (m' := sd64 (k_mem (ks w)) s v).
  assert (∀ x, x < s ∨ s + 8 <= x → m' x = k_mem (ks w) x) as Hsame by (intros; by apply sd64_out).
  destruct (slot_inv (k_mem (ks w)) root s va l Hwf Hs) as (q & Hq & Hsq & Hqok & Hqni).
  pose proof (leaf_npage _ m' _ _ _ _ Hwf Hs Hsame) as Hn.
  split.
  - exists m', (k_freelist (ks w)). by rsimpl.
  - apply (free_pages_ext (ks w)); [done| |done]. intros a x Ha Hx. apply Hsame.
    apply (slot_in_page s va q); [done|]. intros Hin. destruct Hf as (_ & _ & Hok).
    rewrite list.Forall_forall in Hok. apply (pages_apart a q x x); auto. by intros ->.
  - done.
  - by eapply leaf_wf.
  - intros path p Hok Hp. simpl. fold m'. by rewrite Hn.
  - intros path p Hok. simpl. fold m'. rewrite Hn by done. by left.
  - intros x _ Ht. apply Hsame. apply (slot_in_page s va q); [done|]. intros Hin. apply Ht.
    eexists _, q. split; [apply path_ok_va|]. done.
Qed.

(** The map after [n] pages from [a] are mapped to the frames from [pa] on. *)
Definition mapped (f : Z → Z) (a : Z) (n : nat) (pa perm va : Z) : Z :=
  if decide (a <= va < a + PGSIZE * Z.of_nat n) then mk_pte (pa + (PGROUNDDOWN va - a)) perm else f va.

Lemma div_page_eq a va : aligned PGSIZE a → va / PGSIZE = a / PGSIZE ↔ a <= va < a + PGSIZE.
Proof.
  unfold aligned, PGSIZE. intros Ha. apply Z.mod_divide in Ha as [q ->]; [|lia].
  rewrite Z.div_mul by lia. pose proof (Z.div_mod va 4096). pose proof (Z.mod_pos_bound va 4096). lia.
Qed.

Lemma PGROUNDDOWN_in a va : aligned PGSIZE a → a <= va < a + PGSIZE → PGROUNDDOWN va = a.
Proof.
  intros Ha Hr. apply div_page_eq in Hr; [|done]. rewrite PGROUNDDOWN_eq. unfold aligned, PGSIZE in *.
  pose proof (Z.div_mod va 4096). pose proof (Z.div_mod a 4096). lia.
Qed.

Lemma PGROUNDDOWN_id a : aligned PGSIZE a → PGROUNDDOWN a = a.
Proof. intros. apply PGROUNDDOWN_in; [done|]. unfold PGSIZE. lia. Qed.

Lemma aligned_PGSIZE_add a : aligned PGSIZE a → aligned PGSIZE (a + PGSIZE).
Proof. intros. by apply aligned_add. Qed.

(** One iteration: [walk], then the store of the new entry. *)
Lemma map_one root a pa perm w l :
  aligned PGSIZE a → 0 <= a < MAXVA → aligned PGSIZE pa → 0 <= pa < 2 ^ 56 → 0 <= perm < 2 ^ 10 →
  free_pages (ks w) l → pt_wf (k_mem (ks w)) root l → LKmem ∉ held w →
  pte_v (amap (k_mem (ks w)) root a) = false →
  ∃ r w1 l1, walk root a true w = Ok r w1 ∧ pt_step w w1 root l l1
    ∧ (∀ va, amap (k_mem (ks w1)) root va = amap (k_mem (ks w)) root va)
    ∧ match r with
      | None => l1 = []
      | Some s =>
        let w2 := w1 <| ks ::= λ k, k <| k_mem ::= λ m, sd64 m s (mk_pte pa perm) |> |> in
        pte_v (ld64 (k_mem (ks w1)) s) = false ∧ pt_step w w2 root l l1
        ∧ ∀ va, 0 <= va < MAXVA →
            amap (k_mem (ks w2)) root va = mapped (amap (k_mem (ks w)) root) a 1 pa perm va
      end.
Proof.
  intros Hal Ha Hpal Hpa Hperm Hf Hwf Hlk Hun.
  destruct (walk_alloc_step root a w l) as (r & w1 & l1 & E1 & S1 & A1 & N1 & F1); try done.
  exists r, w1, l1. split; [done|]. split; [done|]. split; [done|].
  destruct r as [s|]; [|by apply F1]. intros w2.
  assert (pte_v (ld64 (k_mem (ks w1)) s) = false) as Hv.
  { rewrite <- (A1 a) in Hun. unfold amap in Hun. by rewrite N1 in Hun. }
  split; [done|]. split.
  { eapply pt_step_trans; [done|]. eapply leaf_step; [apply S1|apply S1|done]. }
  intros va Hva.
  rewrite (leaf_amap (k_mem (ks w1)) _ root s a l1 (ps_wf _ _ _ _ _ S1) N1) by (done || intros; by apply sd64_out).
  rewrite A1. unfold mapped. replace (PGSIZE * Z.of_nat 1) with PGSIZE by lia.
  destruct (decide (va / PGSIZE = a / PGSIZE)) as [E|E]; rewrite div_page_eq in E by done.
  - rewrite decide_True by done. simpl. rewrite ld64_sd64, u64_small by (by apply mk_pte_range).
    rewrite (PGROUNDDOWN_in a) by done. f_equal. lia.
  - by rewrite decide_False.
Qed.

Lemma mapped_cons f a n pa perm va :
  aligned PGSIZE a →
  mapped (mapped f a 1 pa perm) (a + PGSIZE) n (pa + PGSIZE) perm va = mapped f a (S n) pa perm va.
Proof.
  intros Hal. unfold mapped. unfold PGSIZE.
  destruct (decide (a + 4096 <= va < a + 4096 + 4096 * Z.of_nat n)).
  - rewrite decide_True by lia. f_equal. lia.
  - destruct (decide (a <= va < a + 4096 * Z.of_nat 1)).
    + rewrite decide_True by lia. done.
    + by rewrite decide_False by lia.
Qed.

Lemma mappages_loop_spec n fuel root a last pa perm w l :
  (n < fuel)%nat → aligned PGSIZE a → 0 <= a → last = a + PGSIZE * Z.of_nat n → last + PGSIZE <= MAXVA →
  aligned PGSIZE pa → 0 <= pa → pa + PGSIZE * Z.of_nat n < 2 ^ 56 → 0 <= perm < 2 ^ 10 →
  free_pages (ks w) l → pt_wf (k_mem (ks w)) root l → LKmem ∉ held w →
  (∀ va, a <= va < last + PGSIZE → pte_v (amap (k_mem (ks w)) root va) = false) →
  ∃ r w' l' k, mappages_loop fuel root a last pa perm w = Ok r w' ∧ pt_step w w' root l l'
    ∧ (∀ va, 0 <= va < MAXVA →
         amap (k_mem (ks w')) root va = mapped (amap (k_mem (ks w)) root) a k pa perm va)
    ∧ (r = 0 ∧ k = S n ∨ r = -1 ∧ (k <= n)%nat ∧ l' = []).
Proof.
  revert fuel a pa w l. induction n as [|n IH]; intros fuel a pa w l Hfuel Hal Ha Hlast Hmax Hpal Hpa Hpr
    Hperm Hf Hwf Hlk Hun; (destruct fuel as [|fuel]; [lia|]); cbn [mappages_loop];
    (destruct (map_one root a pa perm w l) as (r & w1 & l1 & E1 & S1 & A1 & R1); try done;
      [unfold PGSIZE in *; lia..|apply Hun; unfold PGSIZE in *; lia|]);
    rewrite (bind_ok _ _ _ _ _ E1); (destruct r as [s|];
      [|exists (-1), w1, l1, 0%nat; split; [done|]; split; [done|]; split;
        [intros va _; rewrite A1; unfold mapped; by rewrite decide_False by lia|right; lia || auto with lia]]);
    destruct R1 as (Hv & S2 & A2); erewrite bind_ok by reflexivity;
    unfold pte_v in Hv; cbv beta; rewrite Hv; erewrite bind_ok by reflexivity; erewrite bind_ok by reflexivity.
  - replace (a =? last) with true by (symmetry; apply Z.eqb_eq; lia).
    eexists 0, _, l1, 1%nat. split; [reflexivity|]. split; [exact S2|]. split; [exact A2|]. by left.
  - replace (a =? last) with false by (symmetry; apply Z.eqb_neq; unfold PGSIZE in *; lia).
    rewrite !u64_small by (pose proof MAXVA_eq; unfold PGSIZE in *; lia).
    set (w2 := w1 <| ks ::= _ |>) in *.
    destruct (IH fuel (a + PGSIZE) (pa + PGSIZE) w2 l1) as (r & w3 & l3 & k & E3 & S3 & A3 & R3);
      auto using aligned_PGSIZE_add; try (unfold PGSIZE in *; lia); try apply S2.
    { by rewrite (mem_only_held _ _ (ps_mem _ _ _ _ _ S2)). }
    { intros va Hva. rewrite A2 by (unfold PGSIZE in *; lia). unfold mapped.
      rewrite decide_False by (unfold PGSIZE in *; lia). apply Hun. unfold PGSIZE in *. lia. }
    exists r, w3, l3, (S k). split; [done|]. split; [by eapply pt_step_trans|]. split.
    + intros va Hva. rewrite A3 by done. rewrite <- (mapped_cons _ a k) by done.
      unfold mapped at 1 2. case_decide; [done|]. by apply A2.
    + destruct R3 as [[-> ->]|(-> & ? & ->)]; [by left|right; auto with lia].
Qed.

(** ** uvmunmap *)

(** The frames that the [n] pages from [va] on are mapped to. *)
Definition frames (m : mem) (root va : Z) (n : nat) : list Z :=
  (λ i, PTE2PA (amap m root (va + PGSIZE * Z.of_nat i))) <$> seq 0 n.

(** The frame [f] is a RAM page that neither is free nor holds page-table entries. *)
Definition data_frame (m : mem) (root : Z) (l : list Z) (f : Z) : Prop :=
  page_ok f ∧ f ∉ l ∧ ∀ path, path_ok path → npage m root path ≠ Some f.

(** A present entry that is not a pointer to a page table. *)
Definition leaf_pte (pte : Z) : Prop := pte_v pte = true ∧ PTE_FLAGS pte ≠ PTE_V.

Lemma frames_cons m root va n :
  frames m root va (S n) = PTE2PA (amap m root va) :: frames m root (va + PGSIZE) n.
Proof.
  unfold frames. simpl. f_equal; [f_equal; f_equal; lia|].
  rewrite <- fmap_S_seq, <- list_fmap_compose. apply list_fmap_ext. intros i x _. simpl. do 2 f_equal.
  unfold PGSIZE. lia.
Qed.

Lemma frames_ext m m' root va n :
  (∀ x, va <= x < va + PGSIZE * Z.of_nat n → amap m' root x = amap m root x) →
  frames m' root va n = frames m root va n.
Proof.
  intros E. apply list_fmap_ext. intros i x Hx%lookup_seq. rewrite E; [done|]. unfold PGSIZE. lia.
Qed.

Lemma kfree_tree f m' m root l :
  data_frame m root l f → pt_wf m root l → (∀ x, ¬ in_page f x → m' x = m x) →
  ∀ x, tree_byte m root x → m' x = m x.
Proof.
  intros (Hfok & _ & Hft) Hwf Hm x (path & p & Hok & Hp & Hin). apply Hm. intros Hf.
  destruct (wf_page _ _ _ Hwf path p) as [Hpok _]; [done..|].
  apply (pages_apart f p x x); try done. intros ->. by apply (Hft path).
Qed.

(** One iteration of [uvmunmap] on a mapped page: [w2] is the state after the
    frame [f] has been freed (if [do_free]) and the entry cleared. *)
Lemma unmap_one root a w l (do_free : bool) s :
  let m := k_mem (ks w) in let f := PTE2PA (amap m root a) in
  let l' := if do_free then f :: l else l in
  let w1 := if do_free then w <| ks ::= kfree_upd f |> else w in
  let w2 := w1 <| ks ::= λ k, k <| k_mem ::= λ m, sd64 m s 0 |> |> in
  aligned PGSIZE a → 0 <= a < MAXVA → pte_slot m root a = Some s →
  free_pages (ks w) l → pt_wf m root l → (if do_free then data_frame m root l f else True) →
  mem_only w w2 ∧ free_pages (ks w2) l' ∧ pt_wf (k_mem (ks w2)) root l'
  ∧ (∀ path, path_ok path → npage (k_mem (ks w2)) root path = npage m root path)
  ∧ (∀ va, 0 <= va < MAXVA → amap (k_mem (ks w2)) root va =
       if decide (a <= va < a + PGSIZE) then 0 else amap m root va)
  ∧ (∀ x, (do_free → ¬ in_page f x) → ¬ tree_byte m root x → k_mem (ks w2) x = m x).
Proof.
  intros m f l' w1 w2 Hal Ha Hs Hf Hwf Hdf.
  assert (mem_only w w1 ∧ free_pages (ks w1) l'
    ∧ (∀ x, (do_free → ¬ in_page f x) → k_mem (ks w1) x = m x)
    ∧ ∀ x, tree_byte m root x → k_mem (ks w1) x = m x) as (M1 & F1 & O1 & T1).
  { destruct do_free; [|split; [apply mem_only_refl|done]].
    split; [apply mem_only_kfree|]. split; [by apply free_pages_kfree; [apply Hdf..|]|].
    split; [intros x Hx; by apply kfree_mem_out, Hx|].
    eapply kfree_tree; [exact Hdf|done|]. intros x Hx. by apply kfree_mem_out. }
  destruct (tree_frame _ _ _ T1) as (N1 & S1 & A1).
  assert (pt_wf (k_mem (ks w1)) root l') as W1.
  { split.
    - intros path p Hok. rewrite N1 by done. intros Hp.
      destruct (wf_page _ _ _ Hwf path p) as [Hpok Hpni]; [done..|]. split; [done|].
      subst l'. destruct do_free; [|done]. intros [->|?]%elem_of_cons; [|done].
      by apply Hdf in Hp.
    - intros path path' p Hok Hok'. rewrite !N1 by done. by apply (wf_inj _ _ _ Hwf). }
  rewrite <- S1 in Hs. pose proof (leaf_step root a w1 l' s 0 F1 W1 Hs) as L2. fold w2 in L2.
  assert (∀ x, x < s ∨ s + 8 <= x → k_mem (ks w2) x = k_mem (ks w1) x) as O2 by (intros; by apply sd64_out).
  pose proof (leaf_npage _ (k_mem (ks w2)) _ _ _ _ W1 Hs O2) as N2.
  split; [eapply mem_only_trans; [exact M1|apply L2]|]. split; [apply L2|]. split; [apply L2|].
  split; [intros path Hok; by rewrite N2, N1|]. split.
  - intros va Hva. rewrite (leaf_amap (k_mem (ks w1)) _ root s a l' W1 Hs O2) by done.
    destruct (decide (va / PGSIZE = a / PGSIZE)) as [E|E]; rewrite div_page_eq in E by done.
    + rewrite decide_True by done. simpl. by rewrite ld64_sd64.
    + rewrite decide_False by done. apply A1.
  - intros x Hx Ht. destruct (slot_inv _ _ _ _ _ W1 Hs) as (q & Hq & Hsq & _).
    rewrite O2; [by apply O1|]. apply (slot_in_page s a q); [done|]. intros Hin. apply Ht.
    eexists _, q. split; [apply path_ok_va|]. rewrite N1 in Hq by apply path_ok_va. done.
Qed.

Lemma leaf_pte_slot m root va : leaf_pte (amap m root va) → ∃ s, pte_slot m root va = Some s.
Proof. intros [Hv _]. unfold amap in Hv. destruct (pte_slot m root va); [eauto|discriminate Hv]. Qed.

Lemma uvmunmap_loop_spec n fuel root a aend (do_free : bool) w l :
  (n < fuel)%nat → aligned PGSIZE a → 0 <= a → aend = a + PGSIZE * Z.of_nat n → aend <= MAXVA →
  let m := k_mem (ks w) in let fs := frames m root a n in
  (∀ va, a <= va < aend → leaf_pte (amap m root va)) →
  (if do_free then NoDup fs ∧ Forall (data_frame m root l) fs else True) →
  free_pages (ks w) l → pt_wf m root l → LKmem ∉ held w →
  ∃ w', uvmunmap_loop fuel root a aend do_free w = Ok () w' ∧ mem_only w w'
    ∧ free_pages (ks w') (if do_free then reverse fs ++ l else l)
    ∧ pt_wf (k_mem (ks w')) root (if do_free then reverse fs ++ l else l)
    ∧ (∀ path, path_ok path → npage (k_mem (ks w')) root path = npage m root path)
    ∧ (∀ va, 0 <= va < MAXVA →
         amap (k_mem (ks w')) root va = if decide (a <= va < aend) then 0 else amap m root va)
    ∧ (∀ x, (do_free → ∀ f, f ∈ fs → ¬ in_page f x) → ¬ tree_byte m root x → k_mem (ks w') x = m x).
Proof.
  revert fuel a w l. induction n as [|n IH]; intros fuel a w l Hfuel Hal Ha Haend Hmax m fs Hleaf Hdf Hf Hwf Hlk;
    (destruct fuel as [|fuel]; [lia|]); cbn [uvmunmap_loop].
  { destruct (Z.ltb_spec a aend); [lia|]. exists w. split; [done|]. split; [apply mem_only_refl|].
    subst fs. unfold frames. simpl. assert ((if do_free then l else l) = l) as -> by (by destruct do_free).
    split; [done|]. split; [done|]. split; [done|]. split; [|done].
    intros va _. by rewrite decide_False by lia. }
  destruct (Z.ltb_spec a aend) as [_|]; [|unfold PGSIZE in *; lia].
  destruct (leaf_pte_slot m root a) as [s Hs]; [apply Hleaf; unfold PGSIZE in *; lia|].
  assert (ld64 m s = amap m root a) as Es by (unfold amap; by rewrite Hs).
  assert (leaf_pte (amap m root a)) as [Hv Hfl] by (apply Hleaf; unfold PGSIZE in *; lia).
  set (f := PTE2PA (amap m root a)).
  assert (if do_free then data_frame m root l f else True) as Hdf1.
  { destruct do_free; [|done]. subst fs. rewrite frames_cons in Hdf.
    by destruct Hdf as [_ [? _]%list.Forall_cons]. }
  destruct (unmap_one root a w l do_free s) as (M2 & F2 & W2 & N2 & A2 & O2); auto.
  { unfold PGSIZE in *. lia. }
  fold f in M2, F2, W2, N2, A2, O2. fold m in N2, A2, O2.
  set (w1 := if do_free then w <| ks ::= kfree_upd f |> else w) in *.
  set (w2 := w1 <| ks ::= λ k, k <| k_mem ::= λ m, sd64 m s 0 |> |>) in *.
  set (l1 := if do_free then f :: l else l) in *.
  assert (uvmunmap_loop (S fuel) root a aend do_free w = uvmunmap_loop fuel root (a + PGSIZE) aend do_free w2) as E.
  { cbn [uvmunmap_loop]. destruct (Z.ltb_spec a aend) as [_|]; [|unfold PGSIZE in *; lia].
    rewrite (bind_ok _ _ _ _ _ (walk_lookup root a w ltac:(unfold PGSIZE in *; lia))). fold m. rewrite Hs.
    erewrite bind_ok by reflexivity. cbv beta. fold m. rewrite Es. unfold pte_v in Hv.
    apply negb_true_iff in Hv. rewrite Hv. erewrite bind_ok by reflexivity.
    apply Z.eqb_neq in Hfl. rewrite Hfl. erewrite bind_ok by reflexivity.
    assert (when do_free (kfree (PTE2PA (amap m root a))) w = Ok () w1) as E1.
    { subst w1. destruct do_free; [|done]. apply kfree_run; [apply Hdf1|done]. }
    rewrite (bind_ok _ _ _ _ _ E1). by erewrite bind_ok by reflexivity. }
  cbn [uvmunmap_loop] in E. destruct (Z.ltb_spec a aend) as [_|] in E; [|unfold PGSIZE in *; lia].
  rewrite E. clear E.
  assert (frames (k_mem (ks w2)) root (a + PGSIZE) n = frames m root (a + PGSIZE) n) as Efs.
  { apply frames_ext. intros x Hx. rewrite A2 by (unfold PGSIZE in *; lia). by rewrite decide_False by lia. }
  destruct (IH fuel (a + PGSIZE) w2 l1) as (w3 & E3 & M3 & F3 & W3 & N3 & A3 & O3); clear IH.
  { lia. }
  { by apply aligned_PGSIZE_add. }
  { unfold PGSIZE. lia. }
  { unfold PGSIZE in *. lia. }
  { done. }
  { intros va Hva. rewrite A2 by (unfold PGSIZE in *; lia). rewrite decide_False by lia. apply Hleaf.
    unfold PGSIZE in *. lia. }
  { rewrite Efs. destruct do_free; [|done]. subst fs. rewrite frames_cons in Hdf. fold f in Hdf.
    destruct Hdf as [[Hni Hnd]%list.NoDup_cons [_ Hall]%list.Forall_cons]. split; [done|].
    rewrite list.Forall_forall in Hall |- *. intros g Hg. destruct (Hall g Hg) as (? & ? & Ht).
    split; [done|]. split.
    - subst l1. intros [->|?]%elem_of_cons; done.
    - intros path Hok. rewrite N2 by done. by apply Ht. }
  { done. }
  { done. }
  { by rewrite (mem_only_held w w2 M2). }
  rewrite Efs in *.
  assert ((if do_free then reverse (frames m root (a + PGSIZE) n) ++ l1 else l1)
          = (if do_free then reverse fs ++ l else l)) as El.
  { subst fs l1. rewrite frames_cons. fold f. destruct do_free; [|done].
    by rewrite reverse_cons, <- app_assoc. }
  rewrite El in *. exists w3. split; [done|]. split; [by eapply mem_only_trans|].
  split; [done|]. split; [done|]. split; [intros; by rewrite N3, N2|]. split.
  - intros va Hva. rewrite A3 by done. unfold PGSIZE in *.
    destruct (decide (a + 4096 <= va < aend)); [by rewrite decide_True by lia|].
    rewrite A2 by done. destruct (decide (a <= va < a + 4096)); [by rewrite decide_True by lia|].
    by rewrite decide_False by lia.
  - intros x Hx Ht. rewrite O3, O2; [done|..].
    + intros Hd. apply (Hx Hd). subst fs. rewrite frames_cons. apply elem_of_cons. by left.
    + done.
    + intros Hd g Hg. apply (Hx Hd). subst fs. rewrite frames_cons. apply elem_of_cons. by right.
    + intros (path & p & Hok & Hp & Hin). apply Ht. exists path, p. by rewrite N2 in Hp.
Qed.

(** ** User memory *)

(** The frame a user access to [va] reaches, 0 if it is not allowed one. *)
Definition uframe (m : mem) (root va : Z) : Z :=
  if MAXVA <=? va then 0
  else let pte := amap m root va in
       if Z.land pte PTE_V =? 0 then 0 else if Z.land pte PTE_U =? 0 then 0 else PTE2PA pte.

(** The byte at user address [va], if it is mapped for the user. *)
Definition urd (m : mem) (root va : Z) : option Z :=
  let f := uframe m root va in if f =? 0 then None else Some (m (f + va mod PGSIZE)).

(** No two user pages share a frame, and no user page is a page-table page. *)
Record user_sep (m : mem) (root : Z) : Prop := {
  sep_inj va va' : 0 <= va → 0 <= va' → uframe m root va ≠ 0 →
    uframe m root va = uframe m root va' → va / PGSIZE = va' / PGSIZE;
  sep_tree va path p : 0 <= va → uframe m root va ≠ 0 → path_ok path → npage m root path = Some p →
    aligned PGSIZE p ∧ p ≠ uframe m root va
}.

Lemma walkaddr_spec root va w : 0 <= va → walkaddr root va w = Ok (uframe (k_mem (ks w)) root va) w.
Proof.
  intros Hva. unfold walkaddr, uframe. destruct (Z.leb_spec MAXVA va); [done|].
  rewrite (bind_ok _ _ _ _ _ (walk_lookup root va w ltac:(lia))). unfold amap.
  destruct (pte_slot _ root va) as [s|]; [|done]. erewrite bind_ok by reflexivity. cbv beta.
  by repeat case_match.
Qed.

Lemma uframe_aligned m root va : aligned PGSIZE (uframe m root va).
Proof.
  unfold uframe, aligned, PGSIZE. repeat case_match; try done. unfold PTE2PA, u64.
  rewrite Z.shiftl_mul_pow2 by lia. change (2 ^ 64) with (4096 * 2 ^ 52). change (2 ^ 12) with 4096.
  rewrite Z.mul_comm, Z.mul_mod_distr_l by lia. rewrite Z.mul_comm. apply Z.mod_mul. lia.
Qed.

Lemma uframe_page m root va va' :
  0 <= va → 0 <= va' → va / PGSIZE = va' / PGSIZE → uframe m root va = uframe m root va'.
Proof.
  intros Hva Hva' E. unfold uframe, amap, pte_slot. rewrite !(PX_same_page va va') by done.
  assert ((MAXVA <=? va) = (MAXVA <=? va')) as ->; [|done].
  rewrite MAXVA_eq. unfold PGSIZE in E.
  pose proof (Z.div_mod va 4096). pose proof (Z.mod_pos_bound va 4096).
  pose proof (Z.div_mod va' 4096). pose proof (Z.mod_pos_bound va' 4096).
  destruct (Z.leb_spec (2 ^ 38) va), (Z.leb_spec (2 ^ 38) va'); try done; exfalso;
    change (2 ^ 38) with (2 ^ 26 * 4096) in *; lia.
Qed.

Lemma aligned_pages_apart a b x :
  aligned PGSIZE a → aligned PGSIZE b → a ≠ b → in_page a x → in_page b x → False.
Proof.
  intros Ha Hb Hne Hx Hy. unfold in_page, PGSIZE in *. destruct (aligned_apart 4096 a b); try done; lia.
Qed.

(** A store of [l] at the user address [va], inside one page. *)
Section ustore.
Variables (m : mem) (root va : Z) (l : list Z).
Hypothesis Hsep : user_sep m root.
Hypothesis Hva : 0 <= va.
Hypothesis Hf : uframe m root va ≠ 0.
Hypothesis Hl : va mod PGSIZE + Z.of_nat (length l) <= PGSIZE.

Let m' := st_bytes m (uframe m root va + va mod PGSIZE) l.

Lemma ustore_out x : ¬ in_page (uframe m root va) x → m' x = m x.
Proof.
  intros Hx. apply st_bytes_out. pose proof (Z.mod_pos_bound va PGSIZE ltac:(done)).
  unfold in_page in Hx. lia.
Qed.

Lemma ustore_tree x : tree_byte m root x → m' x = m x.
Proof.
  intros (path & p & Hok & Hp & Hin). apply ustore_out. intros Hin'.
  destruct (sep_tree _ _ Hsep va path p Hva Hf Hok Hp) as [Hal Hne].
  by apply (aligned_pages_apart p (uframe m root va) x Hal (uframe_aligned _ _ _) Hne).
Qed.

Lemma ustore_uframe va' : uframe m' root va' = uframe m root va'.
Proof. unfold uframe. by rewrite (proj2 (proj2 (tree_frame _ _ _ ustore_tree))). Qed.

Lemma ustore_sep : user_sep m' root.
Proof.
  split.
  - intros. rewrite !ustore_uframe in *. by apply (sep_inj _ _ Hsep).
  - intros va' path p Hva' Hf' Hok Hp. rewrite ustore_uframe in *.
    rewrite (proj1 (tree_frame _ _ _ ustore_tree)) in Hp by done. by eapply (sep_tree _ _ Hsep).
Qed.

Lemma ustore_urd va' :
  0 <= va' →
  urd m' root va' = if decide (va <= va' < va + Z.of_nat (length l)) then l !! Z.to_nat (va' - va)
                    else urd m root va'.
Proof.
  intros Hva'. unfold urd. rewrite ustore_uframe.
  pose proof (Z.mod_pos_bound va PGSIZE ltac:(done)). pose proof (Z.mod_pos_bound va' PGSIZE ltac:(done)).
  pose proof (Z.div_mod va PGSIZE ltac:(done)). pose proof (Z.div_mod va' PGSIZE ltac:(done)).
  case_decide as Hd.
  - assert (va' / PGSIZE = va / PGSIZE) as Epg.
    { symmetry. apply Z.div_unique with (va' - va + va mod PGSIZE); [left; lia|]. lia. }
    rewrite (uframe_page m root va' va) by done. destruct (Z.eqb_spec (uframe m root va) 0); [done|].
    replace (va' mod PGSIZE) with (va mod PGSIZE + Z.of_nat (Z.to_nat (va' - va))).
    2:{ rewrite Z2Nat.id by lia. rewrite Epg in *. lia. }
    destruct (lookup_lt_is_Some_2 l (Z.to_nat (va' - va))) as [b Hb]; [lia|]. rewrite Hb. f_equal.
    unfold m'. rewrite Z.add_assoc. by apply st_bytes_in.
  - destruct (Z.eqb_spec (uframe m root va') 0) as [|Hf']; [done|]. f_equal.
    destruct (decide (uframe m root va' = uframe m root va)) as [E|E].
    + assert (va' / PGSIZE = va / PGSIZE) as Epg by (by apply (sep_inj _ _ Hsep)).
      rewrite E. apply st_bytes_out. rewrite Epg in *. lia.
    + apply ustore_out. intros Hin.
      apply (aligned_pages_apart (uframe m root va') (uframe m root va) (uframe m root va' + va' mod PGSIZE));
        auto using uframe_aligned. unfold in_page. lia.
Qed.
End ustore.

(** Positions of one iteration of the copy loops. *)
Lemma copy_page va len :
  0 <= va → 0 < len →
  let va0 := PGROUNDDOWN va in let n := Z.min (PGSIZE - (va - va0)) len in
  0 <= va0 ∧ va - va0 = va mod PGSIZE ∧ 0 < n <= len ∧ va mod PGSIZE + n <= PGSIZE
  ∧ va0 / PGSIZE = va / PGSIZE ∧ (n = len ∨ va + n = va0 + PGSIZE).
Proof.
  intros Hva Hlen. simpl. rewrite PGROUNDDOWN_eq.
  pose proof (Z.mod_pos_bound va PGSIZE ltac:(done)). pose proof (Z.div_mod va PGSIZE ltac:(done)).
  replace (va - (va - va mod PGSIZE)) with (va mod PGSIZE) by lia.
  assert (0 <= va / PGSIZE) by (apply Z.div_pos; done || lia).
  unfold PGSIZE in *. split; [lia|]. split; [done|]. split; [lia|]. split; [lia|].
  split; [symmetry; apply Z.div_unique with 0; lia|lia].
Qed.

Lemma uframe_lt m root va : uframe m root va ≠ 0 → va < MAXVA.
Proof. unfold uframe. destruct (Z.leb_spec MAXVA va); [done|lia]. Qed.

(** Advancing to the next page: the address and the fuel left. *)
Lemma copy_next va len (fuel : nat) m root :
  0 <= va → 0 < len → uframe m root va ≠ 0 →
  let va0 := PGROUNDDOWN va in let n := Z.min (PGSIZE - (va - va0)) len in
  va mod PGSIZE + len <= PGSIZE * Z.of_nat fuel →
  u64 (va0 + PGSIZE) = va0 + PGSIZE ∧ 0 <= va0 + PGSIZE ∧ (0 < len - n → va + n = va0 + PGSIZE)
  ∧ (va0 + PGSIZE) mod PGSIZE + (len - n) <= PGSIZE * (Z.of_nat fuel - 1) ∧ (0 < fuel)%nat.
Proof.
  intros Hva Hlen Hf va0 n Hfuel. apply uframe_lt in Hf. rewrite MAXVA_eq in Hf.
  destruct (copy_page va len Hva Hlen) as (H1 & H2 & H3 & H4 & H5 & H6). fold va0 n in H1, H2, H3, H4, H5, H6.
  destruct (PGROUNDDOWN_spec va) as [Hal Hr]. fold va0 in Hal, Hr.
  pose proof (aligned_PGSIZE_add _ Hal) as Hal'. unfold aligned in Hal'. rewrite Hal'.
  split; [apply u64_small; unfold PGSIZE; lia|]. unfold PGSIZE in *. lia.
Qed.

Lemma bytes_at_urd m root va n i :
  0 <= va → uframe m root va ≠ 0 → va mod PGSIZE + Z.of_nat n <= PGSIZE → (i < n)%nat →
  bytes_at m (uframe m root va + va mod PGSIZE) n !! i = urd m root (va + Z.of_nat i).
Proof.
  intros Hva Hf Hn Hi. rewrite bytes_at_lookup by done. unfold urd.
  pose proof (Z.mod_pos_bound va PGSIZE ltac:(done)). pose proof (Z.div_mod va PGSIZE ltac:(done)).
  assert ((va + Z.of_nat i) / PGSIZE = va / PGSIZE) as Ed.
  { symmetry. apply Z.div_unique with (va mod PGSIZE + Z.of_nat i); [left; lia|lia]. }
  assert ((va + Z.of_nat i) mod PGSIZE = va mod PGSIZE + Z.of_nat i) as Em.
  { symmetry. apply Z.mod_unique with (va / PGSIZE); [left; lia|lia]. }
  rewrite (uframe_page m root (va + Z.of_nat i) va) by (done || lia). rewrite Em.
  destruct (Z.eqb_spec (uframe m root va) 0); [done|]. do 2 f_equal. lia.
Qed.

(** What a copy of [len] bytes at user address [va] returns: [got] bytes were
    copied, all of them or up to the first byte that is not mapped. *)
Definition copy_result (m : mem) (root va len r : Z) (got : nat) : Prop :=
  (∀ i, (i < got)%nat → is_Some (urd m root (va + Z.of_nat i))) ∧
  (r = 0 ∧ Z.of_nat got = len ∨
   r = -1 ∧ Z.of_nat got < len ∧ urd m root (va + Z.of_nat got) = None).

Lemma copyin_loop_spec fuel root va len dst w :
  let m := k_mem (ks w) in
  0 <= va → 0 <= len → va mod PGSIZE + len <= PGSIZE * Z.of_nat fuel →
  ∃ r bytes, copyin_loop (S fuel) root va len dst w = Ok (r, dst ++ bytes) w
    ∧ (∀ i, (i < length bytes)%nat → bytes !! i = urd m root (va + Z.of_nat i))
    ∧ copy_result m root va len r (length bytes).
Proof.
  intros m. revert va len dst. induction fuel as [|fuel IH]; intros va len dst Hva Hlen Hfuel;
    cbn [copyin_loop].
  { pose proof (Z.mod_pos_bound va PGSIZE ltac:(done)). destruct (Z.ltb_spec 0 len); [lia|].
    exists 0, []. rewrite app_nil_r. split; [done|]. split; [simpl; lia|]. split; [simpl; lia|]. left. simpl. lia. }
  destruct (Z.ltb_spec 0 len) as [Hpos|].
  2:{ exists 0, []. rewrite app_nil_r. split; [done|]. split; [simpl; lia|]. split; [simpl; lia|]. left. simpl. lia. }
  destruct (copy_page va len Hva Hpos) as (Hva0 & Eoff & Hn & Hin & Hpg & _).
  rewrite (bind_ok _ _ _ _ _ (walkaddr_spec root _ w Hva0)). fold m.
  rewrite (uframe_page m root _ va) by done.
  destruct (Z.eqb_spec (uframe m root va) 0) as [Hz|Hnz].
  { exists (-1), []. rewrite app_nil_r. split; [done|]. split; [simpl; lia|]. split; [simpl; lia|]. right. simpl.
    split; [done|]. split; [done|]. unfold urd. rewrite Z.add_0_r, Hz. done. }
  destruct (copy_next va len (S fuel) m root Hva Hpos Hnz Hfuel) as (Eu & Hnext & Eadv & Hfuel' & _).
  set (va0 := PGROUNDDOWN va) in *. set (n := Z.min _ len) in *.
  erewrite bind_ok by reflexivity. cbv beta. fold m. rewrite Eu, Eoff.
  set (b0 := bytes_at m _ _).
  destruct (IH (va0 + PGSIZE) (len - n) (dst ++ b0)) as (r & bytes & E & Hb & HR); [lia..|].
  exists r, (b0 ++ bytes). rewrite app_assoc. split; [exact E|].
  assert (length b0 = Z.to_nat n) as Hlb by apply length_bytes_at. destruct HR as [_ HR].
  assert (∀ i, (i < length (b0 ++ bytes))%nat → (b0 ++ bytes) !! i = urd m root (va + Z.of_nat i)) as Hall.
  { intros i Hi. rewrite length_app in Hi. destruct (decide (i < Z.to_nat n)%nat).
    + rewrite lookup_app_l by lia. apply bytes_at_urd; try done; lia.
    + rewrite lookup_app_r, Hb by lia. f_equal. destruct HR as [[_ HR]|(_ & HR & _)]; lia. }
  split; [done|]. split; [intros i Hi; rewrite <- Hall by done; by apply lookup_lt_is_Some|].
  rewrite length_app, Hlb.
    destruct HR as [[-> HR]|(-> & HR & HN)]; [left; lia|right]. split; [done|]. split; [lia|].
    rewrite <- HN. f_equal. lia.
Qed.

Lemma copyout_loop_spec fuel root va src len w :
  let m := k_mem (ks w) in
  0 <= va → 0 <= len → Z.of_nat (length src) = len → user_sep m root →
  va mod PGSIZE + len <= PGSIZE * Z.of_nat fuel →
  ∃ r m' got, copyout_loop (S fuel) root va src len w = Ok r (w <| ks ::= λ k, k <| k_mem := m' |> |>)
    ∧ user_sep m' root
    ∧ (∀ va', 0 <= va' → urd m' root va' =
         if decide (va <= va' < va + Z.of_nat got) then src !! Z.to_nat (va' - va) else urd m root va')
    ∧ (∀ x, (∀ va', va <= va' < va + len → ¬ in_page (uframe m root va') x) → m' x = m x)
    ∧ copy_result m root va len r got.
Proof.
  revert va src len w. induction fuel as [|fuel IH]; intros va src len w m Hva Hlen Hsrc Hsep Hfuel;
    cbn [copyout_loop].
  { pose proof (Z.mod_pos_bound va PGSIZE ltac:(done)). destruct (Z.ltb_spec 0 len); [lia|].
    exists 0, m, 0%nat. split; [by destruct w as [[] ? ? ?]|]. split; [done|]. split; [|split; [done|split; [lia|left; simpl; lia]]].
    intros va' _. by rewrite decide_False by lia. }
  destruct (Z.ltb_spec 0 len) as [Hpos|].
  2:{ exists 0, m, 0%nat. split; [by destruct w as [[] ? ? ?]|]. split; [done|]. split; [|split; [done|split; [lia|left; simpl; lia]]].
    intros va' _. by rewrite decide_False by lia. }
  destruct (copy_page va len Hva Hpos) as (Hva0 & Eoff & Hn & Hin & Hpg & _).
  rewrite (bind_ok _ _ _ _ _ (walkaddr_spec root _ w Hva0)). fold m.
  rewrite (uframe_page m root _ va) by done.
  destruct (Z.eqb_spec (uframe m root va) 0) as [Hz|Hnz].
  { exists (-1), m, 0%nat. split; [by destruct w as [[] ? ? ?]|]. split; [done|]. split; [|split; [done|split; [lia|right; simpl]]].
    - intros va' _. by rewrite decide_False by lia.
    - split; [done|]. split; [done|]. unfold urd. rewrite Z.add_0_r, Hz. done. }
  destruct (copy_next va len (S fuel) m root Hva Hpos Hnz Hfuel) as (Eu & Hnext & Eadv & Hfuel' & _).
  set (va0 := PGROUNDDOWN va) in *. set (n := Z.min _ len) in *.
  erewrite bind_ok by reflexivity. rewrite Eu, Eoff.
  set (chunk := take (Z.to_nat n) src).
  assert (Z.of_nat (length chunk) = n) as Hlc by (unfold chunk; rewrite length_take; lia).
  set (w1 := w <| ks ::= _ |>). set (m1 := k_mem (ks w1)).
  assert (m1 = st_bytes m (uframe m root va + va mod PGSIZE) chunk) as Em1 by done.
  pose proof (ustore_sep m root va chunk Hsep Hva Hnz ltac:(lia)) as Hsep1.
  pose proof (ustore_urd m root va chunk Hsep Hva Hnz ltac:(lia)) as Hurd1.
  pose proof (ustore_uframe m root va chunk Hsep Hva Hnz ltac:(lia)) as Huf1.
  pose proof (ustore_out m root va chunk ltac:(lia)) as Hout1.
  rewrite <- Em1 in Hsep1, Hurd1, Huf1, Hout1.
  destruct (IH (va0 + PGSIZE) (drop (Z.to_nat n) src) (len - n) w1) as (r & m' & got & E & S2 & U2 & O2 & R2);
    [lia|lia|rewrite length_drop; lia|done|lia|].
  exists r, m', (Z.to_nat n + got)%nat. split; [etrans; [exact E|]; f_equal; by rsimpl|]. split; [done|]. split; [|split].
  - intros va' Hva'. rewrite U2, Hurd1 by done.
    assert (Z.of_nat got > 0 → va + n = va0 + PGSIZE) by (destruct R2 as [_ [[_ ?]|(_ & ? & _)]]; lia).
    destruct (decide (va0 + PGSIZE <= va' < va0 + PGSIZE + Z.of_nat got)).
    + rewrite decide_True by lia. rewrite lookup_drop. f_equal. lia.
    + destruct (decide (va <= va' < va + Z.of_nat (length chunk))).
      * rewrite decide_True by lia. unfold chunk. rewrite lookup_take_lt by lia. done.
      * by rewrite decide_False by lia.
  - intros x Hx. rewrite O2.
    + apply Hout1. apply Hx. lia.
    + intros va' Hva'. rewrite Huf1. apply Hx. lia.
  - destruct R2 as [RS R2].
    assert (∀ i, (i < got)%nat → va + n = va0 + PGSIZE) by (destruct R2 as [[_ ?]|(_ & ? & _)]; lia).
    split.
    { intros i Hi. destruct (decide (i < Z.to_nat n)%nat).
      - rewrite <- (bytes_at_urd m root va (Z.to_nat n) i) by (done || lia).
        apply lookup_lt_is_Some. by rewrite length_bytes_at.
      - specialize (RS (i - Z.to_nat n)%nat ltac:(lia)). fold m1 in RS.
        specialize (H1 (i - Z.to_nat n)%nat ltac:(lia)).
        rewrite Hurd1, decide_False in RS by lia.
        by replace (va0 + PGSIZE + Z.of_nat (i - Z.to_nat n)) with (va + Z.of_nat i) in RS by lia. }
    destruct R2 as [[-> HR]|(-> & HR & HN)]; [left; lia|right]. split; [done|].
    split; [lia|]. fold m1 in HN. rewrite Hurd1, decide_False in HN by lia.
    rewrite <- HN. f_equal. lia.
Qed.

Lemma copyinstr_page_spec n p m :
  let '(nul, l) := copyinstr_page n p m in
  (length l <= n)%nat ∧ l = bytes_at m p (length l)
  ∧ if nul then ∃ s, l = s ++ [0] ∧ 0 ∉ s else length l = n ∧ 0 ∉ l.
Proof.
  revert p. induction n as [|n IH]; intros p; simpl.
  { split; [lia|]. split; [done|]. split; [done|]. set_solver. }
  destruct (Z.eqb_spec (m p) 0) as [E|E].
  { simpl. split; [lia|]. split; [by rewrite E|]. exists []. split; [done|]. set_solver. }
  specialize (IH (p + 1)). destruct (copyinstr_page n (p + 1) m) as [nul l].
  destruct IH as (H1 & H2 & H3). simpl. split; [lia|]. split; [by f_equal|]. destruct nul.
  - destruct H3 as (s & -> & Hs). exists (m p :: s). split; [done|]. set_solver.
  - destruct H3 as [-> Hl]. split; [done|]. set_solver.
Qed.

(** What [copyinstr] returns after storing [dst]: a whole string with its NUL,
    or no NUL was found in the bytes that could be read. *)
Definition str_result (m : mem) (root va max r : Z) (dst : list Z) : Prop :=
  r = 0 ∧ (∃ s, dst = s ++ [0] ∧ 0 ∉ s) ∧ Z.of_nat (length dst) <= max ∨
  r = -1 ∧ 0 ∉ dst ∧ (Z.of_nat (length dst) = max ∨
    Z.of_nat (length dst) < max ∧ urd m root (va + Z.of_nat (length dst)) = None).

Lemma copyinstr_loop_spec fuel root va max dst w :
  let m := k_mem (ks w) in
  0 <= va → 0 <= max → va mod PGSIZE + max <= PGSIZE * Z.of_nat fuel →
  ∃ r bytes, copyinstr_loop (S fuel) root va max dst w = Ok (r, dst ++ bytes) w
    ∧ (∀ i, (i < length bytes)%nat → bytes !! i = urd m root (va + Z.of_nat i))
    ∧ str_result m root va max r bytes.
Proof.
  intros m. revert va max dst. induction fuel as [|fuel IH]; intros va max dst Hva Hmax Hfuel;
    cbn [copyinstr_loop].
  { pose proof (Z.mod_pos_bound va PGSIZE ltac:(done)). destruct (Z.ltb_spec 0 max); [lia|].
    exists (-1), []. rewrite app_nil_r. split; [done|]. split; [simpl; lia|]. right.
    split; [done|]. split; [set_solver|]. left. simpl. lia. }
  destruct (Z.ltb_spec 0 max) as [Hpos|].
  2:{ exists (-1), []. rewrite app_nil_r. split; [done|]. split; [simpl; lia|]. right.
      split; [done|]. split; [set_solver|]. left. simpl. lia. }
  destruct (copy_page va max Hva Hpos) as (Hva0 & Eoff & Hn & Hin & Hpg & _).
  rewrite (bind_ok _ _ _ _ _ (walkaddr_spec root _ w Hva0)). fold m.
  rewrite (uframe_page m root _ va) by done.
  destruct (Z.eqb_spec (uframe m root va) 0) as [Hz|Hnz].
  { exists (-1), []. rewrite app_nil_r. split; [done|]. split; [simpl; lia|]. right.
    split; [done|]. split; [set_solver|]. right. simpl. split; [done|]. unfold urd. by rewrite Z.add_0_r, Hz. }
  destruct (copy_next va max (S fuel) m root Hva Hpos Hnz Hfuel) as (Eu & Hnext & Eadv & Hfuel' & _).
  set (va0 := PGROUNDDOWN va) in *. set (n := Z.min _ max) in *.
  erewrite bind_ok by reflexivity. cbv beta. fold m. rewrite Eu, Eoff.
  pose proof (copyinstr_page_spec (Z.to_nat n) (uframe m root va + va mod PGSIZE) m) as Hp.
  destruct (copyinstr_page _ _ _) as [nul b0]. destruct Hp as (Hlb & Hb0 & Hnul). simpl.
  assert (∀ i, (i < length b0)%nat → b0 !! i = urd m root (va + Z.of_nat i)) as Hrd.
  { intros i Hi. rewrite Hb0. apply bytes_at_urd; try done; lia. }
  destruct nul.
  { exists 0, b0. split; [done|]. split; [done|]. left. split; [done|]. split; [done|]. lia. }
  destruct Hnul as [Hln Hnz0].
  destruct (IH (va0 + PGSIZE) (max - n) (dst ++ b0)) as (r & bytes & E & Hb & HR); [lia..|].
  exists r, (b0 ++ bytes). rewrite app_assoc. split; [exact E|].
  assert (length bytes ≠ 0%nat → va + n = va0 + PGSIZE).
  { intros Hne. apply Eadv. destruct HR as [(_ & _ & ?)|(_ & _ & [?|[? _]])]; lia. } split.
  - intros i Hi. rewrite length_app in Hi. destruct (decide (i < length b0)%nat); [rewrite lookup_app_l by lia; auto|].
    rewrite lookup_app_r, Hb by lia. f_equal. lia.
  - unfold str_result in *. rewrite length_app, Hln.
    destruct HR as [(-> & (s & -> & Hs) & HR)|(-> & Hz & HR)]; [left|right]; (split; [done|]).
    + split; [|rewrite length_app in *; lia]. exists (b0 ++ s). rewrite app_assoc. split; [done|]. set_solver.
    + split; [set_solver|]. destruct HR as [HR|[HR HN]]; [left; lia|right]. split; [lia|].
      rewrite <- HN. f_equal. lia.
Qed.

(** ** Fresh address spaces *)

Lemma npage_empty m root path p :
  (∀ x, in_page root x → m x = 0) → path_ok path → npage m root path = Some p → path = [] ∧ p = root.
Proof.
  intros Hz [Hok _]. destruct path as [|i path]; simpl; [intros [= <-]; done|].
  apply list.Forall_cons in Hok as [Hi _]. unfold child. rewrite ld64_zero; [done|].
  intros x Hx. apply Hz. by eapply in_page_entry.
Qed.

(** [uvmcreate] returns the empty page table. *)
Lemma uvmcreate_spec w a l :
  free_pages (ks w) (a :: l) → LKmem ∉ held w →
  ∃ w', uvmcreate w = Ok a w' ∧ mem_only w w' ∧ free_pages (ks w') l
    ∧ pt_wf (k_mem (ks w')) a l ∧ (∀ va, amap (k_mem (ks w')) a va = 0)
    ∧ ∀ path p, path_ok path → npage (k_mem (ks w')) a path = Some p → p = a.
Proof.
  intros Hf Hlk. pose proof (free_pages_kalloc a (ks w) l Hf) as [Efl Hf'].
  destruct Hf as (_ & [Hal Hnd]%list.NoDup_cons & [Ha Hl]%list.Forall_cons).
  set (k' := (kalloc_upd a (ks w)) <| k_mem ::= memset a 0 PGSIZE |>).
  assert (∀ x, in_page a x → k_mem k' x = 0) as Hz.
  { intros x [? ?]. simpl. rewrite memset_spec by done.
    destruct (Z.leb_spec a x), (Z.ltb_spec x (a + PGSIZE)); done || lia. }
  exists (w <| ks := k' |>). split.
  { unfold uvmcreate. rewrite (bind_ok _ _ _ _ _ (kalloc_run_nonnull w ltac:(rewrite Efl; by apply page_ok_nonzero) Hlk)).
    rewrite Efl. destruct (Z.eqb_spec a 0) as [->|]; [by apply page_ok_nonzero in Ha|].
    erewrite bind_ok by reflexivity. subst k'. unfold mret, K_ret, kalloc_upd. by rsimpl. }
  split; [exists (k_mem k'), (k_freelist k'); subst k'; unfold kalloc_upd; by rsimpl|]. split; [|split; [|split]].
  - apply (free_pages_ext (kalloc_upd a (ks w))); [done| |done]. intros b x Hb Hx. simpl.
    rewrite list.Forall_forall in Hl. assert (a ≠ b) by set_solver.
    rewrite memset_spec by done. destruct (Z.leb_spec a x), (Z.ltb_spec x (a + PGSIZE)); try done.
    exfalso. apply (pages_apart a b x x); auto. done.
  - split.
    + intros path p Hok Hp. by apply npage_empty in Hp as [_ ->].
    + intros path path' p Hok Hok' Hp Hp'. apply npage_empty in Hp as [-> _], Hp' as [-> _]; done.
  - intros va. unfold amap, pte_slot. destruct (npage _ a _) as [p|] eqn:Ep; [|done].
    apply npage_empty in Ep as [? _]; [done..|apply path_ok_va].
  - intros path p Hok Hp. by apply npage_empty in Hp as [_ ->].
Qed.

End pagetable.
