(* ===== verification/VmSpec.v ===== *)
(** * Correctness of kernel/vm.c

    The operations of vm.c implement updates and lookups of the abstract page
    table of PageTable.v, and the copy routines read and write user memory as
    the abstract table maps it. *)

From S2P Require Import Prelude Memory CString Kernel Kalloc Vm PageTable.

Section vmspec.
Context `{Image, !ImageOk}.

(** C31: [walk] implements the lookup of the abstract page table: without
    [alloc] it returns the address of the entry for [va], or 0 when a level is
    missing, and changes nothing; with [alloc] it adds missing page-table pages
    from the free list, which leaves every mapping as it was, and fails only
    when the free list runs out. *)
Theorem walk_refines (root va : Z) (w : world) (l : list Z) :
  0 <= va < MAXVA → free_pages (ks w) l → pt_wf (k_mem (ks w)) root l → LKmem ∉ held w →
  walk root va false w = Ok (pte_slot (k_mem (ks w)) root va) w
  ∧ ∃ r w' l', walk root va true w = Ok r w' ∧ pt_step w w' root l l'
      ∧ (∀ va', amap (k_mem (ks w')) root va' = amap (k_mem (ks w)) root va')
      ∧ pte_slot (k_mem (ks w')) root va = r ∧ (r = None → l' = []).
Proof. intros. split; [by apply walk_lookup|by apply walk_alloc_step]. Qed.

Lemma mappages_spec (root va size pa perm : Z) (w : world) (l : list Z) :
  0 <= va → 0 < size → va + size <= MAXVA → aligned PGSIZE pa → 0 <= pa < 2 ^ 55 → 0 <= perm < 2 ^ 10 →
  free_pages (ks w) l → pt_wf (k_mem (ks w)) root l → LKmem ∉ held w →
  let a := PGROUNDDOWN va in
  let n := S (Z.to_nat ((PGROUNDDOWN (va + size - 1) - a) / PGSIZE)) in
  (∀ x, a <= x < a + PGSIZE * Z.of_nat n → pte_v (amap (k_mem (ks w)) root x) = false) →
  ∃ r w' l' k, mappages root va size pa perm w = Ok r w' ∧ pt_step w w' root l l'
    ∧ (∀ x, 0 <= x < MAXVA →
         amap (k_mem (ks w')) root x = mapped (amap (k_mem (ks w)) root) a k pa perm x)
    ∧ (r = 0 ∧ k = n ∨ r = -1 ∧ (k < n)%nat ∧ l' = []).
Proof.
  intros Hva Hsz Hmax Hpal Hpa Hperm Hf Hwf Hlk a n Hun. unfold mappages.
  destruct (Z.eqb_spec size 0); [lia|]. erewrite bind_ok by reflexivity. fold a.
  pose proof MAXVA_eq as Emax. rewrite u64_small by lia.
  set (last := PGROUNDDOWN (va + size - 1)) in *.
  destruct (PGROUNDDOWN_spec va) as [Hal Ha]. fold a in Hal, Ha.
  destruct (PGROUNDDOWN_spec (va + size - 1)) as [Hlal Hla]. fold last in Hlal, Hla.
  assert (∃ q, a = PGSIZE * q) as [qa Eqa].
  { unfold aligned in Hal. apply Z.mod_divide in Hal as [q ->]; [|done]. exists q. lia. }
  assert (∃ q, last = PGSIZE * q) as [ql Eql].
  { unfold aligned in Hlal. apply Z.mod_divide in Hlal as [q Eq]; [|done]. exists q. lia. }
  assert (a <= last) as Hle by (unfold PGSIZE in *; lia).
  assert ((last - a) / PGSIZE = ql - qa) as Ediv.
  { symmetry. apply Z.div_unique with 0; [left; done|]. lia. }
  destruct (Z.leb_spec a last); [|lia].
  destruct (mappages_loop_spec (Z.to_nat ((last - a) / PGSIZE)) (S (Z.to_nat ((last - a) / PGSIZE)))
              root a last pa perm w l) as (r & w' & l' & k & E & S1 & A1 & R1); try done.
  - lia.
  - unfold PGSIZE in *. lia.
  - rewrite Ediv. unfold PGSIZE in *. lia.
  - rewrite Emax in *. change (2 ^ 38) with (PGSIZE * 2 ^ 26) in *. unfold PGSIZE in *. lia.
  - lia.
  - rewrite Ediv. rewrite Emax in *. unfold PGSIZE in *. lia.
  - intros x Hx. apply Hun. subst n. rewrite Ediv. unfold PGSIZE in *. lia.
  - exists r, w', l', k. split; [done|]. split; [done|]. split; [done|].
    destruct R1 as [[-> ->]|(-> & ? & ->)]; [by left|right]. subst n. split; [done|]. split; [lia|done].
Qed.

(** [mappages] maps exactly the pages that meet [va, va+size) to consecutive
    frames from [pa] on with the permissions asked for, and leaves every other
    mapping alone; when memory for page tables runs out it returns -1 having
    mapped a proper prefix of the range, and never anything outside it. *)
Theorem mappages_refines (root va size pa perm : Z) (w : world) (l : list Z) :
  0 <= va → 0 < size → va + size <= MAXVA → aligned PGSIZE pa → 0 <= pa < 2 ^ 55 → 0 <= perm < 2 ^ 10 →
  free_pages (ks w) l → pt_wf (k_mem (ks w)) root l → LKmem ∉ held w →
  let a := PGROUNDDOWN va in
  let n := S (Z.to_nat ((PGROUNDDOWN (va + size - 1) - a) / PGSIZE)) in
  (∀ x, a <= x < a + PGSIZE * Z.of_nat n → pte_v (amap (k_mem (ks w)) root x) = false) →
  ∃ r w' l' k, mappages root va size pa perm w = Ok r w' ∧ pt_step w w' root l l'
    ∧ (∀ x, 0 <= x < MAXVA →
         amap (k_mem (ks w')) root x = mapped (amap (k_mem (ks w)) root) a k pa perm x)
    ∧ (r = 0 ∧ k = n ∨ r = -1 ∧ (k < n)%nat ∧ l' = []).
Proof. apply mappages_spec. Qed.

(** [uvmunmap] on a range of mapped pages terminates without panic, clears
    exactly the entries of the range, and with [do_free] returns each of the
    frames to the free list once; all other mappings and all memory outside the
    freed frames and the page table are untouched. *)
Theorem uvmunmap_refines (root va : Z) (n : nat) (do_free : bool) (w : world) (l : list Z) :
  let m := k_mem (ks w) in let fs := frames m root va n in
  aligned PGSIZE va → 0 <= va → va + PGSIZE * Z.of_nat n <= MAXVA →
  (∀ x, va <= x < va + PGSIZE * Z.of_nat n → leaf_pte (amap m root x)) →
  (if do_free then NoDup fs ∧ Forall (data_frame m root l) fs else True) →
  free_pages (ks w) l → pt_wf m root l → LKmem ∉ held w →
  ∃ w', uvmunmap root va (Z.of_nat n) do_free w = Ok () w' ∧ mem_only w w'
    ∧ free_pages (ks w') (if do_free then reverse fs ++ l else l)
    ∧ pt_wf (k_mem (ks w')) root (if do_free then reverse fs ++ l else l)
    ∧ (∀ x, 0 <= x < MAXVA → amap (k_mem (ks w')) root x =
         if decide (va <= x < va + PGSIZE * Z.of_nat n) then 0 else amap m root x)
    ∧ (∀ x, (do_free → ∀ f, f ∈ fs → ¬ in_page f x) → ¬ tree_byte m root x → k_mem (ks w') x = m x).
Proof.
  intros m fs Hal Hva Hmax Hleaf Hdf Hf Hwf Hlk. unfold uvmunmap.
  unfold aligned in Hal. rewrite Hal. erewrite bind_ok by reflexivity. pose proof MAXVA_eq.
  rewrite (u64_small (_ * _)), u64_small by (unfold PGSIZE in *; lia).
  destruct (uvmunmap_loop_spec n (S (Z.to_nat (Z.of_nat n))) root va (va + Z.of_nat n * PGSIZE) do_free w l)
    as (w' & E & M & F & W & _ & A & O); try done; try lia.
  - intros x Hx. apply Hleaf. lia.
  - exists w'. split; [done|]. split; [done|]. split; [done|]. split; [done|]. split; [|done].
    intros x Hx. rewrite A by done. by rewrite (Z.mul_comm (Z.of_nat n)).
Qed.

Lemma copy_fuel va len : 0 <= len → va mod PGSIZE + len <= PGSIZE * Z.of_nat (S (S (Z.to_nat (len / PGSIZE)))).
Proof.
  intros. pose proof (Z.mod_pos_bound va PGSIZE ltac:(done)).
  pose proof (Z.div_mod len PGSIZE ltac:(done)). pose proof (Z.mod_pos_bound len PGSIZE ltac:(done)).
  assert (0 <= len / PGSIZE) by (by apply Z.div_pos). unfold PGSIZE in *. lia.
Qed.

(** C32: [copyout] stores the bytes of [src] at the user addresses from [dstva]
    on, as the page table maps them, up to the first unmapped byte; it returns
    0 exactly when all of them were mapped. No other user byte changes, and no
    memory outside the user pages of the range. *)
Theorem copyout_correct (root dstva : Z) (src : list Z) (w : world) :
  let m := k_mem (ks w) in let len := Z.of_nat (length src) in
  0 <= dstva → user_sep m root →
  ∃ r m' got, copyout root dstva src len w = Ok r (w <| ks ::= λ k, k <| k_mem := m' |> |>)
    ∧ (∀ va, 0 <= va → urd m' root va =
         if decide (dstva <= va < dstva + Z.of_nat got) then src !! Z.to_nat (va - dstva)
         else urd m root va)
    ∧ (∀ x, (∀ va, dstva <= va < dstva + len → ¬ in_page (uframe m root va) x) → m' x = m x)
    ∧ copy_result m root dstva len r got.
Proof.
  intros m len Hva Hsep.
  destruct (copyout_loop_spec (S (S (Z.to_nat (len / PGSIZE)))) root dstva src len w)
    as (r & m' & got & E & _ & U & O & R); try done; [lia|apply copy_fuel; lia|].
  exists r, m', got. done.
Qed.

(** [copyin] and [copyinstr] read user memory as the page table maps it:
    the bytes they store are the user bytes from [srcva] on; [copyin] returns 0
    exactly when all [len] bytes are mapped, [copyinstr] exactly when a NUL is
    found within [max] mapped bytes, and then it stores the string up to and
    including that NUL. Neither changes any state. *)
Theorem copyin_correct (root srcva len : Z) (w : world) :
  let m := k_mem (ks w) in
  0 <= srcva → 0 <= len →
  (∃ r bytes, copyin root srcva len w = Ok (r, bytes) w
     ∧ (∀ i, (i < length bytes)%nat → bytes !! i = urd m root (srcva + Z.of_nat i))
     ∧ copy_result m root srcva len r (length bytes))
  ∧ ∃ r bytes, copyinstr root srcva len w = Ok (r, bytes) w
     ∧ (∀ i, (i < length bytes)%nat → bytes !! i = urd m root (srcva + Z.of_nat i))
     ∧ str_result m root srcva len r bytes.
Proof.
  intros m Hva Hlen. split.
  - apply (copyin_loop_spec (S (S (Z.to_nat (len / PGSIZE)))) root srcva len [] w); try done. by apply copy_fuel.
  - apply (copyinstr_loop_spec (S (S (Z.to_nat (len / PGSIZE)))) root srcva len [] w); try done. by apply copy_fuel.
Qed.

(** what [copyout] stored, [copyin] at the same address reads back. *)
Theorem copyout_copyin (root va : Z) (src : list Z) (w w' : world) :
  0 <= va → user_sep (k_mem (ks w)) root →
  copyout root va src (Z.of_nat (length src)) w = Ok 0 w' →
  copyin root va (Z.of_nat (length src)) w' = Ok (0, src) w'.
Proof.
  intros Hva Hsep E.
  destruct (copyout_loop_spec (S (S (Z.to_nat (Z.of_nat (length src) / PGSIZE)))) root va src
    (Z.of_nat (length src)) w) as (r & m' & got & E' & _ & U & _ & R); try done; [lia|apply copy_fuel; lia|].
  unfold copyout in E. rewrite E in E'. injection E' as <- ->.
  destruct R as [_ [[_ Egot]|[? _]]]; [|done].
  destruct (copyin_loop_spec (S (S (Z.to_nat (Z.of_nat (length src) / PGSIZE)))) root va
    (Z.of_nat (length src)) [] (w <| ks ::= λ k, k <| k_mem := m' |> |>))
    as (r & bytes & E2 & Hb & R2); [done|lia|apply copy_fuel; lia|].
  unfold copyin. rewrite E2. simpl app.
  assert (∀ i, (i < length src)%nat → urd m' root (va + Z.of_nat i) = src !! i) as Hu.
  { intros i Hi. rewrite U by lia. rewrite decide_True by lia. f_equal. lia. }
  assert (r = 0 ∧ length bytes = length src) as [-> El].
  { destruct R2 as [_ [[-> ?]|(_ & Hlt & HN)]]; [lia|]. exfalso.
    simpl in HN. rewrite Hu in HN by lia. apply lookup_ge_None in HN. lia. }
  do 2 f_equal. apply list_eq. intros i. destruct (decide (i < length src)%nat).
  - rewrite Hb by lia. by apply Hu.
  - by rewrite !lookup_ge_None_2 by lia.
Qed.

(** ** One byte to or from user memory *)

Lemma copyin1_run root va w :
  0 <= va →
  copyin root va 1 w = Ok (match urd (k_mem (ks w)) root va with Some c => (0, [c]) | None => (-1, []) end) w.
Proof.
  intros Hva. destruct (copyin_loop_spec 2 root va 1 [] w) as (r & bytes & E & Hb & Hs & Hr); [done|done| |].
  { pose proof (Z.mod_pos_bound va PGSIZE ltac:(done)). unfold PGSIZE in *. lia. }
  unfold copyin. change (S (S (S (Z.to_nat (1 / PGSIZE))))) with 3%nat. rewrite E. simpl app. do 2 f_equal.
  destruct Hr as [[-> Hl]|(-> & Hl & Hn)].
  - destruct bytes as [|c [|? ?]]; simpl in Hl; try lia. specialize (Hb 0%nat ltac:(simpl; lia)).
    simpl in Hb. rewrite Z.add_0_r in Hb. by rewrite <- Hb.
  - assert (length bytes = 0%nat) as El by lia. apply nil_length_inv in El. subst bytes.
    simpl in Hn. rewrite Z.add_0_r in Hn. by rewrite Hn.
Qed.

Lemma copyout1_run root va c w :
  0 <= va → user_sep (k_mem (ks w)) root →
  ∃ r m', copyout root va [c] 1 w = Ok r (w <| ks ::= λ k, k <| k_mem := m' |> |>) ∧ user_sep m' root
    ∧ (r = 0 ∧ is_Some (urd (k_mem (ks w)) root va)
         ∧ (∀ va', 0 <= va' → urd m' root va' = if decide (va' = va) then Some c else urd (k_mem (ks w)) root va')
       ∨ r = -1 ∧ urd (k_mem (ks w)) root va = None ∧ (∀ va', 0 <= va' → urd m' root va' = urd (k_mem (ks w)) root va')).
Proof.
  intros Hva Hsep.
  destruct (copyout_loop_spec 2 root va [c] 1 w) as (r & m' & got & E & Hs & U & _ & Hg & Hr); [done|done|done|done| |].
  { pose proof (Z.mod_pos_bound va PGSIZE ltac:(done)). unfold PGSIZE in *. lia. }
  exists r, m'. split; [exact E|]. split; [done|].
  destruct Hr as [[-> Hl]|(-> & Hl & Hn)]; [left|right].
  - assert (got = 1%nat) as -> by lia. specialize (Hg 0%nat ltac:(lia)). rewrite Z.add_0_r in Hg.
    split; [done|]. split; [done|]. intros va' Hva'. rewrite U by done.
    destruct (decide (va' = va)) as [->|]; [|by rewrite decide_False by lia].
    rewrite decide_True by lia. by rewrite Z.sub_diag.
  - assert (got = 0%nat) as -> by lia. rewrite Z.add_0_r in Hn. split; [done|]. split; [done|].
    intros va' Hva'. rewrite U by done. by rewrite decide_False by lia.
Qed.

End vmspec.

(** ** Witnesses: an address space with one page mapped at 0 *)

Definition demo_image : Image :=
  {| kend := PHYSTOP - 6 * 4096; ketext := KERNBASE + 8192; ktrampoline := KERNBASE + 4096 |}.

Lemma demo_image_ok : @ImageOk demo_image.
Proof. split; simpl; unfold PHYSTOP, KERNBASE; try lia; reflexivity. Qed.

Definition run_or {A} (w0 : world) (o : outcome A) : world :=
  match o with Ok _ w => w | _ => w0 end.

Definition demo_free : list Z :=
  reverse (pages (PGROUNDUP (@kend demo_image))
             (Z.to_nat ((PHYSTOP - PGROUNDUP (@kend demo_image)) / PGSIZE))).

(** All six pages free; then one taken as the data frame, one as the root. *)
Definition demo0 : world := run_or boot_world (@kinit demo_image boot_world).
Definition demo_frame : Z := PHYSTOP - 4096.
Definition demo1 : world := run_or demo0 (kalloc demo0).
Definition demo_root : Z := PHYSTOP - 2 * 4096.
Definition demo2 : world := run_or demo1 (uvmcreate demo1).
Definition demo_perm : Z := Z.lor (Z.lor PTE_R PTE_W) PTE_U.
Definition demo3 : world := run_or demo2 (mappages demo_root 0 PGSIZE demo_frame demo_perm demo2).

Lemma run_or_ok {A} w0 (o : outcome A) a w : o = Ok a w → run_or w0 o = w.
Proof. by intros ->. Qed.

#[local] Opaque run_or.

Lemma demo0_free : @free_pages demo_image (ks demo0) demo_free ∧ LKmem ∉ held demo0.
Proof.
  destruct (@kinit_spec demo_image demo_image_ok boot_world) as (w' & E & M & F);
    [done|simpl; set_solver|].
  unfold demo0. rewrite (run_or_ok _ _ _ _ E). split; [exact F|]. rewrite (mem_only_held _ _ M). set_solver.
Qed.

#[local] Opaque demo0.

Lemma demo1_free :
  @free_pages demo_image (ks demo1) (tail demo_free) ∧ LKmem ∉ held demo1 ∧ demo_frame ∉ tail demo_free.
Proof.
  destruct demo0_free as [F0 L0].
  assert (demo_free = demo_frame :: tail demo_free) as El by reflexivity.
  rewrite El in F0. pose proof demo_image_ok.
  destruct (free_pages_kalloc (H:=demo_image) _ _ _ F0) as [Efl F1].
  pose proof (kalloc_run_nonnull demo0 ltac:(rewrite Efl; done) L0) as E.
  unfold demo1. rewrite (run_or_ok _ _ _ _ E), Efl. split; [exact F1|].
  split; [by rewrite (mem_only_held _ _ (mem_only_kalloc _ _))|].
  destruct F0 as (_ & [? _]%list.NoDup_cons & _). done.
Qed.

#[local] Opaque demo1.

Lemma demo2_wf :
  let m := k_mem (ks demo2) in
  @free_pages demo_image (ks demo2) (tail (tail demo_free)) ∧ LKmem ∉ held demo2
  ∧ @pt_wf demo_image m demo_root (tail (tail demo_free)) ∧ (∀ va, amap m demo_root va = 0)
  ∧ ∀ path p, path_ok path → npage m demo_root path = Some p → p = demo_root.
Proof.
  destruct demo1_free as (F1 & L1 & _).
  assert (tail demo_free = demo_root :: tail (tail demo_free)) as El by reflexivity. rewrite El in F1.
  pose proof demo_image_ok.
  destruct (uvmcreate_spec (H:=demo_image) demo1 _ _ F1 L1) as (w' & E & M & F2 & W2 & A2 & N2).
  unfold demo2. rewrite (run_or_ok _ _ _ _ E). split; [done|]. split; [by rewrite (mem_only_held _ _ M)|].
  split; [done|]. split; [done|]. done.
Qed.

#[local] Opaque demo2.

Lemma demo3_ok : ∃ w', mappages demo_root 0 PGSIZE demo_frame demo_perm demo2 = Ok 0 w' ∧ demo3 = w'.
Proof.
  assert (match mappages demo_root 0 PGSIZE demo_frame demo_perm demo2 with Ok r _ => r | _ => 1 end = 0) as E
    by (vm_compute; reflexivity).
  unfold demo3. destruct (mappages _ _ _ _ _ _) as [r w'|?| |]; try discriminate E.
  simpl in E. subst r. exists w'. split; [done|]. by apply run_or_ok with 0.
Qed.

Lemma demo3_wf :
  let m := k_mem (ks demo3) in
  ∃ l', @free_pages demo_image (ks demo3) l' ∧ LKmem ∉ held demo3
    ∧ @pt_wf demo_image m demo_root l'
    ∧ (∀ x, 0 <= x < MAXVA → amap m demo_root x =
         if decide (0 <= x < PGSIZE) then mk_pte demo_frame demo_perm else 0)
    ∧ @data_frame demo_image m demo_root l' demo_frame.
Proof.
  destruct demo2_wf as (F2 & L2 & W2 & A2 & N2). destruct demo1_free as (_ & _ & Hfr).
  pose proof demo_image_ok as Hok.
  destruct (@mappages_spec demo_image demo_image_ok demo_root 0 PGSIZE demo_frame demo_perm demo2
    (tail (tail demo_free))) as (r & w' & l' & k & E & S & A & R);
    [done|done|done|done|done|done|exact F2|exact W2|exact L2|..].
  { intros x _. by rewrite A2. }
  destruct demo3_ok as (w3 & E3 & ->). rewrite E3 in E. injection E as <- <-.
  destruct R as [[_ Hk]|[HR _]]; [|discriminate HR]. change (k = 1%nat) in Hk. subst k.
  assert (demo_frame ∉ tail (tail demo_free)) as Hfr2.
  { intros Hin. apply Hfr. destruct (tail demo_free); [done|]. by right. }
  exists l'. split; [apply S|]. split; [by rewrite (mem_only_held _ _ (ps_mem _ _ _ _ _ S))|].
  split; [apply S|]. split.
  - intros x Hx. rewrite (A x Hx). unfold mapped.
    change (PGROUNDDOWN 0) with 0. change (0 + PGSIZE * Z.of_nat 1) with PGSIZE.
    case_decide as Hd; [|apply A2]. rewrite (PGROUNDDOWN_in 0 x eq_refl Hd). reflexivity.
  - split; [split; [reflexivity|]; simpl; unfold demo_frame, PHYSTOP, KERNBASE; lia|]. split.
    + intros Hin. apply Hfr2. by apply (suffix_incl _ _ (ps_suffix _ _ _ _ _ S)).
    + intros path Hp Hn. destruct (ps_new _ _ _ _ _ S path _ Hp Hn) as [Hold|Hold]; [|exact (Hfr2 Hold)].
      apply N2 in Hold; [discriminate Hold|exact Hp].
Qed.

#[local] Opaque demo3.

Lemma demo3_uframe va :
  0 <= va → uframe (k_mem (ks demo3)) demo_root va = if decide (va < PGSIZE) then demo_frame else 0.
Proof.
  intros Hva. destruct demo3_wf as (l' & _ & _ & _ & A & _). unfold uframe.
  destruct (Z.leb_spec MAXVA va) as [Hm|Hm].
  { rewrite decide_False; [done|]. rewrite MAXVA_eq in Hm. unfold PGSIZE. lia. }
  rewrite A by lia. destruct (decide (va < PGSIZE)) as [Hd|Hd].
  - rewrite decide_True by lia. reflexivity.
  - rewrite decide_False by lia. reflexivity.
Qed.

Lemma demo3_urd va : 0 <= va → urd (k_mem (ks demo3)) demo_root va = None ↔ PGSIZE <= va.
Proof.
  intros Hva. unfold urd. rewrite demo3_uframe by done. generalize (k_mem (ks demo3)) as m. intros m.
  destruct (decide (va < PGSIZE)) as [Hd|Hd].
  - destruct (Z.eqb_spec demo_frame 0) as [E|_]; [discriminate E|]. split; [intros [=]|lia].
  - simpl. split; [lia|done].
Qed.

Lemma demo3_sep : user_sep (k_mem (ks demo3)) demo_root.
Proof.
  destruct demo3_wf as (l' & _ & _ & W & _ & (_ & _ & Hd)). split.
  - intros va va' Hva Hva'. rewrite !demo3_uframe by done.
    destruct (decide (va < PGSIZE)); [|done]. intros _. destruct (decide (va' < PGSIZE)); [|done].
    intros _. by rewrite !Z.div_small.
  - intros va path p Hva Hf Hok Hp. rewrite demo3_uframe in * by done.
    destruct (wf_page _ _ _ W path p Hok Hp) as [[Hal _] _]. split; [done|].
    destruct (decide (va < PGSIZE)); [|done]. intros ->. by apply (Hd path).
Qed.

Lemma walk_refines_witness :
  walk demo_root 5 false demo2 = Ok None demo2
  ∧ ∃ r w' l', walk demo_root 5 true demo2 = Ok r w'
     ∧ @pt_step demo_image demo2 w' demo_root (tail (tail demo_free)) l'.
Proof.
  destruct demo2_wf as (F2 & L2 & W2 & A2 & N2).
  destruct (@walk_refines demo_image demo_image_ok demo_root 5 demo2 (tail (tail demo_free)))
    as [E1 (r & w' & l' & E2 & S & _)]; [done|exact F2|exact W2|exact L2|].
  split; [|exists r, w', l'; split; [exact E2|exact S]].
  rewrite E1. unfold pte_slot. destruct (npage _ demo_root _) as [p|] eqn:Ep; [|reflexivity].
  assert (path_ok [PX 2 5; PX 1 5]) as Hok by apply path_ok_va.
  pose proof (N2 _ _ Hok Ep) as ->.
  pose proof (wf_inj _ _ _ W2 _ [] _ Hok ltac:(split; [constructor|simpl; lia]) Ep eq_refl) as Hnil.
  discriminate Hnil.
Defined.

Lemma mappages_refines_witness :
  ∃ w' l', mappages demo_root 0 PGSIZE demo_frame demo_perm demo2 = Ok 0 w'
    ∧ @pt_step demo_image demo2 w' demo_root (tail (tail demo_free)) l'
    ∧ ∀ x, 0 <= x < MAXVA → amap (k_mem (ks w')) demo_root x =
        if decide (0 <= x < PGSIZE) then mk_pte demo_frame demo_perm else 0.
Proof.
  destruct demo2_wf as (F2 & L2 & W2 & A2 & _).
  destruct (@mappages_refines demo_image demo_image_ok demo_root 0 PGSIZE demo_frame demo_perm demo2
    (tail (tail demo_free))) as (r & w' & l' & k & E & S & A & R);
    [done|done|done|done|done|done|exact F2|exact W2|exact L2|..].
  - intros x _. by rewrite A2.
  - destruct demo3_ok as (w3 & E3 & _). rewrite E3 in E. injection E as <- <-.
    destruct R as [[_ Hk]|[HR _]]; [|discriminate HR]. change (k = 1%nat) in Hk. subst k.
    exists w3, l'. split; [exact E3|]. split; [exact S|]. intros x Hx. rewrite (A x Hx). unfold mapped.
    change (PGROUNDDOWN 0) with 0. change (0 + PGSIZE * Z.of_nat 1) with PGSIZE.
    case_decide as Hd; [|apply A2]. rewrite (PGROUNDDOWN_in 0 x eq_refl Hd). reflexivity.
Defined.

Lemma uvmunmap_refines_witness :
  ∃ w', @uvmunmap demo_image demo_root 0 1 true demo3 = Ok () w' ∧ amap (k_mem (ks w')) demo_root 0 = 0.
Proof.
  destruct demo3_wf as (l' & F & L & W & A & D).
  assert (frames (k_mem (ks demo3)) demo_root 0 1 = [demo_frame]) as Ef.
  { unfold frames. simpl. rewrite A by done. reflexivity. }
  destruct (@uvmunmap_refines demo_image demo_image_ok demo_root 0 1 true demo3 l')
    as (w' & E & _ & _ & _ & A' & _); [done|done|done|..|exact F|exact W|exact L|].
  - intros x Hx. rewrite A by (rewrite MAXVA_eq; unfold PGSIZE in Hx; lia).
    rewrite decide_True by (unfold PGSIZE in *; lia). split; [reflexivity|discriminate].
  - rewrite Ef. split; [apply NoDup_singleton|by constructor].
  - exists w'. split; [exact E|]. rewrite (A' 0 ltac:(rewrite MAXVA_eq; lia)).
    rewrite decide_True by (unfold PGSIZE; lia). reflexivity.
Defined.

Lemma copyout_correct_witness :
  ∃ m', copyout demo_root 4094 [7; 8; 9] 3 demo3 = Ok (-1) (demo3 <| ks ::= λ k, k <| k_mem := m' |> |>)
    ∧ urd m' demo_root 4095 = Some 8.
Proof.
  destruct (copyout_correct demo_root 4094 [7; 8; 9] demo3)
    as (r & m' & got & E & U & _ & R); [done|exact demo3_sep|].
  destruct R as [RS R]. assert (r = -1 ∧ got = 2%nat) as [-> ->].
  { assert (got <= 2)%nat as Hg.
    { destruct (decide (got <= 2)%nat) as [|Hn2]; [done|]. exfalso.
      destruct (RS 2%nat ltac:(lia)) as [b Hb].
      assert (urd (k_mem (ks demo3)) demo_root 4096 = None) as EN by (apply demo3_urd; unfold PGSIZE; lia).
      change (4094 + Z.of_nat 2) with 4096 in Hb. rewrite EN in Hb. discriminate Hb. }
    destruct R as [[_ HR]|(-> & Hlt & HN)]; [simpl in HR; lia|]. split; [done|].
    apply demo3_urd in HN; [unfold PGSIZE in HN; lia|lia]. }
  exists m'. split; [exact E|]. rewrite (U 4095 ltac:(lia)). rewrite decide_True by lia. reflexivity.
Defined.

Lemma copyin_correct_witness :
  ∃ bytes, copyin demo_root 0 3 demo3 = Ok (0, bytes) demo3 ∧ length bytes = 3%nat.
Proof.
  destruct (@copyin_correct demo_image demo_image_ok demo_root 0 3 demo3) as [(r & bytes & E & Hb & _ & R) _];
    [done|done|].
  destruct R as [[-> HR]|(-> & Hlt & HN)]; [exists bytes; split; [exact E|lia]|].
  exfalso. apply demo3_urd in HN; [unfold PGSIZE in HN; lia|lia].
Defined.

Lemma copyout_copyin_witness :
  ∃ w', copyout demo_root 10 [1; 2; 3] 3 demo3 = Ok 0 w' ∧ copyin demo_root 10 3 w' = Ok (0, [1; 2; 3]) w'.
Proof.
  assert (match copyout demo_root 10 [1; 2; 3] 3 demo3 with Ok r _ => r | _ => 1 end = 0) as E
    by (vm_compute; reflexivity).
  destruct (copyout demo_root 10 [1; 2; 3] 3 demo3) as [r w'|?| |] eqn:Ec; try discriminate E.
  simpl in E. subst r. exists w'. split; [reflexivity|].
  exact (copyout_copyin demo_root 10 [1; 2; 3] demo3 w' ltac:(lia) demo3_sep Ec).
Defined.
