(* ===== verification/AddrSpace.v ===== *)
(** * Address spaces: growing, shrinking and copying

    What [uvmcopy], which [fork] calls, and [uvmalloc] and [uvmdealloc], which
    [sbrk] and [exec] call, do to the address spaces they work on: the bytes a
    user program sees, the pages they take and give back, and that nothing else
    in memory changes. *)

From S2P Require Import Prelude Memory CString Kernel Kalloc Vm PageTable VmSpec.

Section addrspace.
Context `{Image, !ImageOk}.

(** Frames that hold neither free pages nor the page table [root] stay as they
    are while the table grows. *)
Definition guards (m0 : mem) (l0 : list Z) (m : mem) (l : list Z) (root : Z) : Prop :=
  (∀ a, a ∈ l → a ∈ l0) ∧ ∀ f, data_frame m0 root l0 f → data_frame m root l f ∧ ∀ x, in_page f x → m x = m0 x.

Lemma guards_refl m l root : guards m l m l root.
Proof. split; [done|]. intros f Hf. done. Qed.

Lemma guards_trans m0 l0 m1 l1 m2 l2 root : guards m0 l0 m1 l1 root → guards m1 l1 m2 l2 root → guards m0 l0 m2 l2 root.
Proof.
  intros [A1 A2] [B1 B2]. split; [auto|]. intros f Hf. destruct (A2 f Hf) as [F1 C1]. destruct (B2 f F1) as [F2 C2].
  split; [done|]. intros x Hx. rewrite C2, C1 by done. done.
Qed.

Lemma free_page_ok k l a : free_pages k l → a ∈ l → page_ok a.
Proof. intros (_ & _ & Hok) Ha. rewrite list.Forall_forall in Hok. auto. Qed.

Lemma guards_step w w' root l l' :
  pt_step w w' root l l' → free_pages (ks w) l → pt_wf (k_mem (ks w)) root l → guards (k_mem (ks w)) l (k_mem (ks w')) l' root.
Proof.
  intros S Hf Hwf. pose proof (suffix_incl _ _ (ps_suffix _ _ _ _ _ S)) as Hsub. split; [intros a Ha; by apply Hsub|].
  intros f (Hok & Hni & Ht). split; [split; [done|]; split|].
  - intros Hin. by apply Hni, Hsub.
  - intros path Hp E. destruct (ps_new _ _ _ _ _ S path f Hp E) as [E'|Hin]; [by apply (Ht path)|done].
  - intros x Hx. apply (ps_frame _ _ _ _ _ S).
    + intros a Ha Hin. apply (pages_apart f a x x); try done; [by eapply free_page_ok|]. by intros ->.
    + intros (path & p & Hp & E & Hin). destruct (wf_page _ _ _ Hwf path p Hp E) as [Hpok _].
      apply (pages_apart f p x x); try done. intros ->. by apply (Ht path).
Qed.

(** A page taken off the free list and filled. *)
Section fresh.
Variables (root a : Z) (l : list Z) (w : world) (g : mem → mem).
Hypothesis Hg : ∀ m x, ¬ in_page a x → g m x = m x.
Hypothesis Hf : free_pages (ks w) (a :: l).
Hypothesis Hwf : pt_wf (k_mem (ks w)) root (a :: l).

Definition filled : world := w <| ks ::= kalloc_upd a |> <| ks ::= λ k, k <| k_mem ::= g |> |>.

Lemma filled_out x : ¬ in_page a x → k_mem (ks filled) x = k_mem (ks w) x.
Proof. intros Hx. unfold filled. simpl. rewrite Hg by done. by apply kalloc_mem_out. Qed.

Lemma fresh_frame : data_frame (k_mem (ks w)) root l a.
Proof.
  destruct Hf as (_ & [Hni _]%list.NoDup_cons & [Hok _]%list.Forall_cons). split; [done|]. split; [done|].
  intros path Hp E. destruct (wf_page _ _ _ Hwf path a Hp E) as [_ Hn]. apply Hn. by left.
Qed.

Lemma filled_tree x : tree_byte (k_mem (ks w)) root x → k_mem (ks filled) x = k_mem (ks w) x.
Proof.
  intros (path & p & Hp & E & Hin). apply filled_out. intros Hx. destruct (wf_page _ _ _ Hwf path p Hp E) as [Hpok Hn].
  apply (pages_apart a p x x); try done; [apply fresh_frame|]. intros ->. apply Hn. by left.
Qed.

Lemma filled_free : free_pages (ks filled) l.
Proof.
  destruct (free_pages_kalloc a (ks w) l Hf) as [_ F]. destruct Hf as (_ & [Hni _]%list.NoDup_cons & [Ha Hok]%list.Forall_cons).
  apply (free_pages_ext (kalloc_upd a (ks w))); [done| |done]. intros b x Hb Hx. simpl. apply Hg. intros Hin.
  rewrite list.Forall_forall in Hok. apply (pages_apart a b x x); auto. by intros ->.
Qed.

Lemma filled_wf : pt_wf (k_mem (ks filled)) root l.
Proof. destruct (tree_frame _ _ root filled_tree) as (N & _). eapply pt_wf_ext; [exact N| |exact Hwf]. intros b Hb. by right. Qed.

Lemma filled_amap va : amap (k_mem (ks filled)) root va = amap (k_mem (ks w)) root va.
Proof. by apply (tree_frame _ _ root filled_tree). Qed.

Lemma filled_frame : data_frame (k_mem (ks filled)) root l a.
Proof.
  destruct fresh_frame as (Ha & Hn & Ht). split; [done|]. split; [done|]. intros path Hp. destruct (tree_frame _ _ root filled_tree) as (N & _).
  rewrite N by done. by apply Ht.
Qed.

Lemma filled_guards : guards (k_mem (ks w)) (a :: l) (k_mem (ks filled)) l root.
Proof.
  split; [intros b Hb; by right|]. intros f (Hok & Hni & Ht). split; [split; [done|]; split|].
  - intros Hin. apply Hni. by right.
  - intros path Hp. destruct (tree_frame _ _ root filled_tree) as (N & _). rewrite N by done. by apply Ht.
  - intros x Hx. apply filled_out. intros Hin. apply (pages_apart a f x x); try done; [apply fresh_frame|]. intros ->. apply Hni. by left.
Qed.

Lemma filled_mem_only : mem_only w filled.
Proof.
  eapply mem_only_trans; [apply (mem_only_kalloc a)|]. unfold filled. set (w1 := w <| ks ::= kalloc_upd a |>).
  exists (g (k_mem (ks w1))), (k_freelist (ks w1)). destruct w1 as [[] ? ? ?]. reflexivity.
Qed.

(** It is then mapped at [va]. *)
Lemma map_fresh va perm :
  aligned PGSIZE va → 0 <= va → va + PGSIZE <= MAXVA → 0 <= perm < 2 ^ 10 → LKmem ∉ held w →
  (∀ x, va <= x < va + PGSIZE → pte_v (amap (k_mem (ks w)) root x) = false) →
  ∃ r w' l', mappages root va PGSIZE a perm filled = Ok r w' ∧ mem_only w w'
    ∧ free_pages (ks w') l' ∧ pt_wf (k_mem (ks w')) root l' ∧ guards (k_mem (ks w)) (a :: l) (k_mem (ks w')) l' root
    ∧ data_frame (k_mem (ks w')) root l' a ∧ (∀ x, in_page a x → k_mem (ks w') x = k_mem (ks filled) x)
    ∧ (r = 0 ∧ (∀ x, 0 <= x < MAXVA → amap (k_mem (ks w')) root x = if decide (va <= x < va + PGSIZE) then mk_pte a perm else amap (k_mem (ks w)) root x)
       ∨ r = -1 ∧ ∀ x, 0 <= x < MAXVA → amap (k_mem (ks w')) root x = amap (k_mem (ks w)) root x).
Proof.
  intros Hal Hva Hmax Hperm Hlk Hun. destruct fresh_frame as (Ha & _). destruct (page_ok_range a Ha) as [Haal Har].
  assert (Hd1 : PGROUNDDOWN va = va) by (by apply PGROUNDDOWN_id).
  assert (Hd2 : PGROUNDDOWN (va + PGSIZE - 1) = va) by (apply PGROUNDDOWN_in; [done|unfold PGSIZE; lia]).
  destruct (mappages_spec root va PGSIZE a perm filled l) as (r & w' & l' & k & E & S & A & R); try done.
  - destruct Ha as [_ Ha]. unfold PHYSTOP, KERNBASE in Ha. lia.
  - exact filled_free.
  - exact filled_wf.
  - rewrite Hd1, Hd2, Z.sub_diag. change (Z.to_nat (0 / PGSIZE)) with 0%nat. intros x Hx. rewrite filled_amap. apply Hun. lia.
  - rewrite Hd1, Hd2, Z.sub_diag in *. change (Z.to_nat (0 / PGSIZE)) with 0%nat in R.
    pose proof (guards_step _ _ _ _ _ S filled_free filled_wf) as G. destruct (proj2 G a filled_frame) as [Fa Ca].
    exists r, w', l'. split; [done|]. split; [eapply mem_only_trans; [apply filled_mem_only|apply S]|]. split; [apply S|]. split; [apply S|].
    split; [eapply guards_trans; [apply filled_guards|exact G]|]. split; [done|]. split; [done|].
    destruct R as [[-> ->]|(-> & Hk & _)]; [left|right]; (split; [done|]); intros x Hx; rewrite A by done; unfold mapped.
    + replace (PGSIZE * Z.of_nat 1) with PGSIZE by lia. destruct (decide (va <= x < va + PGSIZE)) as [Hd|]; [|apply filled_amap].
      rewrite (PGROUNDDOWN_in va x Hal Hd). f_equal. lia.
    + assert (k = 0%nat) as -> by lia. rewrite decide_False by lia. apply filled_amap.
Qed.
End fresh.
(** Unmapping pages whose frames came from [l0] gives them back to it. *)
Lemma unmap_guards root va n w l m0 l0 :
  let m := k_mem (ks w) in let fs := frames m root va n in
  aligned PGSIZE va → 0 <= va → va + PGSIZE * Z.of_nat n <= MAXVA →
  (∀ x, va <= x < va + PGSIZE * Z.of_nat n → leaf_pte (amap m root x)) →
  NoDup fs → Forall (data_frame m root l) fs → (∀ f, f ∈ fs → f ∈ l0) → guards m0 l0 m l root →
  free_pages (ks w) l → pt_wf m root l → LKmem ∉ held w →
  ∃ w', uvmunmap root va (Z.of_nat n) true w = Ok () w' ∧ mem_only w w'
    ∧ free_pages (ks w') (reverse fs ++ l) ∧ pt_wf (k_mem (ks w')) root (reverse fs ++ l)
    ∧ guards m0 l0 (k_mem (ks w')) (reverse fs ++ l) root
    ∧ ∀ x, 0 <= x < MAXVA → amap (k_mem (ks w')) root x = if decide (va <= x < va + PGSIZE * Z.of_nat n) then 0 else amap m root x.
Proof.
  intros m fs Hal Hva Hmax Hleaf Hnd Hdf Hl0 [G1 G2] Hf Hwf Hlk. unfold uvmunmap.
  unfold aligned in Hal. rewrite Hal. erewrite bind_ok by reflexivity. pose proof MAXVA_eq.
  rewrite (u64_small (_ * _)), u64_small by (unfold PGSIZE in *; lia).
  destruct (uvmunmap_loop_spec n (S (Z.to_nat (Z.of_nat n))) root va (va + Z.of_nat n * PGSIZE) true w l)
    as (w' & E & M & F & W & N & A & O); try done; try lia.
  { intros x Hx. apply Hleaf. lia. }
  fold m fs in F, W, N, A, O. exists w'. split; [done|]. split; [done|]. split; [done|]. split; [done|]. split; [split|].
  - intros a. rewrite elem_of_app, elem_of_reverse. intros [?|?]; auto.
  - intros f Hd. destruct (G2 f Hd) as [(Hok & Hni & Ht) C]. pose proof Hd as (_ & Hn0 & _). split; [split; [done|]; split|].
    + rewrite elem_of_app, elem_of_reverse. intros [?|?]; auto.
    + intros path Hp. rewrite N by done. by apply Ht.
    + intros x Hx. rewrite O, C; [done|done| |].
      * intros _ g Hg Hin. rewrite list.Forall_forall in Hdf. apply (pages_apart f g x x); try done; [by apply Hdf|]. intros ->. auto.
      * intros (path & p & Hp & Ep & Hin). destruct (wf_page _ _ _ Hwf path p Hp Ep) as [Hpok _].
        apply (pages_apart f p x x); try done. intros ->. by apply (Ht path).
  - intros x Hx. rewrite A by done. by rewrite (Z.mul_comm (Z.of_nat n)).
Qed.

(** Freeing a frame that came from [l0] gives it back to it. *)
Lemma kfree_guards root a w l m0 l0 :
  guards m0 l0 (k_mem (ks w)) l root → a ∈ l0 → data_frame (k_mem (ks w)) root l a → free_pages (ks w) l → pt_wf (k_mem (ks w)) root l →
  let w' := w <| ks ::= kfree_upd a |> in
  free_pages (ks w') (a :: l) ∧ pt_wf (k_mem (ks w')) root (a :: l) ∧ guards m0 l0 (k_mem (ks w')) (a :: l) root
  ∧ ∀ x, amap (k_mem (ks w')) root x = amap (k_mem (ks w)) root x.
Proof.
  intros [G1 G2] Ha0 Hd Hf Hwf w'. pose proof Hd as (Ha & Hni & Ht).
  assert (Hout : ∀ x, ¬ in_page a x → k_mem (ks w') x = k_mem (ks w) x) by (intros x Hx; by apply kfree_mem_out).
  pose proof (kfree_tree a (k_mem (ks w')) _ root l Hd Hwf Hout) as Htr. destruct (tree_frame _ _ _ Htr) as (N & _ & A).
  split; [by apply free_pages_kfree|]. split; [split|split; [split|done]].
  - intros path p Hp. rewrite N by done. intros E. destruct (wf_page _ _ _ Hwf path p Hp E) as [Hpok Hpn]. split; [done|].
    intros [->|?]%elem_of_cons; [by apply (Ht path)|done].
  - intros path path' p Hp Hp'. rewrite !N by done. by apply (wf_inj _ _ _ Hwf).
  - intros b [->|?]%elem_of_cons; auto.
  - intros f Hf0. destruct (G2 f Hf0) as [(Hok & Hn & Hft) C]. pose proof Hf0 as (_ & Hn0 & _). split; [split; [done|]; split|].
    + intros [->|?]%elem_of_cons; auto.
    + intros path Hp. rewrite N by done. by apply Hft.
    + intros x Hx. rewrite Hout; [by apply C|]. intros Hin. apply (pages_apart a f x x); try done. intros ->. done.
Qed.

(** ** Pages placed at consecutive addresses *)

Lemma PTE_FLAGS_range pte : 0 <= PTE_FLAGS pte < 2 ^ 10.
Proof. unfold PTE_FLAGS. change 0x3FF with (Z.ones 10). rewrite Z.land_ones by lia. apply Z.mod_pos_bound. lia. Qed.

Lemma amap_same_page m root va va' : va / PGSIZE = va' / PGSIZE → amap m root va = amap m root va'.
Proof. intros E. unfold amap, pte_slot. by rewrite !(PX_same_page va va') by done. Qed.

(** The permissions of a page that is not a pointer to a page table. *)
Definition leaf_perm (perm : Z) : Prop := 0 <= perm < 2 ^ 10 ∧ Z.lor perm PTE_V ≠ PTE_V.

Lemma leaf_mk_pte f perm : page_ok f → leaf_perm perm → leaf_pte (mk_pte f perm) ∧ PTE2PA (mk_pte f perm) = f ∧ PTE_FLAGS (mk_pte f perm) = Z.lor perm PTE_V.
Proof.
  intros Hf [Hr Hl]. destruct (page_ok_range f Hf) as [Hal Hfr]. unfold leaf_pte. by rewrite PTE2PA_mk_pte, PTE_FLAGS_mk_pte, pte_v_mk_pte.
Qed.

Section place.
Variables (root va0 : Z) (m0 : mem) (l0 : list Z) (n : nat) (perm byte : Z → Z).
Hypothesis Hal : aligned PGSIZE va0.
Hypothesis Hva : 0 <= va0.
Hypothesis Hmax : va0 + PGSIZE * Z.of_nat n <= MAXVA.
Hypothesis Hperm : ∀ x, va0 <= x < va0 + PGSIZE * Z.of_nat n → leaf_perm (perm x).
Hypothesis Hpage : ∀ x y, x / PGSIZE = y / PGSIZE → perm x = perm y.
Hypothesis Hnone : ∀ x, va0 <= x < va0 + PGSIZE * Z.of_nat n → amap m0 root x = 0.

Definition index (x : Z) : nat := Z.to_nat ((x - va0) / PGSIZE).

Lemma index_range x k : va0 <= x → va0 + PGSIZE * Z.of_nat k <= x < va0 + PGSIZE * Z.of_nat k + PGSIZE ↔ index x = k.
Proof.
  intros Hx. clear -Hx. unfold index. pose proof (Z.div_mod (x - va0) PGSIZE ltac:(done)). pose proof (Z.mod_pos_bound (x - va0) PGSIZE ltac:(done)).
  assert (0 <= (x - va0) / PGSIZE) by (apply Z.div_pos; unfold PGSIZE; lia). unfold PGSIZE in *. lia.
Qed.

Lemma index_lt x k : va0 <= x → x < va0 + PGSIZE * Z.of_nat k ↔ (index x < k)%nat.
Proof.
  intros Hx. clear -Hx. unfold index. pose proof (Z.div_mod (x - va0) PGSIZE ltac:(done)). pose proof (Z.mod_pos_bound (x - va0) PGSIZE ltac:(done)).
  assert (0 <= (x - va0) / PGSIZE) by (apply Z.div_pos; unfold PGSIZE; lia). unfold PGSIZE in *. lia.
Qed.

Lemma page_aligned k : aligned PGSIZE (va0 + PGSIZE * Z.of_nat k).
Proof. unfold aligned in *. rewrite Z.mul_comm, Z.mod_add by done. exact Hal. Qed.

(** The frames [fs] are mapped from [va0] on, with the permissions [perm], and
    hold the bytes [byte]; they come from the free list [l0]. *)
Record placed (m : mem) (l fs : list Z) : Prop := {
  pl_map x : 0 <= x < MAXVA → amap m root x =
    if decide (va0 <= x) then match fs !! index x with Some f => mk_pte f (perm x) | None => amap m0 root x end else amap m0 root x;
  pl_nodup : NoDup fs;
  pl_frames f : f ∈ fs → data_frame m root l f;
  pl_fresh f : f ∈ fs → f ∈ l0;
  pl_bytes i f o : fs !! i = Some f → 0 <= o < PGSIZE → m (f + o) = byte (va0 + PGSIZE * Z.of_nat i + o)
}.

Lemma placed_nil l : placed m0 l [].
Proof. split; [intros x Hx; by destruct (decide _)|constructor|by intros f ?%elem_of_nil..|done]. Qed.

Lemma placed_at m l fs x :
  placed m l fs → va0 <= x < va0 + PGSIZE * Z.of_nat (length fs) → (length fs <= n)%nat →
  ∃ f, fs !! index x = Some f ∧ page_ok f ∧ amap m root x = mk_pte f (perm x) ∧ leaf_pte (amap m root x)
    ∧ PTE2PA (amap m root x) = f ∧ PTE_FLAGS (amap m root x) = Z.lor (perm x) PTE_V.
Proof.
  intros C Hx Hlen. destruct (lookup_lt_is_Some_2 fs (index x)) as [f Hf]; [apply index_lt; lia|].
  destruct (pl_frames _ _ _ C f ltac:(by eapply list_elem_of_lookup_2)) as (Hok & _).
  assert (Em : amap m root x = mk_pte f (perm x)) by (rewrite (pl_map _ _ _ C), decide_True, Hf by (unfold PGSIZE in *; lia); done).
  exists f. rewrite Em. split; [done|]. split; [done|]. split; [done|]. apply leaf_mk_pte; [done|]. apply Hperm. unfold PGSIZE in *. lia.
Qed.

(** The byte a placed page holds at [x]. *)
Lemma pl_page_byte m l fs f x : placed m l fs → fs !! index x = Some f → va0 <= x → m (f + x mod PGSIZE) = byte x.
Proof.
  intros C Hf Hx. clear -C Hf Hx Hal. rewrite (pl_bytes _ _ _ C _ _ _ Hf) by (by apply Z.mod_pos_bound). f_equal. unfold index. rewrite Z2Nat.id by (apply Z.div_pos; [lia|done]).
  replace (x mod PGSIZE) with ((x - va0) mod PGSIZE); [pose proof (Z.div_mod (x - va0) PGSIZE ltac:(done)); lia|].
  unfold aligned in Hal. rewrite Zminus_mod, Hal, Z.sub_0_r, Z.mod_mod by done. done.
Qed.

Lemma placed_frames m l fs : placed m l fs → (length fs <= n)%nat → frames m root va0 (length fs) = fs.
Proof.
  intros C Hlen. apply list_eq. intros i. unfold frames. rewrite list_lookup_fmap. destruct (decide (i < length fs)%nat) as [Hi|Hi].
  - rewrite lookup_seq_lt by done. cbn [fmap option_fmap option_map]. 
    destruct (placed_at m l fs (va0 + PGSIZE * Z.of_nat (0 + i)) C) as (f & Hf & _ & _ & _ & -> & _); [unfold PGSIZE; lia|done|].
    rewrite <-Hf. f_equal. apply index_range; unfold PGSIZE; lia.
  - rewrite (lookup_ge_None_2 fs) by lia. rewrite (lookup_ge_None_2 (seq _ _)) by (rewrite length_seq; lia). done.
Qed.

Lemma placed_guards m l m' l' fs :
  guards m l m' l' root → (∀ x, 0 <= x < MAXVA → amap m' root x = amap m root x) → placed m l fs → placed m' l' fs.
Proof.
  intros [_ G] A C. split.
  - intros x Hx. rewrite A by done. by apply C.
  - apply C.
  - intros f Hf. by apply G, C.
  - apply C.
  - intros i f o Hi Ho. rewrite <-(pl_bytes _ _ _ C i f o Hi Ho). apply (G f); [apply C; by eapply list_elem_of_lookup_2|]. unfold in_page. lia.
Qed.

Lemma placed_snoc m l fs m' l' a :
  let x0 := va0 + PGSIZE * Z.of_nat (length fs) in
  placed m l fs → guards m l m' l' root → a ∈ l → (∀ b, b ∈ l → b ∈ l0) → data_frame m' root l' a →
  (∀ x, 0 <= x < MAXVA → amap m' root x = if decide (x0 <= x < x0 + PGSIZE) then mk_pte a (perm x0) else amap m root x) →
  (∀ o, 0 <= o < PGSIZE → m' (a + o) = byte (x0 + o)) →
  placed m' l' (fs ++ [a]).
Proof.
  intros x0 C G Hin Hl0 Ha A B. split.
  - intros x Hx. rewrite A by done. case_decide as Hd.
    + rewrite decide_True by (unfold x0, PGSIZE in *; lia). pose proof Hd as Hi. apply index_range in Hi; [|unfold x0, PGSIZE in *; lia].
      rewrite Hi, lookup_app_r, Nat.sub_diag by done. cbn. f_equal. apply Hpage. symmetry. apply (div_page_eq x0); [apply page_aligned|done].
    + rewrite (pl_map _ _ _ C) by done. case_decide as Hv; [|done]. destruct (fs !! index x) as [f|] eqn:E; [by rewrite (lookup_app_l_Some _ _ _ _ E)|].
      rewrite lookup_ge_None_2; [done|]. apply lookup_ge_None in E. rewrite length_app. cbn.
      destruct (decide (index x = length fs)) as [Hi|]; [|lia]. by apply index_range in Hi.
  - apply list.NoDup_app. split; [apply C|]. split; [|apply list.NoDup_singleton]. intros f Hf ->%list_elem_of_singleton. by destruct (pl_frames _ _ _ C a Hf) as (_ & ? & _).
  - intros f [Hf| ->%list_elem_of_singleton]%elem_of_app; [|done]. by apply G, C.
  - intros f [Hf| ->%list_elem_of_singleton]%elem_of_app; [by apply C|auto].
  - intros i f o Hi Ho. apply lookup_app_Some in Hi as [Hi|[Hi Hi']].
    + rewrite <-(pl_bytes _ _ _ C i f o Hi Ho). apply (proj2 G f); [apply C; by eapply list_elem_of_lookup_2|]. unfold in_page. lia.
    + apply list_lookup_singleton_Some in Hi' as [Hi' <-]. replace i with (length fs) by lia. by apply B.
Qed.

(** Taking them away again. *)
Lemma unplace w l fs :
  let m := k_mem (ks w) in
  placed m l fs → (length fs <= n)%nat → guards m0 l0 m l root → free_pages (ks w) l → pt_wf m root l → LKmem ∉ held w →
  ∃ w' l', uvmunmap root va0 (Z.of_nat (length fs)) true w = Ok () w' ∧ mem_only w w' ∧ free_pages (ks w') l'
    ∧ pt_wf (k_mem (ks w')) root l' ∧ guards m0 l0 (k_mem (ks w')) l' root ∧ ∀ x, 0 <= x < MAXVA → amap (k_mem (ks w')) root x = amap m0 root x.
Proof.
  intros m C Hlen G Hf Hwf Hlk. pose proof (placed_frames m l fs C Hlen) as Efs.
  destruct (unmap_guards root va0 (length fs) w l m0 l0) as (w' & E & M & F & W & G' & A); try done; fold m; rewrite ?Efs; try apply C.
  - unfold PGSIZE in *. lia.
  - intros x Hx. destruct (placed_at m l fs x C Hx Hlen) as (f & _ & _ & _ & Hl & _). exact Hl.
  - apply list.Forall_forall. apply C.
  - eexists w', _. split; [exact E|]. split; [done|]. split; [exact F|]. split; [exact W|]. split; [exact G'|].
    intros x Hx. rewrite A by done. case_decide as Hd; [rewrite Hnone by (unfold PGSIZE in *; lia); done|]. fold m.
    rewrite (pl_map _ _ _ C) by done. case_decide as Hv; [|done]. rewrite lookup_ge_None_2; [done|].
    destruct (decide (index x < length fs)%nat) as [Hi|]; [|lia]. apply index_lt in Hi; lia.
Qed.

(** One more page: [kalloc] has taken [a], which was filled with the bytes of the
    next page and is mapped. *)
Lemma place_next w a l fs g :
  let m := k_mem (ks w) in
  let x0 := va0 + PGSIZE * Z.of_nat (length fs) in
  (∀ m x, ¬ in_page a x → g m x = m x) → (∀ o, 0 <= o < PGSIZE → k_mem (ks (filled a w g)) (a + o) = byte (x0 + o)) →
  placed m (a :: l) fs → (length fs < n)%nat → guards m0 l0 m (a :: l) root → free_pages (ks w) (a :: l) → pt_wf m root (a :: l) → LKmem ∉ held w →
  ∃ r w' l', mappages root x0 PGSIZE a (perm x0) (filled a w g) = Ok r w' ∧ mem_only w w'
    ∧ free_pages (ks w') l' ∧ pt_wf (k_mem (ks w')) root l' ∧ guards m0 l0 (k_mem (ks w')) l' root
    ∧ (r = 0 ∧ placed (k_mem (ks w')) l' (fs ++ [a])
       ∨ r = -1 ∧ let w'' := w' <| ks ::= kfree_upd a |> in
           kfree a w' = Ok () w'' ∧ mem_only w w'' ∧ free_pages (ks w'') (a :: l') ∧ pt_wf (k_mem (ks w'')) root (a :: l')
           ∧ guards m0 l0 (k_mem (ks w'')) (a :: l') root ∧ placed (k_mem (ks w'')) (a :: l') fs).
Proof.
  intros m x0 Hg Hb C Hlen G Hf Hwf Hlk. pose proof (free_page_ok _ _ a Hf ltac:(by left)) as Ha.
  destruct (map_fresh root a l w g Hg Hf Hwf x0 (perm x0)) as (r & w1 & l1 & E & M1 & F1 & W1 & G1 & D1 & C1 & R).
  { apply page_aligned. } { unfold x0, PGSIZE. lia. } { unfold x0, PGSIZE in *. lia. } { apply Hperm. unfold x0, PGSIZE in *. lia. } { done. }
  { intros x Hx. fold m. rewrite (pl_map _ _ _ C), decide_True by (unfold x0, PGSIZE in *; lia).
    rewrite lookup_ge_None_2; [by rewrite Hnone by (unfold x0, PGSIZE in *; lia)|].
    assert (index x = length fs) as -> by (apply index_range; unfold x0, PGSIZE in *; lia). done. }
  fold m in G1, R. pose proof (guards_trans _ _ _ _ _ _ _ G G1) as G2. exists r, w1, l1. split; [done|]. split; [done|]. split; [done|]. split; [done|]. split; [done|].
  destruct R as [[-> A]|[-> A]]; [left|right]; (split; [done|]).
  - apply (placed_snoc m (a :: l)); try done; [by left|apply G|]. intros o Ho. rewrite C1 by (unfold in_page; lia). by apply Hb.
  - intros w2. destruct (kfree_guards root a w1 l1 m (a :: l)) as (F2 & W2 & G3 & A2); try done; [by left|].
    split; [apply kfree_run; [done|by rewrite (mem_only_held _ _ M1)]|]. split; [eapply mem_only_trans; [exact M1|]; apply mem_only_kfree|].
    split; [done|]. split; [done|]. split; [exact (guards_trans _ _ _ _ _ _ _ G G3)|].
    eapply placed_guards; [exact G3| |exact C]. intros x Hx. rewrite A2. by apply A.
Qed.

End place.

Lemma kalloc_first w a l : free_pages (ks w) (a :: l) → LKmem ∉ held w → kalloc w = Ok a (w <| ks ::= kalloc_upd a |>) ∧ a ≠ 0.
Proof.
  intros Hf Hlk. destruct (free_pages_kalloc a (ks w) l Hf) as [Efl _]. pose proof (free_page_ok _ _ a Hf ltac:(by left)) as Ha.
  pose proof (kalloc_run_nonnull w ltac:(rewrite Efl; by apply page_ok_nonzero) Hlk) as Ek. rewrite Efl in Ek. split; [done|by apply page_ok_nonzero].
Qed.

(** ** uvmcopy *)

(** A child's page table [new] that a parent's [old] with [n] pages can be copied
    to: the pages of the parent are mapped, neither they nor its page table are in
    the free list or in the child's page table, and the child has nothing mapped
    there. *)
Record forkable (m : mem) (l : list Z) (old new : Z) (n : nat) : Prop := {
  fk_size : PGSIZE * Z.of_nat n <= MAXVA;
  fk_leaf x : 0 <= x < PGSIZE * Z.of_nat n → leaf_pte (amap m old x);
  fk_tree path p : path_ok path → npage m old path = Some p → data_frame m new l p;
  fk_data x : 0 <= x < PGSIZE * Z.of_nat n → data_frame m new l (PTE2PA (amap m old x));
  fk_none x : 0 <= x < PGSIZE * Z.of_nat n → amap m new x = 0
}.

Lemma leaf_flags pte : leaf_pte pte → Z.lor (PTE_FLAGS pte) PTE_V = PTE_FLAGS pte.
Proof.
  intros [Hv _]. unfold pte_v in Hv. apply negb_true_iff, Z.eqb_neq in Hv. apply Z.bits_inj'. intros i Hi. rewrite Z.lor_spec.
  destruct (decide (i = 0)) as [->|Hne].
  - change (Z.testbit PTE_V 0) with true. rewrite orb_true_r. unfold PTE_FLAGS. rewrite Z.land_spec. change (Z.testbit 0x3FF 0) with true.
    rewrite andb_true_r. destruct (Z.testbit pte 0) eqn:E; [done|]. exfalso. apply Hv. apply Z.bits_inj'. intros j Hj. rewrite Z.land_spec, Z.bits_0.
    destruct (decide (j = 0)) as [->|]; [by rewrite E|]. change PTE_V with (2 ^ 0). rewrite Z.pow2_bits_false by done. apply andb_false_r.
  - change PTE_V with (2 ^ 0). rewrite Z.pow2_bits_false by done. apply orb_false_r.
Qed.

Lemma memmove_page_out a pa m x : ¬ in_page a x → memmove a pa PGSIZE m x = m x.
Proof.
  intros Hx. rewrite memmove_correct by (unfold PGSIZE; lia). unfold in_page in Hx. destruct (Z.leb_spec a x), (Z.ltb_spec x (a + PGSIZE)); done || lia.
Qed.

Section copy.
Variables (old new : Z) (m0 : mem) (l0 : list Z) (n : nat).
Hypothesis Hfk : forkable m0 l0 old new n.

(** The permissions and the bytes of the parent. *)
Definition src_perm (x : Z) : Z := PTE_FLAGS (amap m0 old x).
Definition src_byte (x : Z) : Z := m0 (PTE2PA (amap m0 old x) + x mod PGSIZE).

Lemma src_leaf x : 0 <= x < 0 + PGSIZE * Z.of_nat n → leaf_perm (src_perm x).
Proof. intros Hx. pose proof (fk_leaf _ _ _ _ _ Hfk x Hx) as Hl. split; [apply PTE_FLAGS_range|]. unfold src_perm. rewrite leaf_flags by done. apply Hl. Qed.

Lemma src_page x y : x / PGSIZE = y / PGSIZE → src_perm x = src_perm y.
Proof. intros E. unfold src_perm. by rewrite (amap_same_page _ _ x y). Qed.

Lemma parent_kept m l : guards m0 l0 m l new → (∀ va, pte_slot m old va = pte_slot m0 old va) ∧ ∀ va, amap m old va = amap m0 old va.
Proof.
  intros [_ G]. apply (tree_frame m0 m old). intros x (path & p & Hp & E & Hin). destruct (G p (fk_tree _ _ _ _ _ Hfk path p Hp E)) as [_ C]. by apply C.
Qed.

(** The fresh page [a] after [memmove] from the frame of the parent. *)
Lemma copy_bytes a l w (k : nat) o :
  let x0 := 0 + PGSIZE * Z.of_nat k in let pa := PTE2PA (amap m0 old x0) in
  (k < n)%nat → page_ok a → guards m0 l0 (k_mem (ks w)) (a :: l) new → 0 <= o < PGSIZE →
  k_mem (ks (filled a w (memmove a pa PGSIZE))) (a + o) = src_byte (x0 + o).
Proof.
  intros x0 pa Hk Ha G Ho. assert (Hx0 : 0 <= x0 < PGSIZE * Z.of_nat n) by (unfold x0, PGSIZE; lia).
  pose proof (fk_data _ _ _ _ _ Hfk x0 Hx0) as Hd. fold pa in Hd. destruct (proj2 G pa Hd) as [(Hpok & Hpn & _) Hb].
  assert (E : src_byte (x0 + o) = m0 (pa + o)).
  { unfold src_byte. assert (Hm : (x0 + o) mod PGSIZE = o) by (unfold x0; rewrite Z.add_0_l, Z.mul_comm, Z.add_comm, Z.mod_add, Z.mod_small by done; done).
    rewrite Hm. unfold pa. do 3 f_equal. apply amap_same_page. unfold x0. rewrite Z.add_0_l, (Z.mul_comm PGSIZE), Z.div_mul by done.
    rewrite Z.add_comm, Z.div_add, Z.div_small by done. lia. }
  rewrite E. change (memmove a pa PGSIZE (k_mem (kalloc_upd a (ks w))) (a + o) = m0 (pa + o)). rewrite memmove_correct by (unfold PGSIZE; lia).
  destruct (Z.leb_spec a (a + o)), (Z.ltb_spec (a + o) (a + PGSIZE)); try lia. cbn [andb]. replace (a + o - a) with o by lia.
  rewrite kalloc_mem_out; [apply Hb; unfold in_page; lia|]. intros Hin. apply (pages_apart pa a (pa + o) (pa + o)); try done; [|unfold in_page; lia].
  intros Eq. apply Hpn. rewrite Eq. by left.
Qed.

(** The state between iterations, with the frames [fs] copied so far. *)
Record copying (w : world) (l fs : list Z) : Prop := {
  cy_placed : placed new 0 m0 l0 src_perm src_byte (k_mem (ks w)) l fs;
  cy_guards : guards m0 l0 (k_mem (ks w)) l new;
  cy_free : free_pages (ks w) l;
  cy_wf : pt_wf (k_mem (ks w)) new l;
  cy_lock : LKmem ∉ held w
}.

(** What the loop leaves: the copy, or the child as it was. *)
Definition copy_done (w w' : world) (r : Z) (l' : list Z) : Prop :=
  mem_only w w' ∧ free_pages (ks w') l' ∧ pt_wf (k_mem (ks w')) new l' ∧ guards m0 l0 (k_mem (ks w')) l' new
  ∧ (r = 0 ∧ (∃ fs, placed new 0 m0 l0 src_perm src_byte (k_mem (ks w')) l' fs ∧ length fs = n)
     ∨ r = -1 ∧ ∀ x, 0 <= x < MAXVA → amap (k_mem (ks w')) new x = amap m0 new x).

(** The two error exits. *)
Lemma unwind w w1 l1 fs :
  mem_only w w1 → (length fs <= n)%nat → copying w1 l1 fs →
  ∃ w' l', (uvmunmap new 0 (PGSIZE * Z.of_nat (length fs) / PGSIZE) true;; mret (-1)) w1 = Ok (-1) w' ∧ copy_done w w' (-1) l'.
Proof.
  intros M1 Hlen [C1 G1 F1 W1 L1].
  destruct (unplace new 0 m0 l0 n src_perm src_byte eq_refl ltac:(lia) (fk_size _ _ _ _ _ Hfk) src_leaf (fk_none _ _ _ _ _ Hfk) w1 l1 fs C1 Hlen G1 F1 W1 L1)
    as (w' & l' & E & M & F & W & G & A).
  exists w', l'. replace (PGSIZE * Z.of_nat (length fs) / PGSIZE) with (Z.of_nat (length fs)) by (apply Z.div_unique with 0; unfold PGSIZE; lia).
  rewrite (bind_ok _ _ _ _ _ E). split; [done|]. split; [by eapply mem_only_trans|]. split; [done|]. split; [done|]. split; [done|]. by right.
Qed.

Lemma copy_done_trans w w1 w' r l' : mem_only w w1 → copy_done w1 w' r l' → copy_done w w' r l'.
Proof. intros M (M' & R). split; [by eapply mem_only_trans|done]. Qed.

Lemma uvmcopy_loop_spec fuel k i sz w l fs :
  (k + length fs = n)%nat → (k < fuel)%nat → i = PGSIZE * Z.of_nat (length fs) → sz <= PGSIZE * Z.of_nat n → PGSIZE * Z.of_nat n < sz + PGSIZE →
  copying w l fs → ∃ r w' l', uvmcopy_loop fuel old new i sz w = Ok r w' ∧ copy_done w w' r l'.
Proof.
  revert fuel i w l fs. induction k as [|k IH]; intros fuel i w l fs Hk Hfuel Hi Hsz Hsz' CY; (destruct fuel as [|fuel]; [lia|]); cbn [uvmcopy_loop];
    pose proof CY as [C G Hf Hwf Hlk].
  { destruct (Z.ltb_spec i sz); [unfold PGSIZE in *; lia|]. exists 0, w, l. split; [done|]. split; [apply mem_only_refl|]. do 3 (split; [done|]). left.
    split; [done|]. exists fs. split; [done|lia]. }
  destruct (Z.ltb_spec i sz) as [_|]; [|unfold PGSIZE in *; lia]. pose proof (fk_size _ _ _ _ _ Hfk) as Hmax.
  assert (Hir : 0 <= i < PGSIZE * Z.of_nat n) by (unfold PGSIZE in *; lia).
  rewrite (bind_ok _ _ _ _ _ (walk_lookup old i w ltac:(lia))). destruct (parent_kept _ _ G) as [Ps Pa].
  pose proof (fk_leaf _ _ _ _ _ Hfk i Hir) as Hli. destruct (leaf_pte_slot m0 old i Hli) as [s Hs]. rewrite Ps, Hs.
  assert (Es : ld64 (k_mem (ks w)) s = amap m0 old i) by (rewrite <-Pa; unfold amap; by rewrite Ps, Hs).
  erewrite bind_ok by reflexivity. cbv beta. rewrite Es. pose proof Hli as [Hv _]. unfold pte_v in Hv. apply negb_true_iff in Hv. rewrite Hv.
  erewrite bind_ok by reflexivity. cbv zeta. destruct l as [|a l].
  { rewrite (bind_ok _ _ _ _ _ (kalloc_run_null w (proj1 Hf) Hlk)). change (0 =? 0) with true. cbv iota. rewrite Hi.
    destruct (unwind w w [] fs) as (w' & l' & E & R); [apply mem_only_refl|lia|done|]. by exists (-1), w', l'. }
  destruct (kalloc_first w a l Hf Hlk) as [Ek Hne]. rewrite (bind_ok _ _ _ _ _ Ek). apply Z.eqb_neq in Hne. rewrite Hne. erewrite bind_ok by reflexivity.
  pose proof (free_page_ok _ _ a Hf ltac:(by left)) as Ha.
  destruct (place_next new 0 m0 l0 n src_perm src_byte eq_refl ltac:(lia) Hmax src_leaf src_page (fk_none _ _ _ _ _ Hfk) w a l fs
    (memmove a (PTE2PA (amap m0 old (0 + PGSIZE * Z.of_nat (length fs)))) PGSIZE)) as (r & w1 & l1 & E & M1 & F1 & W1 & G1 & R); try done; [apply memmove_page_out| |lia|].
  { intros o Ho. apply (copy_bytes a l); try done. lia. }
  rewrite Z.add_0_l, <-Hi in E. change (src_perm i) with (PTE_FLAGS (amap m0 old i)) in E. erewrite bind_ok by exact E. clear E.
  assert (L1 : LKmem ∉ held w1) by (by rewrite (mem_only_held _ _ M1)). destruct R as [[-> C1]|(-> & Ek1 & M2 & F2 & W2 & G2 & C2)].
  - change (negb (0 =? 0)) with false. cbv iota. destruct (IH fuel (i + PGSIZE) w1 l1 (fs ++ [a])) as (r & w' & l' & E' & D'); try done.
    { rewrite length_app. cbn. lia. } { lia. } { rewrite length_app. cbn. unfold PGSIZE in *. lia. }
    exists r, w', l'. split; [done|]. by eapply copy_done_trans.
  - change (negb (-1 =? 0)) with true. cbv iota. rewrite (bind_ok _ _ _ _ _ Ek1). rewrite Hi.
    destruct (unwind w (w1 <| ks ::= kfree_upd a |>) (a :: l1) fs) as (w' & l' & E & R); [done|lia|done|]. by exists (-1), w', l'.
Qed.
End copy.

(** ** What the user sees *)

Lemma uframe_leaf m root x :
  0 <= x < MAXVA → leaf_pte (amap m root x) →
  uframe m root x = if Z.land (PTE_FLAGS (amap m root x)) PTE_U =? 0 then 0 else PTE2PA (amap m root x).
Proof.
  intros Hx [Hv _]. unfold uframe. destruct (Z.leb_spec MAXVA x); [lia|]. unfold pte_v in Hv. apply negb_true_iff in Hv. rewrite Hv.
  unfold PTE_FLAGS. rewrite <-Z.land_assoc. done.
Qed.

(** Two address spaces agree on a page that has the same flags and bytes. *)
Lemma urd_same m m' root root' x :
  0 <= x < MAXVA → leaf_pte (amap m root x) → leaf_pte (amap m' root' x) → PTE_FLAGS (amap m' root' x) = PTE_FLAGS (amap m root x) →
  PTE2PA (amap m root x) ≠ 0 → PTE2PA (amap m' root' x) ≠ 0 →
  m' (PTE2PA (amap m' root' x) + x mod PGSIZE) = m (PTE2PA (amap m root x) + x mod PGSIZE) → urd m' root' x = urd m root x.
Proof.
  intros Hx L L' Ef N N' Eb. unfold urd. rewrite !uframe_leaf, Ef by done. destruct (Z.land (PTE_FLAGS (amap m root x)) PTE_U =? 0); [done|].
  apply Z.eqb_neq in N, N'. by rewrite N, N', Eb.
Qed.

Section fork.
Variables (old new : Z) (m0 : mem) (l0 : list Z) (n : nat).
Hypothesis Hfk : forkable m0 l0 old new n.

Lemma parent_intact m l x : guards m0 l0 m l new → 0 <= x < PGSIZE * Z.of_nat n → amap m old x = amap m0 old x ∧ urd m old x = urd m0 old x.
Proof.
  intros G Hx. destruct (parent_kept old new m0 l0 n Hfk m l G) as [_ A]. split; [apply A|].
  destruct (proj2 G _ (fk_data _ _ _ _ _ Hfk x Hx)) as [(Hok & _) Hb]. pose proof (fk_size _ _ _ _ _ Hfk).
  apply urd_same; rewrite ?A; try (by apply page_ok_nonzero); try (by apply Hfk); [lia|done|]. apply Hb.
  pose proof (Z.mod_pos_bound x PGSIZE ltac:(done)). unfold in_page. lia.
Qed.

Lemma child_same m l fs x :
  placed new 0 m0 l0 (src_perm old m0) (src_byte old m0) m l fs → length fs = n → 0 <= x < PGSIZE * Z.of_nat n →
  urd m new x = urd m0 old x ∧ PTE_FLAGS (amap m new x) = PTE_FLAGS (amap m0 old x) ∧ fs !! index 0 x = Some (PTE2PA (amap m new x)).
Proof.
  intros C Hlen Hx. pose proof (fk_size _ _ _ _ _ Hfk). pose proof (fk_leaf _ _ _ _ _ Hfk x Hx) as Hl.
  destruct (placed_at new 0 m0 l0 n (src_perm old m0) (src_byte old m0) ltac:(lia) ltac:(lia) (src_leaf old new m0 l0 n Hfk) m l fs x C ltac:(subst n; lia) ltac:(lia))
    as (f & Hf & Hok & Em & L & E1 & E2). unfold src_perm in E2. rewrite leaf_flags in E2 by done. rewrite E1. split; [|by rewrite E2].
  apply urd_same; rewrite ?E1; try done; try (by apply page_ok_nonzero); [lia| |].
  - destruct (fk_data _ _ _ _ _ Hfk x Hx) as (? & _). by apply page_ok_nonzero.
  - by rewrite (pl_page_byte new 0 m0 l0 (src_perm old m0) (src_byte old m0) eq_refl m l fs f x C Hf) by lia.
Qed.
End fork.


(** ** uvmalloc and uvmdealloc *)

Lemma memset_page_out a m x : ¬ in_page a x → memset a 0 PGSIZE m x = m x.
Proof.
  intros Hx. rewrite memset_spec by (unfold PGSIZE; lia). unfold in_page in Hx. destruct (Z.leb_spec a x), (Z.ltb_spec x (a + PGSIZE)); done || lia.
Qed.

Lemma PGROUNDUP_id a : aligned PGSIZE a → 0 <= a < 2 ^ 63 → PGROUNDUP a = a.
Proof.
  intros Hal Ha. destruct (PGROUNDUP_spec a) as [Hr Hle]; [unfold PGSIZE; lia|]. unfold aligned, PGSIZE in *.
  apply Z.mod_divide in Hal as [p ->]; [|lia]. apply Z.mod_divide in Hr as [q Eq]; [|lia]. rewrite Eq in *. lia.
Qed.

Section grow.
Variables (root oldsz newsz xperm : Z) (m0 : mem) (l0 : list Z) (n : nat).
#[local] Notation va0 := (PGROUNDUP oldsz).
#[local] Notation rperm := (Z.lor (Z.lor PTE_R PTE_U) xperm).
Hypothesis Hold : 0 <= oldsz <= newsz.
Hypothesis Hnew : newsz <= MAXVA - PGSIZE.
Hypothesis Hn : va0 + PGSIZE * Z.of_nat n = PGROUNDUP newsz.
Hypothesis Hx : 0 <= xperm < 2 ^ 10.
Hypothesis Hnone : ∀ x, va0 <= x < va0 + PGSIZE * Z.of_nat n → amap m0 root x = 0.

Lemma grow_start : aligned PGSIZE va0 ∧ oldsz <= va0 < oldsz + PGSIZE.
Proof. clear -Hold Hnew. pose proof MAXVA_eq. destruct (PGROUNDUP_spec oldsz) as [Ha Hb]; [unfold PGSIZE in *; lia|]. done. Qed.

Lemma grow_end : newsz <= va0 + PGSIZE * Z.of_nat n < newsz + PGSIZE.
Proof. rewrite Hn. pose proof MAXVA_eq. destruct (PGROUNDUP_spec newsz) as [Ha Hb]; [unfold PGSIZE in *; lia|]. lia. Qed.

Lemma rperm_leaf : leaf_perm rperm.
Proof.
  clear -Hx.
  split.
  - split; [apply Z.lor_nonneg; split; [done|lia]|]. destruct (decide (rperm = 0)) as [->|Hne]; [lia|].
    apply Z.log2_lt_pow2; [apply Z.le_neq; split; [apply Z.lor_nonneg; split; [done|lia]|done]|]. rewrite Z.log2_lor by (done || lia).
    destruct (decide (xperm = 0)) as [->|]; [done|]. assert (Z.log2 xperm < 10) by (apply Z.log2_lt_pow2; lia). change (Z.log2 (Z.lor PTE_R PTE_U)) with 4. lia.
  - intros E. apply (f_equal (λ z, Z.testbit z 1)) in E. rewrite !Z.lor_spec in E. done.
Qed.

Lemma zero_bytes a w o : 0 <= o < PGSIZE → k_mem (ks (filled a w (memset a 0 PGSIZE))) (a + o) = 0.
Proof.
  intros Ho. change (memset a 0 PGSIZE (k_mem (kalloc_upd a (ks w))) (a + o) = 0). rewrite memset_spec by (unfold PGSIZE; lia).
  destruct (Z.leb_spec a (a + o)), (Z.ltb_spec (a + o) (a + PGSIZE)); try lia. done.
Qed.

(** The state between iterations, with the zeroed frames [fs] added so far. *)
Record growing (w : world) (l fs : list Z) : Prop := {
  gw_placed : placed root va0 m0 l0 (λ _, rperm) (λ _, 0) (k_mem (ks w)) l fs;
  gw_guards : guards m0 l0 (k_mem (ks w)) l root;
  gw_free : free_pages (ks w) l;
  gw_wf : pt_wf (k_mem (ks w)) root l;
  gw_lock : LKmem ∉ held w
}.

(** Shrinking back to [o], which lies in the page before [va0]. *)
Lemma shrink_back w l fs a o :
  growing w l fs → (length fs <= n)%nat → PGROUNDUP o = va0 → PGROUNDUP a = va0 + PGSIZE * Z.of_nat (length fs) → o <= a →
  ∃ w' l', uvmdealloc root a o w = Ok o w' ∧ mem_only w w' ∧ free_pages (ks w') l' ∧ pt_wf (k_mem (ks w')) root l'
    ∧ guards m0 l0 (k_mem (ks w')) l' root ∧ ∀ x, 0 <= x < MAXVA → amap (k_mem (ks w')) root x = amap m0 root x.
Proof.
  intros GW Hlen Eo Ea Hoa. destruct grow_start as [Hal Hs]. pose proof grow_end as He. pose proof MAXVA_eq as Emax.
  assert (Hnil : length fs = 0%nat → ∃ l', mem_only w w ∧ free_pages (ks w) l' ∧ pt_wf (k_mem (ks w)) root l'
    ∧ guards m0 l0 (k_mem (ks w)) l' root ∧ ∀ x, 0 <= x < MAXVA → amap (k_mem (ks w)) root x = amap m0 root x).
  { intros ->%nil_length_inv. exists l. split; [apply mem_only_refl|]. destruct GW as [C G F W _]. do 3 (split; [done|]).
    intros x Hx'. rewrite (pl_map _ _ _ _ _ _ _ _ _ C) by done. by destruct (decide _). }
  unfold uvmdealloc. destruct (Z.leb_spec a o).
  { assert (a = o) as -> by lia. destruct Hnil as (l' & R); [unfold PGSIZE in *; lia|]. by exists w, l'. }
  rewrite Eo, Ea. destruct (Z.ltb_spec va0 (va0 + PGSIZE * Z.of_nat (length fs))); cycle 1.
  { destruct Hnil as (l' & R); [unfold PGSIZE in *; lia|]. exists w, l'. by rewrite (bind_ok (when false _) _ w () w eq_refl). }
  replace (i32 _) with (Z.of_nat (length fs)); cycle 1.
  { replace (va0 + PGSIZE * Z.of_nat (length fs) - va0) with (Z.of_nat (length fs) * PGSIZE) by lia. rewrite Z.div_mul by done.
    symmetry. apply i32_small. unfold PGSIZE in *. lia. }
  destruct (unplace root va0 m0 l0 n (λ _, rperm) (λ _, 0) Hal ltac:(lia) ltac:(lia) (λ _ _, rperm_leaf) Hnone w l fs (gw_placed _ _ _ GW) Hlen
    (gw_guards _ _ _ GW) (gw_free _ _ _ GW) (gw_wf _ _ _ GW) (gw_lock _ _ _ GW)) as (w' & l' & E & R).
  exists w', l'. cbn [when]. rewrite (bind_ok _ _ _ _ _ E). done.
Qed.

(** What the loop leaves: the pages added, or everything as it was. *)
Definition grow_done (w w' : world) (r : Z) (l' : list Z) : Prop :=
  mem_only w w' ∧ free_pages (ks w') l' ∧ pt_wf (k_mem (ks w')) root l' ∧ guards m0 l0 (k_mem (ks w')) l' root
  ∧ (r = newsz ∧ (∃ fs, growing w' l' fs ∧ length fs = n)
     ∨ r = 0 ∧ ∀ x, 0 <= x < MAXVA → amap (k_mem (ks w')) root x = amap m0 root x).

Lemma grow_undo w w1 l1 fs :
  mem_only w w1 → (length fs <= n)%nat → growing w1 l1 fs →
  ∃ w' l', (uvmdealloc root (va0 + PGSIZE * Z.of_nat (length fs)) va0;; mret 0) w1 = Ok 0 w' ∧ grow_done w w' 0 l'.
Proof.
  intros M1 Hlen GW. destruct grow_start as [Hal Hs]. pose proof grow_end as He. pose proof MAXVA_eq as Emax.
  destruct (shrink_back w1 l1 fs (va0 + PGSIZE * Z.of_nat (length fs)) va0 GW Hlen) as (w' & l' & E & M & F & W & G & A).
  { apply PGROUNDUP_id; [done|]. lia. }
  { apply PGROUNDUP_id; [by apply page_aligned|]. unfold PGSIZE in *. lia. }
  { unfold PGSIZE. lia. }
  exists w', l'. rewrite (bind_ok _ _ _ _ _ E). split; [done|]. split; [by eapply mem_only_trans|]. do 3 (split; [done|]). by right.
Qed.

Lemma uvmalloc_loop_spec fuel k a w l fs :
  (k + length fs = n)%nat → (k < fuel)%nat → a = va0 + PGSIZE * Z.of_nat (length fs) → growing w l fs →
  ∃ r w' l', uvmalloc_loop fuel root a va0 newsz xperm w = Ok r w' ∧ grow_done w w' r l'.
Proof.
  revert fuel a w l fs. induction k as [|k IH]; intros fuel a w l fs Hk Hfuel Hi GW; (destruct fuel as [|fuel]; [lia|]); cbn [uvmalloc_loop];
    pose proof GW as [C G Hf Hwf Hlk]; destruct grow_start as [Hal Hs]; pose proof grow_end as He.
  { destruct (Z.ltb_spec a newsz); [unfold PGSIZE in *; lia|]. exists newsz, w, l. split; [done|]. split; [apply mem_only_refl|]. do 3 (split; [done|]). left.
    split; [done|]. exists fs. split; [done|lia]. }
  destruct (Z.ltb_spec a newsz) as [_|]; [|unfold PGSIZE in *; lia]. destruct l as [|p l].
  { rewrite (bind_ok _ _ _ _ _ (kalloc_run_null w (proj1 Hf) Hlk)). change (0 =? 0) with true. cbv iota. rewrite Hi.
    destruct (grow_undo w w [] fs) as (w' & l' & E & R); [apply mem_only_refl|lia|done|]. by exists 0, w', l'. }
  destruct (kalloc_first w p l Hf Hlk) as [Ek Hne]. rewrite (bind_ok _ _ _ _ _ Ek). apply Z.eqb_neq in Hne. rewrite Hne. erewrite bind_ok by reflexivity.
  destruct (place_next root va0 m0 l0 n (λ _, rperm) (λ _, 0) Hal ltac:(lia) ltac:(lia) (λ _ _, rperm_leaf) (λ _ _ _, eq_refl) Hnone w p l fs
    (memset p 0 PGSIZE)) as (r & w1 & l1 & E & M1 & F1 & W1 & G1 & R); try done; [apply memset_page_out|apply zero_bytes|lia|].
  rewrite <-Hi in E. erewrite bind_ok by exact E. clear E.
  assert (L1 : LKmem ∉ held w1) by (by rewrite (mem_only_held _ _ M1)). destruct R as [[-> C1]|(-> & Ek1 & M2 & F2 & W2 & G2 & C2)].
  - change (negb (0 =? 0)) with false. cbv iota. destruct (IH fuel (a + PGSIZE) w1 l1 (fs ++ [p])) as (r & w' & l' & E' & M' & D'); try done.
    { rewrite length_app. cbn. lia. } { lia. } { rewrite length_app. cbn. unfold PGSIZE in *. lia. }
    exists r, w', l'. split; [done|]. split; [by eapply mem_only_trans|done].
  - change (negb (-1 =? 0)) with true. cbv iota. rewrite (bind_ok _ _ _ _ _ Ek1). rewrite Hi.
    destruct (grow_undo w (w1 <| ks ::= kfree_upd p |>) (p :: l1) fs) as (w' & l' & E & R); [done|lia|done|]. by exists 0, w', l'.
Qed.
End grow.

Lemma rperm_user xperm : (Z.land (Z.lor (Z.lor (Z.lor PTE_R PTE_U) xperm) PTE_V) PTE_U =? 0) = false.
Proof. apply Z.eqb_neq. intros E. apply (f_equal (λ z, Z.testbit z 4)) in E. rewrite Z.land_spec, !Z.lor_spec in E. done. Qed.

(** The pages that growing from [oldsz] to [newsz] adds. *)
Lemma grow_pages oldsz newsz :
  0 <= oldsz <= newsz → newsz <= MAXVA - PGSIZE → ∃ n, PGROUNDUP oldsz + PGSIZE * Z.of_nat n = PGROUNDUP newsz.
Proof.
  intros Ho Hn. pose proof MAXVA_eq. destruct (PGROUNDUP_spec oldsz) as [Ha Hb]; [unfold PGSIZE in *; lia|].
  destruct (PGROUNDUP_spec newsz) as [Hc Hd]; [unfold PGSIZE in *; lia|]. unfold aligned, PGSIZE in *.
  apply Z.mod_divide in Ha as [p Ep]; [|lia]. apply Z.mod_divide in Hc as [q Eq]; [|lia]. exists (Z.to_nat (q - p)). lia.
Qed.

Lemma uvmalloc_spec root oldsz newsz xperm n w l :
  let m := k_mem (ks w) in
  0 <= oldsz <= newsz → newsz <= MAXVA - PGSIZE → PGROUNDUP oldsz + PGSIZE * Z.of_nat n = PGROUNDUP newsz → 0 <= xperm < 2 ^ 10 →
  (∀ x, PGROUNDUP oldsz <= x < PGROUNDUP newsz → amap m root x = 0) → free_pages (ks w) l → pt_wf m root l → LKmem ∉ held w →
  ∃ r w' l', uvmalloc root oldsz newsz xperm w = Ok r w' ∧ grow_done root oldsz newsz xperm m l n w w' r l'.
Proof.
  intros m Ho Hmax Hn Hx Hnone Hf Hwf Hlk. unfold uvmalloc. destruct (Z.ltb_spec newsz oldsz); [lia|].
  apply (uvmalloc_loop_spec root oldsz newsz xperm m l n Ho Hmax Hn Hx ltac:(by rewrite Hn) _ n _ w l []).
  - cbn. lia.
  - pose proof (grow_end oldsz newsz n Ho Hmax Hn) as He. assert (Z.of_nat n - 1 <= (newsz - PGROUNDUP oldsz) / PGSIZE) by (apply Z.div_le_lower_bound; unfold PGSIZE in *; lia). lia.
  - cbn. lia.
  - split; [apply placed_nil|apply guards_refl|done..].
Qed.


(** shrinking a process by what it has just grown gives all mappings back as
    they were, and the memory with them. *)
Theorem uvmalloc_uvmdealloc (root oldsz newsz xperm : Z) (w w1 : world) (l : list Z) :
  let m := k_mem (ks w) in
  0 <= oldsz <= newsz → newsz <= MAXVA - PGSIZE → 0 <= xperm < 2 ^ 10 →
  (∀ x, PGROUNDUP oldsz <= x < PGROUNDUP newsz → amap m root x = 0) → free_pages (ks w) l → pt_wf m root l → LKmem ∉ held w →
  uvmalloc root oldsz newsz xperm w = Ok newsz w1 →
  ∃ w2 l2, uvmdealloc root newsz oldsz w1 = Ok oldsz w2 ∧ free_pages (ks w2) l2 ∧ pt_wf (k_mem (ks w2)) root l2
    ∧ (∀ f x, data_frame m root l f → in_page f x → k_mem (ks w2) x = m x) ∧ ∀ x, 0 <= x < MAXVA → amap (k_mem (ks w2)) root x = amap m root x.
Proof.
  intros m Ho Hmax Hx Hnone Hf Hwf Hlk Ea. destruct (grow_pages oldsz newsz Ho Hmax) as [n Hn].
  destruct (uvmalloc_spec root oldsz newsz xperm n w l) as (r & w' & l' & E & M & F & W & G & R); try done.
  rewrite Ea in E. injection E as <- <-. destruct R as [(_ & fs & GW & Hlen)|[E0 A]].
  - destruct (shrink_back root oldsz newsz xperm m l n Ho Hmax Hn Hx ltac:(by rewrite Hn) w1 l' fs newsz oldsz GW) as (w2 & l2 & E2 & _ & F2 & W2 & G2 & A2); try lia; try done.
    exists w2, l2. do 3 (split; [done|]). split; [intros f x Hd; by apply G2|done].
  - assert (oldsz = 0) as -> by lia. rewrite E0. exists w1, l'. do 3 (split; [done|]). split; [intros f x Hd; by apply G|done].
Qed.

(** ** A fresh page table *)

Lemma uvmcreate_run w a l :
  free_pages (ks w) (a :: l) → LKmem ∉ held w → uvmcreate w = Ok a (filled a w (memset a 0 PGSIZE)).
Proof.
  intros Hf Hlk. destruct (kalloc_first w a l Hf Hlk) as [E Hne]. unfold uvmcreate. rewrite (bind_ok _ _ _ _ _ E).
  apply Z.eqb_neq in Hne. rewrite Hne. by erewrite bind_ok by reflexivity.
Qed.

(** [uvmcreate] makes a page table that an address space [old] can be copied to. *)
Lemma uvmcreate_forkable w a l old n :
  let m := k_mem (ks w) in
  free_pages (ks w) (a :: l) → LKmem ∉ held w → pt_wf m old (a :: l) → PGSIZE * Z.of_nat n <= MAXVA →
  (∀ x, 0 <= x < PGSIZE * Z.of_nat n → leaf_pte (amap m old x) ∧ data_frame m old (a :: l) (PTE2PA (amap m old x))) →
  ∃ w', uvmcreate w = Ok a w' ∧ held w' = held w ∧ free_pages (ks w') l ∧ pt_wf (k_mem (ks w')) a l ∧ forkable (k_mem (ks w')) l old a n
    ∧ (∀ x, amap (k_mem (ks w')) old x = amap m old x).
Proof.
  intros m Hf Hlk Hwf Hmax Hp. pose proof (uvmcreate_run w a l Hf Hlk) as E.
  destruct (uvmcreate_spec w a l Hf Hlk) as (w' & E' & M & F & W & A & N). rewrite E in E'. injection E' as <-.
  set (w' := filled a w (memset a 0 PGSIZE)) in *. pose proof (memset_page_out a) as Hg.
  pose proof (filled_amap old a l w (memset a 0 PGSIZE) Hg Hf Hwf) as Am. fold w' in Am.
  destruct (tree_frame _ _ old (filled_tree old a l w (memset a 0 PGSIZE) Hg Hf Hwf)) as (Nm & _). fold w' in Nm.
  assert (Hnew : ∀ p, page_ok p → p ∉ a :: l → data_frame (k_mem (ks w')) a l p).
  { intros p Hok Hni. split; [done|]. split; [intros ?; apply Hni; by right|]. intros path Hpa Ep. apply N in Ep as ->; [|done]. apply Hni. by left. }
  exists w'. split; [done|]. split; [by apply mem_only_held|]. split; [done|]. split; [done|]. split; [|done]. split; [done|..].
  - intros x Hx. rewrite Am. by apply Hp.
  - intros path p Hpa. rewrite Nm by done. intros Ep. destruct (wf_page _ _ _ Hwf path p Hpa Ep) as [Hok Hni]. by apply Hnew.
  - intros x Hx. rewrite Am. destruct (Hp x Hx) as [_ (Hok & Hni & _)]. by apply Hnew.
  - intros x _. apply A.
Qed.

End addrspace.

(** ** Examples: a machine with eight free pages *)

Definition small_image : Image :=
  {| kend := PHYSTOP - 8 * 4096; ketext := KERNBASE + 8192; ktrampoline := KERNBASE + 4096 |}.

Lemma small_image_ok : @ImageOk small_image.
Proof. split; simpl; unfold PHYSTOP, KERNBASE; try lia; reflexivity. Qed.

Definition small_free : list Z :=
  reverse (pages (PGROUNDUP (@kend small_image)) (Z.to_nat ((PHYSTOP - PGROUNDUP (@kend small_image)) / PGSIZE))).

(** After [kinit]; with a page table; with one page of memory; with a second page table. *)
Definition space0 : world := run_or boot_world (@kinit small_image boot_world).
Definition parent : Z := PHYSTOP - 4096.
Definition space1 : world := run_or space0 (uvmcreate space0).
Definition space2 : world := run_or space1 (@uvmalloc small_image parent 0 4096 PTE_W space1).

#[local] Opaque run_or.

Lemma space1_wf :
  @free_pages small_image (ks space1) (tail small_free) ∧ LKmem ∉ held space1
  ∧ @pt_wf small_image (k_mem (ks space1)) parent (tail small_free) ∧ ∀ va, amap (k_mem (ks space1)) parent va = 0.
Proof.
  destruct (@kinit_spec small_image small_image_ok boot_world) as (w' & E & M & F); [done|simpl; set_solver|].
  assert (E0 : space0 = w') by (unfold space0; by rewrite (run_or_ok _ _ _ _ E)). rewrite <-E0 in *. clear E0 E w'.
  assert (L0 : LKmem ∉ held space0) by (rewrite (mem_only_held _ _ M); simpl; set_solver).
  assert (El : small_free = parent :: tail small_free) by reflexivity. fold small_free in F. rewrite El in F. pose proof small_image_ok.
  destruct (uvmcreate_spec (H:=small_image) space0 _ _ F L0) as (w1 & E1 & M1 & F1 & W1 & A1 & N1).
  unfold space1. rewrite (run_or_ok _ _ _ _ E1). split; [exact F1|]. split; [by rewrite (mem_only_held _ _ M1)|]. exact (conj W1 A1).
Qed.

#[local] Opaque space0 space1.

(** The process grows by a page, and shrinks again. *)
Lemma space2_ok : @uvmalloc small_image parent 0 4096 PTE_W space1 = Ok 4096 space2.
Proof.
  assert (match @uvmalloc small_image parent 0 4096 PTE_W space1 with Ok r _ => r | _ => 1 end = 4096) as E by (vm_compute; reflexivity).
  unfold space2. destruct (uvmalloc _ _ _ _ _) as [r w'|?| |]; try discriminate E. simpl in E. subst r. by rewrite (run_or_ok space1 (Ok 4096 w') 4096 w' eq_refl).
Qed.

#[local] Opaque space2.

Lemma Ok_inv {A} (a b : A) w w' : Ok a w = Ok b w' → a = b ∧ w = w'.
Proof. by intros [= -> ->]. Qed.


Lemma uvmalloc_uvmdealloc_witness :
  ∃ w2, @uvmdealloc small_image parent 4096 0 space2 = Ok 0 w2 ∧ amap (k_mem (ks w2)) parent 5 = 0.
Proof.
  destruct space1_wf as (F & L & W & A).
  destruct (@uvmalloc_uvmdealloc small_image small_image_ok parent 0 4096 PTE_W space1 space2 (tail small_free)) as (w2 & l2 & E & _ & _ & _ & R);
    [done|done|done|by intros x _|exact F|exact W|exact L|exact space2_ok|].
  exists w2. split; [exact E|]. exact (eq_trans (R 5 ltac:(compute_done)) (A 5)).
Defined.

Lemma space2_wf :
  ∃ l, @free_pages small_image (ks space2) l ∧ LKmem ∉ held space2 ∧ @pt_wf small_image (k_mem (ks space2)) parent l
    ∧ ∀ x, 0 <= x < PGSIZE * Z.of_nat 1 → leaf_pte (amap (k_mem (ks space2)) parent x)
        ∧ @data_frame small_image (k_mem (ks space2)) parent l (PTE2PA (amap (k_mem (ks space2)) parent x)).
Proof.
  destruct space1_wf as (F & L & W & A). pose proof small_image_ok.
  destruct (@uvmalloc_spec small_image small_image_ok parent 0 4096 PTE_W 1 space1 (tail small_free)) as (r & w' & l' & E & M & F' & W' & G & R);
    [done|done|done|done|by intros x _|exact F|exact W|exact L|].
  rewrite space2_ok in E. apply Ok_inv in E as [<- <-]. destruct R as [(_ & fs & [C _ _ _ L'] & Hlen)|[R _]]; [|discriminate R].
  exists l'. split; [done|]. split; [done|]. split; [done|]. intros x Hx.
  destruct (placed_at (H:=small_image) parent (PGROUNDUP 0) _ _ 1 _ _ ltac:(done) ltac:(done) (λ _ _, rperm_leaf PTE_W ltac:(done)) _ l' fs x C)
    as (f & Hf & _ & _ & Hl & -> & _); [rewrite Hlen; exact Hx|rewrite Hlen; done|].
  split; [exact Hl|]. apply (pl_frames _ _ _ _ _ _ _ _ _ C). by eapply list_elem_of_lookup_2.
Qed.

