(* ===== verification/Sched.v ===== *)
(** * kernel/proc.c: switching, sleeping and waking

    The part of proc.c that the rest of the kernel sleeps and wakes with.
    [sched] gives up the CPU: the thread resumes after the rest of the system
    has run (one entry of the schedule [env]) and the scheduler has found the
    process RUNNABLE again and made it RUNNING. *)

From S2P Require Import Prelude Memory Kernel.

(** [swtch] to the scheduler and back.  The scheduler picks only a RUNNABLE
    process, sets it RUNNING, and hands over with [p->lock] held, as the
    process left it. *)
Definition swtch (p : nat) : K unit := λ w,
  match env w with
  | [] => Blocked
  | f :: e =>
    let s := f (ks w) in
    if decide (p_state (get_proc p s) = RUNNABLE) then
      Ok () (w <| ks := upd_proc p (λ q, q <| p_state := RUNNING |>) s |> <| env := e |>)
    else Blocked
  end.

(** The CPU's [noff] is the number of spinlocks the thread holds; interrupts are
    off whenever it is positive, so the test of [intr_get] cannot fire after
    the one of [noff]. *)
Definition sched : K unit :=
  p ← curproc;
  h ← holding (LProc p);
  panic_if (negb h) "sched p->lock";;
  noff ← (λ w, Ok (size (held w)) w);
  panic_if (negb (noff =? 1)%nat) "sched locks";;
  st ← gets (λ s, p_state (get_proc p s));
  panic_if (bool_decide (st = RUNNING)) "sched running";;
  swtch p.

Definition yield : K unit :=
  p ← curproc;
  acquire (LProc p);;
  modify (upd_proc p (λ q, q <| p_state := RUNNABLE |>));;
  sched;;
  release (LProc p).

Definition sleep (c : chan) (lk : lockid) : K unit :=
  p ← curproc;
  acquire (LProc p);;
  release lk;;
  modify (upd_proc p (λ q, q <| p_chan := c |>));;
  modify (upd_proc p (λ q, q <| p_state := SLEEPING |>));;
  sched;;
  modify (upd_proc p (λ q, q <| p_chan := ChNull |>));;
  release (LProc p);;
  acquire lk.

Definition wakeup (c : chan) : K unit :=
  mfor all_procs (λ i,
    cur ← myproc;
    if decide (Some i ≠ cur) then
      acquire (LProc i);;
      q ← gets (get_proc i);
      when (bool_decide (p_state q = SLEEPING) && bool_decide (p_chan q = c))
        (modify (upd_proc i (λ q, q <| p_state := RUNNABLE |>)));;
      release (LProc i)
    else mret ()).

Fixpoint kill_loop (l : list nat) (pid : Z) : K Z :=
  match l with
  | [] => mret (-1)
  | i :: l =>
    acquire (LProc i);;
    q ← gets (get_proc i);
    if p_pid q =? pid then
      modify (upd_proc i (λ q, q <| p_killed := 1 |>));;
      q ← gets (get_proc i);
      when (bool_decide (p_state q = SLEEPING))
        (modify (upd_proc i (λ q, q <| p_state := RUNNABLE |>)));;
      release (LProc i);;
      mret 0
    else
      release (LProc i);;
      kill_loop l pid
  end.

Definition kill (pid : Z) : K Z := kill_loop all_procs pid.

Definition setkilled (p : nat) : K unit :=
  acquire (LProc p);;
  modify (upd_proc p (λ q, q <| p_killed := 1 |>));;
  release (LProc p).

Definition killed (p : nat) : K Z :=
  acquire (LProc p);;
  k ← gets (λ s, p_killed (get_proc p s));
  release (LProc p);;
  mret k.

Fixpoint get_nproc_loop (l : list proc) (nproc : Z) : Z :=
  match l with
  | [] => nproc
  | p :: l => get_nproc_loop l (if decide (p_state p ≠ UNUSED) then nproc + 1 else nproc)
  end.

Definition get_nproc : K Z := gets (λ s, get_nproc_loop (k_procs s) 0).

Definition procinit : K unit :=
  initlock LPid;;
  initlock LWait;;
  mfor all_procs (λ i,
    initlock (LProc i);;
    modify (upd_proc i (λ q, q <| p_state := UNUSED |>));;
    modify (upd_proc i (λ q, q <| p_kstack := KSTACK (Z.of_nat i) |>))).

(** [while(cond) sleep(c, lk);].  Every [sleep] uses up one entry of the
    schedule, so that the fuel is never exhausted ([sleep_while_fuel]). *)
Fixpoint sleep_while_loop (fuel : nat) (cond : kstate → bool) (c : chan) (lk : lockid) : K unit :=
  match fuel with
  | O => diverge
  | S fuel =>
    b ← gets cond;
    if b : bool then sleep c lk;; sleep_while_loop fuel cond c lk else mret ()
  end.

Definition sleep_while (cond : kstate → bool) (c : chan) (lk : lockid) : K unit :=
  env_fuel (λ fuel, sleep_while_loop fuel cond c lk).

(** [c->proc = p;] *)
Definition set_curproc (p : option nat) : K unit := λ w, Ok () (w <| me := p |>).

(** One round of the loop of [scheduler].  [run p] is what happens between the
    [swtch] to process [p] and its [swtch] back, with [p->lock] held at both
    ends. *)
Definition scheduler_round (run : nat → K unit) : K unit :=
  mfor all_procs (λ i,
    acquire (LProc i);;
    q ← gets (get_proc i);
    when (bool_decide (p_state q = RUNNABLE))
      (modify (upd_proc i (λ q, q <| p_state := RUNNING |>));;
       set_curproc (Some i);;
       run i;;
       set_curproc None);;
    release (LProc i)).

(** [n] rounds of it. *)
Fixpoint scheduler_loop (n : nat) (run : nat → K unit) : K unit :=
  match n with
  | O => mret ()
  | S n => scheduler_round run;; scheduler_loop n run
  end.

Definition scheduler (n : nat) (run : nat → K unit) : K unit :=
  set_curproc None;;
  scheduler_loop n run.

(** ** Lemmas *)

Lemma release_acquired lk w s :
  lk ∉ held w →
  release lk (MkWorld s ({[lk]} ∪ held w) (me w) (env w)) = Ok () (w <| ks := s |>).
Proof. apply locked_section. Qed.

(** A critical section on one lock around pure code. *)
Lemma lock_modify lk f w :
  lk ∉ held w → (acquire lk;; modify f;; release lk) w = Ok () (w <| ks ::= f |>).
Proof.
  intros Hlk. rewrite (bind_ok _ _ _ _ _ (acquire_free lk w Hlk)). erewrite bind_ok by reflexivity.
  exact (locked_section lk w (f (ks w)) Hlk).
Qed.

(** What [wakeup(c)] does to process [i]. *)
Definition wake (c : chan) (cur : option nat) (i : nat) (p : proc) : proc :=
  if decide (Some i ≠ cur) then
    if bool_decide (p_state p = SLEEPING) && bool_decide (p_chan p = c)
    then p <| p_state := RUNNABLE |> else p
  else p.

(** [wakeup(c)] on the whole process table. *)
Definition wake_all (c : chan) (cur : option nat) (k : kstate) : kstate :=
  k <| k_procs ::= imap (wake c cur) |>.

Lemma mfor_app {A} (l1 l2 : list A) (f : A → K unit) w :
  mfor (l1 ++ l2) f w = (mfor l1 f;; mfor l2 f) w.
Proof.
  revert w. induction l1 as [|x l1 IH]; intros w; [done|].
  cbn [app mfor]. rewrite bind_assoc. unfold mbind at 1 2, K_bind at 1 2.
  by destruct (f x w).
Qed.

(** A loop over the process table that updates each entry on its own. *)
Lemma mfor_procs (g : nat → proc → proc) (body : nat → K unit) (n : nat) w :
  (∀ i k, (i < n)%nat → body i (w <| ks := k |>) = Ok () (w <| ks := upd_proc i (g i) k |>)) →
  mfor (seq 0 n) body w =
    Ok () (w <| ks ::= λ k, k <| k_procs ::= imap (λ i p, if (i <? n)%nat then g i p else p) |> |>).
Proof.
  induction n as [|n IH]; intros Hb.
  - assert (∀ l : list proc, imap (λ i p, if (i <? 0)%nat then g i p else p) l = l) as E.
    { intros l. apply list_eq. intros i. rewrite list_lookup_imap. by destruct (l !! i). }
    simpl. unfold mret, K_ret. f_equal. rsimpl. rewrite E. by destruct w as [[] ? ? ?].
  - rewrite seq_S, mfor_app. simpl (0 + n)%nat.
    erewrite bind_ok by (apply IH; intros; apply Hb; lia). cbn [mfor].
    erewrite bind_ok by (apply Hb; lia). unfold mret, K_ret. f_equal. unfold upd_proc. rsimpl. f_equal. f_equal.
    apply list_eq. intros j. rewrite list_lookup_imap. destruct (decide (j = n)) as [->|Hne].
    + rewrite list_lookup_alter_eq, list_lookup_imap. destruct (k_procs (ks w) !! n); simpl; [|done].
      by rewrite Nat.ltb_irrefl, (proj2 (Nat.ltb_lt n (S n))) by lia.
    + rewrite list_lookup_alter_ne, list_lookup_imap by done. destruct (k_procs (ks w) !! j); simpl; [|done].
      destruct (Nat.ltb_spec j n), (Nat.ltb_spec j (S n)); done || lia.
Qed.

Lemma imap_lt {A} (g : nat → A → A) (l : list A) n :
  length l = n → imap (λ i p, if (i <? n)%nat then g i p else p) l = imap g l.
Proof.
  intros <-. apply list_eq. intros i. rewrite !list_lookup_imap. destruct (l !! i) eqn:E; simpl; [|done].
  apply lookup_lt_Some in E. by rewrite (proj2 (Nat.ltb_lt _ _) E).
Qed.

(** The calling conditions of [wakeup]: no [p->lock] of another process held. *)
Definition no_proc_lock (w : world) : Prop := ∀ i, Some i ≠ me w → LProc i ∉ held w.

Definition procs_ok (k : kstate) : Prop := length (k_procs k) = Z.to_nat NPROC.

Lemma wakeup_run c w :
  procs_ok (ks w) → no_proc_lock w → wakeup c w = Ok () (w <| ks ::= wake_all c (me w) |>).
Proof.
  intros Hlen Hnp. unfold wakeup, all_procs. rewrite (mfor_procs (wake c (me w))).
  - unfold wake_all. rsimpl. by rewrite imap_lt.
  - intros i k Hi. erewrite bind_ok by reflexivity.
    change (me (w <| ks := k |>)) with (me w). destruct (decide (Some i ≠ me w)) as [Hne|He].
    2:{ unfold mret, K_ret, upd_proc. f_equal. rsimpl. rewrite alter_id_at; [by destruct k|].
        intros x _. unfold wake. by rewrite decide_False. }
    assert (LProc i ∉ held (w <| ks := k |>)) as Hlk by (by apply Hnp).
    rewrite (bind_ok _ _ _ _ _ (acquire_free _ _ Hlk)). erewrite bind_ok by reflexivity. cbv beta.
    set (q := get_proc i _).
    assert (∀ b : bool, b = bool_decide (p_state q = SLEEPING) && bool_decide (p_chan q = c) →
      (when b (modify (upd_proc i (λ q, q <| p_state := RUNNABLE |>)));; release (LProc i))
        (w <| ks := k |> <| held ::= λ h, {[LProc i]} ∪ h |>)
      = Ok () (w <| ks := upd_proc i (wake c (me w) i) k |>)) as Hb; [|by apply Hb].
    intros b Eb.
    assert (upd_proc i (wake c (me w) i) k = if b then upd_proc i (λ q, q <| p_state := RUNNABLE |>) k else k) as ->.
    { assert (∀ x, k_procs k !! i = Some x → x = q) as Hq.
      { intros x Hx. symmetry. by apply list_lookup_total_correct. }
      unfold upd_proc. rsimpl. destruct b.
      - rewrite (alter_ext_at _ (λ q, q <| p_state := RUNNABLE |>)); [done|].
        intros x ->%Hq. unfold wake. by rewrite decide_True, <- Eb.
      - rewrite alter_id_at; [by destruct k|]. intros x ->%Hq. unfold wake. by rewrite decide_True, <- Eb. }
    destruct b; (erewrite bind_ok by reflexivity); exact (locked_section (LProc i) (w <| ks := k |>) _ Hlk).
Qed.

Lemma wake_pid ch cur i q : p_pid (wake ch cur i q) = p_pid q.
Proof. unfold wake. repeat case_match; done. Qed.

Lemma procs_ok_wake_all ch cur k : procs_ok k → procs_ok (wake_all ch cur k).
Proof. unfold procs_ok, wake_all. rsimpl. by rewrite length_imap. Qed.

Lemma wake_all_pid ch cur p k :
  procs_ok k → (p < Z.to_nat NPROC)%nat → p_pid (get_proc p (wake_all ch cur k)) = p_pid (get_proc p k).
Proof.
  intros Hk Hp. unfold get_proc, wake_all, procs_ok in *. rsimpl. rewrite !list_lookup_total_alt, list_lookup_imap.
  destruct (k_procs k !! p) as [q|]; [|done]. simpl. apply wake_pid.
Qed.

Lemma get_proc_wake_all ch cur p k :
  (p < length (k_procs k))%nat → get_proc p (wake_all ch cur k) = wake ch cur p (get_proc p k).
Proof.
  intros Hp. unfold get_proc, wake_all. rsimpl. apply lookup_lt_is_Some_2 in Hp as [q Hq].
  rewrite !list_lookup_total_alt, list_lookup_imap, Hq. done.
Qed.

Lemma wake_all_self ch p k : get_proc p (wake_all ch (Some p) k) = get_proc p k.
Proof.
  unfold get_proc, wake_all. rsimpl. rewrite !list_lookup_total_alt, list_lookup_imap.
  destruct (k_procs k !! p); simpl; [|done]. unfold wake. by rewrite decide_False by naive_solver.
Qed.

(** The process table entry that a sleeping thread leaves, and what it does on
    resumption. *)
Definition asleep (p : nat) (c : chan) (k : kstate) : kstate :=
  upd_proc p (λ q, q <| p_chan := c |> <| p_state := SLEEPING |>) k.
Definition resumed (p : nat) (k : kstate) : kstate :=
  upd_proc p (λ q, q <| p_state := RUNNING |> <| p_chan := ChNull |>) k.

Lemma upd_proc_compose p f g k : upd_proc p f (upd_proc p g k) = upd_proc p (λ q, f (g q)) k.
Proof. unfold upd_proc. rsimpl. by rewrite alter_alter. Qed.

Lemma get_upd_proc p f k : (p < length (k_procs k))%nat → get_proc p (upd_proc p f k) = f (get_proc p k).
Proof. intros. unfold get_proc, upd_proc. rsimpl. by apply list_lookup_total_alter_eq. Qed.

Lemma get_upd_proc_ne p i f k : i ≠ p → get_proc i (upd_proc p f k) = get_proc i k.
Proof. intros. unfold get_proc, upd_proc. rsimpl. by apply list_lookup_total_alter_ne. Qed.

(** [sched] from a thread that holds exactly [p->lock]. *)
Lemma sched_run p w :
  me w = Some p → held w = {[LProc p]} → p_state (get_proc p (ks w)) ≠ RUNNING → sched w = swtch p w.
Proof.
  intros Hme Hheld Hst. unfold sched. assert (curproc w = Ok p w) as E by (unfold curproc; by rewrite Hme).
  rewrite (bind_ok _ _ _ _ _ E). erewrite bind_ok by reflexivity.
  rewrite bool_decide_eq_true_2 by (rewrite Hheld; set_solver). erewrite bind_ok by reflexivity.
  erewrite bind_ok by reflexivity. rewrite Hheld, size_singleton. erewrite bind_ok by reflexivity.
  erewrite bind_ok by reflexivity. rewrite bool_decide_eq_false_2 by done. by erewrite bind_ok by reflexivity.
Qed.

(** [sleep] up to the context switch. *)
Lemma sleep_to_swtch c lk p w :
  me w = Some p → held w = {[lk]} → lk ≠ LProc p → (p < length (k_procs (ks w)))%nat →
  sleep c lk w =
    (swtch p;;
     modify (upd_proc p (λ q, q <| p_chan := ChNull |>));;
     release (LProc p);;
     acquire lk) (MkWorld (asleep p c (ks w)) {[LProc p]} (Some p) (env w)).
Proof.
  intros Hme Hheld Hne Hp. unfold sleep.
  assert (curproc w = Ok p w) as E by (unfold curproc; by rewrite Hme).
  rewrite (bind_ok _ _ _ _ _ E).
  assert (LProc p ∉ held w) as Hlk by (rewrite Hheld; set_solver).
  rewrite (bind_ok _ _ _ _ _ (acquire_free _ _ Hlk)).
  set (w1 := w <| held ::= _ |>).
  assert (release lk w1 = Ok () (MkWorld (ks w) {[LProc p]} (Some p) (env w))) as E1.
  { subst w1. unfold release. rsimpl. rewrite decide_True by (rewrite Hheld; set_solver).
    rewrite Hme, Hheld. do 2 f_equal. set_solver. }
  rewrite (bind_ok _ _ _ _ _ E1). erewrite bind_ok by reflexivity. erewrite bind_ok by reflexivity.
  set (w2 := (MkWorld (ks w) _ _ _) <| ks ::= _ |> <| ks ::= _ |>).
  assert (w2 = MkWorld (asleep p c (ks w)) {[LProc p]} (Some p) (env w)) as ->.
  { subst w2. unfold asleep. rsimpl. by rewrite upd_proc_compose. }
  unfold mbind at 1 4, K_bind at 1 4. rewrite (sched_run p); [done|done|done|].
  unfold asleep. rsimpl. by rewrite get_upd_proc.
Qed.

(** What a call of [sleep] amounts to: the rest of the system runs (the next
    entry of the schedule) on the state in which the process is SLEEPING; it
    returns once it is scheduled again, with the same locks held. *)
Lemma sleep_run c lk p w :
  me w = Some p → held w = {[lk]} → lk ≠ LProc p → (p < length (k_procs (ks w)))%nat →
  sleep c lk w =
    match env w with
    | [] => Blocked
    | f :: e =>
      let k := f (asleep p c (ks w)) in
      if decide (p_state (get_proc p k) = RUNNABLE)
      then Ok () (MkWorld (resumed p k) {[lk]} (Some p) e) else Blocked
    end.
Proof.
  intros Hme Hheld Hne Hp. rewrite (sleep_to_swtch c lk p w) by done.
  unfold mbind at 1, K_bind at 1. unfold swtch. rsimpl. destruct (env w) as [|f e]; [done|].
  set (k := f (asleep p c (ks w))). cbv zeta. case_decide; [|done].
  erewrite bind_ok by reflexivity.
  set (k' := upd_proc p (λ q, q <| p_chan := ChNull |>) (upd_proc p (λ q, q <| p_state := RUNNING |>) k)).
  assert (release (LProc p) (MkWorld k' {[LProc p]} (Some p) e) = Ok () (MkWorld k' ∅ (Some p) e)) as E3.
  { unfold release. rsimpl. rewrite decide_True by set_solver. do 2 f_equal. set_solver. }
  etrans; [apply bind_ok; exact E3|].
  unfold acquire. rsimpl. rewrite decide_False by set_solver. do 2 f_equal.
  - subst k'. by rewrite upd_proc_compose.
  - set_solver.
Qed.

(** An invariant that the rest of the system keeps while the thread sleeps. *)
Definition env_keeps (P : kstate → Prop) (w : world) : Prop :=
  ∀ f, f ∈ env w → ∀ k, P k → P (f k).

Lemma procs_ok_upd p f k : procs_ok k → procs_ok (upd_proc p f k).
Proof. unfold procs_ok, upd_proc. rsimpl. by rewrite length_alter. Qed.

Section sleep_while.
Variables (P : kstate → Prop) (cond : kstate → bool) (c : chan) (lk : lockid) (p : nat).
Hypothesis Hlk : lk ≠ LProc p.
Hypothesis HPlen : ∀ k, P k → (p < length (k_procs k))%nat.
Hypothesis HPs : ∀ k, P k → P (asleep p c k).
Hypothesis HPr : ∀ k, P k → P (resumed p k).

(** The loop neither panics nor runs out of fuel: it returns with the lock held
    and the condition false, or the thread sleeps for good. *)
Lemma sleep_while_loop_spec fuel w :
  (length (env w) < fuel)%nat → me w = Some p → held w = {[lk]} → P (ks w) → env_keeps P w →
  wsafe (sleep_while_loop fuel cond c lk)
    (λ _ w', cond (ks w') = false ∧ P (ks w') ∧ held w' = {[lk]} ∧ me w' = Some p
             ∧ env w' `suffix_of` env w) w.
Proof.
  revert w. induction fuel as [|fuel IH]; intros w Hf Hme Hh HP He; [lia|]. cbn [sleep_while_loop].
  unfold wsafe. erewrite bind_ok by reflexivity. destruct (cond (ks w)) eqn:Hc.
  2:{ unfold mret, K_ret. by repeat split. }
  unfold mbind, K_bind. rewrite (sleep_run c lk p w) by auto.
  destruct (env w) as [|f e] eqn:Henv; [done|]. simpl in Hf. cbv zeta.
  set (k := f (asleep p c (ks w))).
  assert (P k) as HPk. { apply (He f); [rewrite Henv; by left|auto]. }
  case_decide; [|done].
  eapply wsafe_mono; [apply IH; try done; simpl; [lia|by apply HPr|]|].
  - intros g Hg. apply He. rewrite Henv. by right.
  - intros _ w' (H1 & H2 & H3 & H4 & H5). split; [done|]. split; [done|]. split; [done|]. split; [done|].
    simpl in H5. by apply suffix_cons_r.
Qed.

Lemma sleep_while_spec w :
  me w = Some p → held w = {[lk]} → P (ks w) → env_keeps P w →
  wsafe (sleep_while cond c lk)
    (λ _ w', cond (ks w') = false ∧ P (ks w') ∧ held w' = {[lk]} ∧ me w' = Some p
             ∧ env w' `suffix_of` env w) w.
Proof. intros. apply sleep_while_loop_spec; [simpl; lia|done..]. Qed.
End sleep_while.

(** A condition that is false at once costs nothing. *)
Lemma sleep_while_false cond c lk w : cond (ks w) = false → sleep_while cond c lk w = Ok () w.
Proof.
  intros Hc. unfold sleep_while, env_fuel. cbn [sleep_while_loop].
  erewrite bind_ok by reflexivity. by rewrite Hc.
Qed.

Lemma killed_run p w :
  LProc p ∉ held w → killed p w = Ok (p_killed (get_proc p (ks w))) w.
Proof.
  intros Hlk. unfold killed. rewrite (bind_ok _ _ _ _ _ (acquire_free _ _ Hlk)).
  erewrite bind_ok by reflexivity.
  erewrite bind_ok by exact (locked_section (LProc p) w (ks w) Hlk). unfold mret, K_ret. f_equal.
  by destruct w.
Qed.

Lemma setkilled_run p w :
  LProc p ∉ held w → setkilled p w = Ok () (w <| ks ::= upd_proc p (λ q, q <| p_killed := 1 |>) |>).
Proof. intros. unfold setkilled. by apply lock_modify. Qed.

(** What [kill] does to its victim. *)
Definition kill_proc (q : proc) : proc :=
  let q := q <| p_killed := 1 |> in
  if decide (p_state q = SLEEPING) then q <| p_state := RUNNABLE |> else q.

Lemma kill_loop_run l pid w :
  (∀ i, i ∈ l → LProc i ∉ held w) →
  kill_loop l pid w =
    match list_find (λ i, p_pid (get_proc i (ks w)) = pid) l with
    | Some (_, i) => Ok 0 (w <| ks ::= upd_proc i kill_proc |>)
    | None => Ok (-1) w
    end.
Proof.
  induction l as [|i l IH]; intros Hlk; [done|]. cbn [kill_loop list_find].
  assert (LProc i ∉ held w) as Hi by (apply Hlk; set_solver).
  rewrite (bind_ok _ _ _ _ _ (acquire_free _ _ Hi)). erewrite bind_ok by reflexivity. cbv beta.
  set (w1 := w <| held ::= _ |>). change (ks w1) with (ks w).
  destruct (Z.eqb_spec (p_pid (get_proc i (ks w))) pid) as [E|E]; simpl.
  - rewrite decide_True by done. erewrite bind_ok by reflexivity. erewrite bind_ok by reflexivity. cbv beta.
    set (k1 := upd_proc i (λ q, q <| p_killed := 1 |>) (ks w)). change (ks (w1 <| ks ::= _ |>)) with k1.
    assert (upd_proc i kill_proc (ks w) =
      if bool_decide (p_state (get_proc i k1) = SLEEPING)
      then upd_proc i (λ q, q <| p_state := RUNNABLE |>) k1 else k1) as Ek.
    { subst k1. unfold upd_proc, get_proc. rsimpl. case_bool_decide as Hs; rewrite ?alter_alter;
        (erewrite alter_ext_at; [reflexivity|]); intros x Hx; unfold kill_proc;
        rewrite list_lookup_total_alter_eq in Hs by (by eapply lookup_lt_Some);
        rewrite (list_lookup_total_correct _ _ _ Hx) in Hs.
      - by rewrite decide_True.
      - by rewrite decide_False. }
    change (w <| ks ::= upd_proc i kill_proc |>) with (w <| ks := upd_proc i kill_proc (ks w) |>).
    rewrite Ek. case_bool_decide; (erewrite bind_ok by reflexivity);
      (erewrite bind_ok by exact (locked_section (LProc i) w _ Hi)); reflexivity.
  - rewrite decide_False by done.
    erewrite bind_ok by exact (locked_section (LProc i) w (ks w) Hi).
    replace (w <| ks := ks w |>) with w by (by destruct w).
    rewrite IH by (intros; apply Hlk; set_solver). by destruct (list_find _ l) as [[]|].
Qed.

(** ** Theorems *)

(** C38: [wakeup(c)] makes exactly the processes that sleep on [c] RUNNABLE,
    the caller excepted, and changes nothing else: no other field, no other
    process, no lock. *)
Theorem wakeup_exact (c : chan) (w : world) :
  procs_ok (ks w) → no_proc_lock w →
  ∃ w', wakeup c w = Ok () w'
    ∧ (∀ i q, k_procs (ks w) !! i = Some q →
        k_procs (ks w') !! i = Some (if decide (Some i ≠ me w ∧ p_state q = SLEEPING ∧ p_chan q = c)
                                     then q <| p_state := RUNNABLE |> else q))
    ∧ w' = w <| ks ::= λ k, k <| k_procs := k_procs (ks w') |> |>.
Proof.
  intros Hlen Hnp. exists (w <| ks ::= wake_all c (me w) |>). split; [by apply wakeup_run|].
  split; [|done]. intros i q Hq. unfold wake_all. rsimpl. rewrite list_lookup_imap, Hq. simpl. f_equal.
  unfold wake. destruct (decide (Some i ≠ me w)); [|by rewrite decide_False by tauto].
  repeat case_bool_decide; simpl; case_decide; tauto.
Qed.

(** the idiom [while(cond) sleep(c, lk)] that every wait in the kernel uses
    returns only with the condition false and with [lk], and only it, held
    again; however the rest of the system behaves between switches (as long as
    it keeps the invariant [P]), the loop neither panics nor diverges: the only
    other outcome is that the thread is never woken. *)
Theorem sleep_while_sound (P : kstate → Prop) (cond : kstate → bool) (c : chan) (lk : lockid) (p : nat) (w : world) :
  lk ≠ LProc p → (∀ k, P k → (p < length (k_procs k))%nat) →
  (∀ k, P k → P (asleep p c k)) → (∀ k, P k → P (resumed p k)) →
  me w = Some p → held w = {[lk]} → P (ks w) → env_keeps P w →
  match sleep_while cond c lk w with
  | Ok _ w' => cond (ks w') = false ∧ P (ks w') ∧ held w' = {[lk]} ∧ me w' = Some p
  | Blocked => True
  | _ => False
  end.
Proof.
  intros H1 H2 H3 H4 H5 H6 H7 H8.
  pose proof (sleep_while_spec P cond c lk p H1 H2 H3 H4 w H5 H6 H7 H8) as Hs. unfold wsafe in Hs.
  destruct (sleep_while cond c lk w); try done. naive_solver.
Qed.

(** [kill(pid)] marks the first process with that pid killed and makes it
    runnable if it sleeps, and returns 0; without such a process it returns -1
    and changes nothing. All locks are free again in both cases. *)
Theorem kill_exact (pid : Z) (w : world) :
  (∀ i, LProc i ∉ held w) →
  kill pid w = match list_find (λ i, p_pid (get_proc i (ks w)) = pid) all_procs with
               | Some (_, i) => Ok 0 (w <| ks ::= upd_proc i kill_proc |>)
               | None => Ok (-1) w
               end.
Proof. intros Hlk. apply kill_loop_run. intros i _. apply Hlk. Qed.

(** What the scheduler relies on between the two [swtch]es: the process comes
    back with its lock held, has had its turn, and no RUNNABLE process has lost its
    place without a turn of its own, on this hart or another. *)
Record takes_turn (run : nat → K unit) (T : nat → kstate → Prop) : Prop := {
  turn_kept : ∀ i j k, T i k → T i (upd_proc j (λ q, q <| p_state := RUNNING |>) k);
  turn_run : ∀ i w, (i < Z.to_nat NPROC)%nat → held w = {[LProc i]} → me w = Some i → procs_ok (ks w) → p_state (get_proc i (ks w)) = RUNNING →
    ∃ w', run i w = Ok () w' ∧ held w' = {[LProc i]} ∧ procs_ok (ks w') ∧ T i (ks w')
      ∧ ∀ j, (T j (ks w) → T j (ks w'))
           ∧ (j ≠ i → p_state (get_proc j (ks w)) = RUNNABLE → p_state (get_proc j (ks w')) = RUNNABLE ∨ T j (ks w'))
}.

Section scheduler.
Context (run : nat → K unit) (T : nat → kstate → Prop) (HT : takes_turn run T).

(** The processes in [R] that the round has passed have had their turn, and the
    others have not lost theirs. *)
Definition round_inv (R : nat → Prop) (i : nat) (w : world) : Prop :=
  held w = ∅ ∧ procs_ok (ks w) ∧ ∀ j, R j → T j (ks w) ∨ (i <= j)%nat ∧ p_state (get_proc j (ks w)) = RUNNABLE.

Lemma serve_runnable R i w :
  (i < Z.to_nat NPROC)%nat → round_inv R i w → p_state (get_proc i (ks w)) = RUNNABLE →
  ∃ w', (acquire (LProc i);; modify (upd_proc i (λ q, q <| p_state := RUNNING |>));; set_curproc (Some i);; run i;; set_curproc None;; release (LProc i)) w = Ok () w'
    ∧ round_inv R (S i) w'.
Proof.
  intros Hi (Hh & Hok & Hr) Hst. set (k1 := upd_proc i (λ q, q <| p_state := RUNNING |>) (ks w)).
  destruct (turn_run _ _ HT i (MkWorld k1 {[LProc i]} (Some i) (env w))) as (w1 & E & H1 & H2 & H3 & H4); [done|done|done| | |].
  { by apply procs_ok_upd. } { cbn. unfold k1. by rewrite get_upd_proc by (unfold procs_ok in Hok; lia). }
  exists (w1 <| held := ∅ |> <| me := None |>). split.
  - rewrite (bind_ok _ _ _ _ _ (acquire_free (LProc i) w ltac:(rewrite Hh; set_solver))). do 2 erewrite bind_ok by reflexivity.
    replace (_ <| me := Some i |>) with (MkWorld k1 {[LProc i]} (Some i) (env w)) by (unfold set_field, set_held, set_ks, set_me; cbn; rewrite Hh; f_equal; set_solver).
    rewrite (bind_ok _ _ _ _ _ E). erewrite bind_ok by reflexivity. rewrite release_held by (cbn; rewrite H1; set_solver).
    f_equal. unfold set_field, set_held, set_ks, set_me. cbn. rewrite H1. f_equal. set_solver.
  - split; [done|]. split; [done|]. intros j Hj. cbn. destruct (decide (j = i)) as [->|Hne]; [by left|].
    destruct (H4 j) as [Hk Hq]. destruct (Hr j Hj) as [Ht|[Hle Hs]].
    + left. apply Hk. cbn. by apply (turn_kept _ _ HT).
    + destruct Hq as [Hq|Hq]; [done| |right; split; [lia|done]|by left]. cbn. unfold k1. by rewrite get_upd_proc_ne.
Qed.

Lemma scheduler_round_serves R w :
  round_inv R 0 w → ∃ w', scheduler_round run w = Ok () w' ∧ round_inv R (Z.to_nat NPROC) w'.
Proof.
  apply mfor_seq_inv with (s := 0%nat) (n := Z.to_nat NPROC). intros i w0 Hi Hinv. cbn zeta.
  destruct (decide (p_state (get_proc i (ks w0)) = RUNNABLE)) as [Hst|Hst].
  - destruct (serve_runnable R i w0) as (w' & E & H'); [lia|done|done|]. exists w'. split; [|done]. rewrite <-E.
    unfold acquire, mbind, K_bind, gets. destruct (decide _); [done|]. cbn. unfold when. rewrite bool_decide_eq_true_2 by exact Hst.
    cbn. by destruct (run i _).
  - destruct Hinv as (Hh & Hok & Hr). exists w0. split.
    + rewrite (bind_ok _ _ _ _ _ (acquire_free (LProc i) w0 ltac:(rewrite Hh; set_solver))). erewrite bind_ok by reflexivity.
      unfold when. rewrite bool_decide_eq_false_2 by exact Hst. erewrite bind_ok by reflexivity.
      rewrite release_held by (cbn; set_solver). f_equal. destruct w0. unfold set_field, set_held. cbn in *. f_equal. set_solver.
    + split; [done|]. split; [done|]. intros j Hj. destruct (Hr j Hj) as [?|[Hle Hs]]; [by left|].
      destruct (decide (j = i)) as [->|]; [done|]. right. split; [lia|done].
Qed.

Lemma scheduler_loop_serves R n w :
  (∀ j, R j → (j < Z.to_nat NPROC)%nat) → round_inv R 0 w →
  ∃ w', scheduler_loop (S n) run w = Ok () w' ∧ held w' = ∅ ∧ ∀ j, R j → T j (ks w').
Proof.
  intros HR. revert w. induction n as [|n IH]; intros w Hw; destruct (scheduler_round_serves R w Hw) as (w1 & E1 & H1 & H2 & H3).
  - exists w1. cbn [scheduler_loop]. rewrite (bind_ok _ _ _ _ _ E1). split; [done|]. split; [done|]. intros j Hj. destruct (H3 j Hj) as [?|[? _]]; [done|]. pose proof (HR j Hj). lia.
  - destruct (IH w1) as (w2 & E2 & H').
    + split; [done|]. split; [done|]. intros j Hj. destruct (H3 j Hj) as [?|[_ ?]]; [by left|right; split; [lia|done]].
    + exists w2. split; [|done]. rewrite <-E2. cbn [scheduler_loop]. by rewrite (bind_ok _ _ _ _ _ E1).
Qed.

(** C26: the scheduler starves nobody: on every number of rounds it neither
    panics nor blocks on a lock, and each process that is RUNNABLE when it starts
    has had its turn by the end of the first round. *)
Theorem scheduler_serves n w :
  held w = ∅ → procs_ok (ks w) →
  ∃ w', scheduler (S n) run w = Ok () w' ∧ held w' = ∅
    ∧ ∀ i, (i < Z.to_nat NPROC)%nat → p_state (get_proc i (ks w)) = RUNNABLE → T i (ks w').
Proof.
  intros Hh Hok. unfold scheduler. erewrite bind_ok by reflexivity.
  destruct (scheduler_loop_serves (λ j, (j < Z.to_nat NPROC)%nat ∧ p_state (get_proc j (ks w)) = RUNNABLE) n (w <| me := None |>)) as (w' & E & H1 & H2).
  - by intros j [? _].
  - split; [done|]. split; [done|]. intros j [_ Hj]. right. split; [lia|done].
  - exists w'. split; [done|]. split; [done|]. intros i Hi Hs. apply H2. done.
Qed.

End scheduler.

(** ** Witnesses *)

Definition sleeper : proc := inhabitant <| p_state := SLEEPING |> <| p_chan := ChTicks |> <| p_pid := 7 |>.

(** Process 3 sleeps on the clock. *)
Definition sched_demo : world := boot_world <| ks ::= λ k, k <| k_procs ::= <[3%nat := sleeper]> |> |>.

Lemma wakeup_exact_witness :
  ∃ w', wakeup ChTicks sched_demo = Ok () w'
    ∧ k_procs (ks w') !! 3%nat = Some (sleeper <| p_state := RUNNABLE |>).
Proof.
  destruct (wakeup_exact ChTicks sched_demo) as (w' & E & H & _);
    [reflexivity|intros i _; simpl; set_solver|].
  exists w'. split; [exact E|]. rewrite (H 3%nat sleeper eq_refl). reflexivity.
Defined.

Lemma kill_exact_witness :
  ∃ w', kill 7 sched_demo = Ok 0 w' ∧ p_killed (get_proc 3 (ks w')) = 1
    ∧ p_state (get_proc 3 (ks w')) = RUNNABLE.
Proof.
  eexists. rewrite (kill_exact 7 sched_demo) by (intros i; simpl; set_solver).
  split; [reflexivity|]. split; reflexivity.
Defined.

(** Process 0 waits until the clock has ticked; the schedule ticks and wakes it. *)
Definition tick (k : kstate) : kstate :=
  wake_all ChTicks None (k <| k_ticks ::= λ t, u32 (t + 1) |>).
Definition wait_demo : world := MkWorld boot_kstate {[LTicks]} (Some 0%nat) [tick].

Lemma sleep_while_sound_witness :
  match sleep_while (λ k, k_ticks k =? 0) ChTicks LTicks wait_demo with
  | Ok _ w' => k_ticks (ks w') =? 0 = false
  | _ => False
  end.
Proof.
  pose proof (sleep_while_sound procs_ok (λ k, k_ticks k =? 0) ChTicks LTicks 0 wait_demo) as H.
  destruct (sleep_while (λ k, k_ticks k =? 0) ChTicks LTicks wait_demo) as [[] w'|m| |] eqn:E;
    try (vm_compute in E; discriminate E).
  apply H; clear H.
  - discriminate.
  - intros k Hk. rewrite Hk. unfold NPROC. lia.
  - intros k Hk. by apply procs_ok_upd.
  - intros k Hk. by apply procs_ok_upd.
  - reflexivity.
  - reflexivity.
  - reflexivity.
  - intros f [->|Hf]%elem_of_cons k Hk; [|by apply elem_of_nil in Hf].
    unfold tick, wake_all, procs_ok in *. rsimpl. by rewrite length_imap.
Defined.

(** Every process sets its exit status and yields. *)
Definition brief (i : nat) : K unit := modify (upd_proc i (λ q, q <| p_xstate := 1 |> <| p_state := RUNNABLE |>)).
Definition been (i : nat) (k : kstate) : Prop := p_xstate (get_proc i k) = 1.

Lemma been_upd i j f k : (∀ q, p_xstate q = 1 → p_xstate (f q) = 1) → been i k → been i (upd_proc j f k).
Proof.
  intros Hf Hb. unfold been in *. destruct (decide (i = j)) as [->|]; [|by rewrite get_upd_proc_ne].
  unfold get_proc, upd_proc in *. rsimpl. rewrite list_lookup_total_alt, list_lookup_alter_eq in *.
  destruct (k_procs k !! j); [by apply Hf|done].
Qed.

Lemma brief_turn : takes_turn brief been.
Proof.
  split; [intros; by apply been_upd|]. intros i w Hi Hh Hm Hok Hs. eexists. split; [reflexivity|].
  split; [done|]. split; [by apply procs_ok_upd|]. split; [|intros j; split].
  - unfold been. change (ks _) with (upd_proc i (λ q, q <| p_xstate := 1 |> <| p_state := RUNNABLE |>) (ks w)).
    rewrite get_upd_proc by (unfold procs_ok in Hok; lia). done.
  - by apply been_upd.
  - intros Hne Hr. left. change (ks _) with (upd_proc i (λ q, q <| p_xstate := 1 |> <| p_state := RUNNABLE |>) (ks w)). by rewrite get_upd_proc_ne.
Qed.

Definition runnable : proc := inhabitant <| p_state := RUNNABLE |>.
Definition scheduler_demo : world := boot_world <| ks ::= λ k, k <| k_procs ::= <[5%nat := runnable]> |> |>.

Lemma scheduler_serves_witness :
  match scheduler 3 brief scheduler_demo with Ok _ w' => been 5 (ks w') | _ => False end.
Proof.
  destruct (scheduler_serves brief been brief_turn 2 scheduler_demo) as (w' & E & _ & W); [reflexivity|reflexivity|].
  rewrite E. apply W; [|reflexivity]. unfold NPROC. lia.
Defined.
