(* ===== verification/Sleeplock.v ===== *)
(** * kernel/sleeplock.c

    Long-term locks for processes.  A sleep-lock is embedded in a buffer or in
    an inode ([slid]); its inner spinlock is [LSleep] and its channel [ChSleep]
    of that identity. *)

From S2P Require Import Prelude Memory Kernel Sched.

Definition get_sl (s : slid) (k : kstate) : sleeplock :=
  match s with
  | SLBuf i => b_lock (bc_buf (k_bcache k) !!! i)
  | SLInode i => i_lock (k_itable k !!! i)
  end.

Definition upd_sl (s : slid) (f : sleeplock → sleeplock) (k : kstate) : kstate :=
  match s with
  | SLBuf i => k <| k_bcache ::= λ c, c <| bc_buf ::= alter (λ b, b <| b_lock ::= f |>) i |> |>
  | SLInode i => k <| k_itable ::= alter (λ p, p <| i_lock ::= f |>) i |>
  end.

Definition initsleeplock (s : slid) : K unit :=
  initlock (LSleep s);;
  modify (upd_sl s (λ l, l <| sl_locked := 0 |>));;
  modify (upd_sl s (λ l, l <| sl_pid := 0 |>)).

Definition acquiresleep (s : slid) : K unit :=
  acquire (LSleep s);;
  sleep_while (λ k, negb (sl_locked (get_sl s k) =? 0)) (ChSleep s) (LSleep s);;
  modify (upd_sl s (λ l, l <| sl_locked := 1 |>));;
  p ← curproc;
  modify (λ k, upd_sl s (λ l, l <| sl_pid := p_pid (get_proc p k) |>) k);;
  release (LSleep s).

Definition releasesleep (s : slid) : K unit :=
  acquire (LSleep s);;
  modify (upd_sl s (λ l, l <| sl_locked := 0 |>));;
  modify (upd_sl s (λ l, l <| sl_pid := 0 |>));;
  wakeup (ChSleep s);;
  release (LSleep s).

Definition holdingsleep (s : slid) : K bool :=
  acquire (LSleep s);;
  l ← gets (get_sl s);
  r ← (if negb (sl_locked l =? 0) then
         p ← curproc;
         pid ← gets (λ k, p_pid (get_proc p k));
         mret (sl_pid l =? pid)
       else mret false);
  release (LSleep s);;
  mret r.

(** ** Lemmas *)

Lemma curproc_run p w : me w = Some p → curproc w = Ok p w.
Proof. intros H. unfold curproc. by rewrite H. Qed.

(** The buffer or inode that embeds the lock exists. *)
Definition sl_valid (s : slid) (k : kstate) : Prop :=
  match s with
  | SLBuf i => (i < length (bc_buf (k_bcache k)))%nat
  | SLInode i => (i < length (k_itable k))%nat
  end.

Lemma upd_sl_upd_sl s f g k : upd_sl s f (upd_sl s g k) = upd_sl s (λ l, f (g l)) k.
Proof. destruct s; unfold upd_sl; rsimpl; by rewrite alter_alter. Qed.

Lemma get_upd_sl s f k : sl_valid s k → get_sl s (upd_sl s f k) = f (get_sl s k).
Proof.
  destruct s; unfold sl_valid, get_sl, upd_sl; intros H; rsimpl;
    by rewrite list_lookup_total_alter_eq by done.
Qed.

Lemma upd_sl_procs s f k : k_procs (upd_sl s f k) = k_procs k.
Proof. by destruct s. Qed.

(** Who holds the lock: the pid of [acquiresleep]'s caller. *)
Definition sl_taken (pid : Z) : sleeplock := MkSleeplock 1 pid.
Definition sl_free : sleeplock := MkSleeplock 0 0.

(** The part of [acquiresleep] after the wait. *)
Lemma acquiresleep_tail s p w :
  me w = Some p → LSleep s ∈ held w →
  (modify (upd_sl s (λ l, l <| sl_locked := 1 |>));;
   p ← curproc;
   modify (λ k, upd_sl s (λ l, l <| sl_pid := p_pid (get_proc p k) |>) k);;
   release (LSleep s)) w
  = Ok () (w <| ks ::= upd_sl s (λ _, sl_taken (p_pid (get_proc p (ks w)))) |>
             <| held ::= λ h, h ∖ {[LSleep s]} |>).
Proof.
  intros Hme Hh. erewrite bind_ok by reflexivity.
  erewrite bind_ok by (by apply curproc_run). erewrite bind_ok by reflexivity.
  rewrite release_held by done. f_equal. rsimpl. f_equal.
  unfold get_proc. rewrite upd_sl_procs, upd_sl_upd_sl. by destruct s; unfold upd_sl; rsimpl.
Qed.

Lemma acquiresleep_run s p w :
  me w = Some p → LSleep s ∉ held w → sl_locked (get_sl s (ks w)) = 0 →
  acquiresleep s w = Ok () (w <| ks ::= upd_sl s (λ _, sl_taken (p_pid (get_proc p (ks w)))) |>).
Proof.
  intros Hme Hh Hl. unfold acquiresleep. rewrite (bind_ok _ _ _ _ _ (acquire_free _ _ Hh)).
  erewrite bind_ok by (apply sleep_while_false; rsimpl; by rewrite Hl).
  rewrite (acquiresleep_tail s p) by (done || (rsimpl; set_solver)). f_equal. rsimpl. f_equal. set_solver.
Qed.

Lemma releasesleep_run s w :
  LSleep s ∉ held w → procs_ok (ks w) → no_proc_lock w →
  releasesleep s w = Ok () (w <| ks ::= λ k, wake_all (ChSleep s) (me w) (upd_sl s (λ _, sl_free) k) |>).
Proof.
  intros Hh Hp Hn. unfold releasesleep. rewrite (bind_ok _ _ _ _ _ (acquire_free _ _ Hh)).
  erewrite bind_ok by reflexivity. erewrite bind_ok by reflexivity.
  erewrite bind_ok.
  2:{ apply wakeup_run; rsimpl.
      - unfold procs_ok. by rewrite !upd_sl_procs.
      - intros i Hi. rsimpl. rsimpl in Hi. specialize (Hn i Hi). set_solver. }
  rsimpl. rewrite upd_sl_upd_sl. exact (locked_section (LSleep s) w _ Hh).
Qed.

Lemma holdingsleep_run s p w :
  me w = Some p → LSleep s ∉ held w →
  holdingsleep s w =
    Ok (negb (sl_locked (get_sl s (ks w)) =? 0) && (sl_pid (get_sl s (ks w)) =? p_pid (get_proc p (ks w)))) w.
Proof.
  intros Hme Hh. unfold holdingsleep. rewrite (bind_ok _ _ _ _ _ (acquire_free _ _ Hh)).
  erewrite bind_ok by reflexivity. rsimpl. set (w1 := MkWorld _ _ _ _). set (l := get_sl s (ks w)).
  assert (∀ r, (release (LSleep s);; mret r) w1 = Ok (r : bool) w) as E.
  { intros r. erewrite bind_ok by exact (locked_section (LSleep s) w (ks w) Hh). unfold mret, K_ret.
    f_equal. by destruct w. }
  destruct (sl_locked l =? 0); cbn [negb andb].
  - erewrite bind_ok by reflexivity. apply E.
  - unfold mbind at 1, K_bind at 1. erewrite bind_ok by (by apply curproc_run).
    erewrite bind_ok by reflexivity. unfold mret at 1, K_ret at 1. apply E.
Qed.

(** ** Theorems *)

(** [acquiresleep], whatever the rest of the system does while the caller
    sleeps (keeping the invariant [P]), never panics or diverges; when it
    returns, the lock was free in the state [k] in which it was taken, it is now
    held under the caller's pid, [holdingsleep] confirms this, and no spinlock is
    left held.  The only other outcome is that the caller is never woken. *)
Theorem acquiresleep_sound (P : kstate → Prop) (s : slid) (p : nat) (w : world) :
  (∀ k, P k → (p < length (k_procs k))%nat ∧ sl_valid s k) →
  (∀ k, P k → P (asleep p (ChSleep s) k)) → (∀ k, P k → P (resumed p k)) →
  me w = Some p → held w = ∅ → P (ks w) → env_keeps P w →
  match acquiresleep s w with
  | Ok _ w' => ∃ k, P k ∧ sl_locked (get_sl s k) = 0
      ∧ ks w' = upd_sl s (λ _, sl_taken (p_pid (get_proc p k))) k
      ∧ held w' = ∅ ∧ me w' = Some p ∧ holdingsleep s w' = Ok true w'
  | Blocked => True
  | _ => False
  end.
Proof.
  intros HP Hs Hr Hme Hh HPw He.
  set (w1 := w <| held ::= λ h, {[LSleep s]} ∪ h |>).
  assert (acquire (LSleep s) w = Ok () w1) as Ea by (apply acquire_free; rewrite Hh; set_solver).
  assert (held w1 = {[LSleep s]}) as Hh1 by (subst w1; rsimpl; rewrite Hh; set_solver).
  pose proof (sleep_while_spec P (λ k, negb (sl_locked (get_sl s k) =? 0)) (ChSleep s) (LSleep s) p
    ltac:(done) (λ k Hk, proj1 (HP k Hk)) Hs Hr w1 Hme Hh1 HPw He) as H. unfold wsafe in H.
  unfold acquiresleep. rewrite (bind_ok _ _ _ _ _ Ea). unfold mbind at 1, K_bind at 1.
  destruct (sleep_while _ _ _ w1) as [[] w2| | |]; try done.
  destruct H as (Hc & HP2 & Hh2 & Hm2 & _).
  rewrite (acquiresleep_tail s p) by (done || (rewrite Hh2; set_solver)).
  apply negb_false_iff, Z.eqb_eq in Hc. exists (ks w2). rsimpl.
  split; [done|]. split; [done|]. split; [done|]. split; [rewrite Hh2; set_solver|]. split; [done|].
  rewrite (holdingsleep_run s p) by (done || (rsimpl; set_solver)). rsimpl. f_equal.
  rewrite get_upd_sl by apply HP, HP2. unfold get_proc. rewrite upd_sl_procs.
  cbn. by rewrite Z.eqb_refl.
Qed.

(** ** Witnesses *)

(** Process 0 waits for the lock of buffer 2, which another process releases. *)
Definition sl_demo : world :=
  MkWorld (upd_sl (SLBuf 2) (λ _, sl_taken 9) boot_kstate) ∅ (Some 0%nat)
    [λ k, wake_all (ChSleep (SLBuf 2)) None (upd_sl (SLBuf 2) (λ _, sl_free) k)].

Definition sl_demo_inv (k : kstate) : Prop := procs_ok k ∧ length (bc_buf (k_bcache k)) = 30%nat.

Lemma acquiresleep_sound_witness :
  match acquiresleep (SLBuf 2) sl_demo with
  | Ok _ w' => holdingsleep (SLBuf 2) w' = Ok true w'
  | _ => False
  end.
Proof.
  pose proof (acquiresleep_sound sl_demo_inv (SLBuf 2) 0 sl_demo) as H.
  destruct (acquiresleep (SLBuf 2) sl_demo) as [[] w'|m| |] eqn:E;
    try (vm_compute in E; discriminate E).
  destruct H as (k & _ & _ & _ & _ & _ & H); [..|exact H].
  - intros k [H1 H2]. unfold procs_ok in H1. unfold sl_valid. rewrite H1, H2. unfold NPROC. lia.
  - intros k [H1 H2]. split; [by apply procs_ok_upd|done].
  - intros k [H1 H2]. split; [by apply procs_ok_upd|done].
  - reflexivity.
  - reflexivity.
  - split; reflexivity.
  - intros f [->|Hf]%elem_of_cons k [H1 H2]; [|by apply elem_of_nil in Hf].
    unfold sl_demo_inv, wake_all, procs_ok, upd_sl in *. rsimpl. by rewrite length_imap, length_alter.
Defined.
