(* ===== verification/Bio.v ===== *)
(** * kernel/bio.c

    The buffer cache: NBUF buffers in a doubly linked list in order of use.
    A buffer pointer is an index into [bcache.buf]; the index NBUF is
    [&bcache.head]. *)

From S2P Require Import Prelude Memory Kernel Sched Sleeplock.

(** The disk driver, as bio.c calls it: [virtio_disk_rw(b, write)]. *)
Class DiskDriver := disk_rw : nat → bool → K unit.

(** ** Buffers and their links *)

Definition HEAD : nat := Z.to_nat NBUF.

Definition get_buf (b : nat) (k : kstate) : buf := bc_buf (k_bcache k) !!! b.
Definition upd_buf (b : nat) (f : buf → buf) (k : kstate) : kstate :=
  k <| k_bcache ::= λ c, c <| bc_buf ::= alter f b |> |>.

Definition next (c : bcache) (b : nat) : nat :=
  if (b =? HEAD)%nat then bc_head_next c else b_next (bc_buf c !!! b).
Definition prev (c : bcache) (b : nat) : nat :=
  if (b =? HEAD)%nat then bc_head_prev c else b_prev (bc_buf c !!! b).
Definition set_next (b v : nat) (c : bcache) : bcache :=
  if (b =? HEAD)%nat then c <| bc_head_next := v |>
  else c <| bc_buf ::= alter (λ x, x <| b_next := v |>) b |>.
Definition set_prev (b v : nat) (c : bcache) : bcache :=
  if (b =? HEAD)%nat then c <| bc_head_prev := v |>
  else c <| bc_buf ::= alter (λ x, x <| b_prev := v |>) b |>.

Definition modify_bc (f : bcache → bcache) : K unit := modify (λ k, k <| k_bcache ::= f |>).

(** ** Operations *)

Definition binit : K unit :=
  initlock LBcache;;
  modify_bc (set_prev HEAD HEAD);;
  modify_bc (set_next HEAD HEAD);;
  mfor (seq 0 (Z.to_nat NBUF)) (λ b,
    modify_bc (λ c, set_next b (next c HEAD) c);;
    modify_bc (set_prev b HEAD);;
    initsleeplock (SLBuf b);;
    modify_bc (λ c, set_prev (next c HEAD) b c);;
    modify_bc (set_next HEAD b)).

(** The two scans of [bget], from buffer [b] on: [None] if the list does not
    lead back to the head within the fuel, [Some None] if no buffer fits. *)
Fixpoint scan_cached (fuel : nat) (c : bcache) (b : nat) (dev blockno : Z) : option (option nat) :=
  match fuel with
  | O => None
  | S fuel =>
    if (b =? HEAD)%nat then Some None
    else
      let x := bc_buf c !!! b in
      if (b_dev x =? dev) && (b_blockno x =? blockno) then Some (Some b)
      else scan_cached fuel c (next c b) dev blockno
  end.

Fixpoint scan_unused (fuel : nat) (c : bcache) (b : nat) : option (option nat) :=
  match fuel with
  | O => None
  | S fuel =>
    if (b =? HEAD)%nat then Some None
    else if b_refcnt (bc_buf c !!! b) =? 0 then Some (Some b)
    else scan_unused fuel c (prev c b)
  end.

(** The list has NBUF elements. *)
Definition bget (dev blockno : Z) : K nat :=
  acquire LBcache;;
  c ← gets k_bcache;
  match scan_cached (S (Z.to_nat NBUF)) c (next c HEAD) dev blockno with
  | None => diverge
  | Some (Some b) =>
    modify (upd_buf b (λ x, x <| b_refcnt ::= λ r, u32 (r + 1) |>));;
    release LBcache;;
    acquiresleep (SLBuf b);;
    mret b
  | Some None =>
    match scan_unused (S (Z.to_nat NBUF)) c (prev c HEAD) with
    | None => diverge
    | Some (Some b) =>
      modify (upd_buf b (λ x, x <| b_dev := dev |>));;
      modify (upd_buf b (λ x, x <| b_blockno := blockno |>));;
      modify (upd_buf b (λ x, x <| b_valid := 0 |>));;
      modify (upd_buf b (λ x, x <| b_refcnt := 1 |>));;
      release LBcache;;
      acquiresleep (SLBuf b);;
      mret b
    | Some None => panic "bget: no buffers"
    end
  end.

Section bio.
Context `{DiskDriver}.

Definition bread (dev blockno : Z) : K nat :=
  b ← bget dev blockno;
  x ← gets (get_buf b);
  when (b_valid x =? 0)
    (disk_rw b false;;
     modify (upd_buf b (λ x, x <| b_valid := 1 |>)));;
  mret b.

Definition bwrite (b : nat) : K unit :=
  h ← holdingsleep (SLBuf b);
  panic_if (negb h) "bwrite";;
  disk_rw b true.

Definition brelse (b : nat) : K unit :=
  h ← holdingsleep (SLBuf b);
  panic_if (negb h) "brelse";;
  releasesleep (SLBuf b);;
  acquire LBcache;;
  modify (upd_buf b (λ x, x <| b_refcnt ::= λ r, u32 (r - 1) |>));;
  x ← gets (get_buf b);
  when (b_refcnt x =? 0)
    (modify_bc (λ c, set_prev (next c b) (prev c b) c);;
     modify_bc (λ c, set_next (prev c b) (next c b) c);;
     modify_bc (λ c, set_next b (next c HEAD) c);;
     modify_bc (set_prev b HEAD);;
     modify_bc (λ c, set_prev (next c HEAD) b c);;
     modify_bc (set_next HEAD b));;
  release LBcache.

Definition bpin (b : nat) : K unit :=
  acquire LBcache;;
  modify (upd_buf b (λ x, x <| b_refcnt ::= λ r, u32 (r + 1) |>));;
  release LBcache.

Definition bunpin (b : nat) : K unit :=
  acquire LBcache;;
  modify (upd_buf b (λ x, x <| b_refcnt ::= λ r, u32 (r - 1) |>));;
  release LBcache.

End bio.
