(* ===== verification/BufList.v ===== *)
(** * The list of buffers of bio.c

    The buffers and the head form a circular doubly linked list in order of
    use.  [lru c l]: the links of [c] are those of the list [l] of buffer
    numbers, most recently used first.  The scans of [bget] walk it, [brelse]
    moves a buffer to its front and [binit] builds it. *)

From S2P Require Import Prelude Memory Kernel Sched Sleeplock Bio.

(** A buffer without its links. *)
Definition core (x : buf) : buf := x <| b_prev := 0%nat |> <| b_next := 0%nat |>.
Definition cores (c : bcache) : list buf := core <$> bc_buf c.

(** Consecutive elements of [r] are linked in both directions. *)
Fixpoint chain (c : bcache) (r : list nat) : Prop :=
  match r with
  | x :: ((y :: _) as t) => next c x = y ∧ prev c y = x ∧ chain c t
  | _ => True
  end.

Definition ring (l : list nat) : list nat := HEAD :: l ++ [HEAD].

Record lru (c : bcache) (l : list nat) : Prop := Lru {
  lru_len : length (bc_buf c) = HEAD;
  lru_perm : l ≡ₚ seq 0 HEAD;
  lru_chain : chain c (ring l)
}.

(** [brelse] and [binit] link [b] in at the front; [brelse] unlinks it first. *)
Definition insert_front (b : nat) (c : bcache) : bcache :=
  let c := set_next b (next c HEAD) c in
  let c := set_prev b HEAD c in
  let c := set_prev (next c HEAD) b c in
  set_next HEAD b c.

Definition unlink (b : nat) (c : bcache) : bcache :=
  let c := set_prev (next c b) (prev c b) c in
  set_next (prev c b) (next c b) c.

(** ** The links *)

(** A buffer of the cache or its head. *)
Definition bptr (c : bcache) (b : nat) : Prop := b = HEAD ∨ (b < length (bc_buf c))%nat.

Lemma next_set_next b v c x :
  bptr c b → next (set_next b v c) x = if decide (x = b) then v else next c x.
Proof.
  intros Hb. unfold next, set_next. destruct (Nat.eqb_spec b HEAD) as [->|Hn]; rsimpl.
  - by destruct (Nat.eqb_spec x HEAD) as [->|?]; [rewrite decide_True|rewrite decide_False].
  - destruct Hb as [?|Hb]; [done|]. destruct (Nat.eqb_spec x HEAD) as [->|?]; [by rewrite decide_False|].
    case_decide as E; [subst x|].
    + by rewrite list_lookup_total_alter_eq.
    + by rewrite list_lookup_total_alter_ne.
Qed.

Lemma prev_set_prev b v c x :
  bptr c b → prev (set_prev b v c) x = if decide (x = b) then v else prev c x.
Proof.
  intros Hb. unfold prev, set_prev. destruct (Nat.eqb_spec b HEAD) as [->|Hn]; rsimpl.
  - by destruct (Nat.eqb_spec x HEAD) as [->|?]; [rewrite decide_True|rewrite decide_False].
  - destruct Hb as [?|Hb]; [done|]. destruct (Nat.eqb_spec x HEAD) as [->|?]; [by rewrite decide_False|].
    case_decide as E; [subst x|].
    + by rewrite list_lookup_total_alter_eq.
    + by rewrite list_lookup_total_alter_ne.
Qed.

Lemma next_set_prev b v c x : next (set_prev b v c) x = next c x.
Proof.
  unfold next, set_prev. destruct (b =? HEAD)%nat; rsimpl; [done|].
  by rewrite (lookup_total_alter_field b_next).
Qed.

Lemma prev_set_next b v c x : prev (set_next b v c) x = prev c x.
Proof.
  unfold prev, set_next. destruct (b =? HEAD)%nat; rsimpl; [done|].
  by rewrite (lookup_total_alter_field b_prev).
Qed.

Lemma cores_set_next b v c : cores (set_next b v c) = cores c.
Proof.
  unfold cores, set_next. destruct (b =? HEAD)%nat; rsimpl; [done|].
  by apply fmap_alter_same.
Qed.

Lemma cores_set_prev b v c : cores (set_prev b v c) = cores c.
Proof.
  unfold cores, set_prev. destruct (b =? HEAD)%nat; rsimpl; [done|].
  by apply fmap_alter_same.
Qed.

Lemma length_bc_set_next b v c : length (bc_buf (set_next b v c)) = length (bc_buf c).
Proof. pose proof (f_equal length (cores_set_next b v c)) as H. unfold cores in H. by rewrite !length_fmap in H. Qed.

Lemma length_bc_set_prev b v c : length (bc_buf (set_prev b v c)) = length (bc_buf c).
Proof. pose proof (f_equal length (cores_set_prev b v c)) as H. unfold cores in H. by rewrite !length_fmap in H. Qed.

Lemma bptr_set_next b v c x : bptr c x → bptr (set_next b v c) x.
Proof. unfold bptr. by rewrite length_bc_set_next. Qed.
Lemma bptr_set_prev b v c x : bptr c x → bptr (set_prev b v c) x.
Proof. unfold bptr. by rewrite length_bc_set_prev. Qed.

Lemma bptr_HEAD c : bptr c HEAD.
Proof. by left. Qed.

Create HintDb bio.
#[export] Hint Resolve bptr_set_next bptr_set_prev bptr_HEAD : bio.
#[export] Hint Rewrite next_set_prev prev_set_next cores_set_next cores_set_prev
  length_bc_set_next length_bc_set_prev : bio.
#[export] Hint Rewrite next_set_next prev_set_prev using (solve [auto with bio]) : bio.

(** ** Chains *)

Lemma chain_split c l1 x l2 : chain c (l1 ++ x :: l2) ↔ chain c (l1 ++ [x]) ∧ chain c (x :: l2).
Proof.
  induction l1 as [|y l1 IH]; simpl; [tauto|].
  destruct l1 as [|z l1]; simpl in *; [tauto|]. rewrite IH. tauto.
Qed.

Lemma chain_frame c c' l z :
  chain c (l ++ [z]) →
  (∀ y, y ∈ l → next c' y = next c y) → (∀ y, y ∈ tail (l ++ [z]) → prev c' y = prev c y) →
  chain c' (l ++ [z]).
Proof.
  induction l as [|x l IH]; simpl; [done|]. intros H Hn Hp.
  destruct (l ++ [z]) as [|y t] eqn:E; [done|]. destruct H as (H1 & H2 & H3).
  split; [rewrite Hn; [done|by left]|]. split; [rewrite Hp; [done|by left]|].
  apply IH; [done| |]; intros u Hu; [apply Hn; by right|apply Hp; simpl in Hu; by right].
Qed.

Lemma list_snoc_case {A} (x : A) l : ∃ l' z, x :: l = l' ++ [z].
Proof. destruct (exists_last (l := x :: l)) as (l' & z & E); [done|eauto]. Qed.

Lemma chain_insert_front c l b :
  chain c (ring l) → NoDup (b :: l) → (∀ x, x ∈ b :: l → (x < length (bc_buf c))%nat) →
  length (bc_buf c) = HEAD → chain (insert_front b c) (ring (b :: l)).
Proof.
  intros Hc Hnd Hlt Hlen. unfold ring in *. cbn [app].
  assert (∀ x, x ∈ b :: l → x ≠ HEAD) as HnH by (intros x Hx; specialize (Hlt x Hx); lia).
  assert (b ≠ HEAD) as HbH by (apply HnH; by left).
  apply list.NoDup_cons in Hnd as [Hbl Hnd].
  destruct (l ++ [HEAD]) as [|F t] eqn:E; [by destruct l|]. simpl in Hc. destruct Hc as (HF & HF' & Hc).
  assert (bptr c b) as Hpb by (right; apply Hlt; by left).
  assert (F ∈ l ++ [HEAD]) as HFin by (rewrite E; by left).
  assert (bptr c F) as HpF.
  { apply elem_of_app in HFin as [?|?%list_elem_of_singleton]; [right; apply Hlt; by right|by left]. }
  assert (bptr c HEAD) as HpH by (by left).
  assert (F ≠ b) as HFb.
  { apply elem_of_app in HFin as [?| ->%list_elem_of_singleton]; [by intros ->|done]. }
  assert (∀ y, next (insert_front b c) y = if decide (y = HEAD) then b else if decide (y = b) then F else next c y) as Hn.
  { intros y. unfold insert_front. autorewrite with bio. rewrite HF.
    by repeat case_decide. }
  assert (∀ y, prev (insert_front b c) y = if decide (y = F) then b else if decide (y = b) then HEAD else prev c y) as Hp.
  { intros y. unfold insert_front. autorewrite with bio. rewrite (decide_False (P := HEAD = b)), HF by done.
    by autorewrite with bio. }
  cbn [chain]. split; [by rewrite Hn, decide_True|]. split; [by rewrite Hp, decide_False, decide_True|].
  split; [by rewrite Hn, decide_False, decide_True|]. split; [by rewrite Hp, decide_True|].
  change (chain (insert_front b c) (F :: t)). rewrite <- E. apply (chain_frame c); [by rewrite E| |].
  - intros y Hy. rewrite Hn, !decide_False; [done|by intros ->|]. apply HnH. by right.
  - intros y Hy. rewrite E in Hy. simpl in Hy. rewrite Hp.
    assert (y ∈ l ++ [HEAD]) as Hy' by (rewrite E; by right).
    assert (y ≠ b).
    { apply elem_of_app in Hy' as [?| ->%list_elem_of_singleton]; [by intros ->|done]. }
    rewrite !decide_False; [done|done|]. intros ->.
    assert (NoDup (l ++ [HEAD])) as Hnd'.
    { apply list.NoDup_app. split; [done|]. split; [|apply list.NoDup_singleton].
      intros x Hx ->%list_elem_of_singleton. by apply (HnH HEAD); [right|]. }
    rewrite E in Hnd'. by apply list.NoDup_cons in Hnd' as [? _].
Qed.

Lemma chain_unlink c l1 l2 b :
  chain c (ring (l1 ++ b :: l2)) → NoDup (l1 ++ b :: l2) →
  (∀ x, x ∈ l1 ++ b :: l2 → (x < length (bc_buf c))%nat) → length (bc_buf c) = HEAD →
  chain (unlink b c) (ring (l1 ++ l2)).
Proof.
  intros Hc Hnd Hlt Hlen.
  assert (∀ x, x ∈ l1 ++ b :: l2 → x ≠ HEAD) as HnH by (intros x Hx; specialize (Hlt x Hx); lia).
  assert (NoDup (HEAD :: l1 ++ b :: l2)) as Hnd1.
  { apply list.NoDup_cons. split; [|done]. intros H. by apply (HnH HEAD). }
  assert (NoDup ((l1 ++ b :: l2) ++ [HEAD])) as Hnd2.
  { by rewrite <- Permutation_cons_append. }
  unfold ring in *. rewrite <- app_assoc in Hc. cbn [app] in Hc. rewrite <- app_assoc.
  rewrite app_comm_cons in Hc. rewrite app_comm_cons.
  destruct (list_snoc_case HEAD l1) as (a & P & Ea). rewrite Ea in *.
  destruct (l2 ++ [HEAD]) as [|N d] eqn:Ed; [by destruct l2|].
  assert (bptr c P) as HpP.
  { assert (P ∈ HEAD :: l1) as [->|H]%elem_of_cons by (rewrite Ea; set_solver); [by left|].
    right. apply Hlt. set_solver. }
  assert (bptr c N) as HpN.
  { assert (N ∈ l2 ++ [HEAD]) as [H| ->%list_elem_of_singleton]%elem_of_app by (rewrite Ed; by left); [|by left].
    right. apply Hlt. set_solver. }
  rewrite <- app_assoc in Hc. cbn [app] in Hc. apply chain_split in Hc as [Hc1 Hc2].
  cbn [chain] in Hc2. destruct Hc2 as (HPb & HbP & HbN & HNb & Hc2).
  assert (∀ y, prev (unlink b c) y = if decide (y = N) then P else prev c y) as Hp.
  { intros y. unfold unlink. autorewrite with bio. rewrite HbN, HbP. by autorewrite with bio. }
  assert (b ≠ N) as HbNne.
  { intros <-. assert (b ∈ l2 ++ [HEAD]) as Hb by (rewrite Ed; by left).
    rewrite <- app_assoc in Hnd2. apply list.NoDup_app in Hnd2 as (_ & _ & Hnd2). cbn [app] in Hnd2.
    apply list.NoDup_cons in Hnd2 as [Hnd2 _]. done. }
  assert (∀ y, next (unlink b c) y = if decide (y = P) then N else next c y) as Hn.
  { intros y. unfold unlink. autorewrite with bio. rewrite HbN, HbP. rewrite prev_set_prev, decide_False by done.
    rewrite HbP. rewrite next_set_next by auto with bio. by autorewrite with bio. }
  rewrite <- app_assoc. cbn [app]. apply chain_split. split; [|cbn [chain]; rewrite Hn, Hp, !decide_True by done; split; [done|]; split; [done|]].
  - apply (chain_frame c); [done| |].
    + intros y Hy. rewrite Hn, decide_False; [done|]. intros ->.
      rewrite app_comm_cons, Ea in Hnd1. apply list.NoDup_app in Hnd1 as (Hnd1 & _ & _).
      apply list.NoDup_app in Hnd1 as (_ & Hnd1 & _). apply (Hnd1 P); set_solver.
    + intros y Hy. rewrite <- Ea in Hy. simpl in Hy. rewrite Hp, decide_False; [done|]. intros ->.
      rewrite <- app_assoc in Hnd2. apply list.NoDup_app in Hnd2 as (_ & Hnd2 & _). apply (Hnd2 N); [done|].
      cbn [app]. rewrite Ed. set_solver.
  - change (chain (unlink b c) (N :: d)). rewrite <- Ed. apply (chain_frame c); [by rewrite Ed| |].
    + intros y Hy. rewrite Hn, decide_False; [done|]. intros ->.
      rewrite app_comm_cons, Ea in Hnd1. apply list.NoDup_app in Hnd1 as (_ & Hnd1 & _). apply (Hnd1 P); set_solver.
    + intros y Hy. rewrite Ed in Hy. simpl in Hy. rewrite Hp, decide_False; [done|]. intros ->.
      rewrite <- app_assoc in Hnd2. apply list.NoDup_app in Hnd2 as (_ & _ & Hnd2). cbn [app] in Hnd2. rewrite Ed in Hnd2.
      apply list.NoDup_cons in Hnd2 as [_ Hnd2]. by apply list.NoDup_cons in Hnd2 as [? _].
Qed.

(** ** The scans of [bget] *)

(** The first element of a list that satisfies a predicate. *)
Definition first {A} (P : A → Prop) `{∀ x, Decision (P x)} (l : list A) : option A := snd <$> list_find P l.

Lemma first_cons {A} (P : A → Prop) `{∀ x, Decision (P x)} x l :
  first P (x :: l) = if decide (P x) then Some x else first P l.
Proof. unfold first. simpl. case_decide; [done|]. by destruct (list_find P l) as [[]|]. Qed.

Lemma first_Some {A} (P : A → Prop) `{∀ x, Decision (P x)} l x : first P l = Some x → x ∈ l ∧ P x.
Proof.
  induction l as [|y l IH]; [done|]. rewrite first_cons. case_decide; [intros [= ->]; split; [by left|done]|].
  intros [? ?]%IH. split; [by right|done].
Qed.

Lemma first_None {A} (P : A → Prop) `{∀ x, Decision (P x)} l x : first P l = None → x ∈ l → ¬ P x.
Proof.
  induction l as [|y l IH]; [intros _ []%elem_of_nil|]. rewrite first_cons. case_decide; [done|].
  intros E [->|Hx]%elem_of_cons; [done|]. by apply IH.
Qed.

Section scans.
Variables (c : bcache) (dev blockno : Z).

Definition caches (b : nat) : Prop :=
  b_dev (bc_buf c !!! b) = dev ∧ b_blockno (bc_buf c !!! b) = blockno.
Definition unused (b : nat) : Prop := b_refcnt (bc_buf c !!! b) = 0.
#[global] Instance caches_dec b : Decision (caches b).
Proof. unfold caches. apply _. Defined.
#[global] Instance unused_dec b : Decision (unused b).
Proof. unfold unused. apply _. Defined.

Lemma scan_cached_chain fuel l :
  chain c (l ++ [HEAD]) → HEAD ∉ l → (length l < fuel)%nat →
  scan_cached fuel c (hd HEAD l) dev blockno = Some (first caches l).
Proof.
  revert fuel. induction l as [|b l IH]; intros fuel Hc Hh Hf; (destruct fuel as [|fuel]; [simpl in Hf; lia|]).
  { cbn [hd scan_cached]. by rewrite Nat.eqb_refl. }
  cbn [hd scan_cached]. destruct (Nat.eqb_spec b HEAD) as [->|_]; [by destruct Hh; left|].
  rewrite first_cons.
  destruct (Z.eqb_spec (b_dev (bc_buf c !!! b)) dev), (Z.eqb_spec (b_blockno (bc_buf c !!! b)) blockno); cbn [andb].
  1: by rewrite decide_True.
  all: rewrite (decide_False (P := caches b)) by (unfold caches; tauto); simpl in Hf;
    rewrite <- (IH fuel); [|by destruct l as [|? l]; cbn in Hc; destruct Hc as (_ & _ & Hc)|set_solver|lia];
    f_equal; destruct l as [|? l]; cbn in Hc; by destruct Hc.
Qed.

Lemma scan_unused_chain fuel l :
  chain c (HEAD :: l) → HEAD ∉ l → (length l < fuel)%nat →
  scan_unused fuel c (List.last l HEAD) = Some (first unused (reverse l)).
Proof.
  revert fuel. induction l as [|b l IH] using rev_ind; intros fuel Hc Hh Hf;
    (destruct fuel as [|fuel]; [simpl in Hf; lia|]).
  { cbn [List.last scan_unused]. by rewrite Nat.eqb_refl. }
  rewrite List.last_last. cbn [scan_unused]. destruct (Nat.eqb_spec b HEAD) as [->|_]; [set_solver|].
  rewrite reverse_app, reverse_singleton. cbn [app]. rewrite first_cons.
  destruct (Z.eqb_spec (b_refcnt (bc_buf c !!! b)) 0); [by rewrite decide_True|]. rewrite decide_False by done.
  rewrite length_app in Hf. simpl in Hf.
  rewrite app_comm_cons in Hc. destruct (list_snoc_case HEAD l) as (a & P & Ea).
  assert (List.last l HEAD = P) as HP.
  { destruct l as [|x l]; [by apply (app_inj_tail [] a) in Ea as [_ ?]|].
    change (List.last (HEAD :: x :: l) HEAD = P). by rewrite Ea, List.last_last. }
  rewrite Ea, <- app_assoc in Hc. cbn [app] in Hc. apply chain_split in Hc as [Hc1 Hc2].
  rewrite <- (IH fuel); [|by rewrite Ea|set_solver|lia].
  rewrite HP. cbn in Hc2. destruct Hc2 as (_ & -> & _). done.
Qed.
End scans.

Lemma lru_in c l b : lru c l → b ∈ l ↔ (b < HEAD)%nat.
Proof. intros H. rewrite (lru_perm _ _ H), elem_of_seq. lia. Qed.

Lemma lru_NoDup c l : lru c l → NoDup l.
Proof. intros H. rewrite (lru_perm _ _ H). apply NoDup_seq. Qed.

Lemma lru_length c l : lru c l → length l = HEAD.
Proof. intros H. by rewrite (lru_perm _ _ H), length_seq. Qed.

Lemma lru_head c l : lru c l → HEAD ∉ l.
Proof. intros H Hh. apply (lru_in _ _ _ H) in Hh. lia. Qed.

Lemma lru_scan_cached c l dev blockno :
  lru c l → scan_cached (S (Z.to_nat NBUF)) c (next c HEAD) dev blockno = Some (first (caches c dev blockno) l).
Proof.
  intros H. pose proof (lru_chain _ _ H) as Hc. unfold ring in Hc.
  rewrite <- (scan_cached_chain c dev blockno (S (Z.to_nat NBUF)) l).
  - f_equal. destruct l as [|x l]; cbn in Hc; by destruct Hc.
  - destruct l as [|x l]; cbn in Hc; by destruct Hc as (_ & _ & Hc).
  - by apply (lru_head c).
  - rewrite (lru_length _ _ H). unfold HEAD. lia.
Qed.

Lemma lru_scan_unused c l :
  lru c l → scan_unused (S (Z.to_nat NBUF)) c (prev c HEAD) = Some (first (unused c) (reverse l)).
Proof.
  intros H. pose proof (lru_chain _ _ H) as Hc. unfold ring in Hc.
  destruct (list_snoc_case HEAD l) as (a & P & Ea).
  assert (List.last l HEAD = P) as HP.
  { destruct l as [|x l']; [by apply (app_inj_tail [] a) in Ea as [_ ?]|].
    change (List.last (HEAD :: x :: l') HEAD = P). by rewrite Ea, List.last_last. }
  rewrite app_comm_cons, Ea, <- app_assoc in Hc. cbn [app] in Hc. apply chain_split in Hc as [Hc1 Hc2].
  cbn in Hc2. destruct Hc2 as (_ & Hp & _).
  rewrite Hp, <- HP. apply scan_unused_chain; [by rewrite Ea|by apply (lru_head c)|].
  rewrite (lru_length _ _ H). unfold HEAD. lia.
Qed.

(** ** Moving a buffer to the front *)

(** What [brelse] does to the links of a buffer that nobody uses any more. *)
Definition to_front (b : nat) (c : bcache) : bcache := insert_front b (unlink b c).

Lemma length_bc_unlink b c : length (bc_buf (unlink b c)) = length (bc_buf c).
Proof. unfold unlink. by autorewrite with bio. Qed.
Lemma cores_to_front b c : cores (to_front b c) = cores c.
Proof. unfold to_front, insert_front, unlink. by autorewrite with bio. Qed.

Lemma lru_to_front c l1 b l2 : lru c (l1 ++ b :: l2) → lru (to_front b c) (b :: l1 ++ l2).
Proof.
  intros H. assert (∀ x, x ∈ l1 ++ b :: l2 → (x < length (bc_buf c))%nat) as Hlt.
  { intros x Hx. rewrite (lru_len _ _ H). by apply (lru_in _ _ _ H). }
  pose proof (lru_NoDup _ _ H) as Hnd. split.
  - pose proof (f_equal length (cores_to_front b c)) as E. unfold cores in E. rewrite !length_fmap in E.
    rewrite E. apply (lru_len _ _ H).
  - rewrite <- (lru_perm _ _ H). by rewrite Permutation_middle.
  - apply chain_insert_front.
    + apply chain_unlink; [apply (lru_chain _ _ H)|done|done|apply (lru_len _ _ H)].
    + by rewrite Permutation_middle.
    + intros x Hx. rewrite length_bc_unlink. apply Hlt. set_solver.
    + rewrite length_bc_unlink. apply (lru_len _ _ H).
Qed.

(** ** Initialisation *)

Lemma chain_ext c c' r :
  (∀ x, next c' x = next c x) → (∀ x, prev c' x = prev c x) → chain c r → chain c' r.
Proof.
  intros Hn Hp. induction r as [|x [|y t] IH]; [done..|]. intros (H1 & H2 & H3).
  split; [by rewrite Hn|]. split; [by rewrite Hp|by apply IH].
Qed.

(** Changing the buffers but not their links. *)
Definition links_same (f : buf → buf) : Prop := ∀ x, b_next (f x) = b_next x ∧ b_prev (f x) = b_prev x.
Definition alter_buf (f : buf → buf) (b : nat) (c : bcache) : bcache := c <| bc_buf ::= alter f b |>.

Lemma chain_alter_buf f b c r : links_same f → chain c r → chain (alter_buf f b c) r.
Proof.
  intros Hf. apply chain_ext; intros x; unfold next, prev, alter_buf; rsimpl.
  - by rewrite (lookup_total_alter_field b_next) by apply Hf.
  - by rewrite (lookup_total_alter_field b_prev) by apply Hf.
Qed.

Lemma lru_alter_buf f b c l : links_same f → lru c l → lru (alter_buf f b c) l.
Proof.
  intros Hf [H1 H2 H3]. split; [|done|by apply chain_alter_buf].
  unfold alter_buf. rsimpl. by rewrite length_alter.
Qed.

Lemma chain_alter_lock c l b f :
  chain c (ring l) → NoDup (b :: l) → (∀ x, x ∈ b :: l → (x < length (bc_buf c))%nat) →
  length (bc_buf c) = HEAD → links_same f →
  chain (set_next HEAD b (set_prev (next c HEAD) b (alter_buf f b (set_prev b HEAD (set_next b (next c HEAD) c)))))
    (ring (b :: l)).
Proof.
  intros Hc Hnd Hlt Hlen Hf.
  assert (b ≠ HEAD) as HbH. { assert (b < HEAD)%nat by (rewrite <- Hlen; apply Hlt; by left). lia. }
  assert (bptr c b) as Hb by (right; apply Hlt; by left).
  assert (∀ b c, length (bc_buf (alter_buf f b c)) = length (bc_buf c)) as Hla.
  { intros. unfold alter_buf. rsimpl. by rewrite length_alter. }
  assert (bptr c (next c HEAD)) as HF.
  { unfold ring in Hc. destruct l as [|x l]; cbn in Hc; destruct Hc as [-> _]; [by left|].
    right. apply Hlt. set_solver. }
  assert (∀ b c x, next (alter_buf f b c) x = next c x) as Hna.
  { intros. unfold alter_buf, next. rsimpl. by rewrite (lookup_total_alter_field b_next) by apply Hf. }
  assert (∀ b c x, prev (alter_buf f b c) x = prev c x) as Hpa.
  { intros. unfold alter_buf, prev. rsimpl. by rewrite (lookup_total_alter_field b_prev) by apply Hf. }
  assert (∀ b c x, bptr c x → bptr (alter_buf f b c) x) as Hba by (intros ???; unfold bptr; by rewrite Hla).
  eapply (chain_ext (insert_front b c)); [| |by apply chain_insert_front].
  - intros x. unfold insert_front.
    repeat first [rewrite next_set_prev|rewrite Hna|rewrite next_set_next by (auto 8 with bio)]. done.
  - intros x. unfold insert_front. rewrite next_set_prev, next_set_next, decide_False by (done || auto with bio).
    repeat first [rewrite prev_set_next|rewrite Hpa|rewrite prev_set_prev by (auto 8 with bio)]. done.
Qed.

(** A change of the buffer cache alone. *)
Definition on_bc (f : bcache → bcache) (w : world) : world := w <| ks ::= λ k, k <| k_bcache ::= f |> |>.

Lemma on_bc_on_bc f g w : on_bc f (on_bc g w) = on_bc (λ c, f (g c)) w.
Proof. done. Qed.

Lemma modify_bc_run f w : modify_bc f w = Ok () (on_bc f w).
Proof. done. Qed.

Lemma initsleeplock_buf b w :
  initsleeplock (SLBuf b) w = Ok () (on_bc (alter_buf (λ x, x <| b_lock := sl_free |>) b) w).
Proof.
  unfold initsleeplock, initlock. do 2 (erewrite bind_ok by reflexivity).
  unfold modify, upd_sl, on_bc, alter_buf. rsimpl. by rewrite alter_alter.
Qed.

(** One round of [binit]. *)
Lemma binit_step b w :
  (modify_bc (λ c, set_next b (next c HEAD) c);;
   modify_bc (set_prev b HEAD);;
   initsleeplock (SLBuf b);;
   modify_bc (λ c, set_prev (next c HEAD) b c);;
   modify_bc (set_next HEAD b)) w
  = Ok () (on_bc (λ c,
      let c := alter_buf (λ x, x <| b_lock := sl_free |>) b (set_prev b HEAD (set_next b (next c HEAD) c)) in
      set_next HEAD b (set_prev (next c HEAD) b c)) w).
Proof.
  rewrite (bind_ok _ _ _ _ _ (modify_bc_run _ _)), (bind_ok _ _ _ _ _ (modify_bc_run _ _)).
  rewrite (bind_ok _ _ _ _ _ (initsleeplock_buf _ _)), (bind_ok _ _ _ _ _ (modify_bc_run _ _)).
  by rewrite modify_bc_run, !on_bc_on_bc.
Qed.

Lemma binit_loop n w :
  length (bc_buf (k_bcache (ks w))) = HEAD → chain (k_bcache (ks w)) (ring []) → (n <= HEAD)%nat →
  ∃ c, mfor (seq 0 n) (λ b,
         modify_bc (λ c, set_next b (next c HEAD) c);;
         modify_bc (set_prev b HEAD);;
         initsleeplock (SLBuf b);;
         modify_bc (λ c, set_prev (next c HEAD) b c);;
         modify_bc (set_next HEAD b)) w = Ok () (on_bc (λ _, c) w)
    ∧ chain c (ring (reverse (seq 0 n)))
    ∧ cores c = imap (λ i x, if (i <? n)%nat then x <| b_lock := sl_free |> else x) (cores (k_bcache (ks w))).
Proof.
  intros Hlen Hc. induction n as [|n IH]; intros Hn.
  - exists (k_bcache (ks w)). split; [destruct w as [[] ? ? ?]; reflexivity|]. split; [done|].
    apply list_eq. intros i. rewrite list_lookup_imap. by destruct (_ !! i).
  - destruct IH as (c & E & Hch & Hco); [lia|].
    rewrite seq_S, mfor_app. rewrite (bind_ok _ _ _ _ _ E). cbn [mfor]. rewrite (bind_ok _ _ _ _ _ (binit_step _ _)).
    rewrite on_bc_on_bc. eexists. split; [reflexivity|].
    assert (length (bc_buf c) = HEAD) as Hl.
    { rewrite <- Hlen. apply (f_equal length) in Hco. unfold cores in Hco. by rewrite length_imap, !length_fmap in Hco. }
    assert (next (alter_buf (λ x, x <| b_lock := sl_free |>) n (set_prev n HEAD (set_next n (next c HEAD) c))) HEAD
            = next c HEAD) as Hnx.
    { unfold alter_buf, next at 1. rsimpl. rewrite Nat.eqb_refl.
      unfold set_prev, set_next. destruct (Nat.eqb_spec n HEAD); [lia|]. rsimpl. reflexivity. }
    change (0 + n)%nat with n. cbv zeta. rewrite Hnx. split.
    + rewrite reverse_app, reverse_singleton. apply chain_alter_lock; [done| | |done|done].
      * apply list.NoDup_cons. rewrite elem_of_reverse, elem_of_seq. split; [lia|]. rewrite reverse_Permutation. apply NoDup_seq.
      * intros x [->|Hx]%elem_of_cons; [lia|]. rewrite elem_of_reverse, elem_of_seq in Hx. lia.
    + autorewrite with bio. unfold alter_buf, cores at 1. rsimpl. rewrite (fmap_alter core _ (λ x, x <| b_lock := sl_free |>)) by done.
      fold (cores (set_prev n HEAD (set_next n (next c HEAD) c))). autorewrite with bio. rewrite Hco.
      apply list_eq. intros i. rewrite list_lookup_alter, !list_lookup_imap.
      case_decide as Ei; [subst i|]; destruct (cores _ !! _) as [x|]; simpl; try done; f_equal.
      * by rewrite Nat.ltb_irrefl, (proj2 (Nat.ltb_lt n (S n))) by lia.
      * destruct (Nat.ltb_spec i n), (Nat.ltb_spec i (S n)); done || lia.
Qed.

Lemma binit_run w :
  length (bc_buf (k_bcache (ks w))) = HEAD →
  ∃ c, binit w = Ok () (on_bc (λ _, c) w)
    ∧ lru c (reverse (seq 0 HEAD))
    ∧ cores c = (λ x, x <| b_lock := sl_free |>) <$> cores (k_bcache (ks w)).
Proof.
  intros Hlen. unfold binit. do 3 (erewrite bind_ok by reflexivity). set (w1 := w <| ks ::= _ |> <| ks ::= _ |>).
  destruct (binit_loop HEAD w1) as (c & E & Hc & Hco); [done|by split|done|].
  exists c. unfold HEAD in E at 1. rewrite E. split; [done|].
  change (k_bcache (ks w1)) with (set_next HEAD HEAD (set_prev HEAD HEAD (k_bcache (ks w)))) in Hco.
  autorewrite with bio in Hco.
  assert (cores c = (λ x, x <| b_lock := sl_free |>) <$> cores (k_bcache (ks w))) as Ec.
  { rewrite Hco. apply list_eq. intros i. rewrite list_lookup_imap, list_lookup_fmap.
    destruct (cores _ !! i) eqn:Ei; [|done]. simpl. f_equal.
    apply lookup_lt_Some in Ei. unfold cores in Ei. rewrite length_fmap, Hlen in Ei. by rewrite (proj2 (Nat.ltb_lt _ _) Ei). }
  split; [|done]. split; [|apply reverse_Permutation|done].
  apply (f_equal length) in Ec. unfold cores in Ec. by rewrite !length_fmap, Hlen in Ec.
Qed.
