(* ===== verification/BioSpec.v ===== *)
(** * What the buffer cache promises

    bio.c against an abstract cache: every block has one current contents
    ([a_view]) that all its readers see, whichever buffer holds it and whatever
    is evicted in between; the disk ([a_disk]) and the writes that reached it
    ([a_hist]); the blocks in use with their reference counts; and the blocks
    the current process has locked, with their buffers.

    The disk driver is used through the class [DiskSpec]: a call completes the
    transfer and touches nothing else but the process table and the driver's own
    state.  VirtioSpec.v discharges it for virtio_disk.c. *)

From S2P Require Import Prelude Memory Kernel Sched Sleeplock Bio BufList.

(** ** The current thread between kernel calls *)

Record thread_ok (p : nat) (pid : Z) (w : world) : Prop := {
  th_held : held w = ∅;
  th_me : me w = Some p;
  th_procs : procs_ok (ks w);
  th_lt : (p < Z.to_nat NPROC)%nat;
  th_pid : p_pid (get_proc p (ks w)) = pid
}.

(** The kernel state without what the cache and the driver change. *)
Definition rest (k : kstate) : kstate :=
  k <| k_bcache := MkBcache [] 0 0 |> <| k_disk := MkDisk (λ _, []) [] |>
    <| k_vdisk := MkVdisk [] 0 [] 0 [] [] 0 [] [] [] [] |> <| k_procs := [] |>.

(** ** The disk driver's promise *)

Definition block_write (n : Z) (data : list Z) (d : diskst) : diskst :=
  MkDisk (<[n := data]> (d_blocks d)) ((n, data) :: d_hist d).

(** What a transfer does to the buffer cache and to the disk. *)
Definition io_cache (b : nat) (write : bool) (c : bcache) (d : diskst) : bcache :=
  if write then c else alter_buf (λ x, x <| b_data := d_blocks d (b_blockno x) |>) b c.
Definition io_disk (b : nat) (write : bool) (c : bcache) (d : diskst) : diskst :=
  if write then block_write (b_blockno (bc_buf c !!! b)) (b_data (bc_buf c !!! b)) d else d.

(** [disk_ready n w]: the driver is idle and [n] more requests will be served. *)
Class DiskSpec `{DiskDriver} := {
  disk_ready : nat → world → Prop;
  disk_ready_le n m w : (m <= n)%nat → disk_ready n w → disk_ready m w;
  disk_ready_frame n w w' :
    k_vdisk (ks w') = k_vdisk (ks w) → env w' = env w → disk_ready n w → disk_ready n w';
  disk_rw_spec n p pid b write w x :
    disk_ready (S n) w → thread_ok p pid w → bc_buf (k_bcache (ks w)) !! b = Some x →
    length (bc_buf (k_bcache (ks w))) = HEAD → b_disk x = 0 → 0 <= b_blockno x < 2 ^ 31 →
    ∃ w', disk_rw b write w = Ok () w'
      ∧ disk_ready n w' ∧ thread_ok p pid w' ∧ rest (ks w') = rest (ks w)
      ∧ k_bcache (ks w') = io_cache b write (k_bcache (ks w)) (k_disk (ks w))
      ∧ k_disk (ks w') = io_disk b write (k_bcache (ks w)) (k_disk (ks w))
}.

(** ** The abstract cache *)

Record acache := MkA {
  a_view : Z → list Z;
  a_disk : Z → list Z;
  a_hist : list (Z * list Z);
  a_refs : gmap Z Z;
  a_lock : gmap Z nat
}.

(** [bread] locks the block and counts a reference, [brelse] undoes both;
    [bwrite] copies the contents to the disk. *)
Definition a_bread (n : Z) (b : nat) (A : acache) : acache :=
  MkA (a_view A) (a_disk A) (a_hist A) (<[n := default 0 (a_refs A !! n) + 1]> (a_refs A)) (<[n := b]> (a_lock A)).
Definition a_store (n : Z) (data : list Z) (A : acache) : acache :=
  MkA (<[n := data]> (a_view A)) (a_disk A) (a_hist A) (a_refs A) (a_lock A).
Definition a_bwrite (n : Z) (A : acache) : acache :=
  MkA (a_view A) (<[n := a_view A n]> (a_disk A)) ((n, a_view A n) :: a_hist A) (a_refs A) (a_lock A).
Definition a_add_ref (n d : Z) (A : acache) : acache :=
  let r := default 0 (a_refs A !! n) + d in
  MkA (a_view A) (a_disk A) (a_hist A)
    (if decide (r = 0) then delete n (a_refs A) else <[n := r]> (a_refs A)) (a_lock A).
Definition a_brelse (n : Z) (A : acache) : acache :=
  let A := a_add_ref n (-1) A in
  MkA (a_view A) (a_disk A) (a_hist A) (a_refs A) (delete n (a_lock A)).

(** ** The representation *)

(** The block a buffer caches; unused buffers carry other device numbers. *)
Definition bkey (x : buf) : option Z := if decide (b_dev x = ROOTDEV) then Some (b_blockno x) else None.

Record buf_rep (A : acache) (pid : Z) (i : nat) (x : buf) : Prop := {
  br_refcnt : b_refcnt x = default 0 (bkey x ≫= λ n, a_refs A !! n);
  br_len : length (b_data x) = Z.to_nat BSIZE;
  br_disk : b_disk x = 0;
  br_range : ∀ n, bkey x = Some n → 0 <= n < 2 ^ 31;
  br_valid : b_refcnt x ≠ 0 → b_valid x ≠ 0;
  br_data : ∀ n, bkey x = Some n → b_valid x ≠ 0 → b_data x = a_view A n;
  br_lock : if decide ((bkey x ≫= λ n, a_lock A !! n) = Some i)
            then b_lock x = sl_taken pid else sl_locked (b_lock x) = 0
}.

Definition disk_is (A : acache) (d : diskst) : Prop :=
  (∀ n, d_blocks d n = a_disk A n) ∧ d_hist d = a_hist A.

Record rep (A : acache) (pid : Z) (c : bcache) (d : diskst) : Prop := {
  r_lru : ∃ l, lru c l;
  r_bufs : ∀ i x, cores c !! i = Some x → buf_rep A pid i x;
  r_inj : ∀ i j x y n, cores c !! i = Some x → cores c !! j = Some y →
            bkey x = Some n → bkey y = Some n → i = j;
  r_refs : ∀ n r, a_refs A !! n = Some r →
             0 < r < 2 ^ 32 ∧ ∃ i x, cores c !! i = Some x ∧ bkey x = Some n;
  r_lock : ∀ n i, a_lock A !! n = Some i →
             is_Some (a_refs A !! n) ∧ ∃ x, cores c !! i = Some x ∧ bkey x = Some n;
  r_clean : ∀ n, a_refs A !! n = None → a_view A n = a_disk A n;
  r_len : ∀ n, length (a_view A n) = Z.to_nat BSIZE ∧ length (a_disk A n) = Z.to_nat BSIZE;
  r_disk : disk_is A d
}.

(** Abstract caches with the same contents, block by block. *)
#[global] Instance acache_equiv : Equiv acache := λ A A',
  (∀ n, a_view A n = a_view A' n) ∧ (∀ n, a_disk A n = a_disk A' n)
  ∧ a_hist A = a_hist A' ∧ a_refs A = a_refs A' ∧ a_lock A = a_lock A'.

#[global] Instance acache_equivalence : Equivalence (≡@{acache}).
Proof.
  split.
  - by intros A.
  - intros A B (H1 & H2 & H3 & H4 & H5). done.
  - intros A B C (H1 & H2 & H3 & H4 & H5) (G1 & G2 & G3 & G4 & G5).
    split; [intros; by rewrite H1|]. split; [intros; by rewrite H2|]. by rewrite H3, H4, H5.
Qed.

#[global] Instance rep_proper : Proper ((≡) ==> eq ==> eq ==> eq ==> iff) rep.
Proof.
  assert (∀ A B pid c d, A ≡ B → rep A pid c d → rep B pid c d) as H.
  { intros A B pid c d (H1 & H2 & H3 & H4 & H5) [G1 G2 G3 G4 G5 G6 G7 G8].
    split; rewrite <- ?H4, <- ?H5; try done.
    - intros i x Hx. destruct (G2 i x Hx) as [? ? ? ? ? ? ?].
      split; rewrite <- ?H4, <- ?H5; try done. intros. rewrite <- H1. auto.
    - intros n Hn. by rewrite <- H1, <- H2, G6.
    - intros n. by rewrite <- H1, <- H2.
    - destruct G8 as [E1 E2]. split; [|by rewrite <- H3]. intros n. by rewrite <- H2. }
  intros A B E pid ? <- c ? <- d ? <-. split; apply H; [done|by symmetry].
Qed.

(** Two abstract caches that differ at most at block [n]. *)
Definition agree_off (n : Z) (A A' : acache) : Prop :=
  ∀ m, m ≠ n → a_view A' m = a_view A m ∧ a_disk A' m = a_disk A m
               ∧ a_refs A' !! m = a_refs A !! m ∧ a_lock A' !! m = a_lock A !! m.

Lemma a_add_ref_agree n d A : agree_off n A (a_add_ref n d A).
Proof.
  intros m Hm. unfold a_add_ref. simpl. split; [done|]. split; [done|]. split; [|done].
  case_decide; by rewrite ?lookup_delete_ne, ?lookup_insert_ne.
Qed.

(** ** Changing one buffer *)

Lemma buf_rep_agree n A A' pid i x :
  agree_off n A A' → bkey x ≠ Some n → buf_rep A pid i x → buf_rep A' pid i x.
Proof.
  intros HA Hk [H1 H2 H3 H4 H5 H6 H7].
  assert (∀ m, bkey x = Some m → m ≠ n) as Hm by (intros m E ->; done).
  assert ((bkey x ≫= λ n, a_refs A' !! n) = (bkey x ≫= λ n, a_refs A !! n)) as E1.
  { destruct (bkey x) as [m|] eqn:E; [|done]. simpl. apply HA. by apply Hm. }
  assert ((bkey x ≫= λ n, a_lock A' !! n) = (bkey x ≫= λ n, a_lock A !! n)) as E2.
  { destruct (bkey x) as [m|] eqn:E; [|done]. simpl. apply HA. by apply Hm. }
  split; try done.
  - by rewrite E1.
  - intros m E Hv. rewrite (H6 m E Hv). symmetry. by apply HA, Hm.
  - by rewrite E2.
Qed.

(** The one lemma behind all operations: buffer [b] becomes [x'], which caches
    block [n]; it cached [n] before, or nothing that is in use. *)
Lemma rep_update A A' pid c c' d d' b x x' n l' :
  rep A pid c d → cores c !! b = Some x → cores c' = <[b := x']> (cores c) → lru c' l' →
  bkey x' = Some n → agree_off n A A' →
  (∀ j y, j ≠ b → cores c !! j = Some y → bkey y ≠ Some n) →
  (∀ m, bkey x = Some m → m ≠ n → a_refs A !! m = None) →
  buf_rep A' pid b x' →
  (∀ r, a_refs A' !! n = Some r → 0 < r < 2 ^ 32) →
  (∀ i, a_lock A' !! n = Some i → i = b ∧ is_Some (a_refs A' !! n)) →
  (a_refs A' !! n = None → a_view A' n = a_disk A' n) →
  length (a_view A' n) = Z.to_nat BSIZE → length (a_disk A' n) = Z.to_nat BSIZE →
  disk_is A' d' →
  rep A' pid c' d'.
Proof.
  intros HR Hx Hc' Hl Hk HA Hoth Hev Hb Hr Hlk Hcl Hv Hd Hdisk.
  assert (b < length (cores c))%nat as Hlt by (by eapply lookup_lt_Some).
  assert (cores c' !! b = Some x') as Hx'.
  { rewrite Hc'. by rewrite list_lookup_insert_eq by done. }
  assert (∀ j, j ≠ b → cores c' !! j = cores c !! j) as Hne.
  { intros j ?. rewrite Hc'. by rewrite list_lookup_insert_ne. }
  split.
  - eauto.
  - intros i y Hy. destruct (decide (i = b)) as [->|Hi]; [congruence|]. rewrite Hne in Hy by done.
    apply (buf_rep_agree n A); [done|by eapply Hoth|by apply (r_bufs _ _ _ _ HR)].
  - intros i j y z m Hy Hz Ky Kz. destruct (decide (i = b)) as [->|Hi], (decide (j = b)) as [->|Hj]; [done|..].
    + rewrite Hne in Hz by done. assert (y = x') by congruence. subst. destruct (Hoth j z Hj Hz). congruence.
    + rewrite Hne in Hy by done. assert (z = x') by congruence. subst. destruct (Hoth i y Hi Hy). congruence.
    + rewrite Hne in Hy, Hz by done. by apply (r_inj _ _ _ _ HR i j y z m).
  - intros m r Hm. destruct (decide (m = n)) as [->|Hmn]; [eauto 10|].
    destruct (HA m Hmn) as (_ & _ & E & _). rewrite E in Hm.
    destruct (r_refs _ _ _ _ HR m r Hm) as (Hr' & i & y & Hy & Ky). split; [done|].
    destruct (decide (i = b)) as [->|Hi]; [|exists i, y; by rewrite Hne].
    assert (y = x) as -> by congruence. rewrite (Hev m Ky Hmn) in Hm. done.
  - intros m i Hm. destruct (decide (m = n)) as [->|Hmn].
    { destruct (Hlk i Hm) as [-> ?]. split; [done|]. eauto. }
    destruct (HA m Hmn) as (_ & _ & E1 & E2). rewrite E2 in Hm. rewrite E1.
    destruct (r_lock _ _ _ _ HR m i Hm) as (Hs & y & Hy & Ky). split; [done|].
    destruct (decide (i = b)) as [->|Hi]; [|exists y; by rewrite Hne].
    assert (y = x) as -> by congruence. rewrite (Hev m Ky Hmn) in Hs. by destruct Hs.
  - intros m Hm. destruct (decide (m = n)) as [->|Hmn]; [by apply Hcl|].
    destruct (HA m Hmn) as (-> & -> & E1 & _). rewrite E1 in Hm. by apply (r_clean _ _ _ _ HR).
  - intros m. destruct (decide (m = n)) as [->|Hmn]; [done|].
    destruct (HA m Hmn) as (-> & -> & _). apply (r_len _ _ _ _ HR).
  - done.
Qed.

(** ** Consequences of the representation *)

Lemma cores_lookup c b x :
  cores c !! b = Some x ↔ ∃ y, bc_buf c !! b = Some y ∧ x = core y ∧ bc_buf c !!! b = y.
Proof.
  unfold cores. rewrite list_lookup_fmap. split.
  - destruct (bc_buf c !! b) as [y|] eqn:E; [|done]. intros [= <-]. exists y.
    split; [done|]. split; [done|]. by apply list_lookup_total_correct.
  - intros (y & -> & -> & _). done.
Qed.

Lemma cores_alter_buf f b c :
  (∀ x, core (f x) = f (core x)) → cores (alter_buf f b c) = alter f b (cores c).
Proof. intros Hf. unfold cores, alter_buf. rsimpl. by apply fmap_alter. Qed.

Lemma cores_alter_insert f b c x :
  (∀ x, core (f x) = f (core x)) → cores c !! b = Some x →
  cores (alter_buf f b c) = <[b := f x]> (cores c).
Proof.
  intros Hf Hx. rewrite cores_alter_buf by done. apply list_eq. intros i.
  rewrite list_lookup_alter, list_lookup_insert. case_decide as E.
  - subst i. rewrite Hx. rewrite decide_True; [done|]. split; [done|]. by eapply lookup_lt_Some.
  - rewrite decide_False; [done|]. intros [? _]. done.
Qed.

Lemma alter_buf_alter_buf f g b c : alter_buf f b (alter_buf g b c) = alter_buf (λ x, f (g x)) b c.
Proof. unfold alter_buf. rsimpl. by rewrite alter_alter. Qed.

Lemma rep_other A pid c d b x n :
  rep A pid c d → cores c !! b = Some x → bkey x = Some n →
  ∀ j y, j ≠ b → cores c !! j = Some y → bkey y ≠ Some n.
Proof. intros HR Hx Kx j y Hj Hy Ky. apply Hj. by apply (r_inj _ _ _ _ HR j b y x n). Qed.

(** A locked block: its buffer is in use, valid and up to date. *)
Lemma rep_locked A pid c d n b :
  rep A pid c d → a_lock A !! n = Some b →
  ∃ x r, cores c !! b = Some x ∧ bkey x = Some n ∧ a_refs A !! n = Some r ∧ 0 < r < 2 ^ 32
    ∧ b_refcnt x = r ∧ b_valid x ≠ 0 ∧ b_data x = a_view A n ∧ b_lock x = sl_taken pid
    ∧ b_disk x = 0 ∧ 0 <= n < 2 ^ 31 ∧ (b < HEAD)%nat.
Proof.
  intros HR Hn. destruct (r_lock _ _ _ _ HR n b Hn) as ([r Hr] & x & Hx & Kx).
  pose proof (r_bufs _ _ _ _ HR b x Hx) as [H1 H2 H3 H4 H5 H6 H7].
  destruct (r_refs _ _ _ _ HR n r Hr) as [Hr0 _]. exists x, r.
  rewrite Kx in *. simpl in *. rewrite Hr in H1. simpl in H1. rewrite decide_True in H7 by done.
  assert (b_valid x ≠ 0) as Hv by (apply H5; lia).
  repeat (split; [by auto|]).
  destruct (r_lru _ _ _ _ HR) as [l Hl]. rewrite <- (lru_len _ _ Hl).
  apply lookup_lt_Some in Hx. unfold cores in Hx. by rewrite length_fmap in Hx.
Qed.

Lemma bkey_core x : bkey (core x) = bkey x.
Proof. done. Qed.

Lemma bkey_Some x n : bkey x = Some n ↔ b_dev x = ROOTDEV ∧ b_blockno x = n.
Proof. unfold bkey. case_decide; naive_solver. Qed.

(** If every buffer is in use there are NBUF blocks in use. *)
Lemma rep_pigeonhole A pid c d :
  rep A pid c d → (∀ i x, cores c !! i = Some x → b_refcnt x ≠ 0) → (HEAD <= size (a_refs A))%nat.
Proof.
  intros HR Hall.
  assert (∀ i x, cores c !! i = Some x → bkey x = Some (b_blockno x) ∧ b_blockno x ∈ dom (a_refs A)) as Hk.
  { intros i x Hx. pose proof (br_refcnt _ _ _ _ (r_bufs _ _ _ _ HR i x Hx)) as E. specialize (Hall i x Hx).
    destruct (bkey x) as [n|] eqn:K; [|by rewrite E in Hall].
    apply bkey_Some in K as K'. destruct K' as [_ <-]. split; [done|]. simpl in E.
    destruct (a_refs A !! b_blockno x) eqn:R; [|by rewrite E in Hall]. apply elem_of_dom. by rewrite R. }
  set (f := b_blockno <$> cores c).
  assert (NoDup f) as Hnd.
  { apply NoDup_alt. intros i j n Hi Hj. subst f. rewrite list_lookup_fmap in Hi, Hj.
    destruct (cores c !! i) as [x|] eqn:Ex; [|done]. destruct (cores c !! j) as [y|] eqn:Ey; [|done].
    simpl in Hi, Hj. injection Hi as Hi. injection Hj as Hj.
    apply (r_inj _ _ _ _ HR i j x y n Ex Ey).
    - destruct (Hk i x Ex) as [-> _]. by rewrite Hi.
    - destruct (Hk j y Ey) as [-> _]. by rewrite Hj. }
  destruct (r_lru _ _ _ _ HR) as [l Hl].
  assert (length f = HEAD) as Hlen. { subst f. unfold cores. rewrite !length_fmap. apply (lru_len _ _ Hl). }
  rewrite <- Hlen, <- (size_list_to_set (C := gset Z) f) by done. rewrite <- size_dom. apply subseteq_size.
  intros n Hn. apply elem_of_list_to_set, list_elem_of_fmap in Hn as (x & -> & Hx).
  apply list_elem_of_lookup in Hx as [i Hx]. by apply (Hk i x).
Qed.

(** ** The thread between calls *)

(** [wakeup] in a thread's world. *)
Definition woken (ch : chan) (w : world) : world := w <| ks ::= wake_all ch (me w) |>.

Lemma thread_ok_on_bc p pid f w : thread_ok p pid w → thread_ok p pid (on_bc f w).
Proof. intros [H1 H2 H3 H4 H5]. by split. Qed.

Lemma thread_ok_woken p pid ch w : thread_ok p pid w → thread_ok p pid (woken ch w).
Proof.
  intros [H1 H2 H3 H4 H5]. split; [done|done|by apply procs_ok_wake_all|done|].
  unfold woken. rsimpl. by rewrite wake_all_pid.
Qed.

Lemma thread_no_proc_lock p pid w : thread_ok p pid w → no_proc_lock w.
Proof. intros H i _. rewrite (th_held _ _ _ H). set_solver. Qed.

Lemma thread_not_held p pid w lk : thread_ok p pid w → lk ∉ held w.
Proof. intros H. rewrite (th_held _ _ _ H). set_solver. Qed.

Lemma upd_sl_buf b f k : upd_sl (SLBuf b) f k = k <| k_bcache ::= alter_buf (λ x, x <| b_lock ::= f |>) b |>.
Proof. done. Qed.

Lemma upd_buf_run f b w : modify (upd_buf b f) w = Ok () (on_bc (alter_buf f b) w).
Proof. done. Qed.

Section runs.
Variables (p : nat) (pid : Z).

Lemma acquiresleep_buf b w :
  thread_ok p pid w → sl_locked (b_lock (bc_buf (k_bcache (ks w)) !!! b)) = 0 →
  acquiresleep (SLBuf b) w = Ok () (on_bc (alter_buf (λ x, x <| b_lock := sl_taken pid |>) b) w).
Proof.
  intros Hw Hl. rewrite (acquiresleep_run (SLBuf b) p) by (apply Hw || done || by eapply thread_not_held).
  by rewrite (th_pid _ _ _ Hw).
Qed.

Lemma releasesleep_buf b w :
  thread_ok p pid w →
  releasesleep (SLBuf b) w = Ok () (woken (ChSleep (SLBuf b)) (on_bc (alter_buf (λ x, x <| b_lock := sl_free |>) b) w)).
Proof.
  intros Hw. rewrite (releasesleep_run (SLBuf b)); [done|by eapply thread_not_held|apply Hw|by eapply thread_no_proc_lock].
Qed.

Lemma holdingsleep_buf b w :
  thread_ok p pid w → b_lock (bc_buf (k_bcache (ks w)) !!! b) = sl_taken pid →
  holdingsleep (SLBuf b) w = Ok true w.
Proof.
  intros Hw Hl. rewrite (holdingsleep_run (SLBuf b) p) by (apply Hw || by eapply thread_not_held).
  unfold get_sl. rewrite Hl, (th_pid _ _ _ Hw). simpl. by rewrite Z.eqb_refl.
Qed.

(** [bget], first loop: the block is cached. *)
Lemma bget_hit dev n b l w :
  thread_ok p pid w → lru (k_bcache (ks w)) l → first (caches (k_bcache (ks w)) dev n) l = Some b →
  sl_locked (b_lock (bc_buf (k_bcache (ks w)) !!! b)) = 0 →
  bget dev n w = Ok b (on_bc (alter_buf (λ x, x <| b_refcnt ::= λ r, u32 (r + 1) |> <| b_lock := sl_taken pid |>) b) w).
Proof.
  intros Hw Hl Hf Hsl. unfold bget.
  assert (LBcache ∉ held w) as Hlk by (by eapply thread_not_held).
  rewrite (bind_ok _ _ _ _ _ (acquire_free _ _ Hlk)). erewrite bind_ok by reflexivity. cbv beta.
  change (k_bcache (ks (w <| held ::= _ |>))) with (k_bcache (ks w)).
  rewrite (lru_scan_cached _ l) by done. rewrite Hf.
  rewrite (bind_ok _ _ _ _ _ (upd_buf_run _ _ _)).
  erewrite bind_ok by exact (locked_section LBcache w _ Hlk).
  set (f := λ x : buf, x <| b_refcnt ::= λ r, u32 (r + 1) |>).
  change (w <| ks := _ |>) with (on_bc (alter_buf f b) w).
  erewrite bind_ok.
  2:{ apply acquiresleep_buf; [by apply thread_ok_on_bc|]. unfold on_bc, alter_buf. rsimpl.
      by rewrite (lookup_total_alter_field b_lock). }
  unfold mret, K_ret. rewrite on_bc_on_bc. unfold on_bc, alter_buf. rsimpl. by rewrite alter_alter.
Qed.

(** [bget], second loop: an unused buffer is recycled. *)
Lemma bget_miss dev n b l w :
  thread_ok p pid w → lru (k_bcache (ks w)) l → first (caches (k_bcache (ks w)) dev n) l = None →
  first (unused (k_bcache (ks w))) (reverse l) = Some b →
  sl_locked (b_lock (bc_buf (k_bcache (ks w)) !!! b)) = 0 →
  bget dev n w = Ok b (on_bc (alter_buf (λ x, x <| b_dev := dev |> <| b_blockno := n |> <| b_valid := 0 |>
                                           <| b_refcnt := 1 |> <| b_lock := sl_taken pid |>) b) w).
Proof.
  intros Hw Hl Hf Hu Hsl. unfold bget.
  assert (LBcache ∉ held w) as Hlk by (by eapply thread_not_held).
  rewrite (bind_ok _ _ _ _ _ (acquire_free _ _ Hlk)). erewrite bind_ok by reflexivity. cbv beta.
  change (k_bcache (ks (w <| held ::= _ |>))) with (k_bcache (ks w)).
  rewrite (lru_scan_cached _ l), Hf, (lru_scan_unused _ l), Hu by done.
  do 4 (rewrite (bind_ok _ _ _ _ _ (upd_buf_run _ _ _))). rewrite !on_bc_on_bc.
  erewrite bind_ok by exact (locked_section LBcache w _ Hlk).
  set (f := λ x : buf, x <| b_dev := dev |> <| b_blockno := n |> <| b_valid := 0 |> <| b_refcnt := 1 |>).
  set (w1 := w <| ks := _ |>).
  assert (w1 = on_bc (alter_buf f b) w) as ->.
  { subst w1. unfold on_bc, alter_buf. rsimpl. by rewrite !alter_alter. }
  erewrite bind_ok.
  2:{ apply acquiresleep_buf; [by apply thread_ok_on_bc|]. unfold on_bc, alter_buf. rsimpl.
      by rewrite (lookup_total_alter_field b_lock). }
  unfold mret, K_ret. rewrite on_bc_on_bc. unfold on_bc, alter_buf. rsimpl. by rewrite alter_alter.
Qed.
End runs.

(** ** The operations implement the abstract cache *)

Lemma cores_id_insert c b x : cores c !! b = Some x → cores c = <[b := x]> (cores c).
Proof. intros H. by rewrite list_insert_id. Qed.

Section spec.
Context `{DS : DiskSpec} (p : nat) (pid : Z).

(** The thread, the state outside the cache ([rest]), the driver and the cache. *)
Record bstate (A : acache) (R : kstate) (n : nat) (w : world) : Prop := {
  bs_thread : thread_ok p pid w;
  bs_rest : rest (ks w) = R;
  bs_ready : disk_ready n w;
  bs_rep : rep A pid (k_bcache (ks w)) (k_disk (ks w))
}.

Lemma bstate_le A R n m w : (m <= n)%nat → bstate A R n w → bstate A R m w.
Proof. intros Hm [H1 H2 H3 H4]. split; try done. by apply (disk_ready_le n). Qed.

#[global] Instance bstate_proper : Proper ((≡) ==> eq ==> eq ==> eq ==> iff) bstate.
Proof.
  intros A B E R ? <- n ? <- w ? <-. split; intros [H1 H2 H3 H4]; split; try done.
  - by rewrite <- E.
  - by rewrite E.
Qed.

(** A change of the cache alone. *)
Lemma bstate_on_bc A A' R n f w :
  bstate A R n w → rep A' pid (f (k_bcache (ks w))) (k_disk (ks w)) → bstate A' R n (on_bc f w).
Proof.
  intros [H1 H2 H3 H4] HR. split.
  - by apply thread_ok_on_bc.
  - done.
  - by apply (disk_ready_frame n w).
  - done.
Qed.

Lemma bstate_woken A R n ch w : bstate A R n w → bstate A R n (woken ch w).
Proof.
  intros [H1 H2 H3 H4]. split.
  - by apply thread_ok_woken.
  - done.
  - by apply (disk_ready_frame n w).
  - done.
Qed.

(** A change of the rest of the state. *)
Lemma bstate_rest A R n f w :
  bstate A R n w →
  (∀ k, k_bcache (f k) = k_bcache k ∧ k_disk (f k) = k_disk k ∧ k_vdisk (f k) = k_vdisk k
        ∧ k_procs (f k) = k_procs k ∧ rest (f k) = f (rest k)) →
  bstate A (f R) n (w <| ks ::= f |>).
Proof.
  intros [[T1 T2 T3 T4 T5] H2 H3 H4] Hf. destruct (Hf (ks w)) as (E1 & E2 & E3 & E4 & E5).
  assert (∀ g, ks (w <| ks ::= g |>) = g (ks w)) as Ek by done.
  split.
  - split; rewrite ?Ek; try done.
    + unfold procs_ok. by rewrite E4.
    + unfold get_proc. by rewrite E4.
  - rewrite Ek. rewrite E5, H2. done.
  - by apply (disk_ready_frame n w).
  - by rewrite Ek, E1, E2.
Qed.

(** What [bread] may be asked for: a block that the process has not locked, that
    is in use already or for which there is a buffer. *)
Definition can_read (A : acache) (n : Z) : Prop :=
  0 <= n < 2 ^ 31 ∧ a_lock A !! n = None ∧ default 0 (a_refs A !! n) + 1 < 2 ^ 32
  ∧ (is_Some (a_refs A !! n) ∨ (size (a_refs A) < HEAD)%nat).

(** The buffer [b] that [bget] has chosen, before [bread] fills it. *)
Lemma bread_finish A R m n b f x w :
  bstate A R (S m) w → cores (k_bcache (ks w)) !! b = Some x →
  bget ROOTDEV n w = Ok b (on_bc (alter_buf f b) w) →
  (∀ x, core (f x) = f (core x)) → links_same f →
  b_dev (f x) = ROOTDEV → b_blockno (f x) = n → b_refcnt (f x) = default 0 (a_refs A !! n) + 1 →
  b_lock (f x) = sl_taken pid → b_disk (f x) = 0 → length (b_data (f x)) = Z.to_nat BSIZE →
  (b_valid (f x) ≠ 0 → b_data (f x) = a_view A n) → (b_valid (f x) = 0 → a_refs A !! n = None) →
  (∀ j y, j ≠ b → cores (k_bcache (ks w)) !! j = Some y → bkey y ≠ Some n) →
  (∀ m, bkey x = Some m → m ≠ n → a_refs A !! m = None) →
  can_read A n →
  ∃ w', bread ROOTDEV n w = Ok b w' ∧ bstate (a_bread n b A) R m w'.
Proof.
  intros Hb Hx Hget Hcore Hlinks Hdev Hbno Href Hlk Hdk Hlen Hv1 Hv0 Hoth Hev (Hn & _ & Hr32 & _).
  pose proof (bs_rep _ _ _ _ Hb) as HR. destruct (r_lru _ _ _ _ HR) as [l Hl].
  assert (∀ g, (∀ x, core (g x) = g (core x)) → links_same g → g x = (f x) <| b_valid := b_valid (g x) |> <| b_data := a_view A n |> →
    b_valid (g x) ≠ 0 →
    rep (a_bread n b A) pid (alter_buf g b (k_bcache (ks w))) (k_disk (ks w))) as Hrep.
  { intros g Hgc Hgl Hg Hgv. assert (bkey (g x) = Some n) as Kg by (rewrite Hg; apply bkey_Some; by rsimpl).
    assert (b_refcnt (g x) = default 0 (a_refs A !! n) + 1) as Rg by (rewrite Hg; done).
    assert (0 <= default 0 (a_refs A !! n)) as Hr0.
    { destruct (a_refs A !! n) eqn:E; simpl; [|lia]. apply (r_refs _ _ _ _ HR) in E. lia. }
    eapply (rep_update A _ pid (k_bcache (ks w)) _ (k_disk (ks w)) _ b x (g x) n l); try done.
    - by apply cores_alter_insert.
    - by apply lru_alter_buf.
    - intros m' Hm'. simpl. by rewrite !lookup_insert_ne by done.
    - split; rewrite ?Kg; simpl; rewrite ?lookup_insert_eq; simpl.
      + done.
      + rewrite Hg. rsimpl. apply (r_len _ _ _ _ HR).
      + rewrite Hg. done.
      + intros ? [= <-]. done.
      + done.
      + intros ? [= <-] _. rewrite Hg. done.
      + rewrite decide_True by done. rewrite Hg. done.
    - intros r. simpl. rewrite lookup_insert_eq. intros [= <-]. lia.
    - intros i. simpl. rewrite !lookup_insert_eq. intros [= <-]. split; [done|eauto].
    - simpl. rewrite lookup_insert_eq. done.
    - apply (r_len _ _ _ _ HR).
    - apply (r_len _ _ _ _ HR).
    - apply (r_disk _ _ _ _ HR). }
  assert (bc_buf (alter_buf f b (k_bcache (ks w))) !! b = Some (f (bc_buf (k_bcache (ks w)) !!! b)) ∧
          core (bc_buf (k_bcache (ks w)) !!! b) = x) as [Hfb Hcx].
  { apply cores_lookup in Hx as (y & Hy & -> & Ey). rewrite Ey. split; [|done]. unfold alter_buf. rsimpl.
    by rewrite list_lookup_alter_eq, Hy. }
  set (y := bc_buf (k_bcache (ks w)) !!! b) in *.
  assert (∀ {B} (h : buf → B), (∀ x, h (core x) = h x) → h (f y) = h (f x)) as Hfld.
  { intros B h Hh. rewrite <- Hh, Hcore, Hcx. done. }
  unfold bread. rewrite (bind_ok _ _ _ _ _ Hget). erewrite bind_ok by reflexivity.
  assert (get_buf b (ks (on_bc (alter_buf f b) w)) = f y) as Eg.
  { unfold get_buf. change (k_bcache (ks (on_bc (alter_buf f b) w))) with (alter_buf f b (k_bcache (ks w))).
    by apply list_lookup_total_correct. }
  cbv beta. rewrite Eg, (Hfld _ b_valid) by done. destruct (Z.eqb_spec (b_valid (f x)) 0) as [E0|E0].
  2:{ erewrite bind_ok by reflexivity. eexists. split; [reflexivity|]. apply (bstate_le _ _ (S m)); [lia|].
      eapply bstate_on_bc; [done|]. apply Hrep; try done.
      rewrite <- Hv1 by done. by destruct (f x). }
  destruct (disk_rw_spec m p pid b false (on_bc (alter_buf f b) w) (f y)) as (w2 & E2 & Hrd & Hth & Hrs & Hc2 & Hd2).
  { by apply (disk_ready_frame (S m) w), Hb. }
  { apply thread_ok_on_bc, Hb. }
  { exact Hfb. }
  { change (k_bcache (ks (on_bc (alter_buf f b) w))) with (alter_buf f b (k_bcache (ks w))).
    apply (lru_len _ l). by apply lru_alter_buf. }
  { by rewrite (Hfld _ b_disk). }
  { by rewrite (Hfld _ b_blockno), Hbno. }
  unfold when. erewrite bind_ok.
  2:{ rewrite (bind_ok _ _ _ _ _ E2). apply upd_buf_run. }
  eexists. split; [reflexivity|]. split.
  - by apply thread_ok_on_bc.
  - unfold on_bc. change (rest (ks w2) = R). rewrite Hrs. apply Hb.
  - by apply (disk_ready_frame m w2).
  - change (k_bcache (ks (on_bc ?f w2))) with (f (k_bcache (ks w2))).
    change (k_disk (ks (on_bc ?f w2))) with (k_disk (ks w2)). rewrite Hc2, Hd2. simpl.
    change (k_bcache (ks (on_bc (alter_buf f b) w))) with (alter_buf f b (k_bcache (ks w))).
    rewrite !alter_buf_alter_buf. unfold io_disk. change (k_disk (ks (on_bc ?f w))) with (k_disk (ks w)).
    apply Hrep; try done.
    + intros z. rsimpl. rewrite <- Hcore. done.
    + rsimpl. rewrite (proj1 (r_disk _ _ _ _ HR)), Hbno, (r_clean _ _ _ _ HR) by auto. done.
Qed.

Lemma bread_spec A R m n w :
  bstate A R (S m) w → can_read A n →
  ∃ b w', bread ROOTDEV n w = Ok b w' ∧ bstate (a_bread n b A) R m w'.
Proof.
  intros Hb Hcan. pose proof Hcan as (Hn & Hlk & Hr32 & Hbuf).
  pose proof (bs_rep _ _ _ _ Hb) as HR. destruct (r_lru _ _ _ _ HR) as [l Hl].
  set (c := k_bcache (ks w)) in *.
  assert (∀ b, b ∈ l → ∃ y, bc_buf c !!! b = y ∧ cores c !! b = Some (core y)) as Hin.
  { intros b Hbl. apply (lru_in _ _ _ Hl) in Hbl. rewrite <- (lru_len _ _ Hl) in Hbl.
    apply lookup_lt_is_Some_2 in Hbl as [y Hy]. exists y. split; [by apply list_lookup_total_correct|].
    apply cores_lookup. exists y. split; [done|]. split; [done|]. by apply list_lookup_total_correct. }
  destruct (first (caches c ROOTDEV n) l) as [b|] eqn:Ef.
  - destruct (first_Some _ _ _ Ef) as [Hbl [Hc1 Hc2]]. destruct (Hin b Hbl) as (y & Ey & Hy). rewrite Ey in *.
    assert (bkey (core y) = Some n) as Ky by (by apply bkey_Some).
    pose proof (r_bufs _ _ _ _ HR b _ Hy) as [H1 H2 H3 H4 H5 H6 H7]. rewrite Ky in *. simpl in H1, H7. rewrite Hlk in H7.
    rewrite decide_False in H7 by done. exists b.
    assert (0 <= default 0 (a_refs A !! n)) as Hr0.
    { destruct (a_refs A !! n) eqn:E; simpl; [|lia]. apply (r_refs _ _ _ _ HR) in E. lia. }
    eapply (bread_finish A R m n b (λ x, x <| b_refcnt ::= λ r, u32 (r + 1) |> <| b_lock := sl_taken pid |>) (core y)); try done.
    + apply (bget_hit p pid _ _ _ l); [apply Hb|done|done|]. fold c. by rewrite Ey.
    + rsimpl. change (b_refcnt (core y)) with (b_refcnt y). rewrite H1. apply u32_small. lia.
    + intros Hv. by apply H6.
    + intros Hv. rsimpl in Hv. destruct (decide (b_refcnt y = 0)) as [E|E]; [|by destruct (H5 E)].
      destruct (a_refs A !! n) as [r|] eqn:Er; [|done]. apply (r_refs _ _ _ _ HR) in Er.
      simpl in H1. rewrite H1 in E. lia.
    + by apply (rep_other A pid c (k_disk (ks w)) b (core y)).
    + intros m' Km Hne. congruence.
  - assert (∀ j y, cores c !! j = Some y → bkey y ≠ Some n) as Hno.
    { intros j y Hy [K1 K2]%bkey_Some. apply cores_lookup in Hy as (z & Hz & -> & Ez).
      apply (first_None _ _ j Ef).
      - apply (lru_in _ _ _ Hl). rewrite <- (lru_len _ _ Hl). by eapply lookup_lt_Some.
      - unfold caches. by rewrite Ez. }
    assert (a_refs A !! n = None) as Hrn.
    { destruct (a_refs A !! n) eqn:E; [|done]. destruct (r_refs _ _ _ _ HR _ _ E) as (_ & i & y & Hy & Ky).
      by destruct (Hno i y Hy). }
    destruct Hbuf as [[? ?]|Hsz]; [congruence|].
    destruct (first (unused c) (reverse l)) as [b|] eqn:Eu.
    2:{ exfalso. assert (HEAD <= size (a_refs A))%nat; [|lia]. apply (rep_pigeonhole _ _ _ _ HR). intros i x Hx E. apply cores_lookup in Hx as (z & Hz & -> & Ez).
        apply (first_None _ _ i Eu).
        - rewrite elem_of_reverse. apply (lru_in _ _ _ Hl). rewrite <- (lru_len _ _ Hl). by eapply lookup_lt_Some.
        - unfold unused. by rewrite Ez. }
    destruct (first_Some _ _ _ Eu) as [Hbl Hun]. rewrite elem_of_reverse in Hbl.
    destruct (Hin b Hbl) as (y & Ey & Hy). unfold unused in Hun. rewrite Ey in Hun.
    pose proof (r_bufs _ _ _ _ HR b _ Hy) as [H1' H2 H3 H4 H5 H6 H7].
    assert (∀ m, bkey (core y) = Some m → a_refs A !! m = None) as Hfree.
    { intros m' Km. rewrite Km in H1'. simpl in H1'. destruct (a_refs A !! m') as [r|] eqn:Er; [|done].
      apply (r_refs _ _ _ _ HR) in Er. simpl in H1'. change (b_refcnt (core y)) with (b_refcnt y) in H1'. lia. }
    assert (sl_locked (b_lock y) = 0) as Hsl.
    { rewrite decide_False in H7; [done|]. destruct (bkey (core y)) as [m'|] eqn:Km; [|done]. simpl. intros E.
      apply (r_lock _ _ _ _ HR) in E as [[? E] _]. rewrite (Hfree m') in E by done. done. }
    exists b. eapply (bread_finish A R m n b (λ x, x <| b_dev := ROOTDEV |> <| b_blockno := n |> <| b_valid := 0 |>
                                      <| b_refcnt := 1 |> <| b_lock := sl_taken pid |>) (core y)); try done.
    + apply (bget_miss p pid _ _ _ l); [apply Hb|done|done|done|]. fold c. by rewrite Ey.
    + rsimpl. by rewrite Hrn.
    + intros j z _ Hz. by apply (Hno j).
    + intros m' Km _. by apply Hfree.
Qed.

(** The buffer of a locked block changes, together with the block. *)
Lemma rep_locked_update A A' c c' d d' n b x x' l' :
  rep A pid c d → a_lock A !! n = Some b → cores c !! b = Some x → cores c' = <[b := x']> (cores c) → lru c' l' →
  bkey x' = Some n → agree_off n A A' → buf_rep A' pid b x' →
  (∀ r, a_refs A' !! n = Some r → 0 < r < 2 ^ 32) →
  (∀ i, a_lock A' !! n = Some i → i = b ∧ is_Some (a_refs A' !! n)) →
  (a_refs A' !! n = None → a_view A' n = a_disk A' n) →
  length (a_view A' n) = Z.to_nat BSIZE → length (a_disk A' n) = Z.to_nat BSIZE →
  disk_is A' d' → rep A' pid c' d'.
Proof.
  intros HR Hlk Hx **. destruct (rep_locked _ _ _ _ _ _ HR Hlk) as (x0 & r & Hx0 & Kx & _).
  assert (x0 = x) as -> by congruence.
  eapply (rep_update A A' pid c c' d d' b x x' n l'); try done.
  - by apply (rep_other A pid c d b x).
  - intros m Km Hm. congruence.
Qed.

(** The data that a holder of the block reads. *)
Lemma bstate_data A R m n b w :
  bstate A R m w → a_lock A !! n = Some b →
  b_data (get_buf b (ks w)) = a_view A n ∧ b_blockno (get_buf b (ks w)) = n.
Proof.
  intros Hb Hlk. destruct (rep_locked _ _ _ _ _ _ (bs_rep _ _ _ _ Hb) Hlk)
    as (x & r & Hx & [_ Kx]%bkey_Some & _ & _ & _ & _ & Hd & _).
  apply cores_lookup in Hx as (y & Hy & -> & Ey). unfold get_buf. rewrite Ey. done.
Qed.

(** Storing into [b->data]. *)
Lemma store_spec A R m n b f w :
  bstate A R m w → a_lock A !! n = Some b → length (f (a_view A n)) = Z.to_nat BSIZE →
  ∃ w', modify (upd_buf b (λ x, x <| b_data ::= f |>)) w = Ok () w'
    ∧ bstate (a_store n (f (a_view A n)) A) R m w'.
Proof.
  intros Hb Hlk Hlen. rewrite upd_buf_run. eexists. split; [reflexivity|]. eapply bstate_on_bc; [done|].
  pose proof (bs_rep _ _ _ _ Hb) as HR. destruct (r_lru _ _ _ _ HR) as [l Hl].
  destruct (rep_locked _ _ _ _ _ _ HR Hlk) as (x & r & Hx & Kx & Hr & Hr0 & Hrc & Hv & Hd & Hl' & Hdk & Hn & _).
  assert (bkey (x <| b_data ::= f |>) = Some n) as Kx' by done.
  eapply (rep_locked_update A _ _ _ _ _ n b x (x <| b_data ::= f |>) l); try done.
  - by apply cores_alter_insert.
  - by apply lru_alter_buf.
  - intros m' Hm. simpl. by rewrite fn_lookup_insert_ne by done.
  - split; rewrite ?Kx'; simpl; try done.
    + by rewrite Hr.
    + rewrite Hd. done.
    + by intros ? [= <-].
    + intros ? [= <-] _. by rewrite fn_lookup_insert, Hd.
    + by rewrite Hlk, decide_True.
  - intros r' Hr'. simpl in Hr'. rewrite Hr in Hr'. injection Hr' as <-. lia.
  - intros i. simpl. rewrite Hlk. intros [= <-]. eauto.
  - simpl. by rewrite Hr.
  - simpl. by rewrite fn_lookup_insert.
  - apply (r_len _ _ _ _ HR).
  - apply (r_disk _ _ _ _ HR).
Qed.

Lemma bwrite_spec A R m n b w :
  bstate A R (S m) w → a_lock A !! n = Some b →
  ∃ w', bwrite b w = Ok () w' ∧ bstate (a_bwrite n A) R m w'.
Proof.
  intros Hb Hlk. pose proof (bs_rep _ _ _ _ Hb) as HR. destruct (r_lru _ _ _ _ HR) as [l Hl].
  destruct (rep_locked _ _ _ _ _ _ HR Hlk) as (x & r & Hx & Kx & Hr & Hr0 & Hrc & Hv & Hd & Hl' & Hdk & Hn & _).
  pose proof Hx as Hx2. apply cores_lookup in Hx2 as (y & Hy & -> & Ey).
  unfold bwrite. erewrite bind_ok by (apply (holdingsleep_buf p pid); [apply Hb|by rewrite Ey]).
  erewrite bind_ok by reflexivity. apply bkey_Some in Kx as Kx2. destruct Kx2 as [_ Kx2].
  destruct (disk_rw_spec m p pid b true w y) as (w2 & E2 & Hrd & Hth & Hrs & Hc2 & Hd2);
    [apply Hb|apply Hb|done|apply (lru_len _ _ Hl)|done|by change (b_blockno y) with (b_blockno (core y)); rewrite Kx2|].
  exists w2. split; [done|]. split; [done|by rewrite Hrs; apply Hb|done|].
  rewrite Hc2, Hd2. unfold io_cache, io_disk. rewrite Ey.
  eapply (rep_locked_update A _ _ _ _ _ n b (core y) (core y) l); try done.
  - by apply cores_id_insert.
  - intros m' Hm. simpl. by rewrite fn_lookup_insert_ne by done.
  - pose proof (r_bufs _ _ _ _ HR b _ Hx) as [? ? ? ? ? ? ?]. by split.
  - intros r' Hr'. simpl in Hr'. rewrite Hr in Hr'. injection Hr' as <-. lia.
  - intros i. simpl. rewrite Hlk. intros [= <-]. eauto.
  - simpl. by rewrite Hr.
  - apply (r_len _ _ _ _ HR).
  - simpl. rewrite fn_lookup_insert. apply (r_len _ _ _ _ HR).
  - change (b_data y) with (b_data (core y)). change (b_blockno y) with (b_blockno (core y)). rewrite Hd, Kx2.
    destruct (r_disk _ _ _ _ HR) as [D1 D2]. split; simpl; [|by rewrite D2].
    intros k. destruct (decide (n = k)) as [->|?]; [by rewrite !fn_lookup_insert|by rewrite !fn_lookup_insert_ne].
Qed.

(** The last reference moves the buffer to the front. *)
Definition drop_ref (b : nat) (c : bcache) : bcache :=
  let c := alter_buf (λ x, x <| b_refcnt ::= λ r, u32 (r - 1) |>) b c in
  if b_refcnt (bc_buf c !!! b) =? 0 then to_front b c else c.

Lemma brelse_run b w :
  thread_ok p pid w → b_lock (bc_buf (k_bcache (ks w)) !!! b) = sl_taken pid →
  brelse b w = Ok () (on_bc (drop_ref b) (woken (ChSleep (SLBuf b)) (on_bc (alter_buf (λ x, x <| b_lock := sl_free |>) b) w))).
Proof.
  intros Hw Hl. unfold brelse. erewrite bind_ok by (by apply (holdingsleep_buf p pid)).
  erewrite bind_ok by reflexivity. rewrite (bind_ok _ _ _ _ _ (releasesleep_buf p pid _ _ Hw)).
  set (w1 := woken _ _).
  assert (thread_ok p pid w1) as Hw1 by (by apply thread_ok_woken, thread_ok_on_bc).
  assert (LBcache ∉ held w1) as Hlk by (by eapply thread_not_held).
  rewrite (bind_ok _ _ _ _ _ (acquire_free _ _ Hlk)). rewrite (bind_ok _ _ _ _ _ (upd_buf_run _ _ _)).
  erewrite bind_ok by reflexivity. cbv beta. set (f := λ x : buf, x <| b_refcnt ::= λ r, u32 (r - 1) |>).
  set (w2 := on_bc (alter_buf f b) _). change (get_buf b (ks w2)) with (bc_buf (alter_buf f b (k_bcache (ks w1))) !!! b).
  change (on_bc (drop_ref b) w1) with (w1 <| ks := (ks w1) <| k_bcache := drop_ref b (k_bcache (ks w1)) |> |>).
  unfold drop_ref. fold f. cbv zeta.
  destruct (Z.eqb_spec (b_refcnt (bc_buf (alter_buf f b (k_bcache (ks w1))) !!! b)) 0) as [E|E].
  - unfold when. erewrite bind_ok.
    2:{ do 5 (rewrite (bind_ok _ _ _ _ _ (modify_bc_run _ _))). rewrite modify_bc_run, !on_bc_on_bc. reflexivity. }
    etrans; [exact (locked_section LBcache w1 _ Hlk)|]. reflexivity.
  - erewrite bind_ok by reflexivity. exact (locked_section LBcache w1 _ Hlk).
Qed.

Lemma drop_ref_cores b c x :
  cores c !! b = Some x → cores (drop_ref b c) = <[b := x <| b_refcnt ::= λ r, u32 (r - 1) |>]> (cores c).
Proof.
  intros Hx. unfold drop_ref. case_match; rewrite ?cores_to_front; by apply cores_alter_insert.
Qed.

Lemma drop_ref_lru b c l : lru c l → (b < HEAD)%nat → ∃ l', lru (drop_ref b c) l'.
Proof.
  intros Hl Hb. unfold drop_ref.
  assert (lru (alter_buf (λ x, x <| b_refcnt ::= λ r, u32 (r - 1) |>) b c) l) as Hl1 by (by apply lru_alter_buf).
  case_match; [|eauto]. apply (lru_in _ _ _ Hl) in Hb. apply list_elem_of_split in Hb as (l1 & l2 & ->).
  eexists. by apply lru_to_front.
Qed.

Lemma brelse_spec A R m n b w :
  bstate A R m w → a_lock A !! n = Some b →
  (a_refs A !! n = Some 1 → a_view A n = a_disk A n) →
  ∃ w', brelse b w = Ok () w' ∧ bstate (a_brelse n A) R m w'.
Proof.
  intros Hb Hlk Hcl. pose proof (bs_rep _ _ _ _ Hb) as HR. destruct (r_lru _ _ _ _ HR) as [l Hl].
  destruct (rep_locked _ _ _ _ _ _ HR Hlk) as (x & r & Hx & Kx & Hr & Hr0 & Hrc & Hv & Hd & Hl' & Hdk & Hn & Hbl).
  pose proof Hx as Hx2. apply cores_lookup in Hx2 as (y & Hy & -> & Ey).
  rewrite brelse_run; [|apply Hb|by rewrite Ey]. eexists. split; [reflexivity|].
  set (g := alter_buf (λ x, x <| b_lock := sl_free |>) b).
  assert (rest (ks (on_bc (drop_ref b) (woken (ChSleep (SLBuf b)) (on_bc g w)))) = R) as HRr by apply Hb.
  split; [by apply thread_ok_on_bc, thread_ok_woken, thread_ok_on_bc, Hb|done| |].
  { apply (disk_ready_frame m w); [done|done|apply Hb]. }
  change (rep (a_brelse n A) pid (drop_ref b (g (k_bcache (ks w)))) (k_disk (ks w))).
  set (x' := (core y) <| b_lock := sl_free |> <| b_refcnt ::= λ r, u32 (r - 1) |>).
  assert (cores (g (k_bcache (ks w))) = <[b := (core y) <| b_lock := sl_free |>]> (cores (k_bcache (ks w)))) as Eg.
  { unfold g. by apply (cores_alter_insert (λ x, x <| b_lock := sl_free |>)). }
  assert (cores (drop_ref b (g (k_bcache (ks w)))) = <[b := x']> (cores (k_bcache (ks w)))) as Ed.
  { erewrite drop_ref_cores.
    2:{ rewrite Eg. apply list_lookup_insert_eq. by eapply lookup_lt_Some. }
    rewrite Eg, list_insert_insert_eq. done. }
  destruct (drop_ref_lru b (g (k_bcache (ks w))) l) as [l' Hl2]; [by apply lru_alter_buf|done|].
  assert (b_refcnt x' = r - 1) as Rx. { subst x'. rsimpl. rewrite Hrc. apply u32_small. lia. }
  assert (a_refs (a_brelse n A) !! n = if decide (r = 1) then None else Some (r - 1)) as Rn.
  { unfold a_brelse, a_add_ref. simpl. rewrite Hr. simpl. destruct (decide (r = 1)) as [->|?].
    - rewrite decide_True by lia. by rewrite lookup_delete_eq.
    - rewrite decide_False by lia. rewrite lookup_insert_eq. f_equal. }
  assert (a_lock (a_brelse n A) !! n = None) as Ln by (unfold a_brelse, a_add_ref; simpl; by rewrite lookup_delete_eq).
  eapply (rep_locked_update A _ _ _ _ _ n b (core y) x' l'); try done.
  - intros m' Hm. destruct (a_add_ref_agree n (-1) A m' Hm) as (E1 & E2 & E3 & E4).
    split; [done|]. split; [done|]. split; [done|]. simpl. by rewrite lookup_delete_ne.
  - assert (bkey x' = Some n) as Kx' by done.
    split; rewrite ?Kx'; cbn [mbind option_bind]; rewrite ?Rn, ?Ln; try done.
    + rewrite Rx. case_decide; simpl; lia.
    + apply (br_len _ _ _ _ (r_bufs _ _ _ _ HR b _ Hx)).
    + intros ? [= <-]. done.
    + intros ? [= <-] _. done.
  - intros r'. rewrite Rn. case_decide; [done|]. intros [= <-]. lia.
  - intros i. by rewrite Ln.
  - rewrite Rn. destruct (decide (r = 1)) as [E|?]; [|done]. intros _. apply Hcl. by rewrite Hr, E.
  - apply (r_len _ _ _ _ HR).
  - apply (r_len _ _ _ _ HR).
  - apply (r_disk _ _ _ _ HR).
Qed.

(** [bpin] and [bunpin] on a block that is locked, hence in use. *)
Lemma add_ref_spec A R m n b d f w :
  bstate A R m w → a_lock A !! n = Some b →
  0 < default 0 (a_refs A !! n) + d < 2 ^ 32 →
  (∀ r, 0 < r < 2 ^ 32 → a_refs A !! n = Some r → f r = r + d) →
  bstate (a_add_ref n d A) R m (on_bc (alter_buf (λ x, x <| b_refcnt ::= f |>) b) w).
Proof.
  intros Hb Hlk Hrd Hf. pose proof (bs_rep _ _ _ _ Hb) as HR. destruct (r_lru _ _ _ _ HR) as [l Hl].
  destruct (rep_locked _ _ _ _ _ _ HR Hlk) as (x & r & Hx & Kx & Hr & Hr0 & Hrc & Hv & Hd & Hl' & Hdk & Hn & Hbl).
  eapply bstate_on_bc; [done|]. rewrite Hr in Hrd. simpl in Hrd.
  assert (a_refs (a_add_ref n d A) !! n = Some (r + d)) as Rn.
  { unfold a_add_ref. simpl. rewrite Hr. simpl. rewrite decide_False by lia. by rewrite lookup_insert_eq. }
  eapply (rep_locked_update A _ _ _ _ _ n b x (x <| b_refcnt ::= f |>) l); try done.
  - by apply cores_alter_insert.
  - by apply lru_alter_buf.
  - apply a_add_ref_agree.
  - assert (bkey (x <| b_refcnt ::= f |>) = Some n) as Kx' by done.
    split; rewrite ?Kx'; cbn [mbind option_bind]; rewrite ?Rn; try done.
    + simpl. rewrite Hrc. by apply Hf.
    + apply (br_len _ _ _ _ (r_bufs _ _ _ _ HR b _ Hx)).
    + intros ? [= <-]. done.
    + intros ? [= <-] _. done.
    + simpl. by rewrite Hlk, decide_True.
  - intros r'. rewrite Rn. intros [= <-]. lia.
  - intros i. simpl. rewrite Hlk. intros [= <-]. split; [done|]. change (is_Some (a_refs (a_add_ref n d A) !! n)). rewrite Rn. eauto.
  - by rewrite Rn.
  - apply (r_len _ _ _ _ HR).
  - apply (r_len _ _ _ _ HR).
  - apply (r_disk _ _ _ _ HR).
Qed.

Lemma bpin_spec A R m n b w :
  bstate A R m w → a_lock A !! n = Some b → default 0 (a_refs A !! n) + 1 < 2 ^ 32 →
  ∃ w', bpin b w = Ok () w' ∧ bstate (a_add_ref n 1 A) R m w'.
Proof.
  intros Hb Hlk Hr. unfold bpin. rewrite lock_modify by (eapply thread_not_held, Hb).
  eexists. split; [reflexivity|]. pose proof (rep_locked _ _ _ _ _ _ (bs_rep _ _ _ _ Hb) Hlk) as (x & r & _ & _ & Er & ? & _).
  rewrite Er in Hr. simpl in Hr. eapply add_ref_spec; [done|done|rewrite Er; simpl; lia|].
  intros r' ? Er'. rewrite Er in Er'. injection Er' as <-. apply u32_small. lia.
Qed.

Lemma bunpin_spec A R m n b w :
  bstate A R m w → a_lock A !! n = Some b → 1 < default 0 (a_refs A !! n) →
  ∃ w', bunpin b w = Ok () w' ∧ bstate (a_add_ref n (-1) A) R m w'.
Proof.
  intros Hb Hlk Hr. unfold bunpin. rewrite lock_modify by (eapply thread_not_held, Hb).
  eexists. split; [reflexivity|]. pose proof (rep_locked _ _ _ _ _ _ (bs_rep _ _ _ _ Hb) Hlk) as (x & r & _ & _ & Er & ? & _).
  rewrite Er in Hr. simpl in Hr. eapply add_ref_spec; [done|done|rewrite Er; simpl; lia|].
  intros r' ? Er'. rewrite Er in Er'. injection Er' as <-. apply u32_small. lia.
Qed.
End spec.

(** ** Initialisation *)

(** The state right after boot: nothing cached, nothing in use. *)
Definition fresh (d : Z → list Z) (h : list (Z * list Z)) : acache := MkA d d h ∅ ∅.

(** Buffers that cache no block of the root device, as zeroed memory is. *)
Definition unused_buf (x : buf) : Prop :=
  b_dev x ≠ ROOTDEV ∧ b_refcnt x = 0 ∧ b_disk x = 0 ∧ length (b_data x) = Z.to_nat BSIZE.

Lemma binit_rep pid w :
  length (bc_buf (k_bcache (ks w))) = HEAD → Forall unused_buf (bc_buf (k_bcache (ks w))) →
  (∀ n, length (d_blocks (k_disk (ks w)) n) = Z.to_nat BSIZE) →
  ∃ c, binit w = Ok () (on_bc (λ _, c) w)
    ∧ rep (fresh (d_blocks (k_disk (ks w))) (d_hist (k_disk (ks w)))) pid c (k_disk (ks w)).
Proof.
  intros Hlen Hun Hd. destruct (binit_run w Hlen) as (c & E & Hl & Hc). exists c. split; [done|].
  assert (∀ i x, cores c !! i = Some x → bkey x = None ∧ b_refcnt x = 0 ∧ b_disk x = 0
            ∧ length (b_data x) = Z.to_nat BSIZE ∧ b_lock x = sl_free) as Hx.
  { intros i x. rewrite Hc, list_lookup_fmap. destruct (cores _ !! i) as [y|] eqn:Ey; [|done]. intros [= <-].
    apply cores_lookup in Ey as (z & Hz & -> & _). eapply Forall_lookup_1 in Hun as (U1 & U2 & U3 & U4); [|done].
    rsimpl. split; [|done]. unfold bkey. rsimpl. by rewrite decide_False. }
  split.
  - eauto.
  - intros i x Hi. destruct (Hx i x Hi) as (X1 & X2 & X3 & X4 & X5).
    split; rewrite ?X1; simpl; try done. rewrite X5. done.
  - intros i j x y n Hi _ Kx. destruct (Hx i x Hi) as [X1 _]. congruence.
  - intros n r. simpl. by rewrite lookup_empty.
  - intros n i. simpl. by rewrite lookup_empty.
  - done.
  - intros n. simpl. by rewrite Hd.
  - done.
Qed.

(** ** A driver that transfers at once *)

Definition sync_rw : DiskDriver := λ b write w,
  Ok () (w <| ks ::= λ k, k <| k_bcache := io_cache b write (k_bcache k) (k_disk k) |>
                            <| k_disk := io_disk b write (k_bcache k) (k_disk k) |> |>).

Definition sync_spec : @DiskSpec sync_rw.
Proof.
  refine {| disk_ready := λ _ _, True |}; [done|done|].
  intros n p pid b write w x _ [T1 T2 T3 T4 T5] _ _ _ _. eexists. split; [reflexivity|].
  split; [done|]. split; [by split|]. done.
Defined.

(** ** Theorems *)

(** [binit] turns zeroed buffers into the empty cache: the circular list is
    well formed, every sleep-lock is free, no block is in use, and every block
    reads as the disk has it. *)
Theorem binit_refines (pid : Z) (w : world) :
  length (bc_buf (k_bcache (ks w))) = HEAD → Forall unused_buf (bc_buf (k_bcache (ks w))) →
  (∀ n, length (d_blocks (k_disk (ks w)) n) = Z.to_nat BSIZE) →
  ∃ w', binit w = Ok () w' ∧ w' = on_bc (λ _, k_bcache (ks w')) w
    ∧ rep (fresh (d_blocks (k_disk (ks w))) (d_hist (k_disk (ks w)))) pid (k_bcache (ks w')) (k_disk (ks w')).
Proof. intros H1 H2 H3. destruct (binit_rep pid w H1 H2 H3) as (c & E & HR). eexists. split; [exact E|]. done. Qed.

(** C3: [bread] of any block not locked by the caller, as long as some buffer
    is unused or the block is cached, returns a buffer locked by the caller whose
    data are the block's current contents, whether it was cached, recycled from
    the least recently used end or read from the disk; recycling loses no
    contents of any block, the disk is not written, and the cache again
    represents the abstract one with a reference and a lock more. *)
Theorem bread_refines `{DS : DiskSpec} (p : nat) (pid : Z) (A : acache) (R : kstate) (m : nat) (n : Z) (w : world) :
  bstate p pid A R (S m) w → can_read A n →
  ∃ b w', bread ROOTDEV n w = Ok b w' ∧ bstate p pid (a_bread n b A) R m w'
    ∧ b_data (get_buf b (ks w')) = a_view A n ∧ b_blockno (get_buf b (ks w')) = n
    ∧ b_lock (get_buf b (ks w')) = sl_taken pid.
Proof.
  intros Hb Hc. destruct (bread_spec p pid A R m n w Hb Hc) as (b & w' & E & S'). exists b, w'.
  split; [done|]. split; [done|].
  assert (a_lock (a_bread n b A) !! n = Some b) as Hlk by (simpl; by rewrite lookup_insert_eq).
  destruct (bstate_data p pid _ _ _ _ _ _ S' Hlk) as [E1 E2]. split; [done|]. split; [done|].
  destruct (rep_locked _ _ _ _ _ _ (bs_rep _ _ _ _ _ _ S') Hlk) as (x & r & Hx & _ & _ & _ & _ & _ & _ & Hl & _).
  apply cores_lookup in Hx as (y & _ & -> & Ey). unfold get_buf. by rewrite Ey.
Qed.

(** C4: [bwrite] of a locked block makes its contents the disk's and appends
    exactly one write to the disk's history; [brelse] then gives the block back:
    the caller's lock and reference are gone, and a buffer that nobody uses any
    more is moved to the front of the list, contents and list intact. *)
Theorem bwrite_brelse_refines `{DS : DiskSpec} (p : nat) (pid : Z) (A : acache) (R : kstate) (m : nat) (n : Z) (b : nat) (w : world) :
  bstate p pid A R (S m) w → a_lock A !! n = Some b →
  ∃ w', (bwrite b;; brelse b) w = Ok () w' ∧ bstate p pid (a_brelse n (a_bwrite n A)) R m w'
    ∧ d_blocks (k_disk (ks w')) n = a_view A n
    ∧ d_hist (k_disk (ks w')) = (n, a_view A n) :: d_hist (k_disk (ks w)).
Proof.
  intros Hb Hlk. destruct (bwrite_spec p pid A R m n b w Hb Hlk) as (w1 & E1 & S1).
  rewrite (bind_ok _ _ _ _ _ E1).
  destruct (brelse_spec p pid _ R m n b w1 S1 Hlk) as (w2 & E2 & S2); [intros _; simpl; by rewrite fn_lookup_insert|].
  exists w2. split; [done|]. split; [done|].
  destruct (r_disk _ _ _ _ (bs_rep _ _ _ _ _ _ S2)) as [-> ->].
  destruct (r_disk _ _ _ _ (bs_rep _ _ _ _ _ _ Hb)) as [_ ->]. simpl. by rewrite fn_lookup_insert.
Qed.

(** ** Witnesses *)

(** The world after a run that returns. *)
Definition after {A} (m : K A) (w : world) : world := match m w with Ok _ w' => w' | _ => w end.

Definition bio_demo0 : world := MkWorld boot_kstate ∅ (Some 0%nat) [].
Definition bio_demo : world := after binit bio_demo0.
Definition zero_blocks : Z → list Z := λ _, replicate 1024 0.

Lemma boot_bufs_unused : Forall unused_buf (bc_buf (k_bcache boot_kstate)).
Proof. apply Forall_replicate. by repeat split. Qed.

Lemma binit_refines_witness :
  ∃ w', binit bio_demo0 = Ok () w' ∧ rep (fresh zero_blocks []) 0 (k_bcache (ks w')) (k_disk (ks w')).
Proof.
  destruct (binit_refines 0 bio_demo0) as (w' & E & _ & HR).
  - reflexivity.
  - exact boot_bufs_unused.
  - intros n. reflexivity.
  - exists w'. split; [exact E|exact HR].
Defined.

Lemma bio_demo_ok m : @bstate sync_rw sync_spec 0 0 (fresh zero_blocks []) (rest boot_kstate) m bio_demo.
Proof.
  destruct (binit_rep 0 bio_demo0) as (c & E & HR); [reflexivity|exact boot_bufs_unused|done|].
  unfold bio_demo, after. rewrite E. split; [|done|done|exact HR].
  split; [done|done|done|by vm_compute; lia|done].
Qed.
#[global] Opaque bio_demo.

Lemma bread_refines_witness :
  ∃ b w', @bread sync_rw ROOTDEV 45 bio_demo = Ok b w' ∧ b_blockno (get_buf b (ks w')) = 45.
Proof.
  destruct (@bread_refines sync_rw sync_spec 0 0 (fresh zero_blocks []) (rest boot_kstate) 0 45 bio_demo)
    as (b & w' & E & _ & _ & Hn & _).
  - apply bio_demo_ok.
  - split; [lia|]. split; [reflexivity|]. split; [reflexivity|]. right. vm_compute. lia.
  - exists b, w'. split; [exact E|exact Hn].
Defined.

Lemma bwrite_brelse_refines_witness :
  ∃ b w w', (@bwrite sync_rw b;; brelse b) w = Ok () w' ∧ length (d_hist (k_disk (ks w'))) = 1%nat.
Proof.
  destruct (@bread_spec sync_rw sync_spec 0 0 (fresh zero_blocks []) (rest boot_kstate) 1 45 bio_demo)
    as (b & w & E & Hw).
  { apply bio_demo_ok. }
  { split; [lia|]. split; [reflexivity|]. split; [reflexivity|]. right. vm_compute. lia. }
  destruct (@bwrite_brelse_refines sync_rw sync_spec 0 0 _ _ 0 45 b w Hw) as (w' & E' & _ & _ & Hh).
  - reflexivity.
  - exists b, w, w'. split; [exact E'|]. rewrite Hh, (proj2 (r_disk _ _ _ _ (bs_rep _ _ _ _ _ _ Hw))). reflexivity.
Defined.
