(* ===== verification/VirtioDisk.v ===== *)
(** * kernel/virtio_disk.c

    The driver for the virtio block device: descriptors, the available and the
    used ring, and the completion interrupt.  The device itself is not kernel
    code: what it reads from its registers is the parameter [mmio_read], a
    function of the register writes so far, and its effect on the rings and on
    the disk is a step of the schedule (VirtioSpec.v states what is assumed of
    it). *)

From S2P Require Import Prelude Memory CString Kernel Kalloc Sched Bio.

(** virtio.h *)
Definition VIRTIO_MMIO_MAGIC_VALUE : Z := 0x000.
Definition VIRTIO_MMIO_VERSION : Z := 0x004.
Definition VIRTIO_MMIO_DEVICE_ID : Z := 0x008.
Definition VIRTIO_MMIO_VENDOR_ID : Z := 0x00c.
Definition VIRTIO_MMIO_DEVICE_FEATURES : Z := 0x010.
Definition VIRTIO_MMIO_DRIVER_FEATURES : Z := 0x020.
Definition VIRTIO_MMIO_QUEUE_SEL : Z := 0x030.
Definition VIRTIO_MMIO_QUEUE_NUM_MAX : Z := 0x034.
Definition VIRTIO_MMIO_QUEUE_NUM : Z := 0x038.
Definition VIRTIO_MMIO_QUEUE_READY : Z := 0x044.
Definition VIRTIO_MMIO_QUEUE_NOTIFY : Z := 0x050.
Definition VIRTIO_MMIO_INTERRUPT_STATUS : Z := 0x060.
Definition VIRTIO_MMIO_INTERRUPT_ACK : Z := 0x064.
Definition VIRTIO_MMIO_STATUS : Z := 0x070.
Definition VIRTIO_MMIO_QUEUE_DESC_LOW : Z := 0x080.
Definition VIRTIO_MMIO_QUEUE_DESC_HIGH : Z := 0x084.
Definition VIRTIO_MMIO_DRIVER_DESC_LOW : Z := 0x090.
Definition VIRTIO_MMIO_DRIVER_DESC_HIGH : Z := 0x094.
Definition VIRTIO_MMIO_DEVICE_DESC_LOW : Z := 0x0a0.
Definition VIRTIO_MMIO_DEVICE_DESC_HIGH : Z := 0x0a4.
Definition VIRTIO_CONFIG_S_ACKNOWLEDGE : Z := 1.
Definition VIRTIO_CONFIG_S_DRIVER : Z := 2.
Definition VIRTIO_CONFIG_S_DRIVER_OK : Z := 4.
Definition VIRTIO_CONFIG_S_FEATURES_OK : Z := 8.
Definition VIRTIO_BLK_F_RO : Z := 5.
Definition VIRTIO_BLK_F_SCSI : Z := 7.
Definition VIRTIO_BLK_F_CONFIG_WCE : Z := 11.
Definition VIRTIO_BLK_F_MQ : Z := 12.
Definition VIRTIO_F_ANY_LAYOUT : Z := 27.
Definition VIRTIO_RING_F_INDIRECT_DESC : Z := 28.
Definition VIRTIO_RING_F_EVENT_IDX : Z := 29.
Definition NUM : Z := 8.
Definition VRING_DESC_F_NEXT : Z := 1.
Definition VRING_DESC_F_WRITE : Z := 2.
Definition VIRTIO_BLK_T_IN : Z := 0.
Definition VIRTIO_BLK_T_OUT : Z := 1.

#[global] Instance virtq_desc_inhabited : Inhabited virtq_desc := populate (MkDesc DmaNull 0 0 0).

Definition modify_vd (f : vdiskst → vdiskst) : K unit := modify (λ k, k <| k_vdisk ::= f |>).

(** [disk.desc[i].f = v;] *)
Definition upd_desc (i : Z) (f : virtq_desc → virtq_desc) : K unit :=
  modify_vd (λ d, d <| vd_desc ::= alter f (Z.to_nat i) |>).

(** ** Descriptors *)

Fixpoint alloc_desc_loop (l : list nat) : K Z :=
  match l with
  | [] => mret (-1)
  | i :: l =>
    fr ← gets (λ k, vd_free (k_vdisk k) !!! i);
    if negb (fr =? 0) then
      modify_vd (λ d, d <| vd_free ::= <[i := 0]> |>);;
      mret (Z.of_nat i)
    else alloc_desc_loop l
  end.

Definition alloc_desc : K Z := alloc_desc_loop (seq 0 (Z.to_nat NUM)).

Definition free_desc (i : Z) : K unit :=
  panic_if (NUM <=? i) "free_desc 1";;
  fr ← gets (λ k, vd_free (k_vdisk k) !!! Z.to_nat i);
  panic_if (negb (fr =? 0)) "free_desc 2";;
  upd_desc i (λ d, d <| vq_addr := DmaNull |>);;
  upd_desc i (λ d, d <| vq_len := 0 |>);;
  upd_desc i (λ d, d <| vq_flags := 0 |>);;
  upd_desc i (λ d, d <| vq_next := 0 |>);;
  modify_vd (λ d, d <| vd_free ::= <[Z.to_nat i := 1]> |>);;
  wakeup ChVdisk.

(** A chain has at most NUM descriptors: freeing one twice panics. *)
Fixpoint free_chain_loop (fuel : nat) (i : Z) : K unit :=
  match fuel with
  | O => diverge
  | S fuel =>
    d ← gets (λ k, vd_desc (k_vdisk k) !!! Z.to_nat i);
    free_desc i;;
    if negb (Z.land (vq_flags d) VRING_DESC_F_NEXT =? 0)
    then free_chain_loop fuel (vq_next d)
    else mret ()
  end.

Definition free_chain (i : Z) : K unit := free_chain_loop (S (Z.to_nat NUM)) i.

(** The descriptors found so far are [idx]; [None] is the result -1. *)
Fixpoint alloc3_desc_loop (n : nat) (idx : list Z) : K (option (list Z)) :=
  match n with
  | O => mret (Some idx)
  | S n =>
    i ← alloc_desc;
    if i <? 0 then mfor idx free_desc;; mret None
    else alloc3_desc_loop n (idx ++ [i])
  end.

Definition alloc3_desc : K (option (list Z)) := alloc3_desc_loop 3 [].

(** ** Requests *)

Fixpoint rw_alloc_loop (fuel : nat) : K (list Z) :=
  match fuel with
  | O => diverge
  | S fuel =>
    r ← alloc3_desc;
    match r with
    | Some idx => mret idx
    | None => sleep ChVdisk LVdisk;; rw_alloc_loop fuel
    end
  end.

(** The three descriptors of a request. *)
Definition rw_format (b : nat) (write : bool) (sector i0 i1 i2 : Z) : K unit :=
  modify_vd (λ d, d <| vd_ops ::=
    <[Z.to_nat i0 := (if write then VIRTIO_BLK_T_OUT else VIRTIO_BLK_T_IN, sector)]> |>);;
  upd_desc i0 (λ d, d <| vq_addr := DmaReq (Z.to_nat i0) |>);;
  upd_desc i0 (λ d, d <| vq_len := 16 |>);;
  upd_desc i0 (λ d, d <| vq_flags := VRING_DESC_F_NEXT |>);;
  upd_desc i0 (λ d, d <| vq_next := i1 |>);;
  upd_desc i1 (λ d, d <| vq_addr := DmaBuf b |>);;
  upd_desc i1 (λ d, d <| vq_len := BSIZE |>);;
  upd_desc i1 (λ d, d <| vq_flags := (if write then 0 else VRING_DESC_F_WRITE) |>);;
  upd_desc i1 (λ d, d <| vq_flags ::= λ f, Z.lor f VRING_DESC_F_NEXT |>);;
  upd_desc i1 (λ d, d <| vq_next := i2 |>);;
  modify_vd (λ d, d <| vd_info_status ::= <[Z.to_nat i0 := 0xff]> |>);;
  upd_desc i2 (λ d, d <| vq_addr := DmaStatus (Z.to_nat i0) |>);;
  upd_desc i2 (λ d, d <| vq_len := 1 |>);;
  upd_desc i2 (λ d, d <| vq_flags := VRING_DESC_F_WRITE |>);;
  upd_desc i2 (λ d, d <| vq_next := 0 |>).

Definition write_reg (r v : Z) : K unit := modify_vd (λ d, d <| vd_regs ::= cons (r, v) |>).

Definition virtio_disk_rw (b : nat) (write : bool) : K unit :=
  x ← gets (get_buf b);
  let sector := u32 (b_blockno x * (BSIZE / 512)) in
  acquire LVdisk;;
  idx ← env_fuel rw_alloc_loop;
  let i0 := idx !!! 0%nat in
  rw_format b write sector i0 (idx !!! 1%nat) (idx !!! 2%nat);;
  modify (upd_buf b (λ x, x <| b_disk := 1 |>));;
  modify_vd (λ d, d <| vd_info_b ::= <[Z.to_nat i0 := Some b]> |>);;
  modify_vd (λ d, d <| vd_avail_ring ::= <[Z.to_nat (vd_avail_idx d mod NUM) := i0]> |>);;
  modify_vd (λ d, d <| vd_avail_idx ::= λ i, u16 (i + 1) |>);;
  write_reg VIRTIO_MMIO_QUEUE_NOTIFY 0;;
  sleep_while (λ k, b_disk (get_buf b k) =? 1) (ChBuf b) LVdisk;;
  modify_vd (λ d, d <| vd_info_b ::= <[Z.to_nat i0 := None]> |>);;
  free_chain i0;;
  release LVdisk.

(** ** Completion interrupts *)

Fixpoint disk_intr_loop (fuel : nat) : K unit :=
  match fuel with
  | O => diverge
  | S fuel =>
    d ← gets k_vdisk;
    if vd_seen d =? vd_used_idx d then mret ()
    else
      let id := Z.to_nat (vd_used_ring d !!! Z.to_nat (vd_seen d mod NUM)) in
      panic_if (negb (vd_info_status d !!! id =? 0)) "virtio_disk_intr status";;
      match vd_info_b d !!! id with
      | None => panic "virtio_disk_intr: null buffer"
      | Some b =>
        modify (upd_buf b (λ x, x <| b_disk := 0 |>));;
        wakeup (ChBuf b);;
        modify_vd (λ d, d <| vd_seen ::= λ i, u16 (i + 1) |>);;
        disk_intr_loop fuel
      end
  end.

Section device.
(** The value a register read returns, given the register writes so far. *)
Variable mmio_read : list (Z * Z) → Z → Z.

Definition read_reg (r : Z) : K Z := gets (λ k, mmio_read (vd_regs (k_vdisk k)) r).

(** One iteration per entry that the device has added to the used ring. *)
Definition virtio_disk_intr : K unit :=
  acquire LVdisk;;
  st ← read_reg VIRTIO_MMIO_INTERRUPT_STATUS;
  write_reg VIRTIO_MMIO_INTERRUPT_ACK (Z.land st 0x3);;
  d ← gets k_vdisk;
  disk_intr_loop (S (Z.to_nat (u16 (vd_used_idx d - vd_seen d))));;
  release LVdisk.

Definition clear_bit (k features : Z) : Z := Z.land features (Z.lnot (Z.shiftl 1 k)).

Definition virtio_disk_init : K unit :=
  initlock LVdisk;;
  magic ← read_reg VIRTIO_MMIO_MAGIC_VALUE;
  version ← read_reg VIRTIO_MMIO_VERSION;
  device ← read_reg VIRTIO_MMIO_DEVICE_ID;
  vendor ← read_reg VIRTIO_MMIO_VENDOR_ID;
  panic_if (negb (magic =? 0x74726976) || negb (version =? 2) || negb (device =? 2)
            || negb (vendor =? 0x554d4551)) "could not find virtio disk";;
  let status := 0 in
  write_reg VIRTIO_MMIO_STATUS status;;
  let status := Z.lor status VIRTIO_CONFIG_S_ACKNOWLEDGE in
  write_reg VIRTIO_MMIO_STATUS status;;
  let status := Z.lor status VIRTIO_CONFIG_S_DRIVER in
  write_reg VIRTIO_MMIO_STATUS status;;
  features ← read_reg VIRTIO_MMIO_DEVICE_FEATURES;
  let features := clear_bit VIRTIO_BLK_F_RO features in
  let features := clear_bit VIRTIO_BLK_F_SCSI features in
  let features := clear_bit VIRTIO_BLK_F_CONFIG_WCE features in
  let features := clear_bit VIRTIO_BLK_F_MQ features in
  let features := clear_bit VIRTIO_F_ANY_LAYOUT features in
  let features := clear_bit VIRTIO_RING_F_EVENT_IDX features in
  let features := clear_bit VIRTIO_RING_F_INDIRECT_DESC features in
  write_reg VIRTIO_MMIO_DRIVER_FEATURES (u32 features);;
  let status := Z.lor status VIRTIO_CONFIG_S_FEATURES_OK in
  write_reg VIRTIO_MMIO_STATUS status;;
  status ← read_reg VIRTIO_MMIO_STATUS;
  panic_if (Z.land status VIRTIO_CONFIG_S_FEATURES_OK =? 0) "virtio disk FEATURES_OK unset";;
  write_reg VIRTIO_MMIO_QUEUE_SEL 0;;
  ready ← read_reg VIRTIO_MMIO_QUEUE_READY;
  panic_if (negb (ready =? 0)) "virtio disk should not be ready";;
  max ← read_reg VIRTIO_MMIO_QUEUE_NUM_MAX;
  panic_if (max =? 0) "virtio disk has no queue 0";;
  panic_if (max <? NUM) "virtio disk max queue too short";;
  desc ← kalloc;
  avail ← kalloc;
  used ← kalloc;
  panic_if ((desc =? 0) || (avail =? 0) || (used =? 0)) "virtio disk kalloc";;
  modify (λ s, s <| k_mem ::= memset desc 0 PGSIZE |>);;
  modify (λ s, s <| k_mem ::= memset avail 0 PGSIZE |>);;
  modify (λ s, s <| k_mem ::= memset used 0 PGSIZE |>);;
  modify_vd (λ d, d <| vd_desc := replicate 8 (MkDesc DmaNull 0 0 0) |>
                    <| vd_avail_idx := 0 |> <| vd_avail_ring := replicate 8 0 |>
                    <| vd_used_idx := 0 |> <| vd_used_ring := replicate 8 0 |>);;
  write_reg VIRTIO_MMIO_QUEUE_NUM NUM;;
  write_reg VIRTIO_MMIO_QUEUE_DESC_LOW (u32 desc);;
  write_reg VIRTIO_MMIO_QUEUE_DESC_HIGH (u32 (Z.shiftr desc 32));;
  write_reg VIRTIO_MMIO_DRIVER_DESC_LOW (u32 avail);;
  write_reg VIRTIO_MMIO_DRIVER_DESC_HIGH (u32 (Z.shiftr avail 32));;
  write_reg VIRTIO_MMIO_DEVICE_DESC_LOW (u32 used);;
  write_reg VIRTIO_MMIO_DEVICE_DESC_HIGH (u32 (Z.shiftr used 32));;
  write_reg VIRTIO_MMIO_QUEUE_READY 0x1;;
  mfor (seq 0 (Z.to_nat NUM)) (λ i, modify_vd (λ d, d <| vd_free ::= <[i := 1]> |>));;
  write_reg VIRTIO_MMIO_STATUS (Z.lor status VIRTIO_CONFIG_S_DRIVER_OK).
End device.
