(* ===== verification/VirtioSpec.v ===== *)
(** * The disk driver serves the buffer cache

    virtio_disk.c, together with the device and its interrupt handler, keeps the
    promise [DiskSpec] that bio.c and log.c rely on.

    The device is not part of the kernel: it is the parameter [device], what it
    does to the kernel's memory and to the disk while the requesting thread
    sleeps, with the hypothesis [device_law] that it serves a pending request
    as the virtio specification says. *)

From S2P Require Import Prelude Memory Kernel Sched Sleeplock Bio BufList BioSpec VirtioDisk.

(** Projections of an updated driver state. *)
Ltac vd_simpl :=
  cbn [set_field set_vd_desc set_vd_avail_idx set_vd_avail_ring set_vd_used_idx set_vd_used_ring set_vd_free
       set_vd_seen set_vd_info_b set_vd_info_status set_vd_ops set_vd_regs
       vd_desc vd_avail_idx vd_avail_ring vd_used_idx vd_used_ring vd_free vd_seen vd_info_b vd_info_status vd_ops vd_regs].

(** ** The device *)

(** Exactly one request is pending: the chain of three descriptors from [id]. *)
Record pending (d : vdiskst) (id i1 i2 : nat) (b : nat) (write : bool) (sector : Z) : Prop := {
  pd_idx : vd_avail_idx d = u16 (vd_used_idx d + 1);
  pd_ring : vd_avail_ring d !! Z.to_nat (vd_used_idx d mod NUM) = Some (Z.of_nat id);
  pd_req : vd_desc d !! id = Some (MkDesc (DmaReq id) 16 VRING_DESC_F_NEXT (Z.of_nat i1));
  pd_buf : vd_desc d !! i1 =
    Some (MkDesc (DmaBuf b) BSIZE
            (Z.lor (if write then 0 else VRING_DESC_F_WRITE) VRING_DESC_F_NEXT) (Z.of_nat i2));
  pd_status : vd_desc d !! i2 = Some (MkDesc (DmaStatus id) 1 VRING_DESC_F_WRITE 0);
  pd_op : vd_ops d !! id = Some (if write then VIRTIO_BLK_T_OUT else VIRTIO_BLK_T_IN, sector)
}.

(** The transfer of the 1024 bytes at a sector, which are one block. *)
Definition dma_transfer (b : nat) (write : bool) (sector : Z) (k : kstate) : kstate :=
  if write then k <| k_disk ::= block_write (sector / (BSIZE / 512)) (b_data (get_buf b k)) |>
  else k <| k_bcache ::= alter_buf (λ x, x <| b_data := d_blocks (k_disk k) (sector / (BSIZE / 512)) |>) b |>.

(** The device has served the request: success in the status byte, and the
    chain's number in the used ring. *)
Definition completed (id : nat) (d : vdiskst) : vdiskst :=
  d <| vd_info_status ::= <[id := 0]> |>
    <| vd_used_ring ::= <[Z.to_nat (vd_used_idx d mod NUM) := Z.of_nat id]> |>
    <| vd_used_idx ::= λ i, u16 (i + 1) |>.

Definition device_law (device : kstate → kstate) : Prop :=
  ∀ k id i1 i2 b write sector, pending (k_vdisk k) id i1 i2 b write sector →
    device k = (dma_transfer b write sector k) <| k_vdisk ::= completed id |>.

(** ** Runs of the driver's parts *)

Definition on_vd (f : vdiskst → vdiskst) (w : world) : world := w <| ks ::= λ k, k <| k_vdisk ::= f |> |>.

Lemma on_vd_on_vd f g w : on_vd f (on_vd g w) = on_vd (λ d, f (g d)) w.
Proof. done. Qed.

Lemma on_vd_on_bc f g w : on_vd f (on_bc g w) = on_bc g (on_vd f w).
Proof. done. Qed.

Lemma on_bc_on_vd_held g f h w :
  on_bc g (on_vd f (w <| held ::= h |>)) = MkWorld (ks (on_bc g (on_vd f w))) (h (held w)) (me w) (env w).
Proof. done. Qed.

Lemma modify_vd_run f w : modify_vd f w = Ok () (on_vd f w).
Proof. done. Qed.

Lemma upd_desc_run i f w : upd_desc i f w = Ok () (on_vd (λ d, d <| vd_desc ::= alter f (Z.to_nat i) |>) w).
Proof. done. Qed.

Lemma procs_ok_on_vd f w : procs_ok (ks w) → procs_ok (ks (on_vd f w)).
Proof. done. Qed.

Lemma procs_ok_dma f d k : procs_ok k → procs_ok (k <| k_bcache ::= f |> <| k_vdisk := d |>).
Proof. done. Qed.

Lemma dma_transfer_procs b write sector k : procs_ok k → procs_ok (dma_transfer b write sector k).
Proof. unfold dma_transfer. by destruct write. Qed.

(** An idle driver: all descriptors free, both rings caught up. *)
Record vd_idle (d : vdiskst) : Prop := {
  vi_desc : length (vd_desc d) = 8%nat;
  vi_free : vd_free d = replicate 8 1;
  vi_avail : length (vd_avail_ring d) = 8%nat;
  vi_used : length (vd_used_ring d) = 8%nat;
  vi_info : length (vd_info_b d) = 8%nat;
  vi_status : length (vd_info_status d) = 8%nat;
  vi_ops : length (vd_ops d) = 8%nat;
  vi_range : 0 <= vd_used_idx d < 2 ^ 16;
  vi_caught : vd_avail_idx d = vd_used_idx d ∧ vd_seen d = vd_used_idx d
}.

Lemma alloc3_run w :
  vd_free (k_vdisk (ks w)) = replicate 8 1 →
  alloc3_desc w = Ok (Some [0; 1; 2]) (on_vd (λ d, d <| vd_free := [0; 0; 0; 1; 1; 1; 1; 1] |>) w).
Proof.
  intros Hf. destruct w as [[? ? ? ? ? ? ? ? ? ? [] ? ? ? ? ? ? ? ? ? ? ?] ? ? ?]. simpl in Hf. subst. reflexivity.
Qed.

(** The request as the device finds it. *)
Definition formatted (b : nat) (write : bool) (sector : Z) (d : vdiskst) : vdiskst :=
  d <| vd_ops ::= <[0%nat := (if write then VIRTIO_BLK_T_OUT else VIRTIO_BLK_T_IN, sector)]> |>
    <| vd_desc ::= λ l,
         <[2%nat := MkDesc (DmaStatus 0) 1 VRING_DESC_F_WRITE 0]>
        (<[1%nat := MkDesc (DmaBuf b) BSIZE (Z.lor (if write then 0 else VRING_DESC_F_WRITE) VRING_DESC_F_NEXT) 2]>
        (<[0%nat := MkDesc (DmaReq 0) 16 VRING_DESC_F_NEXT 1]> l)) |>
    <| vd_info_status ::= <[0%nat := 0xff]> |>.

Lemma rw_format_run b write sector w :
  length (vd_desc (k_vdisk (ks w))) = 8%nat →
  rw_format b write sector 0 1 2 w = Ok () (on_vd (formatted b write sector) w).
Proof.
  intros Hl. unfold rw_format.
  do 14 (first [rewrite (bind_ok _ _ _ _ _ (modify_vd_run _ _))|rewrite (bind_ok _ _ _ _ _ (upd_desc_run _ _ _))]).
  rewrite upd_desc_run, !on_vd_on_vd. destruct w as [[? ? ? ? ? ? ? ? ? ? [desc] ? ? ? ? ? ? ? ? ? ? ?] ? ? ?].
  simpl in Hl. do 8 (destruct desc as [|[] desc]; [done|]). destruct desc; [|done]. reflexivity.
Qed.

(** Freeing one of the descriptors. *)
Definition freed (i : nat) (d : vdiskst) : vdiskst :=
  d <| vd_desc ::= <[i := MkDesc DmaNull 0 0 0]> |> <| vd_free ::= <[i := 1]> |>.

Lemma free_desc_run i w :
  (i < 8)%nat → vd_free (k_vdisk (ks w)) !!! i = 0 → length (vd_desc (k_vdisk (ks w))) = 8%nat →
  procs_ok (ks w) → no_proc_lock w →
  free_desc (Z.of_nat i) w = Ok () (woken ChVdisk (on_vd (freed i) w)).
Proof.
  intros Hi Hf Hl Hp Hn. unfold free_desc.
  assert (NUM <=? Z.of_nat i = false) as E by (apply Z.leb_gt; unfold NUM; lia).
  unfold panic_if. rewrite E. erewrite bind_ok by reflexivity. erewrite bind_ok by reflexivity.
  rewrite Nat2Z.id. cbv beta. rewrite Hf. erewrite bind_ok by reflexivity.
  do 4 (rewrite (bind_ok _ _ _ _ _ (upd_desc_run _ _ _))). rewrite (bind_ok _ _ _ _ _ (modify_vd_run _ _)).
  rewrite !on_vd_on_vd. rewrite wakeup_run by done. unfold woken. f_equal.
  assert (∀ f g, (∀ d, d = k_vdisk (ks w) → f d = g d) → on_vd f w = on_vd g w) as Hext.
  { intros f g Hfg. unfold on_vd. rsimpl. by rewrite (Hfg _ eq_refl). }
  erewrite Hext; [reflexivity|]. intros d ->. rewrite !Nat2Z.id. unfold freed. rsimpl. f_equal.
  rewrite !alter_alter. apply list_eq. intros j. rewrite list_lookup_alter, list_lookup_insert.
  destruct (decide (i = j)) as [->|?]; [|by rewrite decide_False by tauto].
  rewrite decide_True by (split; [done|lia]).
  destruct (lookup_lt_is_Some_2 (vd_desc (k_vdisk (ks w))) j) as [x ->]; [lia|]. done.
Qed.

Lemma u16_succ_sub x : 0 <= x < 2 ^ 16 → u16 (u16 (x + 1) - x) = 1.
Proof. intros Hx. unfold u16. rewrite Zminus_mod_idemp_l. by replace (x + 1 - x) with 1 by lia. Qed.

Lemma u16_succ_ne x : 0 <= x < 2 ^ 16 → x ≠ u16 (x + 1).
Proof. intros Hx E. pose proof (u16_succ_sub x Hx) as H. rewrite <- E, Z.sub_diag in H. done. Qed.

(** The interrupt handler after one completion. *)
Definition acknowledged (ack : Z) (d : vdiskst) : vdiskst :=
  d <| vd_regs ::= cons (VIRTIO_MMIO_INTERRUPT_ACK, ack) |> <| vd_seen ::= λ i, u16 (i + 1) |>.

Lemma virtio_disk_intr_run mmio_read b w :
  let d := k_vdisk (ks w) in
  held w = ∅ → procs_ok (ks w) → 0 <= vd_seen d < 2 ^ 16 → vd_used_idx d = u16 (vd_seen d + 1) →
  vd_used_ring d !! Z.to_nat (vd_seen d mod NUM) = Some 0 → vd_info_status d !!! 0%nat = 0 →
  vd_info_b d !!! 0%nat = Some b →
  ∃ ack, virtio_disk_intr mmio_read w
    = Ok () (w <| ks ::= λ k, wake_all (ChBuf b) (me w)
        (k <| k_bcache ::= alter_buf (λ x, x <| b_disk := 0 |>) b |> <| k_vdisk ::= acknowledged ack |>) |>).
Proof.
  intros d Hh Hp Hs Hu Hr Hst Hb. unfold virtio_disk_intr.
  assert (LVdisk ∉ held w) as Hlk by (rewrite Hh; set_solver).
  rewrite (bind_ok _ _ _ _ _ (acquire_free _ _ Hlk)). erewrite bind_ok by reflexivity.
  set (ack := Z.land _ 0x3). exists ack. erewrite bind_ok by reflexivity. erewrite bind_ok by reflexivity.
  set (w1 := (w <| held ::= _ |>) <| ks ::= _ |>).
  assert (k_vdisk (ks w1) = d <| vd_regs ::= cons (VIRTIO_MMIO_INTERRUPT_ACK, ack) |>) as Ed by done.
  rewrite Ed. change (vd_used_idx (d <| vd_regs ::= _ |>)) with (vd_used_idx d).
  change (vd_seen (d <| vd_regs ::= _ |>)) with (vd_seen d). rewrite Hu, u16_succ_sub by done.
  change (S (Z.to_nat 1)) with 2%nat. cbn [disk_intr_loop].
  assert (vd_seen d =? vd_used_idx d = false) as Hne by (apply Z.eqb_neq; rewrite Hu; by apply u16_succ_ne).
  erewrite bind_ok; [exact (locked_section LVdisk w _ Hlk)|].
  erewrite bind_ok by reflexivity. rewrite Ed.
  change (vd_seen (d <| vd_regs ::= _ |>)) with (vd_seen d). change (vd_used_idx (d <| vd_regs ::= _ |>)) with (vd_used_idx d).
  rewrite Hne. change (vd_used_ring (d <| vd_regs ::= _ |>)) with (vd_used_ring d).
  rewrite (list_lookup_total_correct _ _ _ Hr). change (Z.to_nat 0) with 0%nat.
  change (vd_info_status (d <| vd_regs ::= _ |>)) with (vd_info_status d).
  change (vd_info_b (d <| vd_regs ::= _ |>)) with (vd_info_b d). rewrite Hst, Hb.
  erewrite bind_ok by reflexivity. rewrite (bind_ok _ _ _ _ _ (upd_buf_run _ _ _)).
  erewrite bind_ok.
  2:{ apply wakeup_run; [done|]. intros i _. subst w1. rsimpl. rewrite Hh. set_solver. }
  rewrite (bind_ok _ _ _ _ _ (modify_vd_run _ _)). erewrite bind_ok by reflexivity.
  set (w2 := on_vd _ _). assert (k_vdisk (ks w2) = acknowledged ack d) as Ed2 by done. rewrite Ed2.
  change (vd_seen (acknowledged ack d)) with (u16 (vd_seen d + 1)).
  change (vd_used_idx (acknowledged ack d)) with (vd_used_idx d). rewrite <- Hu, Z.eqb_refl. reflexivity.
Qed.

(** ** A request *)

Section driver.
Variables (device : kstate → kstate) (mmio_read : list (Z * Z) → Z → Z).
Hypothesis Hdev : device_law device.

(** While the requesting thread sleeps, the device works and interrupts. *)
Definition serve (k : kstate) : kstate :=
  match virtio_disk_intr mmio_read (MkWorld (device k) ∅ None []) with Ok _ w => ks w | _ => k end.

(** The queue when the thread goes to sleep. *)
Definition queued (b : nat) (write : bool) (sector : Z) (d : vdiskst) : vdiskst :=
  let d := formatted b write sector (d <| vd_free := [0; 0; 0; 1; 1; 1; 1; 1] |>) in
  let d := d <| vd_info_b ::= <[0%nat := Some b]> |> in
  let d := d <| vd_avail_ring ::= <[Z.to_nat (vd_avail_idx d mod NUM) := 0]> |> in
  let d := d <| vd_avail_idx ::= λ i, u16 (i + 1) |> in
  d <| vd_regs ::= cons (VIRTIO_MMIO_QUEUE_NOTIFY, 0) |>.

Lemma queued_pending b write sector d :
  vd_idle d → pending (queued b write sector d) 0 1 2 b write sector.
Proof.
  intros [H1 H2 H3 H4 H5 H6 H7 H8 [H9 H10]]. pose proof (Z.mod_pos_bound (vd_used_idx d) NUM ltac:(done)) as Hm.
  split; unfold queued, formatted; vd_simpl.
  - by rewrite H9.
  - rewrite H9. apply list_lookup_insert_eq. rewrite H3. unfold NUM in *. lia.
  - rewrite !list_lookup_insert_ne by done. apply list_lookup_insert_eq. lia.
  - rewrite list_lookup_insert_ne by done. apply list_lookup_insert_eq. rewrite length_insert. lia.
  - apply list_lookup_insert_eq. rewrite !length_insert. lia.
  - apply list_lookup_insert_eq. lia.
Qed.

(** What one turn of the device and of the handler does to a queued request. *)
Lemma serve_run b write sector d k :
  vd_idle d → k_vdisk k = queued b write sector d → procs_ok k →
  ∃ ack, serve k = wake_all (ChBuf b) None
    ((dma_transfer b write sector k) <| k_bcache ::= alter_buf (λ x, x <| b_disk := 0 |>) b |>
       <| k_vdisk := acknowledged ack (completed 0 (queued b write sector d)) |>).
Proof.
  intros Hi Hk Hp. pose proof (queued_pending b write sector d Hi) as Hpd.
  destruct Hi as [H1 H2 H3 H4 H5 H6 H7 H8 [H9 H10]].
  pose proof (Z.mod_pos_bound (vd_used_idx d) NUM ltac:(done)) as Hm.
  unfold serve. rewrite (Hdev k 0%nat 1%nat 2%nat b write sector) by (by rewrite Hk).
  set (k1 := (dma_transfer b write sector k) <| k_vdisk ::= completed 0 |>).
  assert (k_vdisk k1 = completed 0 (queued b write sector d)) as Ek.
  { subst k1. rewrite <- Hk. unfold dma_transfer. by destruct write. }
  destruct (virtio_disk_intr_run mmio_read b (MkWorld k1 ∅ None [])) as (ack & E); rsimpl; rewrite ?Ek.
  - done.
  - subst k1. unfold procs_ok, dma_transfer. by destruct write.
  - unfold completed, queued, formatted. vd_simpl. by rewrite H10.
  - unfold completed, queued, formatted. vd_simpl. by rewrite H10.
  - unfold completed, queued, formatted. vd_simpl. rewrite H10. apply list_lookup_insert_eq. rewrite H4. unfold NUM in *. lia.
  - unfold completed, queued, formatted. vd_simpl. apply list_lookup_total_insert_eq. rewrite length_insert. lia.
  - unfold completed, queued, formatted. vd_simpl. apply list_lookup_total_insert_eq. lia.
  - exists ack. rewrite E. rsimpl. rsimpl in Ek. f_equal. by rewrite Ek.
Qed.

Lemma resumed_pid p k : (p < length (k_procs k))%nat → p_pid (get_proc p (resumed p k)) = p_pid (get_proc p k).
Proof. intros Hp. unfold resumed. by rewrite get_upd_proc. Qed.

(** The thread's part up to the wait. *)
Lemma rw_submit p pid b write x w :
  thread_ok p pid w → vd_idle (k_vdisk (ks w)) → bc_buf (k_bcache (ks w)) !! b = Some x →
  0 <= b_blockno x < 2 ^ 31 →
  virtio_disk_rw b write w =
    (sleep_while (λ k, b_disk (get_buf b k) =? 1) (ChBuf b) LVdisk;;
     modify_vd (λ d, d <| vd_info_b ::= <[0%nat := None]> |>);;
     free_chain 0;;
     release LVdisk)
    (MkWorld (ks (on_bc (alter_buf (λ x, x <| b_disk := 1 |>) b) (on_vd (queued b write (b_blockno x * 2)) w)))
       {[LVdisk]} (Some p) (env w)).
Proof.
  intros Ht Hi Hx Hn. unfold virtio_disk_rw. erewrite bind_ok by reflexivity.
  assert (get_buf b (ks w) = x) as -> by (by apply list_lookup_total_correct). cbv zeta.
  change (BSIZE / 512) with 2. rewrite u32_small by lia.
  assert (LVdisk ∉ held w) as Hlk by (by eapply thread_not_held).
  rewrite (bind_ok _ _ _ _ _ (acquire_free _ _ Hlk)). set (w1 := w <| held ::= _ |>).
  assert (env_fuel rw_alloc_loop w1 = Ok [0; 1; 2] (on_vd (λ d, d <| vd_free := [0; 0; 0; 1; 1; 1; 1; 1] |>) w1)) as Ea.
  { unfold env_fuel. cbn [rw_alloc_loop]. erewrite bind_ok by (apply alloc3_run; apply Hi). reflexivity. }
  rewrite (bind_ok _ _ _ _ _ Ea). change ([0; 1; 2] !!! 0%nat) with 0. change ([0; 1; 2] !!! 1%nat) with 1.
  change ([0; 1; 2] !!! 2%nat) with 2.
  erewrite bind_ok by (apply rw_format_run; apply Hi). rewrite on_vd_on_vd.
  rewrite (bind_ok _ _ _ _ _ (upd_buf_run _ _ _)). change (Z.to_nat 0) with 0%nat.
  do 3 (rewrite (bind_ok _ _ _ _ _ (modify_vd_run _ _))).
  unfold write_reg at 1. rewrite (bind_ok _ _ _ _ _ (modify_vd_run _ _)).
  rewrite !on_vd_on_bc, !on_vd_on_vd. subst w1. rewrite on_bc_on_vd_held.
  rewrite (th_me _ _ _ Ht), (th_held _ _ _ Ht), (right_id_L ∅ (∪)). reflexivity.
Qed.

(** The wait: one sleep, during which the device and the handler run. *)
Lemma rw_wait p b write sector d x k e :
  vd_idle d → k_vdisk k = queued b write sector d → procs_ok k → (p < Z.to_nat NPROC)%nat →
  bc_buf (k_bcache k) !! b = Some x → b_disk x = 1 →
  ∃ ack k', sleep_while (λ k, b_disk (get_buf b k) =? 1) (ChBuf b) LVdisk (MkWorld k {[LVdisk]} (Some p) (serve :: e))
      = Ok () (MkWorld k' {[LVdisk]} (Some p) e)
    ∧ k_vdisk k' = acknowledged ack (completed 0 (queued b write sector d))
    ∧ procs_ok k' ∧ p_pid (get_proc p k') = p_pid (get_proc p k) ∧ rest k' = rest k
    ∧ k_bcache k' = alter_buf (λ x, x <| b_disk := 0 |>) b (k_bcache (dma_transfer b write sector k))
    ∧ k_disk k' = k_disk (dma_transfer b write sector k).
Proof.
  intros Hi Hk Hp Hlt Hx Hd. pose proof Hp as Hp'. unfold procs_ok in Hp'.
  set (ka := asleep p (ChBuf b) k).
  assert (procs_ok ka) as Hpa by (by apply procs_ok_upd).
  assert (∃ k1, dma_transfer b write sector ka = k1 ∧ k_procs k1 = k_procs ka ∧ rest k1 = rest k
    ∧ k_bcache k1 = k_bcache (dma_transfer b write sector k) ∧ k_disk k1 = k_disk (dma_transfer b write sector k))
    as (k1 & E1 & P1 & R1 & B1 & D1) by (eexists; split; [reflexivity|]; by destruct write).
  destruct (serve_run b write sector d ka) as (ack & Es); [done|done|done|]. rewrite E1, B1 in Es || rewrite E1 in Es.
  set (k2 := k1 <| k_bcache ::= _ |> <| k_vdisk := _ |>) in Es.
  assert (procs_ok k2) as Hp2 by (unfold procs_ok; change (k_procs k2) with (k_procs k1); by rewrite P1).
  assert (get_proc p k2 = (get_proc p k) <| p_chan := ChBuf b |> <| p_state := SLEEPING |>) as Eg.
  { unfold get_proc at 1. change (k_procs k2) with (k_procs k1). rewrite P1. apply get_upd_proc. lia. }
  set (k3 := wake_all (ChBuf b) None k2) in Es.
  assert (get_proc p k3 = (get_proc p k) <| p_chan := ChBuf b |> <| p_state := RUNNABLE |>) as Eg3.
  { subst k3. rewrite get_proc_wake_all by (unfold procs_ok in Hp2; lia). rewrite Eg. unfold wake. rewrite decide_True by done.
    rsimpl. by rewrite !bool_decide_eq_true_2 by done. }
  assert (procs_ok k3) as Hp3 by (by apply procs_ok_wake_all).
  assert (k_bcache k3 = alter_buf (λ x, x <| b_disk := 0 |>) b (k_bcache (dma_transfer b write sector k))) as B3.
  { change (k_bcache k3) with (alter_buf (λ x, x <| b_disk := 0 |>) b (k_bcache k1)). by rewrite B1. }
  exists ack, (resumed p k3). split.
  { unfold sleep_while, env_fuel. cbn [length env sleep_while_loop]. erewrite bind_ok by reflexivity. cbn [ks].
    assert (get_buf b k = x) as -> by (by apply list_lookup_total_correct). rewrite Hd. change (1 =? 1) with true. cbv iota.
    unfold mbind at 1, K_bind at 1. rewrite (sleep_run (ChBuf b) LVdisk p) by (done || (cbn [ks]; lia)). cbn [env ks].
    cbv zeta. fold ka. rewrite Es, Eg3, decide_True by done. erewrite bind_ok by reflexivity. cbn [ks].
    assert (b_disk (get_buf b (resumed p k3)) = 0) as ->; [|reflexivity].
    unfold get_buf. change (k_bcache (resumed p k3)) with (k_bcache k3). rewrite B3. unfold alter_buf. rsimpl.
    rewrite list_lookup_total_alter_eq; [done|]. apply lookup_lt_Some in Hx. unfold dma_transfer. destruct write; [done|].
    unfold alter_buf. rsimpl. by rewrite length_alter. }
  split; [done|]. split; [by apply procs_ok_upd|].
  split; [rewrite resumed_pid by (unfold procs_ok in Hp3; lia); by rewrite Eg3|].
  split; [change (rest (resumed p k3)) with (rest k1); done|].
  split; [change (k_bcache (resumed p k3)) with (k_bcache k3); done|].
  change (k_disk (resumed p k3)) with (k_disk k1). done.
Qed.

(** The descriptors of a request, whatever its state. *)
Record chained (D : vdiskst) : Prop := {
  cd_0 : ∃ a, vd_desc D !! 0%nat = Some (MkDesc a 16 VRING_DESC_F_NEXT 1);
  cd_1 : ∃ a l f, vd_desc D !! 1%nat = Some (MkDesc a l (Z.lor f VRING_DESC_F_NEXT) 2) ∧ (f = 0 ∨ f = VRING_DESC_F_WRITE);
  cd_2 : ∃ a, vd_desc D !! 2%nat = Some (MkDesc a 1 VRING_DESC_F_WRITE 0);
  cd_len : length (vd_desc D) = 8%nat;
  cd_free : vd_free D = [0; 0; 0; 1; 1; 1; 1; 1]
}.

(** [free_chain(0)] on the chain of a request. *)
Lemma free_chain_run w :
  chained (k_vdisk (ks w)) → procs_ok (ks w) → no_proc_lock w →
  free_chain 0 w = Ok () (woken ChVdisk (on_vd (freed 2) (woken ChVdisk (on_vd (freed 1)
                            (woken ChVdisk (on_vd (freed 0) w)))))).
Proof.
  set (D := k_vdisk (ks w)).
  intros [(a0 & H0) (a1 & l1 & f1 & H1 & Hf1) (a2 & H2) Hl Hfr] Hp Hn. unfold free_chain.
  change (S (Z.to_nat NUM)) with 9%nat. cbn [free_chain_loop].
  erewrite bind_ok by reflexivity. change (Z.to_nat 0) with 0%nat. fold D.
  rewrite (list_lookup_total_correct _ _ _ H0).
  erewrite bind_ok by (apply (free_desc_run 0); [lia|fold D; by rewrite Hfr|done|done|done]).
  set (w1 := woken _ _). cbn [vq_flags vq_next]. change (Z.land VRING_DESC_F_NEXT VRING_DESC_F_NEXT =? 0) with false.
  cbn [negb]. erewrite bind_ok by reflexivity. change (Z.to_nat 1) with 1%nat.
  change (vd_desc (k_vdisk (ks w1))) with (<[0%nat := MkDesc DmaNull 0 0 0]> (vd_desc D)).
  assert (<[0%nat := MkDesc DmaNull 0 0 0]> (vd_desc D) !!! 1%nat = MkDesc a1 l1 (Z.lor f1 VRING_DESC_F_NEXT) 2) as ->.
  { rewrite list_lookup_total_insert_ne by done. by apply list_lookup_total_correct. }
  erewrite bind_ok.
  2:{ apply (free_desc_run 1); [lia| | |by apply procs_ok_wake_all|done].
      - change (vd_free (k_vdisk (ks w1))) with (<[0%nat := 1]> (vd_free D)). by rewrite Hfr.
      - change (vd_desc (k_vdisk (ks w1))) with (<[0%nat := MkDesc DmaNull 0 0 0]> (vd_desc D)). by rewrite length_insert. }
  set (w2 := woken _ _). cbn [vq_flags vq_next].
  assert (Z.land (Z.lor f1 VRING_DESC_F_NEXT) VRING_DESC_F_NEXT =? 0 = false) as -> by (by destruct Hf1 as [->| ->]).
  cbn [negb]. erewrite bind_ok by reflexivity. change (Z.to_nat 2) with 2%nat.
  change (vd_desc (k_vdisk (ks w2))) with (<[1%nat := MkDesc DmaNull 0 0 0]> (<[0%nat := MkDesc DmaNull 0 0 0]> (vd_desc D))).
  assert (<[1%nat := MkDesc DmaNull 0 0 0]> (<[0%nat := MkDesc DmaNull 0 0 0]> (vd_desc D)) !!! 2%nat
    = MkDesc a2 1 VRING_DESC_F_WRITE 0) as ->.
  { rewrite !list_lookup_total_insert_ne by done. by apply list_lookup_total_correct. }
  erewrite bind_ok; [reflexivity|].
  apply (free_desc_run 2); [lia| | |by do 2 apply procs_ok_wake_all|done].
  - change (vd_free (k_vdisk (ks w2))) with (<[1%nat := 1]> (<[0%nat := 1]> (vd_free D))). by rewrite Hfr.
  - change (vd_desc (k_vdisk (ks w2))) with (<[1%nat := MkDesc DmaNull 0 0 0]> (<[0%nat := MkDesc DmaNull 0 0 0]> (vd_desc D))).
    by rewrite !length_insert.
Qed.

Lemma queued_chained b write sector ack d :
  vd_idle d → chained (acknowledged ack (completed 0 (queued b write sector d))).
Proof.
  intros [I1 I2 I3 I4 I5 I6 I7 I8 I9].
  split; unfold acknowledged, completed, queued, formatted; cbv zeta; vd_simpl.
  - eexists. rewrite !list_lookup_insert_ne by done. apply list_lookup_insert_eq. lia.
  - eexists _, _, _. rewrite list_lookup_insert_ne by done. rewrite list_lookup_insert_eq by (rewrite length_insert; lia).
    split; [done|]. destruct write; [by left|by right].
  - eexists. apply list_lookup_insert_eq. rewrite !length_insert. lia.
  - by rewrite !length_insert.
  - done.
Qed.

(** The driver's state after a request: idle again. *)
Definition finished (D : vdiskst) : vdiskst := freed 2 (freed 1 (freed 0 (D <| vd_info_b ::= <[0%nat := None]> |>))).

Lemma finished_idle b write sector ack d :
  vd_idle d → vd_idle (finished (acknowledged ack (completed 0 (queued b write sector d)))).
Proof.
  intros [H1 H2 H3 H4 H5 H6 H7 H8 [H9 H10]].
  split; unfold finished, freed, acknowledged, completed, queued, formatted; cbv zeta; vd_simpl; rewrite ?length_insert; try done.
  - apply Z.mod_pos_bound. lia.
  - by rewrite H9, H10.
Qed.

Lemma woken_on_vd ch f p w :
  procs_ok (ks w) → (p < Z.to_nat NPROC)%nat →
  procs_ok (ks (woken ch (on_vd f w))) ∧ p_pid (get_proc p (ks (woken ch (on_vd f w)))) = p_pid (get_proc p (ks w)).
Proof. intros Hp Hlt. split; [by apply procs_ok_wake_all|by apply (wake_all_pid ch (me w) p (ks (on_vd f w)))]. Qed.

Lemma woken3 ch f0 f1 f2 p w :
  procs_ok (ks w) → (p < Z.to_nat NPROC)%nat →
  let w' := woken ch (on_vd f2 (woken ch (on_vd f1 (woken ch (on_vd f0 w))))) in
  k_vdisk (ks w') = f2 (f1 (f0 (k_vdisk (ks w)))) ∧ held w' = held w ∧ me w' = me w ∧ env w' = env w
  ∧ rest (ks w') = rest (ks w) ∧ k_bcache (ks w') = k_bcache (ks w) ∧ k_disk (ks w') = k_disk (ks w)
  ∧ procs_ok (ks w') ∧ p_pid (get_proc p (ks w')) = p_pid (get_proc p (ks w)).
Proof.
  intros Hp Hlt w'. do 7 (split; [done|]).
  destruct (woken_on_vd ch f0 p w Hp Hlt) as [A1 C1].
  destruct (woken_on_vd ch f1 p _ A1 Hlt) as [A2 C2].
  destruct (woken_on_vd ch f2 p _ A2 Hlt) as [A3 C3].
  split; [exact A3|]. exact (eq_trans C3 (eq_trans C2 C1)).
Qed.

Lemma on_vd_same f w :
  k_vdisk (ks (on_vd f w)) = f (k_vdisk (ks w)) ∧ k_procs (ks (on_vd f w)) = k_procs (ks w)
  ∧ held (on_vd f w) = held w ∧ me (on_vd f w) = me w ∧ env (on_vd f w) = env w
  ∧ rest (ks (on_vd f w)) = rest (ks w) ∧ k_bcache (ks (on_vd f w)) = k_bcache (ks w) ∧ k_disk (ks (on_vd f w)) = k_disk (ks w).
Proof. done. Qed.

Lemma free_chain_after p w :
  chained (k_vdisk (ks w)) → procs_ok (ks w) → no_proc_lock w → (p < Z.to_nat NPROC)%nat →
  ∃ w', free_chain 0 w = Ok () w' ∧ k_vdisk (ks w') = freed 2 (freed 1 (freed 0 (k_vdisk (ks w))))
    ∧ held w' = held w ∧ me w' = me w ∧ env w' = env w
    ∧ rest (ks w') = rest (ks w) ∧ k_bcache (ks w') = k_bcache (ks w) ∧ k_disk (ks w') = k_disk (ks w)
    ∧ procs_ok (ks w') ∧ p_pid (get_proc p (ks w')) = p_pid (get_proc p (ks w)).
Proof.
  intros Hc Hp Hn Hlt. eexists. split; [exact (free_chain_run w Hc Hp Hn)|].
  exact (woken3 ChVdisk (freed 0) (freed 1) (freed 2) p w Hp Hlt).
Qed.

(** After the wait: the descriptors are given back. *)
Lemma rw_finish p pid k e :
  chained (k_vdisk k) → procs_ok k → (p < Z.to_nat NPROC)%nat → p_pid (get_proc p k) = pid →
  ∃ w', (modify_vd (λ d, d <| vd_info_b ::= <[0%nat := None]> |>);; free_chain 0;; release LVdisk)
      (MkWorld k {[LVdisk]} (Some p) e) = Ok () w'
    ∧ env w' = e ∧ thread_ok p pid w' ∧ k_vdisk (ks w') = finished (k_vdisk k)
    ∧ rest (ks w') = rest k ∧ k_bcache (ks w') = k_bcache k ∧ k_disk (ks w') = k_disk k.
Proof.
  intros Hc Hp Hlt Hpid. rewrite (bind_ok _ _ _ _ _ (modify_vd_run _ _)).
  set (w3 := MkWorld k _ _ _).
  destruct (on_vd_same (λ d, d <| vd_info_b ::= <[0%nat := None]> |>) w3) as (Ed & Ep & Hh4 & Hm4 & He4 & Hr4 & Hb4 & Hd4).
  set (w4 := on_vd _ w3) in *. cbn [w3 ks held me env] in *.
  assert (p_pid (get_proc p (ks w4)) = pid) as Hpid4 by (unfold get_proc; by rewrite Ep).
  assert (procs_ok (ks w4)) as Hp4 by (unfold procs_ok; by rewrite Ep).
  assert (chained (k_vdisk (ks w4))) as Hc4 by (rewrite Ed; destruct Hc; by split).
  clearbody w4.
  destruct (free_chain_after p w4) as (w5 & E5 & Hv5 & Hh5 & Hm5 & He5 & Hr5 & Hb5 & Hd5 & Hp5 & Hpid5);
    [done|done|intros i _; rewrite Hh4; set_solver|done|].
  rewrite (bind_ok _ _ _ _ _ E5).
  rewrite release_held by (rewrite Hh5, Hh4; set_solver). eexists. split; [reflexivity|].
  change (ks (w5 <| held ::= _ |>)) with (ks w5). change (env (w5 <| held ::= _ |>)) with (env w5).
  split; [by rewrite He5|]. split.
  { split; [|exact (eq_trans Hm5 Hm4)|exact Hp5|exact Hlt|exact (eq_trans Hpid5 Hpid4)].
    change (held (w5 <| held ::= ?f |>)) with (f (held w5)). rewrite Hh5, Hh4. set_solver. }
  unfold finished. by rewrite Hv5, Ed, Hr5, Hb5, Hd5.
Qed.

Definition virtio_ready (n : nat) (w : world) : Prop :=
  vd_idle (k_vdisk (ks w)) ∧ ∃ e, env w = replicate n serve ++ e.

(** The buffer's [disk] flag goes up and down again. *)
Lemma transfer_cache b write x c d k :
  bc_buf c !! b = Some x → b_disk x = 0 →
  k_bcache k = alter_buf (λ x, x <| b_disk := 1 |>) b c → k_disk k = d →
  alter_buf (λ x, x <| b_disk := 0 |>) b (k_bcache (dma_transfer b write (b_blockno x * 2) k)) = io_cache b write c d
  ∧ k_disk (dma_transfer b write (b_blockno x * 2) k) = io_disk b write c d.
Proof.
  intros Hx Hd Hc Hk. assert (b_blockno x * 2 / (BSIZE / 512) = b_blockno x) as Es.
  { change (BSIZE / 512) with 2. apply Z.div_mul. lia. }
  assert (bc_buf c !!! b = x) as Ex by (by apply list_lookup_total_correct).
  unfold dma_transfer, io_cache, io_disk. rewrite Es. destruct write.
  - change (k_bcache (k <| k_disk ::= _ |>)) with (k_bcache k). rewrite Hc, alter_buf_alter_buf. split.
    + unfold alter_buf. rsimpl. rewrite alter_id_at; [by destruct c|].
      intros y Hy. rewrite Hx in Hy. injection Hy as <-. destruct x. simpl in Hd. by subst.
    + change (k_disk (k <| k_disk ::= ?f |>)) with (f (k_disk k)). rewrite Hk, Ex. f_equal.
      unfold get_buf. rewrite Hc. unfold alter_buf. rsimpl. by rewrite (lookup_total_alter_field b_data), Ex.
  - split; [|done]. change (k_bcache (k <| k_bcache ::= ?f |>)) with (f (k_bcache k)).
    rewrite Hc, Hk, !alter_buf_alter_buf. unfold alter_buf. rsimpl. f_equal. apply alter_ext_at.
    intros y Hy. rewrite Hx in Hy. injection Hy as <-. destruct x. simpl in Hd. by subst.
Qed.

(** The state in which a request leaves the kernel. *)
Lemma virtio_rw_run n p pid b write w x :
  virtio_ready (S n) w → thread_ok p pid w → bc_buf (k_bcache (ks w)) !! b = Some x →
  b_disk x = 0 → 0 <= b_blockno x < 2 ^ 31 →
  ∃ w', virtio_disk_rw b write w = Ok () w' ∧ virtio_ready n w'
    ∧ thread_ok p pid w' ∧ rest (ks w') = rest (ks w)
    ∧ k_bcache (ks w') = io_cache b write (k_bcache (ks w)) (k_disk (ks w))
    ∧ k_disk (ks w') = io_disk b write (k_bcache (ks w)) (k_disk (ks w)).
Proof.
  intros [Hi [e He]] Ht Hx Hd Hn. cbn [replicate app] in He. pose proof (th_lt _ _ _ Ht) as Hlt.
  rewrite (rw_submit p pid b write x) by done. rewrite He.
  set (q := queued b write (b_blockno x * 2)). set (k1 := ks (on_bc _ (on_vd q w))).
  assert (k_vdisk k1 = q (k_vdisk (ks w)) ∧ k_procs k1 = k_procs (ks w) ∧ rest k1 = rest (ks w) ∧ k_disk k1 = k_disk (ks w)
    ∧ k_bcache k1 = alter_buf (λ x, x <| b_disk := 1 |>) b (k_bcache (ks w))) as (V1 & P1 & R1 & D1 & B1) by done.
  clearbody k1.
  assert (procs_ok k1) as Hp1 by (unfold procs_ok; rewrite P1; apply Ht).
  destruct (rw_wait p b write (b_blockno x * 2) (k_vdisk (ks w)) (x <| b_disk := 1 |>) k1 (replicate n serve ++ e))
    as (ack & k2 & E2 & V2 & P2 & Q2 & R2 & B2 & D2); [done|done|done|done| |done|].
  { rewrite B1. unfold alter_buf. rsimpl. by rewrite list_lookup_alter_eq, Hx. }
  rewrite (bind_ok _ _ _ _ _ E2).
  destruct (rw_finish p pid k2 (replicate n serve ++ e))
    as (w' & E3 & V3 & T3 & K3 & R3 & B3 & D3); [rewrite V2; by apply queued_chained|done|done| |].
  { rewrite Q2. unfold get_proc. rewrite P1. apply Ht. }
  exists w'. split; [done|]. split; [split; [rewrite K3, V2; by apply finished_idle|eauto]|]. split; [done|].
  split; [by rewrite R3, R2|].
  destruct (transfer_cache b write x (k_bcache (ks w)) (k_disk (ks w)) k1) as [T1 T2]; [done..|].
  by rewrite B3, B2, T1, D3, D2, T2.
Qed.

(** The driver as bio.c uses it. *)
#[global] Instance virtio_driver : DiskDriver := virtio_disk_rw.

Definition virtio_spec : DiskSpec.
Proof.
  refine {| disk_ready := virtio_ready |}.
  - intros n m w Hm [Hi [e He]]. split; [done|]. exists (replicate (n - m) serve ++ e).
    rewrite He, app_assoc, <- replicate_add. do 2 f_equal. lia.
  - intros n w w' E1 E2 [Hi [e He]]. split; [by rewrite E1|]. exists e. by rewrite E2.
  - intros n p pid b write w x Hr Ht Hx _ Hd Hn. by apply (virtio_rw_run n p pid b write w x).
Defined.
End driver.

(** ** A device that keeps the law *)

Definition blk_device (k : kstate) : kstate :=
  let d := k_vdisk k in
  let id := Z.to_nat (vd_avail_ring d !!! Z.to_nat (vd_used_idx d mod NUM)) in
  match vq_addr (vd_desc d !!! Z.to_nat (vq_next (vd_desc d !!! id))) with
  | DmaBuf b =>
    (dma_transfer b ((vd_ops d !!! id).1 =? VIRTIO_BLK_T_OUT) (vd_ops d !!! id).2 k) <| k_vdisk ::= completed id |>
  | _ => k
  end.

Lemma blk_device_law : device_law blk_device.
Proof.
  intros k id i1 i2 b write sector [H1 H2 H3 H4 H5 H6]. unfold blk_device. cbv zeta.
  rewrite (list_lookup_total_correct _ _ _ H2), Nat2Z.id, (list_lookup_total_correct _ _ _ H3).
  cbn [vq_next]. rewrite Nat2Z.id, (list_lookup_total_correct _ _ _ H4). cbn [vq_addr].
  rewrite (list_lookup_total_correct _ _ _ H6). by destruct write.
Qed.

(** ** Theorem *)

(** C6: a request of the idle driver terminates without a panic as soon as the
    device and its interrupt have run once while the caller slept.  The block
    of the buffer has then been moved between the buffer and the disk, in the
    direction asked for, the owner flag [b->disk] is the driver's no more,
    nothing else of the kernel's state that bio.c or log.c use has changed, and
    the driver is idle again: every descriptor is free and both rings are
    caught up. *)
Theorem virtio_disk_rw_serves (device : kstate → kstate) (mmio_read : list (Z * Z) → Z → Z)
    (n p : nat) (pid : Z) (b : nat) (write : bool) (w : world) (x : buf) :
  device_law device →
  virtio_ready device mmio_read (S n) w → thread_ok p pid w → bc_buf (k_bcache (ks w)) !! b = Some x →
  b_disk x = 0 → 0 <= b_blockno x < 2 ^ 31 →
  ∃ w', virtio_disk_rw b write w = Ok () w'
    ∧ virtio_ready device mmio_read n w' ∧ thread_ok p pid w' ∧ rest (ks w') = rest (ks w)
    ∧ k_bcache (ks w') = io_cache b write (k_bcache (ks w)) (k_disk (ks w))
    ∧ k_disk (ks w') = io_disk b write (k_bcache (ks w)) (k_disk (ks w)).
Proof. intros Hdev. by apply virtio_rw_run. Qed.

(** ** Witness *)

Definition idle_vd : vdiskst :=
  MkVdisk (replicate 8 (MkDesc DmaNull 0 0 0)) 65535 (replicate 8 0) 65535 (replicate 8 0) (replicate 8 1) 65535
    (replicate 8 None) (replicate 8 0) (replicate 8 (0, 0)) [].
Definition vd_demo : world :=
  MkWorld (boot_kstate <| k_vdisk := idle_vd |>) ∅ (Some 0%nat) [serve blk_device (λ _ _, 1)].

Lemma virtio_disk_rw_serves_witness :
  ∃ w', virtio_disk_rw 3 false vd_demo = Ok () w' ∧ env w' = [].
Proof.
  destruct (virtio_disk_rw_serves blk_device (λ _ _, 1) 0 0 0 3 false vd_demo (get_buf 3 boot_kstate))
    as (w' & E & [_ [e He]] & _).
  - exact blk_device_law.
  - split; [split; try reflexivity; split; reflexivity || (cbn; lia)|exists []; reflexivity].
  - split; [reflexivity|reflexivity|reflexivity|vm_compute; lia|reflexivity].
  - reflexivity.
  - reflexivity.
  - split; vm_compute; congruence.
  - exists w'. split; [exact E|]. vm_compute in E. injection E as <-. reflexivity.
Defined.
