(* ===== verification/Log.v ===== *)
(** * kernel/log.c

    The redo log that makes each group of file-system calls atomic with
    respect to crashes.  The on-disk log is the header block at [log.start],
    holding a count and the home block numbers, followed by the logged blocks.

    Block numbers are [int] in the log header and [uint] in buffers; the
    conversions are written out. *)

From S2P Require Import Prelude Memory Kernel Sched Sleeplock Bio.

Definition modify_log (f : logst → logst) : K unit := modify (λ k, k <| k_log ::= f |>).

(** [a[i] = v;] on an array of the kernel; an index outside it would corrupt
    other variables, which the model reports as a panic. *)
Definition store_lh_block (i v : Z) : K unit :=
  panic_if ((i <? 0) || (LOGSIZE <=? i)) "log.lh.block: out of bounds";;
  modify_log (λ l, l <| l_block ::= <[Z.to_nat i := v]> |>).

Section log.
Context `{DiskDriver}.

(** [memmove(b->data, x->data, BSIZE)] *)
Definition copy_data (dst src : nat) : K unit :=
  modify (λ k, upd_buf dst (λ x, x <| b_data := b_data (get_buf src k) |>) k).

Definition install_trans (recovering : bool) : K unit :=
  n ← gets (λ k, l_n (k_log k));
  mfor (seq 0 (Z.to_nat n)) (λ tail,
    lg ← gets k_log;
    lbuf ← bread (u32 (l_dev lg)) (u32 (l_start lg + Z.of_nat tail + 1));
    dbuf ← bread (u32 (l_dev lg)) (u32 (l_block lg !!! tail));
    copy_data dbuf lbuf;;
    bwrite dbuf;;
    when (negb recovering) (bunpin dbuf);;
    brelse lbuf;;
    brelse dbuf).

Definition read_head : K unit :=
  lg ← gets k_log;
  b ← bread (u32 (l_dev lg)) (u32 (l_start lg));
  data ← gets (λ k, b_data (get_buf b k));
  modify_log (λ l, l <| l_n := i32 (get32 data 0) |>);;
  n ← gets (λ k, l_n (k_log k));
  mfor (seq 0 (Z.to_nat n)) (λ i,
    store_lh_block (Z.of_nat i) (i32 (get32 data (4 + 4 * i))));;
  brelse b.

Definition write_head : K unit :=
  lg ← gets k_log;
  b ← bread (u32 (l_dev lg)) (u32 (l_start lg));
  modify (upd_buf b (λ x, x <| b_data ::= set32 0 (l_n lg) |>));;
  mfor (seq 0 (Z.to_nat (l_n lg))) (λ i,
    modify (upd_buf b (λ x, x <| b_data ::= set32 (4 + 4 * i) (l_block lg !!! i) |>)));;
  bwrite b;;
  brelse b.

Definition recover_from_log : K unit :=
  read_head;;
  install_trans true;;
  modify_log (λ l, l <| l_n := 0 |>);;
  write_head.

(** The size of struct logheader is 4 * (1 + LOGSIZE). *)
Definition initlog (dev : Z) (sb : superblock) : K unit :=
  panic_if (BSIZE <=? 4 * (1 + LOGSIZE)) "initlog: too big logheader";;
  initlock LLog;;
  modify_log (λ l, l <| l_start := i32 (sb_logstart sb) |>);;
  modify_log (λ l, l <| l_size := i32 (sb_nlog sb) |>);;
  modify_log (λ l, l <| l_dev := dev |>);;
  recover_from_log.

Definition begin_op : K unit :=
  acquire LLog;;
  sleep_while (λ k, let l := k_log k in
      negb (l_committing l =? 0) || (LOGSIZE <? l_n l + (l_outstanding l + 1) * MAXOPBLOCKS)) ChLog LLog;;
  modify_log (λ l, l <| l_outstanding ::= λ o, o + 1 |>);;
  release LLog.

Definition write_log : K unit :=
  n ← gets (λ k, l_n (k_log k));
  mfor (seq 0 (Z.to_nat n)) (λ tail,
    lg ← gets k_log;
    to ← bread (u32 (l_dev lg)) (u32 (l_start lg + Z.of_nat tail + 1));
    from ← bread (u32 (l_dev lg)) (u32 (l_block lg !!! tail));
    copy_data to from;;
    bwrite to;;
    brelse from;;
    brelse to).

Definition commit : K unit :=
  n ← gets (λ k, l_n (k_log k));
  when (0 <? n)
    (write_log;;
     write_head;;
     install_trans false;;
     modify_log (λ l, l <| l_n := 0 |>);;
     write_head).

Definition end_op : K unit :=
  acquire LLog;;
  modify_log (λ l, l <| l_outstanding ::= λ o, o - 1 |>);;
  lg ← gets k_log;
  panic_if (negb (l_committing lg =? 0)) "log.committing";;
  let do_commit := l_outstanding lg =? 0 in
  (if do_commit then modify_log (λ l, l <| l_committing := 1 |>) else wakeup ChLog);;
  release LLog;;
  when do_commit
    (commit;;
     acquire LLog;;
     modify_log (λ l, l <| l_committing := 0 |>);;
     wakeup ChLog;;
     release LLog).

(** The position of the block in the header, or [n] if it is not there. *)
Fixpoint find_block (blk : list Z) (n i : nat) (blockno : Z) : nat :=
  match n with
  | O => i
  | S n => if u32 (blk !!! i) =? blockno then i else find_block blk n (S i) blockno
  end.

Definition log_write (b : nat) : K unit :=
  acquire LLog;;
  lg ← gets k_log;
  panic_if ((LOGSIZE <=? l_n lg) || (l_size lg - 1 <=? l_n lg)) "too big a transaction";;
  panic_if (l_outstanding lg <? 1) "log_write outside of trans";;
  blockno ← gets (λ k, b_blockno (get_buf b k));
  let i := find_block (l_block lg) (Z.to_nat (l_n lg)) 0 blockno in
  store_lh_block (Z.of_nat i) (i32 blockno);;
  when (Z.of_nat i =? l_n lg)
    (bpin b;;
     modify_log (λ l, l <| l_n ::= λ n, n + 1 |>));;
  release LLog.

End log.
