(* ===== verification/LogSpec.v ===== *)
(** * The log makes commits atomic

    log.c over the abstract buffer cache of BioSpec.v.  Each function is shown
    to perform a definite list of disk writes; a crash is a prefix of that
    list, and recovery is the code of [initlog], run on the disk the crash
    left.  One block is written atomically, as log.c assumes of the device. *)

From S2P Require Import Prelude Memory Kernel Sched Sleeplock Bio BufList BioSpec Log.

(** ** Sequences of disk writes *)

Fixpoint writes (ws : list (Z * list Z)) (d : Z → list Z) : Z → list Z :=
  match ws with
  | [] => d
  | (n, data) :: ws => writes ws (<[n := data]> d)
  end.

Lemma writes_app ws1 ws2 d : writes (ws1 ++ ws2) d = writes ws2 (writes ws1 d).
Proof. revert d. induction ws1 as [|[n x] ws IH]; intros d; [done|]. simpl. apply IH. Qed.

Lemma writes_other ws d n : n ∉ ws.*1 → writes ws d n = d n.
Proof.
  revert d. induction ws as [|[m x] ws IH]; intros d Hn; [done|]. simpl in *.
  rewrite IH by set_solver. by rewrite fn_lookup_insert_ne by set_solver.
Qed.

Lemma writes_in ws d n x : NoDup ws.*1 → (n, x) ∈ ws → writes ws d n = x.
Proof.
  revert d. induction ws as [|[m y] ws IH]; intros d Hnd; [by intros []%elem_of_nil|]. simpl in *.
  apply list.NoDup_cons in Hnd as [Hm Hnd]. intros [[= -> ->]|Hx]%elem_of_cons; [|by apply IH].
  rewrite writes_other by done. by rewrite fn_lookup_insert.
Qed.

Lemma writes_ext ws d d' n : d n = d' n → writes ws d n = writes ws d' n.
Proof.
  revert d d'. induction ws as [|[m x] ws IH]; intros d d' E; [done|]. simpl. apply IH.
  destruct (decide (m = n)) as [->|?]; [by rewrite !fn_lookup_insert|by rewrite !fn_lookup_insert_ne].
Qed.

(** ** The on-disk header *)

Definition hdr_n (data : list Z) : Z := i32 (get32 data 0).
Definition hdr_block (data : list Z) (i : nat) : Z := i32 (get32 data (4 + 4 * i)).

(** What [write_head] leaves in the header block. *)
Fixpoint put_blocks (blocks : list Z) (k : nat) (data : list Z) : list Z :=
  match k with
  | O => data
  | S k => set32 (4 + 4 * k) (blocks !!! k) (put_blocks blocks k data)
  end.
Definition put_head (n : Z) (blocks : list Z) (data : list Z) : list Z :=
  put_blocks blocks (Z.to_nat n) (set32 0 n data).

Lemma length_put_blocks blocks k data :
  (4 + 4 * k <= length data)%nat → length (put_blocks blocks k data) = length data.
Proof.
  induction k as [|k IH]; intros Hk; [done|]. cbn [put_blocks].
  rewrite length_set32; rewrite IH; lia.
Qed.

Lemma length_put_head n blocks data :
  length data = Z.to_nat BSIZE → 0 <= n <= LOGSIZE → length (put_head n blocks data) = Z.to_nat BSIZE.
Proof.
  unfold LOGSIZE, MAXOPBLOCKS. intros Hl Hn. unfold put_head.
  assert (length (set32 0 n data) = Z.to_nat BSIZE) as E by (rewrite length_set32; rewrite Hl; [done|unfold BSIZE; lia]).
  rewrite length_put_blocks; [done|]. rewrite E. unfold BSIZE. lia.
Qed.

Lemma get32_put_blocks_low blocks k data o :
  (4 + 4 * k <= length data)%nat → (o + 4 <= 4 ∨ 4 + 4 * k <= o)%nat →
  get32 (put_blocks blocks k data) o = get32 data o.
Proof.
  induction k as [|k IH]; intros Hk Ho; [done|]. cbn [put_blocks].
  rewrite get32_set32_disj; [|rewrite length_put_blocks; lia|lia]. apply IH; lia.
Qed.

Lemma get32_put_blocks blocks k data i :
  (4 + 4 * k <= length data)%nat → (i < k)%nat →
  get32 (put_blocks blocks k data) (4 + 4 * i) = u32 (blocks !!! i).
Proof.
  induction k as [|k IH]; intros Hk Hi; [lia|]. cbn [put_blocks].
  destruct (decide (i = k)) as [->|Hne].
  - apply get32_set32. rewrite length_put_blocks; lia.
  - rewrite get32_set32_disj; [|rewrite length_put_blocks; lia|lia]. apply IH; lia.
Qed.

Lemma i32_u32 x : 0 <= x < 2 ^ 31 → i32 (u32 x) = x.
Proof. intros H. rewrite u32_small by lia. apply i32_small. lia. Qed.

Lemma hdr_n_put_head n blocks data :
  length data = Z.to_nat BSIZE → 0 <= n <= LOGSIZE → hdr_n (put_head n blocks data) = n.
Proof.
  unfold LOGSIZE, MAXOPBLOCKS. intros Hl Hn. unfold hdr_n, put_head.
  rewrite get32_put_blocks_low, get32_set32; [apply i32_u32; lia|unfold BSIZE in *; lia| |lia].
  rewrite length_set32; unfold BSIZE in *; lia.
Qed.

Lemma hdr_block_put_head n blocks data i :
  length data = Z.to_nat BSIZE → 0 <= n <= LOGSIZE → (i < Z.to_nat n)%nat → 0 <= blocks !!! i < 2 ^ 31 →
  hdr_block (put_head n blocks data) i = blocks !!! i.
Proof.
  unfold LOGSIZE, MAXOPBLOCKS. intros Hl Hn Hi Hb. unfold hdr_block, put_head.
  rewrite get32_put_blocks; [by apply i32_u32| |done].
  rewrite length_set32; unfold BSIZE in *; lia.
Qed.

(** ** Recovery on the disk *)

(** The writes that installing a log of [n] blocks performs. *)
Definition inst_ws (start : Z) (blocks : list Z) (n : nat) (d : Z → list Z) : list (Z * list Z) :=
  (λ i, (blocks !!! i, d (start + Z.of_nat i + 1))) <$> seq 0 n.
(** The writes that fill the log. *)
Definition log_ws (start : Z) (blocks : list Z) (n : nat) (v : Z → list Z) : list (Z * list Z) :=
  (λ i, (start + Z.of_nat i + 1, v (blocks !!! i))) <$> seq 0 n.

(** The writes of a home block each. *)
Definition home_ws (blocks : list Z) (n : nat) (v : Z → list Z) : list (Z * list Z) :=
  (λ i, (blocks !!! i, v (blocks !!! i))) <$> seq 0 n.
(** All writes of a commit of the contents [v], in order. *)
Definition commit_ws (start : Z) (blocks : list Z) (n : Z) (v : Z → list Z) : list (Z * list Z) :=
  let hd := put_head n blocks (v start) in
  log_ws start blocks (Z.to_nat n) v ++ (start, hd) :: home_ws blocks (Z.to_nat n) v ++ [(start, put_head 0 blocks hd)].

(** The block numbers in a header, as [read_head] finds them. *)
Definition hdr_blocks (data : list Z) : list Z := hdr_block data <$> seq 0 (Z.to_nat (hdr_n data)).

(** The disk after recovery, the header block aside. *)
Definition replay (start : Z) (d : Z → list Z) : Z → list Z :=
  writes (inst_ws start (hdr_blocks (d start)) (Z.to_nat (hdr_n (d start))) d) d.

(** The log occupies [size] blocks from [start]; all others are home blocks. *)
Definition home (start size n : Z) : Prop := ¬ (start <= n < start + size).

(** A header that a commit can have left. *)
Record hdr_ok (start size : Z) (data : list Z) : Prop := {
  ho_n : 0 <= hdr_n data < size;
  ho_blocks : ∀ i, (i < Z.to_nat (hdr_n data))%nat → 0 <= hdr_block data i < 2 ^ 31 ∧ home start size (hdr_block data i)
}.

(** ** The functions of log.c as lists of writes *)

Definition a_writes (ws : list (Z * list Z)) (A : acache) : acache :=
  MkA (writes ws (a_view A)) (writes ws (a_disk A)) (reverse ws ++ a_hist A) (a_refs A) (a_lock A).

(** No block is locked by the current process. *)
Definition idle (A : acache) : Prop := a_lock A = ∅.

Lemma a_writes_nil A : a_writes [] A = A.
Proof. by destruct A. Qed.

Lemma a_writes_app ws1 ws2 A : a_writes (ws1 ++ ws2) A = a_writes ws2 (a_writes ws1 A).
Proof. unfold a_writes. simpl. by rewrite !writes_app, reverse_app, <- app_assoc. Qed.

(** Two stores into different blocks in the reading order of the model. *)
Lemma fn_store_twice {A} (f : Z → A) n x y k : <[n := y]> (<[n := x]> f) k = <[n := y]> f k.
Proof. destruct (decide (n = k)) as [->|?]; [by rewrite !fn_lookup_insert|by rewrite !fn_lookup_insert_ne]. Qed.

Section log_spec.
Context `{DS : DiskSpec} (p : nat) (pid : Z).
Local Notation bstate := (bstate p pid).

Lemma copy_data_spec A R m dst src bd bs w :
  bstate A R m w → a_lock A !! dst = Some bd → a_lock A !! src = Some bs →
  ∃ w', copy_data bd bs w = Ok () w' ∧ bstate (a_store dst (a_view A src) A) R m w'.
Proof.
  intros Hb Hd Hs. destruct (bstate_data _ _ _ _ _ _ _ _ Hb Hs) as [E _].
  destruct (store_spec p pid A R m dst bd (λ _, a_view A src) w Hb Hd) as (w' & Ew & Hw);
    [apply (r_len _ _ _ _ (bs_rep _ _ _ _ _ _ Hb))|].
  exists w'. split; [|done]. rewrite <- Ew. unfold copy_data, modify. f_equal. rsimpl. by rewrite E.
Qed.

(** Two blocks [g] and [h] are read, and afterwards nothing is locked. *)
Record two_blocks (A : acache) (g h : Z) : Prop := {
  tb_idle : idle A;
  tb_ne : g ≠ h;
  tb_g : 0 <= g < 2 ^ 31;
  tb_h : 0 <= h < 2 ^ 31;
  tb_refg : a_refs A !! g = None;
  tb_refh : 0 <= default 0 (a_refs A !! h) < 2 ^ 32 - 2;
  tb_size : (size (a_refs A) < HEAD)%nat;
  tb_size2 : is_Some (a_refs A !! h) ∨ (S (size (a_refs A)) < HEAD)%nat
}.

Lemma read_two A R m g h w :
  bstate A R (S (S m)) w → two_blocks A g h →
  ∃ b1 w1, bread ROOTDEV g w = Ok b1 w1 ∧ bstate (a_bread g b1 A) R (S m) w1 ∧
  ∃ b2 w2, bread ROOTDEV h w1 = Ok b2 w2 ∧ bstate (a_bread h b2 (a_bread g b1 A)) R m w2.
Proof.
  intros Hb [H1 H2 H3 H4 H5 H6 H7 H8].
  destruct (bread_spec p pid A R (S m) g w) as (b1 & w1 & E1 & S1); [done| |].
  { split; [done|]. split; [by rewrite H1|]. split; [rewrite H5; simpl; lia|by right]. }
  exists b1, w1. split; [done|]. split; [done|].
  destruct (bread_spec p pid _ R m h w1 S1) as (b2 & w2 & E2 & S2); [|eauto].
  split; [done|]. unfold a_bread; cbn [a_lock a_refs]. rewrite H1, !lookup_insert_ne by done.
  split; [done|]. split; [lia|]. destruct H8 as [?|?]; [by left|right].
  by rewrite map_size_insert_None.
Qed.

Lemma write_log_step A R m g h w :
  bstate A R (3 + m) w → two_blocks A g h → is_Some (a_refs A !! h) →
  ∃ w', (to ← bread ROOTDEV g; from ← bread ROOTDEV h; copy_data to from;; bwrite to;; brelse from;; brelse to) w
        = Ok () w' ∧ bstate (a_writes [(g, a_view A h)] A) R m w'.
Proof.
  intros Hb HT [r Hr]. destruct (read_two A R (1 + m) g h w Hb HT) as (b1 & w1 & E1 & _ & b2 & w2 & E2 & S2).
  destruct HT as [H1 H2 H3 H4 H5 H6 H7 H8].
  rewrite (bind_ok _ _ _ _ _ E1), (bind_ok _ _ _ _ _ E2).
  assert (0 < r) as Hr0.
  { pose proof (bs_rep _ _ _ _ _ _ Hb) as HR. apply (r_refs _ _ _ _ HR) in Hr. lia. }
  destruct (copy_data_spec _ R _ g h b1 b2 w2 S2) as (w3 & E3 & S3);
    [simpl; by rewrite lookup_insert_ne, lookup_insert_eq|simpl; by rewrite lookup_insert_eq|].
  rewrite (bind_ok _ _ _ _ _ E3).
  destruct (bwrite_spec p pid _ R m g b1 w3 S3) as (w4 & E4 & S4);
    [simpl; by rewrite lookup_insert_ne, lookup_insert_eq|].
  rewrite (bind_ok _ _ _ _ _ E4).
  destruct (brelse_spec p pid _ R m h b2 w4 S4) as (w5 & E5 & S5).
  { simpl. by rewrite lookup_insert_eq. }
  { simpl. rewrite lookup_insert_eq. rewrite lookup_insert_ne, Hr by done. simpl. intros [= ?]. lia. }
  rewrite (bind_ok _ _ _ _ _ E5).
  destruct (brelse_spec p pid _ R m g b1 w5 S5) as (w6 & E6 & S6).
  { simpl. rewrite lookup_delete_ne, lookup_insert_ne, lookup_insert_eq by done. done. }
  { intros _. simpl. by rewrite !fn_lookup_insert. }
  exists w6. split; [done|]. eapply bstate_proper in S6; [exact S6| |done..].
  split; [|split; [|split; [|split]]].
  - done.
  - intros k. simpl. by rewrite fn_lookup_insert.
  - simpl. by rewrite fn_lookup_insert.
  - simpl. rewrite !lookup_insert_eq. simpl. rewrite !(lookup_insert_ne _ g h), Hr by done. simpl.
    rewrite (decide_False (P := r + 1 + -1 = 0)) by lia.
    rewrite !(lookup_insert_ne _ h g), lookup_insert_eq, H5 by done. simpl.
    map_cases k. rewrite Hr. f_equal. lia.
  - simpl. rewrite H1. by map_cases k.
Qed.

(** Installing one block; outside recovery the block is unpinned as well. *)
Lemma install_step (recovering : bool) A R m g h w :
  bstate A R (3 + m) w → two_blocks A g h → (recovering = false → is_Some (a_refs A !! h)) →
  ∃ w', (lbuf ← bread ROOTDEV g; dbuf ← bread ROOTDEV h; copy_data dbuf lbuf;; bwrite dbuf;;
         when (negb recovering) (bunpin dbuf);; brelse lbuf;; brelse dbuf) w = Ok () w'
    ∧ bstate (a_writes [(h, a_view A g)] (if recovering then A else a_add_ref h (-1) A)) R m w'.
Proof.
  intros Hb HT Hpin. destruct (read_two A R (1 + m) g h w Hb HT) as (b1 & w1 & E1 & _ & b2 & w2 & E2 & S2).
  destruct HT as [H1 H2 H3 H4 H5 H6 H7 H8].
  rewrite (bind_ok _ _ _ _ _ E1), (bind_ok _ _ _ _ _ E2).
  destruct (copy_data_spec _ R _ h g b2 b1 w2 S2) as (w3 & E3 & S3);
    [simpl; by rewrite lookup_insert_eq|simpl; by rewrite lookup_insert_ne, lookup_insert_eq|].
  rewrite (bind_ok _ _ _ _ _ E3).
  destruct (bwrite_spec p pid _ R m h b2 w3 S3) as (w4 & E4 & S4); [simpl; by rewrite lookup_insert_eq|].
  rewrite (bind_ok _ _ _ _ _ E4). set (A4 := a_bwrite h _) in S4.
  pose proof (bs_rep _ _ _ _ _ _ Hb) as HR.
  assert (∃ w5, when (negb recovering) (bunpin b2) w4 = Ok () w5 ∧
    bstate (if recovering then A4 else a_add_ref h (-1) A4) R m w5) as (w5 & E5 & S5).
  { destruct recovering; [by exists w4|]. destruct (Hpin eq_refl) as [r Hr].
    apply (bunpin_spec p pid); [done|subst A4; simpl; by rewrite lookup_insert_eq|].
    subst A4. simpl. rewrite lookup_insert_eq, lookup_insert_ne, Hr by done. simpl.
    apply (r_refs _ _ _ _ HR) in Hr. lia. }
  rewrite (bind_ok _ _ _ _ _ E5). set (A5 := if recovering then A4 else _) in S5.
  assert (a_refs A5 !! g = Some 1 ∧ a_lock A5 = <[h := b2]> (<[g := b1]> ∅) ∧ a_view A5 = a_view A4
          ∧ a_disk A5 = a_disk A4) as (G1 & G2 & G3 & G4).
  { assert (a_refs A4 !! g = Some 1 ∧ a_lock A4 = <[h := b2]> (<[g := b1]> ∅)) as [G1 G2].
    { subst A4. simpl. by rewrite H1, lookup_insert_ne, lookup_insert_eq, H5. }
    subst A5. destruct recovering; [done|].
    split; [|done]. by destruct (a_add_ref_agree h (-1) A4 g H2) as (_ & _ & -> & _). }
  destruct (brelse_spec p pid _ R m g b1 w5 S5) as (w6 & E6 & S6).
  { by rewrite G2, lookup_insert_ne, lookup_insert_eq. }
  { intros _. rewrite G3, G4. subst A4. simpl. rewrite !fn_lookup_insert_ne by done. by apply (r_clean _ _ _ _ HR). }
  rewrite (bind_ok _ _ _ _ _ E6).
  destruct (brelse_spec p pid _ R m h b2 w6 S6) as (w7 & E7 & S7).
  { simpl. by rewrite G2, lookup_delete_ne, lookup_insert_eq. }
  { intros _. simpl. rewrite G3, G4. subst A4. simpl. by rewrite !fn_lookup_insert. }
  exists w7. split; [done|]. eapply bstate_proper in S7; [exact S7| |done..].
  assert (∀ A : acache, a_view (if recovering then A else a_add_ref h (-1) A) = a_view A
    ∧ a_disk (if recovering then A else a_add_ref h (-1) A) = a_disk A
    ∧ a_hist (if recovering then A else a_add_ref h (-1) A) = a_hist A
    ∧ a_lock (if recovering then A else a_add_ref h (-1) A) = a_lock A) as HA by (by destruct recovering).
  destruct (HA A) as (V1 & V2 & V3 & V4). destruct (HA A4) as (W1 & W2 & W3 & W4).
  unfold a_writes, a_brelse at 1. split; [|split; [|split; [|split]]]; simpl; rewrite ?V1, ?V2, ?V3, ?V4; subst A5.
  - intros k. rewrite W1. done.
  - intros k. rewrite W2. simpl. by rewrite fn_lookup_insert.
  - rewrite W3. simpl. by rewrite fn_lookup_insert.
  - rewrite G1. simpl. rewrite (lookup_delete_ne _ g h) by done.
    destruct recovering; simpl.
    + rewrite !lookup_insert_eq, !(lookup_insert_ne _ g h) by done. rewrite H5. simpl.
      destruct (a_refs A !! h) as [r|] eqn:Hr; simpl; [|map_cases k].
      pose proof (r_refs _ _ _ _ HR _ _ Hr) as [Hr0 _]. rewrite decide_False by lia.
      map_cases k. rewrite Hr. f_equal. lia.
    + destruct (Hpin eq_refl) as [r Hr]. rewrite !lookup_insert_eq, !(lookup_insert_ne _ g h), Hr by done. simpl.
      pose proof (r_refs _ _ _ _ HR _ _ Hr) as [Hr0 _].
      rewrite (decide_False (P := r + 1 + -1 = 0)), lookup_insert_eq by lia. simpl. rewrite H5. simpl.
      destruct (decide (r + -1 = 0)), (decide (r + 1 + -1 + -1 = 0)); try lia; map_cases k. f_equal. lia.
  - rewrite W4. subst A4. simpl. rewrite H1. by map_cases k.
Qed.

(** [write_head]'s stores into the header block. *)
Lemma put_blocks_loop A R m n b blocks cnt w :
  bstate A R m w → a_lock A !! n = Some b → (4 + 4 * cnt <= Z.to_nat BSIZE)%nat →
  ∃ w', mfor (seq 0 cnt) (λ i, modify (upd_buf b (λ x, x <| b_data ::= set32 (4 + 4 * i) (blocks !!! i) |>))) w
        = Ok () w' ∧ bstate (a_store n (put_blocks blocks cnt (a_view A n)) A) R m w'.
Proof.
  intros Hb Hlk Hcnt. pose proof (r_len _ _ _ _ (bs_rep _ _ _ _ _ _ Hb) n) as [Hlen _].
  apply (mfor_seq_inv (λ i w, bstate (a_store n (put_blocks blocks i (a_view A n)) A) R m w)).
  - intros i w1 Hi S1. cbn [put_blocks].
    destruct (store_spec p pid _ R m n b (set32 (4 + 4 * i) (blocks !!! i)) w1 S1) as (w2 & E2 & S2).
    + done.
    + simpl. rewrite fn_lookup_insert. rewrite length_set32; rewrite length_put_blocks; rewrite ?Hlen; lia.
    + exists w2. split; [done|]. eapply bstate_proper in S2; [exact S2| |done..].
      unfold a_store. simpl. rewrite fn_lookup_insert. split; [|done]. intros k. simpl. by rewrite fn_store_twice.
  - cbn [put_blocks]. eapply bstate_proper; [|done..|exact Hb]. split; [|done]. intros k. simpl.
    destruct (decide (n = k)) as [->|?]; [by rewrite fn_lookup_insert|by rewrite fn_lookup_insert_ne].
Qed.

Lemma bstate_log A R m w : bstate A R m w → k_log (ks w) = k_log R.
Proof. intros Hb. by rewrite <- (bs_rest _ _ _ _ _ _ Hb). Qed.

(** The log's place on the disk. *)
Record log_geo (L : logst) : Prop := {
  lg_dev : l_dev L = ROOTDEV;
  lg_start : 0 <= l_start L;
  lg_end : l_start L + l_size L < 2 ^ 31;
  lg_size : 0 < l_size L <= LOGSIZE;
  lg_blen : length (l_block L) = Z.to_nat LOGSIZE
}.

(** A transaction that fits: its blocks are home blocks. *)
Record log_txn (L : logst) : Prop := {
  lt_n : 0 <= l_n L < l_size L;
  lt_blocks : ∀ i, (i < Z.to_nat (l_n L))%nat →
                0 <= l_block L !!! i < 2 ^ 31 ∧ home (l_start L) (l_size L) (l_block L !!! i)
}.

(** The cache when log.c runs: nothing locked, a spare buffer, no log block in
    use by anyone else. *)
Record log_cache (L : logst) (A : acache) : Prop := {
  lc_idle : idle A;
  lc_log : ∀ n, l_start L <= n < l_start L + l_size L → a_refs A !! n = None;
  lc_size : (size (a_refs A) < HEAD)%nat
}.

Definition pinned (A : acache) (n : Z) : Prop := ∃ r, a_refs A !! n = Some r ∧ 0 < r < 2 ^ 32 - 2.

Lemma log_cache_writes L ws A : log_cache L A → log_cache L (a_writes ws A).
Proof. intros [H1 H2 H3]. by split. Qed.

Lemma u32_dev L : log_geo L → u32 (l_dev L) = ROOTDEV.
Proof. intros HL. by rewrite (lg_dev _ HL). Qed.

Lemma write_head_spec A R m w :
  let L := k_log R in
  bstate A R (2 + m) w → log_geo L → 0 <= l_n L <= LOGSIZE → log_cache L A →
  ∃ w', write_head w = Ok () w'
    ∧ bstate (a_writes [(l_start L, put_head (l_n L) (l_block L) (a_view A (l_start L)))] A) R m w'.
Proof.
  intros L Hb HL Hn [C1 C2 C3]. unfold write_head. erewrite bind_ok by reflexivity.
  rewrite (bstate_log _ _ _ _ Hb). fold L. pose proof HL as [G1 G2 G3 G4 G5]. rewrite (u32_dev L) by done.
  rewrite (u32_small (l_start L)) by lia.
  assert (a_refs A !! l_start L = None) as Hr by (apply C2; lia).
  pose proof (r_len _ _ _ _ (bs_rep _ _ _ _ _ _ Hb) (l_start L)) as [Hlen _].
  destruct (bread_spec p pid A R (S m) (l_start L) w Hb) as (b & w1 & E1 & S1).
  { split; [lia|]. split; [by rewrite C1|]. split; [rewrite Hr; simpl; lia|by right]. }
  rewrite (bind_ok _ _ _ _ _ E1).
  destruct (store_spec p pid _ R _ (l_start L) b (set32 0 (l_n L)) w1 S1) as (w2 & E2 & S2).
  { simpl. by rewrite lookup_insert_eq. }
  { change (a_view (a_bread _ _ A)) with (a_view A). rewrite length_set32; rewrite Hlen; [done|unfold BSIZE; lia]. }
  rewrite (bind_ok _ _ _ _ _ E2).
  destruct (put_blocks_loop _ R _ (l_start L) b (l_block L) (Z.to_nat (l_n L)) w2 S2) as (w3 & E3 & S3).
  { simpl. by rewrite lookup_insert_eq. }
  { unfold BSIZE, LOGSIZE, MAXOPBLOCKS in *. lia. }
  rewrite (bind_ok _ _ _ _ _ E3).
  destruct (bwrite_spec p pid _ R m (l_start L) b w3 S3) as (w4 & E4 & S4); [simpl; by rewrite lookup_insert_eq|].
  rewrite (bind_ok _ _ _ _ _ E4).
  destruct (brelse_spec p pid _ R m (l_start L) b w4 S4) as (w5 & E5 & S5).
  { simpl. by rewrite lookup_insert_eq. }
  { intros _. simpl. by rewrite !fn_lookup_insert. }
  exists w5. split; [done|]. eapply bstate_proper in S5; [exact S5| |done..].
  split; [|split; [|split; [|split]]]; simpl; rewrite ?fn_lookup_insert.
  - intros k. by rewrite fn_store_twice.
  - intros k. done.
  - done.
  - rewrite lookup_insert_eq, Hr. simpl. by map_cases k.
  - rewrite C1. by map_cases k.
Qed.

Lemma log_ws_S start blocks i v :
  log_ws start blocks (S i) v = log_ws start blocks i v ++ [(start + Z.of_nat i + 1, v (blocks !!! i))].
Proof. unfold log_ws. by rewrite seq_S, fmap_app. Qed.

Lemma inst_ws_S start blocks i d :
  inst_ws start blocks (S i) d = inst_ws start blocks i d ++ [(blocks !!! i, d (start + Z.of_nat i + 1))].
Proof. unfold inst_ws. by rewrite seq_S, fmap_app. Qed.

Lemma log_ws_keys start blocks i v n :
  n ∈ (log_ws start blocks i v).*1 → start < n <= start + Z.of_nat i.
Proof.
  unfold log_ws. rewrite <- list_fmap_compose. intros (j & -> & Hj%elem_of_seq)%list_elem_of_fmap. simpl. lia.
Qed.

Lemma inst_ws_keys start blocks i d n :
  n ∈ (inst_ws start blocks i d).*1 → ∃ j, (j < i)%nat ∧ n = blocks !!! j.
Proof.
  unfold inst_ws. rewrite <- list_fmap_compose. intros (j & -> & Hj%elem_of_seq)%list_elem_of_fmap.
  exists j. simpl. split; [lia|done].
Qed.

Lemma write_log_spec A R m w :
  let L := k_log R in
  bstate A R (3 * Z.to_nat (l_n L) + m) w → log_geo L → log_txn L → log_cache L A →
  (∀ i, (i < Z.to_nat (l_n L))%nat → pinned A (l_block L !!! i)) →
  ∃ w', write_log w = Ok () w'
    ∧ bstate (a_writes (log_ws (l_start L) (l_block L) (Z.to_nat (l_n L)) (a_view A)) A) R m w'.
Proof.
  intros L Hb HL HT HC Hpin. unfold write_log. erewrite bind_ok by reflexivity.
  rewrite (bstate_log _ _ _ _ Hb). fold L. pose proof HL as [G1 G2 G3 G4 G5]. pose proof HT as [T1 T2].
  unfold LOGSIZE, MAXOPBLOCKS in *.
  set (n := Z.to_nat (l_n L)) in *.
  destruct (mfor_seq_inv (λ i w, bstate (a_writes (log_ws (l_start L) (l_block L) i (a_view A)) A) R (3 * (n - i) + m) w)
    (λ tail, lg ← gets k_log;
      to ← bread (u32 (l_dev lg)) (u32 (l_start lg + Z.of_nat tail + 1));
      from ← bread (u32 (l_dev lg)) (u32 (l_block lg !!! tail));
      copy_data to from;; bwrite to;; brelse from;; brelse to) 0 n w) as (w' & E & S').
  - intros i w1 Hi S1. erewrite bind_ok by reflexivity. rewrite (bstate_log _ _ _ _ S1). fold L.
    destruct (T2 i) as [B1 B2]; [lia|]. rewrite (u32_dev L) by done.
    rewrite (u32_small (l_start L + Z.of_nat i + 1)), (u32_small (l_block L !!! i)) by lia.
    destruct (Hpin i) as (r & Hr & Hr0); [lia|].
    replace (3 * (n - i) + m)%nat with (3 + (3 * (n - S i) + m))%nat in S1 by lia.
    set (A1 := a_writes _ A) in S1. unfold home in B2.
    destruct (write_log_step A1 R _ (l_start L + Z.of_nat i + 1) (l_block L !!! i) w1 S1) as (w2 & E2 & S2).
    { destruct HC as [C1 C2 C3]. split; simpl; rewrite ?Hr; simpl; try done; try lia; [apply C2; lia|eauto]. }
    { simpl. eauto. }
    exists w2. split; [done|]. subst A1. rewrite <- a_writes_app in S2. rewrite log_ws_S. simpl in S2.
    rewrite writes_other in S2; [exact S2|]. intros K%log_ws_keys. lia.
  - cbv beta. replace (3 * (n - 0))%nat with (3 * n)%nat by lia. unfold log_ws. simpl. by rewrite a_writes_nil.
  - exists w'. split; [done|]. cbv beta in S'. rewrite Nat.add_0_l in S'. by replace (3 * (n - n) + m)%nat with m in S' by lia.
Qed.

(** The pins that [log_write] took, given back one by one. *)
Fixpoint unpins (blocks : list Z) (k : nat) (A : acache) : acache :=
  match k with
  | O => A
  | S k => a_add_ref (blocks !!! k) (-1) (unpins blocks k A)
  end.

Lemma unpins_same blocks k A :
  a_view (unpins blocks k A) = a_view A ∧ a_disk (unpins blocks k A) = a_disk A
  ∧ a_hist (unpins blocks k A) = a_hist A ∧ a_lock (unpins blocks k A) = a_lock A.
Proof. induction k as [|k IH]; [done|]. exact IH. Qed.

Lemma unpins_other blocks k A n :
  (∀ i, (i < k)%nat → blocks !!! i ≠ n) → a_refs (unpins blocks k A) !! n = a_refs A !! n.
Proof.
  induction k as [|k IH]; intros Hn; [done|]. cbn [unpins].
  destruct (a_add_ref_agree (blocks !!! k) (-1) (unpins blocks k A) n) as (_ & _ & -> & _).
  - apply not_eq_sym, Hn. lia.
  - apply IH. intros i Hi. apply Hn. lia.
Qed.

Lemma unpins_writes blocks k ws A : unpins blocks k (a_writes ws A) = a_writes ws (unpins blocks k A).
Proof. induction k as [|k IH]; [done|]. cbn [unpins]. by rewrite IH. Qed.

Lemma add_ref_dom n d A : is_Some (a_refs A !! n) → dom (a_refs (a_add_ref n d A)) ⊆ dom (a_refs A).
Proof.
  intros Hn%elem_of_dom. unfold a_add_ref. simpl. case_decide; [rewrite dom_delete|rewrite dom_insert]; set_solver.
Qed.

(** Distinct blocks of a transaction. *)
Definition distinct (blocks : list Z) (n : nat) : Prop :=
  ∀ i j, (i < n)%nat → (j < n)%nat → blocks !!! i = blocks !!! j → i = j.

Lemma unpins_size blocks k A :
  distinct blocks k → (∀ i, (i < k)%nat → pinned A (blocks !!! i)) →
  (size (a_refs (unpins blocks k A)) <= size (a_refs A))%nat.
Proof.
  intros Hd Hp. rewrite <- !size_dom. apply subseteq_size.
  induction k as [|k IH]; [done|]. cbn [unpins]. etrans; [apply add_ref_dom|apply IH].
  - rewrite unpins_other.
    + destruct (Hp k) as (r & -> & _); [lia|eauto].
    + intros i Hi E. apply Hd in E; lia.
  - intros i j Hi Hj. apply Hd; lia.
  - intros i Hi. apply Hp. lia.
Qed.

Lemma install_trans_spec (recovering : bool) A R m w :
  let L := k_log R in let n := Z.to_nat (l_n L) in
  bstate A R (3 * n + m) w → log_geo L → log_txn L → log_cache L A →
  (if recovering then a_refs A = ∅
   else distinct (l_block L) n ∧ ∀ i, (i < n)%nat → pinned A (l_block L !!! i)) →
  ∃ w', install_trans recovering w = Ok () w'
    ∧ bstate (a_writes (inst_ws (l_start L) (l_block L) n (a_view A))
                (if recovering then A else unpins (l_block L) n A)) R m w'.
Proof.
  intros L n Hb HL HT HC Hrec. unfold install_trans. erewrite bind_ok by reflexivity.
  rewrite (bstate_log _ _ _ _ Hb). fold L. pose proof HL as [G1 G2 G3 G4 G5]. pose proof HT as [T1 T2].
  unfold LOGSIZE, MAXOPBLOCKS in *. fold n.
  destruct (mfor_seq_inv (λ i w, bstate (a_writes (inst_ws (l_start L) (l_block L) i (a_view A))
                                  (if recovering then A else unpins (l_block L) i A)) R (3 * (n - i) + m) w)
    (λ tail, lg ← gets k_log;
      lbuf ← bread (u32 (l_dev lg)) (u32 (l_start lg + Z.of_nat tail + 1));
      dbuf ← bread (u32 (l_dev lg)) (u32 (l_block lg !!! tail));
      copy_data dbuf lbuf;; bwrite dbuf;;
      when (negb recovering) (bunpin dbuf);; brelse lbuf;; brelse dbuf) 0 n w) as (w' & E & S').
  - intros i w1 Hi S1. erewrite bind_ok by reflexivity. rewrite (bstate_log _ _ _ _ S1). fold L.
    destruct (T2 i) as [B1 B2]; [lia|]. rewrite (u32_dev L) by done.
    rewrite (u32_small (l_start L + Z.of_nat i + 1)), (u32_small (l_block L !!! i)) by lia. unfold home in B2.
    replace (3 * (n - i) + m)%nat with (3 + (3 * (n - S i) + m))%nat in S1 by lia.
    set (A0 := if recovering then A else unpins (l_block L) i A) in S1.
    set (A1 := a_writes _ A0) in S1. destruct HC as [C1 C2 C3].
    assert (a_refs A1 = a_refs A0) as ER by done.
    assert (∀ k, l_start L <= k < l_start L + l_size L → a_refs A0 !! k = None) as C2'.
    { subst A0. destruct recovering; [done|]. intros k Hk. rewrite unpins_other; [by apply C2|].
      intros j Hj Ej. destruct (T2 j) as [_ Hh]; [lia|]. rewrite Ej in Hh. by apply Hh. }
    assert (size (a_refs A0) < HEAD)%nat as C3'.
    { subst A0. destruct recovering; [done|]. destruct Hrec as [Hd Hp].
      pose proof (unpins_size (l_block L) i A) as Hs. lapply Hs; [clear Hs; intros Hs|intros j k ? ?; apply Hd; lia].
      lapply Hs; [lia|]. intros j Hj. apply Hp. lia. }
    assert (recovering = false → pinned A0 (l_block L !!! i)) as Hpin.
    { intros ->. destruct Hrec as [Hd Hp]. destruct (Hp i) as (r & Hr & Hr0); [lia|]. exists r. split; [|done].
      subst A0. simpl. rewrite unpins_other; [done|]. intros j Hj Ej. apply Hd in Ej; lia. }
    assert (a_view A0 = a_view A ∧ a_lock A0 = a_lock A) as [EV EL].
    { subst A0. destruct recovering; [done|]. by destruct (unpins_same (l_block L) i A) as (? & _ & _ & ?). }
    destruct (install_step recovering A1 R _ (l_start L + Z.of_nat i + 1) (l_block L !!! i) w1 S1) as (w2 & E2 & S2).
    { split; rewrite ?ER; try done; try lia.
      - unfold idle. change (a_lock A1) with (a_lock A0). by rewrite EL.
      - apply C2'. lia.
      - destruct recovering; [subst A0; rewrite Hrec, lookup_empty; simpl; lia|].
        destruct (Hpin eq_refl) as (r & -> & ?). simpl. lia.
      - destruct recovering; [right; subst A0; rewrite Hrec, map_size_empty; vm_compute; lia|].
        left. destruct (Hpin eq_refl) as (r & -> & ?). eauto. }
    { intros Er. destruct (Hpin Er) as (r & ? & _). rewrite ER. eauto. }
    exists w2. split; [done|]. rewrite inst_ws_S, a_writes_app.
    assert (a_view A1 (l_start L + Z.of_nat i + 1) = a_view A (l_start L + Z.of_nat i + 1)) as EA.
    { subst A1. simpl. rewrite EV. apply writes_other. intros (j & Hj & K)%inst_ws_keys.
      destruct (T2 j) as [_ Hh]; [lia|]. apply Hh. rewrite <- K. lia. }
    rewrite EA in S2. by destruct recovering.
  - cbv beta. replace (3 * (n - 0))%nat with (3 * n)%nat by lia. unfold inst_ws. simpl.
    rewrite a_writes_nil. by destruct recovering.
  - exists w'. split; [done|]. cbv beta in S'. rewrite Nat.add_0_l in S'. by replace (3 * (n - n) + m)%nat with m in S' by lia.
Qed.

Lemma modify_log_spec A R m f w :
  bstate A R m w → ∃ w', modify_log f w = Ok () w' ∧ bstate A (R <| k_log ::= f |>) m w'.
Proof.
  intros Hb. eexists. split; [reflexivity|]. by apply (bstate_rest p pid A R m (λ k, k <| k_log ::= f |>)).
Qed.

(** A header as [read_head] leaves it in memory. *)
Definition head_read (data : list Z) (L L' : logst) : Prop :=
  ∃ blk, L' = L <| l_n := hdr_n data |> <| l_block := blk |> ∧ length blk = Z.to_nat LOGSIZE
    ∧ ∀ i, (i < Z.to_nat (hdr_n data))%nat → blk !!! i = hdr_block data i.

Lemma read_blocks_loop A R m data n w :
  bstate A R m w → length (l_block (k_log R)) = Z.to_nat LOGSIZE → (n <= Z.to_nat LOGSIZE)%nat →
  ∃ w', mfor (seq 0 n) (λ i, store_lh_block (Z.of_nat i) (i32 (get32 data (4 + 4 * i)))) w = Ok () w'
    ∧ ∃ blk, length blk = Z.to_nat LOGSIZE ∧ (∀ j, (j < n)%nat → blk !!! j = hdr_block data j)
      ∧ bstate A (R <| k_log := (k_log R) <| l_block := blk |> |>) m w'.
Proof.
  intros Hb Hlen Hn.
  apply (mfor_seq_inv (λ i w, ∃ blk, length blk = Z.to_nat LOGSIZE ∧ (∀ j, (j < i)%nat → blk !!! j = hdr_block data j)
      ∧ bstate A (R <| k_log := (k_log R) <| l_block := blk |> |>) m w)).
  - intros i w1 Hi (blk & Hl & Hj & S1). unfold store_lh_block.
    assert ((Z.of_nat i <? 0) || (LOGSIZE <=? Z.of_nat i) = false) as E0.
    { apply orb_false_iff. split; [apply Z.ltb_ge|apply Z.leb_gt]; unfold LOGSIZE, MAXOPBLOCKS in *; lia. }
    unfold panic_if. rewrite E0. erewrite bind_ok by reflexivity.
    destruct (modify_log_spec A _ m (λ l, l <| l_block ::= <[Z.to_nat (Z.of_nat i) := i32 (get32 data (4 + 4 * i))]> |>) w1 S1)
      as (w2 & E2 & S2).
    exists w2. split; [done|]. rewrite Nat2Z.id in S2.
    exists (<[i := hdr_block data i]> blk). split; [by rewrite length_insert|]. split; [|exact S2].
    intros j Hj'. destruct (decide (j = i)) as [->|?].
    + rewrite list_lookup_total_insert_eq by lia. done.
    + rewrite list_lookup_total_insert_ne by done. apply Hj. lia.
  - exists (l_block (k_log R)). split; [done|]. split; [intros j ?; lia|]. destruct R as [? ? ? ? ? ? ? ? ? ? ? [] ? ? ? ? ? ? ? ? ? ?]. done.
Qed.

Lemma read_head_spec A R m w :
  let L := k_log R in
  bstate A R (1 + m) w → log_geo L → 0 <= hdr_n (a_view A (l_start L)) <= LOGSIZE → log_cache L A →
  ∃ w' L', read_head w = Ok () w' ∧ head_read (a_view A (l_start L)) L L'
    ∧ bstate A (R <| k_log := L' |>) m w'.
Proof.
  intros L Hb HL Hn [C1 C2 C3]. unfold read_head. erewrite bind_ok by reflexivity.
  rewrite (bstate_log _ _ _ _ Hb). fold L. pose proof HL as [G1 G2 G3 G4 G5].
  rewrite (u32_dev L), (u32_small (l_start L)) by (done || lia).
  assert (a_refs A !! l_start L = None) as Hr by (apply C2; lia).
  destruct (bread_spec p pid A R m (l_start L) w Hb) as (b & w1 & E1 & S1).
  { split; [lia|]. split; [by rewrite C1|]. split; [rewrite Hr; simpl; lia|by right]. }
  rewrite (bind_ok _ _ _ _ _ E1). erewrite bind_ok by reflexivity.
  assert (a_lock (a_bread (l_start L) b A) !! l_start L = Some b) as Hlk by (simpl; by rewrite lookup_insert_eq).
  destruct (bstate_data p pid _ _ _ _ _ _ S1 Hlk) as [-> _].
  change (a_view (a_bread (l_start L) b A)) with (a_view A). set (data := a_view A (l_start L)) in *.
  destruct (modify_log_spec _ R m (λ l, l <| l_n := i32 (get32 data 0) |>) w1 S1) as (w2 & E2 & S2).
  rewrite (bind_ok _ _ _ _ _ E2). erewrite bind_ok by reflexivity. rewrite (bstate_log _ _ _ _ S2).
  change (l_n (k_log (R <| k_log ::= _ |>))) with (hdr_n data).
  destruct (read_blocks_loop _ _ m data (Z.to_nat (hdr_n data)) w2 S2) as (w3 & E3 & blk & B1 & B2 & S3); [done|lia|].
  rewrite (bind_ok _ _ _ _ _ E3).
  destruct (brelse_spec p pid _ _ m (l_start L) b w3 S3 Hlk) as (w4 & E4 & S4).
  { intros _. simpl. apply (r_clean _ _ _ _ (bs_rep _ _ _ _ _ _ Hb)). done. }
  exists w4, (L <| l_n := hdr_n data |> <| l_block := blk |>). split; [done|]. split; [by exists blk|].
  eapply bstate_proper in S4; [exact S4| |done..].
  split; [done|]. split; [done|]. split; [done|]. simpl. split.
  - rewrite lookup_insert_eq, Hr. simpl. by map_cases k.
  - rewrite C1. by map_cases k.
Qed.

Lemma recover_spec d h R m w :
  let L := k_log R in let hd := d (l_start L) in let n := Z.to_nat (hdr_n hd) in
  bstate (fresh d h) R (3 * n + 3 + m) w → log_geo L → hdr_ok (l_start L) (l_size L) hd →
  ∃ w' L' data, recover_from_log w = Ok () w' ∧ head_read hd L L' ∧ hdr_n data = 0
    ∧ bstate (a_writes (inst_ws (l_start L) (hdr_blocks hd) n d ++ [(l_start L, data)]) (fresh d h))
         (R <| k_log := L' <| l_n := 0 |> |>) m w'.
Proof.
  intros L hd n Hb HL [O1 O2]. pose proof HL as [G1 G2 G3 G4 G5].
  assert (log_cache L (fresh d h)) as HC by (split; [done|done|simpl; rewrite map_size_empty; vm_compute; lia]).
  assert (0 <= hdr_n hd <= LOGSIZE) as Hn by lia.
  unfold recover_from_log.
  replace (3 * n + 3 + m)%nat with (1 + (3 * n + (2 + m)))%nat in Hb by lia.
  destruct (read_head_spec (fresh d h) R _ w Hb HL Hn HC) as (w1 & L1 & E1 & (blk & EL1 & B1 & B2) & S1).
  rewrite (bind_ok _ _ _ _ _ E1). change (a_view (fresh d h) (l_start L)) with hd in *. fold L in EL1.
  assert (l_start L1 = l_start L ∧ l_size L1 = l_size L ∧ l_n L1 = hdr_n hd ∧ l_block L1 = blk ∧ l_dev L1 = l_dev L)
    as (F1 & F2 & F3 & F4 & F5) by (by rewrite EL1).
  assert (log_geo L1) as HL1. { split; rewrite ?F1, ?F2, ?F4, ?F5; done. }
  assert (log_txn L1) as HT1.
  { split; rewrite ?F1, ?F2, ?F3, ?F4; [done|]. intros i Hi. rewrite B2 by done. by apply O2. }
  destruct (install_trans_spec true (fresh d h) (R <| k_log := L1 |>) (2 + m) w1) as (w2 & E2 & S2).
  { change (k_log (R <| k_log := L1 |>)) with L1. rewrite F3. exact S1. }
  { done. } { done. } { split; change (k_log (R <| k_log := L1 |>)) with L1; rewrite ?F1, ?F2; apply HC. } { done. }
  rewrite (bind_ok _ _ _ _ _ E2). change (k_log (R <| k_log := L1 |>)) with L1 in S2. rewrite F1, F3, F4 in S2.
  fold n in S2. change (a_view (fresh d h)) with d in S2.
  assert (inst_ws (l_start L) blk n d = inst_ws (l_start L) (hdr_blocks hd) n d) as EI.
  { unfold inst_ws. apply list_fmap_ext. intros i x [-> Hx]%lookup_seq. f_equal. simpl. rewrite B2 by done.
    unfold hdr_blocks. symmetry. apply list_lookup_total_correct. rewrite list_lookup_fmap, lookup_seq_lt by done. done. }
  rewrite EI in S2.
  destruct (modify_log_spec _ _ _ (λ l, l <| l_n := 0 |>) w2 S2) as (w3 & E3 & S3).
  rewrite (bind_ok _ _ _ _ _ E3). set (A2 := a_writes _ _) in S3.
  set (L2 := L1 <| l_n := 0 |>). change (R <| k_log := L1 |> <| k_log ::= _ |>) with (R <| k_log := L2 |>) in S3.
  destruct (write_head_spec A2 (R <| k_log := L2 |>) m w3 S3) as (w4 & E4 & S4).
  { change (k_log (R <| k_log := L2 |>)) with L2. clear -HL1. destruct HL1. by split. }
  { by simpl. }
  { change (k_log (R <| k_log := L2 |>)) with L2. apply log_cache_writes. split; subst L2; simpl; rewrite ?F1, ?F2; apply HC. }
  exists w4, L1. eexists. split; [done|]. split; [by exists blk|].
  change (k_log (R <| k_log := L2 |>)) with L2 in S4. change (l_start L2) with (l_start L1) in S4. rewrite F1 in S4.
  split; [|rewrite a_writes_app; exact S4].
  apply hdr_n_put_head; [|by simpl].
  apply (r_len _ _ _ _ (bs_rep _ _ _ _ _ _ S3)).
Qed.

Lemma commit_spec A R m w :
  let L := k_log R in let n := Z.to_nat (l_n L) in
  bstate A R (6 * n + 4 + m) w → log_geo L → log_txn L → log_cache L A → 0 < l_n L →
  distinct (l_block L) n → (∀ i, (i < n)%nat → pinned A (l_block L !!! i)) →
  ∃ w', commit w = Ok () w'
    ∧ bstate (a_writes (commit_ws (l_start L) (l_block L) (l_n L) (a_view A)) (unpins (l_block L) n A))
         (R <| k_log := L <| l_n := 0 |> |>) m w'.
Proof.
  intros L n Hb HL HT HC Hpos Hd Hp. pose proof HL as [G1 G2 G3 G4 G5]. pose proof HT as [T1 T2].
  assert (0 <= l_n L <= LOGSIZE) as Hn by lia.
  unfold commit. erewrite bind_ok by reflexivity. rewrite (bstate_log _ _ _ _ Hb). fold L.
  rewrite (proj2 (Z.ltb_lt _ _) Hpos). unfold when.
  replace (6 * n + 4 + m)%nat with (3 * n + (2 + (3 * n + (2 + m))))%nat in Hb by lia.
  destruct (write_log_spec A R _ w Hb HL HT HC Hp) as (w1 & E1 & S1). fold L n in S1.
  rewrite (bind_ok _ _ _ _ _ E1). set (A1 := a_writes _ A) in S1.
  destruct (write_head_spec A1 R _ w1 S1 HL Hn) as (w2 & E2 & S2); [by apply log_cache_writes|]. fold L in S2.
  rewrite (bind_ok _ _ _ _ _ E2).
  assert (a_view A1 (l_start L) = a_view A (l_start L)) as EV1.
  { apply writes_other. intros K%log_ws_keys. lia. }
  rewrite EV1 in S2. set (h1 := put_head _ _ _) in S2. set (A2 := a_writes _ A1) in S2.
  destruct (install_trans_spec false A2 R _ w2 S2 HL HT) as (w3 & E3 & S3);
    [by do 2 apply log_cache_writes|by split|]. fold L n in S3.
  rewrite (bind_ok _ _ _ _ _ E3).
  assert (inst_ws (l_start L) (l_block L) n (a_view A2) = home_ws (l_block L) n (a_view A)) as EI.
  { unfold inst_ws, home_ws. apply list_fmap_ext. intros i x [-> Hi]%lookup_seq. simpl. f_equal.
    rewrite fn_lookup_insert_ne by lia. apply writes_in.
    - unfold log_ws. rewrite <- list_fmap_compose. apply NoDup_fmap_2; [|apply NoDup_seq].
      intros a b. simpl. lia.
    - unfold log_ws. apply list_elem_of_fmap. exists i. split; [done|]. apply elem_of_seq. lia. }
  rewrite EI in S3. set (A3 := a_writes _ _) in S3.
  destruct (modify_log_spec _ _ _ (λ l, l <| l_n := 0 |>) w3 S3) as (w4 & E4 & S4).
  rewrite (bind_ok _ _ _ _ _ E4). set (L2 := L <| l_n := 0 |>). change (R <| k_log ::= _ |>) with (R <| k_log := L2 |>) in S4.
  assert (log_cache L (unpins (l_block L) n A2)) as [D1 D2 D3].
  { split.
    - unfold idle. destruct (unpins_same (l_block L) n A2) as (_ & _ & _ & ->). apply HC.
    - intros k Hk. rewrite unpins_other; [by apply HC|]. intros i Hi E. destruct (T2 i Hi) as [_ Hh].
      apply Hh. by rewrite E.
    - eapply Nat.le_lt_trans; [by apply unpins_size|apply HC]. }
  destruct (write_head_spec A3 (R <| k_log := L2 |>) m w4 S4) as (w5 & E5 & S5).
  { by split. } { by simpl. } { apply log_cache_writes. by split. }
  change (k_log (R <| k_log := L2 |>)) with L2 in S5. change (l_start L2) with (l_start L) in S5.
  exists w5. split; [done|].
  assert (a_view A3 (l_start L) = h1) as EV3.
  { subst A3. simpl. destruct (unpins_same (l_block L) n A2) as (-> & _). rewrite writes_other.
    - simpl. by rewrite fn_lookup_insert.
    - unfold home_ws. rewrite <- list_fmap_compose. intros (i & Ei & Hi%elem_of_seq)%list_elem_of_fmap. simpl in Ei.
      destruct (T2 i) as [_ Hh]; [lia|]. apply Hh. rewrite <- Ei. lia. }
  rewrite EV3 in S5. unfold commit_ws. fold n h1.
  assert (a_writes (log_ws (l_start L) (l_block L) n (a_view A) ++ (l_start L, h1) :: home_ws (l_block L) n (a_view A)
      ++ [(l_start L, put_head 0 (l_block L) h1)]) (unpins (l_block L) n A)
    = a_writes [(l_start L, put_head 0 (l_block L) h1)] A3) as ->; [|exact S5].
  rewrite a_writes_app, (app_comm_cons _ _ (l_start L, h1)), a_writes_app. f_equal. subst A3 A2 A1.
  change ((l_start L, h1) :: ?l) with ([(l_start L, h1)] ++ l). by rewrite a_writes_app, !unpins_writes.
Qed.

Lemma initlog_spec d h sb R m w :
  let hd := d (sb_logstart sb) in
  bstate (fresh d h) R (3 * Z.to_nat (hdr_n hd) + 3 + m) w →
  0 <= sb_logstart sb → 0 < sb_nlog sb <= LOGSIZE → sb_logstart sb + sb_nlog sb < 2 ^ 31 →
  length (l_block (k_log R)) = Z.to_nat LOGSIZE → hdr_ok (sb_logstart sb) (sb_nlog sb) hd →
  ∃ w' R' data, initlog ROOTDEV sb w = Ok () w' ∧ hdr_n data = 0 ∧ l_n (k_log R') = 0
    ∧ bstate (a_writes (inst_ws (sb_logstart sb) (hdr_blocks hd) (Z.to_nat (hdr_n hd)) d
                        ++ [(sb_logstart sb, data)]) (fresh d h)) R' m w'.
Proof.
  intros hd Hb H1 H2 H3 H4 HO. unfold initlog. unfold panic_if.
  assert (BSIZE <=? 4 * (1 + LOGSIZE) = false) as -> by done.
  do 2 (erewrite bind_ok by reflexivity). unfold LOGSIZE, MAXOPBLOCKS in *.
  destruct (modify_log_spec _ _ _ (λ l, l <| l_start := i32 (sb_logstart sb) |>) w Hb) as (w1 & E1 & S1).
  rewrite (bind_ok _ _ _ _ _ E1). rewrite (i32_small (sb_logstart sb)) in S1 by lia.
  destruct (modify_log_spec _ _ _ (λ l, l <| l_size := i32 (sb_nlog sb) |>) w1 S1) as (w2 & E2 & S2).
  rewrite (bind_ok _ _ _ _ _ E2). rewrite (i32_small (sb_nlog sb)) in S2 by lia.
  destruct (modify_log_spec _ _ _ (λ l, l <| l_dev := ROOTDEV |>) w2 S2) as (w3 & E3 & S3).
  rewrite (bind_ok _ _ _ _ _ E3).
  set (R3 := R <| k_log ::= _ |> <| k_log ::= _ |> <| k_log ::= _ |>) in S3.
  destruct (recover_spec d h R3 m w3 S3) as (w4 & L' & data & E4 & _ & Hd & S4); [by split|done|].
  exists w4, (R3 <| k_log := L' <| l_n := 0 |> |>), data. done.
Qed.
End log_spec.

(** ** Crashes during a commit *)

Lemma hdr_ok_empty start size data : 0 < size → hdr_n data = 0 → hdr_ok start size data.
Proof. intros Hs E. split; rewrite E; [lia|]. intros i Hi. simpl in Hi. lia. Qed.

Lemma replay_empty start d k : hdr_n (d start) = 0 → replay start d k = d k.
Proof. intros E. unfold replay. by rewrite E. Qed.

Section crash.
Variables (start size n : Z) (blocks : list Z) (v d0 : Z → list Z).
Hypothesis Hsize : 0 < size <= LOGSIZE.
Hypothesis Hn : 0 <= n < size.
Hypothesis Hblk : ∀ i, (i < Z.to_nat n)%nat → 0 <= blocks !!! i < 2 ^ 31 ∧ home start size (blocks !!! i).
Hypothesis Hdis : distinct blocks (Z.to_nat n).
Hypothesis Hlen : length (v start) = Z.to_nat BSIZE.
(** The log on disk is empty, and what is not logged is clean. *)
Hypothesis Hempty : hdr_n (d0 start) = 0.
Hypothesis Hclean : ∀ k, home start size k → (∀ i, (i < Z.to_nat n)%nat → blocks !!! i ≠ k) → v k = d0 k.

Let hd := put_head n blocks (v start).

Lemma home_ws_keys i k : k ∈ (home_ws blocks i v).*1 → ∃ j, (j < i)%nat ∧ k = blocks !!! j.
Proof.
  unfold home_ws. rewrite <- list_fmap_compose. intros (j & -> & Hj%elem_of_seq)%list_elem_of_fmap.
  exists j. simpl. split; [lia|done].
Qed.

Lemma in_blocks k :
  (∃ i, (i < Z.to_nat n)%nat ∧ k = blocks !!! i) ∨ (∀ i, (i < Z.to_nat n)%nat → blocks !!! i ≠ k).
Proof.
  destruct (decide (k ∈ (λ i, blocks !!! i) <$> seq 0 (Z.to_nat n))) as [(i & -> & Hi%elem_of_seq)%list_elem_of_fmap|Hnin].
  - left. exists i. split; [lia|done].
  - right. intros i Hi E. apply Hnin, list_elem_of_fmap. exists i. split; [done|]. apply elem_of_seq. lia.
Qed.

Lemma take_fmap_seq {A} (f : nat → A) j k : take j (f <$> seq 0 k) = f <$> seq 0 (j `min` k).
Proof. rewrite <- fmap_take. f_equal. apply take_seq. Qed.

Lemma take_home_ws j k : take j (home_ws blocks k v) = home_ws blocks (j `min` k) v.
Proof. apply take_fmap_seq. Qed.
Lemma take_log_ws j k : take j (log_ws start blocks k v) = log_ws start blocks (j `min` k) v.
Proof. apply take_fmap_seq. Qed.

(** Writing the first [j] home blocks changes no home block to anything but its new contents. *)
Lemma writes_home j d k :
  (j <= Z.to_nat n)%nat → (d k = v k ∨ ∃ i, (i < j)%nat ∧ k = blocks !!! i) → writes (home_ws blocks j v) d k = v k.
Proof.
  intros Hj Hk. assert (NoDup (home_ws blocks j v).*1) as Hnd.
  { unfold home_ws. rewrite <- list_fmap_compose. apply NoDup_alt. intros a b x Ha Hb.
    rewrite list_lookup_fmap in Ha, Hb.
    destruct (seq 0 j !! a) as [a'|] eqn:Ea; [|done]. destruct (seq 0 j !! b) as [b'|] eqn:Eb; [|done].
    apply lookup_seq in Ea as [-> ?], Eb as [-> ?]. simpl in *. injection Ha as Ha. injection Hb as Hb.
    apply Hdis; [lia|lia|congruence]. }
  destruct (decide (k ∈ (home_ws blocks j v).*1)) as [Hin|Hin].
  - apply home_ws_keys in Hin as (i & Hi & ->). apply writes_in; [done|].
    unfold home_ws. apply list_elem_of_fmap. exists i. split; [done|]. apply elem_of_seq. lia.
  - rewrite writes_other by done. destruct Hk as [?|(i & Hi & ->)]; [done|]. destruct Hin.
    unfold home_ws. rewrite <- list_fmap_compose. apply list_elem_of_fmap. exists i. split; [done|]. apply elem_of_seq. lia.
Qed.

(** The disk once the header is written and [j] blocks are installed. *)
Lemma replay_committed j d :
  (j <= Z.to_nat n)%nat → d start = hd →
  (∀ i, (i < Z.to_nat n)%nat → d (start + Z.of_nat i + 1) = v (blocks !!! i)) →
  (∀ k, home start size k → (∀ i, (i < Z.to_nat n)%nat → blocks !!! i ≠ k) → d k = d0 k) →
  ∀ k, home start size k → replay start d k = v k.
Proof.
  unfold LOGSIZE, MAXOPBLOCKS in *. intros Hj Hh Hlog Hoth k Hk. unfold replay.
  assert (hdr_n (d start) = n) as En by (rewrite Hh; apply hdr_n_put_head; [done|unfold LOGSIZE, MAXOPBLOCKS; lia]).
  rewrite En. assert (inst_ws start (hdr_blocks (d start)) (Z.to_nat n) d = home_ws blocks (Z.to_nat n) v) as ->.
  { unfold inst_ws, home_ws. apply list_fmap_ext. intros i x [-> Hi]%lookup_seq. simpl. f_equal; [|by apply Hlog].
    unfold hdr_blocks. rewrite En. apply list_lookup_total_correct. rewrite list_lookup_fmap, lookup_seq_lt by done. simpl.
    f_equal. rewrite Hh. apply hdr_block_put_head; [done|unfold LOGSIZE, MAXOPBLOCKS; lia|done|]. by apply Hblk. }
  apply writes_home; [done|].
  destruct (in_blocks k) as [?|Hq]; [by right|]. left. rewrite Hoth, Hclean; done.
Qed.

Lemma hd_ok : hdr_ok start size hd.
Proof.
  unfold LOGSIZE, MAXOPBLOCKS in *.
  assert (hdr_n hd = n) as E by (apply hdr_n_put_head; [done|unfold LOGSIZE, MAXOPBLOCKS; lia]).
  split; rewrite E; [done|]. intros i Hi. unfold hd. rewrite hdr_block_put_head; [by apply Hblk|done| |done|by apply Hblk].
  unfold LOGSIZE, MAXOPBLOCKS. lia.
Qed.

(** Wherever the commit is cut off, recovery yields the old or the new contents. *)
Lemma commit_crash j :
  let d := writes (take j (commit_ws start blocks n v)) d0 in
  hdr_ok start size (d start)
  ∧ ((∀ k, home start size k → replay start d k = d0 k) ∨ (∀ k, home start size k → replay start d k = v k)).
Proof.
  intros d. unfold LOGSIZE, MAXOPBLOCKS in *. set (nn := Z.to_nat n).
  assert (∀ i k, (i <= nn)%nat → (k = start ∨ home start size k) → writes (log_ws start blocks i v) d0 k = d0 k) as Hlw.
  { intros i k Hi Hk. apply writes_other. intros K%log_ws_keys. unfold home in Hk. lia. }
  assert (length (log_ws start blocks nn v) = nn) as Ll by (unfold log_ws; by rewrite length_fmap, length_seq).
  assert (length (home_ws blocks nn v) = nn) as Lh by (unfold home_ws; by rewrite length_fmap, length_seq).
  subst d. unfold commit_ws. cbv zeta. fold hd nn. rewrite take_app, Ll.
  destruct (j - nn)%nat as [|j1] eqn:Ej.
  - (* only log blocks *)
    rewrite take_0, app_nil_r, take_log_ws.
    assert (hdr_n (writes (log_ws start blocks (j `min` nn) v) d0 start) = 0) as E0 by (rewrite Hlw; auto; lia).
    split; [apply hdr_ok_empty; [lia|done]|]. left. intros k Hk. rewrite replay_empty by done. apply Hlw; auto. lia.
  - (* the header is written *)
    rewrite (take_ge (log_ws start blocks nn v)) by lia. cbn [take]. rewrite take_app, Lh, writes_app.
    cbn [writes]. set (d1 := <[start := hd]> (writes (log_ws start blocks nn v) d0)).
    rewrite take_home_ws.
    assert (∀ i, (i <= nn)%nat → writes (home_ws blocks i v) d1 start = hd) as Hst.
    { intros i Hi. rewrite writes_other; [subst d1; by rewrite fn_lookup_insert|]. intros (q & Hq & E)%home_ws_keys.
      destruct (Hblk q) as [_ Hh]; [lia|]. apply Hh. rewrite <- E. lia. }
    assert (∀ i k, (i <= nn)%nat → home start size k → (∀ q, (q < nn)%nat → blocks !!! q ≠ k) →
      writes (home_ws blocks i v) d1 k = d0 k) as Hoth.
    { intros i k Hi Hk Hq. rewrite writes_other.
      - subst d1. rewrite fn_lookup_insert_ne by (intros <-; apply Hk; lia). apply Hlw; auto.
      - intros (q & Hq' & E)%home_ws_keys. apply (Hq q); [lia|done]. }
    destruct (j1 - nn)%nat as [|j2] eqn:Ej1.
    + (* installing *)
      rewrite take_0, app_nil_r. rewrite Hst by lia. split; [apply hd_ok|]. right.
      apply (replay_committed (j1 `min` nn)); [lia|by apply Hst; lia| |].
      * intros i Hi. rewrite writes_other.
        -- subst d1. rewrite fn_lookup_insert_ne by lia. apply writes_in.
           ++ unfold log_ws. rewrite <- list_fmap_compose. apply NoDup_fmap_2; [|apply NoDup_seq]. intros a b. simpl. lia.
           ++ unfold log_ws. apply list_elem_of_fmap. exists i. split; [done|]. apply elem_of_seq. lia.
        -- intros (q & Hq' & E)%home_ws_keys. destruct (Hblk q) as [_ Hh]; [lia|]. apply Hh. rewrite <- E. lia.
      * intros k Hk Hq. apply Hoth; [lia|done|done].
    + (* installed, the log is erased *)
      replace (j1 `min` nn)%nat with nn by lia. rewrite writes_app. cbn [take writes].
      set (d2 := writes (home_ws blocks nn v) d1). rewrite take_nil. cbn [writes].
      assert (hdr_n (<[start := put_head 0 blocks hd]> d2 start) = 0) as E0.
      { rewrite fn_lookup_insert. apply hdr_n_put_head; [|by vm_compute]. apply length_put_head; [done|].
        unfold LOGSIZE, MAXOPBLOCKS. lia. }
      split; [apply hdr_ok_empty; [lia|done]|]. right. intros k Hk. rewrite replay_empty by done.
      rewrite fn_lookup_insert_ne by (intros <-; apply Hk; lia). subst d2.
      destruct (in_blocks k) as [?|Hq]; [apply writes_home; [done|by right]|]. rewrite Hoth, Hclean; done.
Qed.

(** A commit that is not interrupted. *)
Lemma commit_done k : home start size k → writes (commit_ws start blocks n v) d0 k = v k.
Proof.
  intros Hk. unfold LOGSIZE, MAXOPBLOCKS in *. unfold commit_ws. cbv zeta. rewrite writes_app. cbn [writes]. rewrite writes_app. cbn [writes].
  rewrite fn_lookup_insert_ne by (intros <-; apply Hk; lia).
  apply writes_home; [done|]. destruct (in_blocks k) as [?|Hq]; [by right|left].
  rewrite fn_lookup_insert_ne by (intros <-; apply Hk; lia).
  rewrite writes_other; [symmetry; by apply Hclean|]. intros K%log_ws_keys. apply Hk. lia.
Qed.
End crash.

(** ** Crashes during recovery *)

Lemma writes_in_indep ws d d' k : k ∈ ws.*1 → writes ws d k = writes ws d' k.
Proof.
  revert d d'. induction ws as [|[n x] ws IH]; intros d d' Hk; [by apply elem_of_nil in Hk|]. simpl in *.
  apply elem_of_cons in Hk as [->|Hk]; [|by apply IH].
  apply writes_ext. by rewrite !fn_lookup_insert.
Qed.

Lemma writes_again ws j d k : writes ws (writes (take j ws) d) k = writes ws d k.
Proof.
  destruct (decide (k ∈ ws.*1)) as [Hk|Hk]; [by apply writes_in_indep|].
  rewrite !(writes_other ws) by done. apply writes_other. intros Hk'. apply Hk.
  rewrite fmap_take in Hk'. by apply elem_of_take in Hk' as (i & Hi%list_elem_of_lookup_2 & _).
Qed.

Section recovery_crash.
Variables (start size : Z) (d : Z → list Z) (data : list Z).
Hypothesis Hsize : 0 < size.
Hypothesis Hok : hdr_ok start size (d start).
Hypothesis Hdata : hdr_n data = 0.

Let n := Z.to_nat (hdr_n (d start)).
Let ws := inst_ws start (hdr_blocks (d start)) n d.

Lemma inst_ws_home k : k ∈ ws.*1 → home start size k.
Proof.
  intros (i & Hi & ->)%inst_ws_keys. unfold hdr_blocks. fold n.
  rewrite (list_lookup_total_correct _ i (hdr_block (d start) i)); [by apply Hok|].
  by rewrite list_lookup_fmap, lookup_seq_lt by done.
Qed.

Lemma writes_inst_log j k : start <= k < start + size → writes (take j ws) d k = d k.
Proof.
  intros Hk. apply writes_other. rewrite fmap_take. intros (i & Hi%list_elem_of_lookup_2 & _)%elem_of_take.
  by apply (inst_ws_home k).
Qed.

(** Wherever a recovery is cut off, the next one completes it. *)
Lemma recovery_crash j :
  let d' := writes (take j (ws ++ [(start, data)])) d in
  hdr_ok start size (d' start) ∧ ∀ k, home start size k → replay start d' k = replay start d k.
Proof.
  intros d'. subst d'. rewrite take_app. destruct (j - length ws)%nat as [|q] eqn:Ej.
  - rewrite take_0, app_nil_r. assert (writes (take j ws) d start = d start) as Es by (apply writes_inst_log; lia).
    rewrite Es. split; [done|]. intros k Hk. unfold replay. rewrite Es. fold n.
    assert (inst_ws start (hdr_blocks (d start)) n (writes (take j ws) d) = ws) as ->; [|apply writes_again].
    unfold ws at 2, inst_ws. apply list_fmap_ext. intros i x [-> Hi]%lookup_seq. f_equal.
    apply writes_inst_log. destruct Hok as [Hn _]. lia.
  - rewrite (take_ge ws) by lia. cbn [take]. rewrite take_nil, writes_app. cbn [writes].
    rewrite fn_lookup_insert. split; [by apply hdr_ok_empty|].
    intros k Hk. rewrite replay_empty by (by rewrite fn_lookup_insert).
    rewrite fn_lookup_insert_ne by (intros <-; apply Hk; lia). done.
Qed.
End recovery_crash.

(** ** Theorems *)

(** A world that has just booted from the disk [d]: [binit] has run. *)
Definition booted `{DS : DiskSpec} (p : nat) (pid : Z) (d : Z → list Z) (R : kstate) (m : nat) (w : world) : Prop :=
  bstate p pid (fresh d (d_hist (k_disk (ks w)))) R m w ∧ length (l_block (k_log R)) = Z.to_nat LOGSIZE.

(** The superblock describes the log at [start], of [size] blocks. *)
Definition log_at (sb : superblock) (start size : Z) : Prop := sb_logstart sb = start ∧ sb_nlog sb = size.

(** What [initlog] makes of a disk with a valid log: it replays it. *)
Lemma initlog_replays `{DS : DiskSpec} p pid d R m sb start size w :
  booted p pid d R (3 * Z.to_nat (hdr_n (d start)) + 3 + m) w → log_at sb start size →
  0 <= start → 0 < size <= LOGSIZE → start + size < 2 ^ 31 → hdr_ok start size (d start) →
  ∃ w' data, initlog ROOTDEV sb w = Ok () w' ∧ hdr_n data = 0
    ∧ d_hist (k_disk (ks w')) =
        reverse (inst_ws start (hdr_blocks (d start)) (Z.to_nat (hdr_n (d start))) d ++ [(start, data)]) ++ d_hist (k_disk (ks w))
    ∧ (∀ k, home start size k → d_blocks (k_disk (ks w')) k = replay start d k)
    ∧ hdr_n (d_blocks (k_disk (ks w')) start) = 0 ∧ l_n (k_log (ks w')) = 0.
Proof.
  intros [Hb Hl] [<- <-] H1 H2 H3 H4.
  destruct (initlog_spec p pid d _ sb R m w Hb H1 H2 H3 Hl H4) as (w' & R' & data & E & Hd & Hn & S').
  exists w', data. split; [done|]. split; [done|].
  destruct (r_disk _ _ _ _ (bs_rep _ _ _ _ _ _ S')) as [D1 D2]. simpl in D1, D2.
  split; [done|]. split; [|split].
  - intros k Hk. rewrite D1, writes_app. simpl. by rewrite fn_lookup_insert_ne by (intros <-; apply Hk; lia).
  - rewrite D1, writes_app. simpl. by rewrite fn_lookup_insert.
  - by rewrite (bstate_log p pid _ _ _ _ S').
Qed.

(** Booting from a disk whose log replays to [f]. *)
Lemma reboot `{DS : DiskSpec} p pid d R q sb start size f w :
  booted p pid d R (93 + q) w → log_at sb start size →
  0 <= start → 0 < size <= LOGSIZE → start + size < 2 ^ 31 → hdr_ok start size (d start) →
  (∀ k, home start size k → replay start d k = f k) →
  ∃ w', initlog ROOTDEV sb w = Ok () w' ∧ ∀ k, home start size k → d_blocks (k_disk (ks w')) k = f k.
Proof.
  intros [Hb Hl] Hsb H1 H2 H3 H4 Hf. pose proof (ho_n _ _ _ H4).
  destruct (initlog_replays p pid d R 0 sb start size w) as (w' & data & E & _ & _ & Hh & _); try done.
  - split; [|done]. eapply bstate_le; [|exact Hb]. unfold LOGSIZE, MAXOPBLOCKS in *. lia.
  - exists w'. split; [done|]. intros k Hk. by rewrite Hh, Hf.
Qed.

(** C1: crash atomicity of [commit].  Committing a transaction that fits into
    the log returns, with the contents of all its blocks on the disk and the
    log empty.  If the machine crashes after any number [j] of the disk writes
    of the commit, booting from the disk as the crash left it and running
    [initlog] leaves, in all home blocks together, either the contents from before
    the transaction or those after it. *)
Theorem commit_crash_safe `{DS : DiskSpec} (p : nat) (pid : Z) (A : acache) (R : kstate) (m : nat) (w : world) :
  let L := k_log R in let n := Z.to_nat (l_n L) in
  bstate p pid A R (6 * n + 4 + m) w → log_geo L → log_txn L → log_cache L A →
  distinct (l_block L) n → (∀ i, (i < n)%nat → pinned A (l_block L !!! i)) →
  hdr_n (a_disk A (l_start L)) = 0 →
  (∀ k, home (l_start L) (l_size L) k → (∀ i, (i < n)%nat → l_block L !!! i ≠ k) → a_view A k = a_disk A k) →
  ∃ w' ws, commit w = Ok () w' ∧ l_n (k_log (ks w')) = 0
    ∧ d_hist (k_disk (ks w')) = reverse ws ++ d_hist (k_disk (ks w))
    ∧ (∀ k, home (l_start L) (l_size L) k → d_blocks (k_disk (ks w')) k = a_view A k)
    ∧ ∀ j q sb Rb wb, log_at sb (l_start L) (l_size L) →
        booted p pid (writes (take j ws) (a_disk A)) Rb (93 + q) wb →
        ∃ wb', initlog ROOTDEV sb wb = Ok () wb'
          ∧ ((∀ k, home (l_start L) (l_size L) k → d_blocks (k_disk (ks wb')) k = a_disk A k)
             ∨ (∀ k, home (l_start L) (l_size L) k → d_blocks (k_disk (ks wb')) k = a_view A k)).
Proof.
  intros L n Hb HL HT HC Hd Hp He Hcl. pose proof HL as [G1 G2 G3 G4 G5]. pose proof HT as [T1 T2].
  pose proof (r_disk _ _ _ _ (bs_rep _ _ _ _ _ _ Hb)) as [D1 D2].
  destruct (decide (l_n L = 0)) as [E0|E0].
  - exists w, []. unfold n in *. rewrite E0 in *. split.
    { unfold commit. erewrite bind_ok by reflexivity. rewrite (bstate_log p pid _ _ _ _ Hb). fold L. by rewrite E0. }
    split; [by rewrite (bstate_log p pid _ _ _ _ Hb)|]. split; [done|]. split.
    { intros k Hk. rewrite D1. symmetry. apply Hcl; [done|]. intros i; simpl; lia. }
    intros j q sb Rb wb Hsb HB. rewrite take_nil in HB.
    destruct (reboot p pid _ Rb q sb _ _ (a_disk A) wb HB Hsb) as (wb' & Eb & Hh); try done; [|by intros; apply replay_empty|eauto].
    apply hdr_ok_empty; [lia|done].
  - destruct (commit_spec p pid A R m w Hb HL HT HC) as (w' & E & S'); [fold L; lia|done|done|]. fold L n in S'.
    exists w', (commit_ws (l_start L) (l_block L) (l_n L) (a_view A)).
    destruct (r_disk _ _ _ _ (bs_rep _ _ _ _ _ _ S')) as [D1' D2']. simpl in D1', D2'.
    destruct (unpins_same (l_block L) n A) as (U1 & U2 & U3 & _).
    pose proof (r_len _ _ _ _ (bs_rep _ _ _ _ _ _ Hb) (l_start L)) as [Hlen _].
    split; [done|]. split; [by rewrite (bstate_log p pid _ _ _ _ S')|].
    split; [by rewrite D2', D2, U3|].
    pose proof (commit_crash (l_start L) (l_size L) (l_n L) (l_block L) (a_view A) (a_disk A) G4 T1 T2 Hd Hlen He Hcl) as Hc.
    split.
    2:{ intros j q sb Rb wb Hsb HB. destruct (Hc j) as [O1 [O2|O2]];
          destruct (reboot p pid _ Rb q sb _ _ _ wb HB Hsb G2 G4 G3 O1 O2) as (wb' & Eb & Hh); eauto. }
    intros k Hk. rewrite D1', U2.
    by apply (commit_done (l_start L) (l_size L) (l_n L) (l_block L) (a_view A) (a_disk A)).
Qed.

(** C2: recovery is idempotent across crashes: if the machine crashes after any
    number [j] of the disk writes of a first recovery, booting again and
    running [initlog] again gives the same home blocks as a recovery that was
    not interrupted. *)
Theorem recovery_crash_safe `{DS : DiskSpec} (p : nat) (pid : Z) (d : Z → list Z) (R : kstate) (m : nat)
    (sb : superblock) (start size : Z) (w : world) :
  booted p pid d R (93 + m) w → log_at sb start size →
  0 <= start → 0 < size <= LOGSIZE → start + size < 2 ^ 31 → hdr_ok start size (d start) →
  ∃ w' ws, initlog ROOTDEV sb w = Ok () w' ∧ d_hist (k_disk (ks w')) = reverse ws ++ d_hist (k_disk (ks w))
    ∧ hdr_n (d_blocks (k_disk (ks w')) start) = 0
    ∧ ∀ j q Rb wb, booted p pid (writes (take j ws) d) Rb (93 + q) wb →
        ∃ wb', initlog ROOTDEV sb wb = Ok () wb'
          ∧ ∀ k, home start size k → d_blocks (k_disk (ks wb')) k = d_blocks (k_disk (ks w')) k.
Proof.
  intros [Hb Hl] Hsb H1 H2 H3 H4. pose proof (ho_n _ _ _ H4).
  destruct (initlog_replays p pid d R 0 sb start size w) as (w' & data & E & Hd & Hh & Hr & Hn & _); try done.
  { split; [|done]. eapply bstate_le; [|exact Hb]. unfold LOGSIZE, MAXOPBLOCKS in *. lia. }
  eexists w', _. split; [done|]. split; [exact Hh|]. split; [done|].
  intros j q Rb wb HB.
  destruct (recovery_crash start size d data ltac:(lia) H4 Hd j) as [O1 O2].
  destruct (reboot p pid _ Rb q sb _ _ _ wb HB Hsb H1 H2 H3 O1 O2) as (wb' & Eb & Hh').
  exists wb'. split; [done|]. intros k Hk. by rewrite Hh', Hr.
Qed.

(** ** Witnesses *)

(** A booted system on a zeroed disk with the log at block 2. *)
Definition demo_sb : superblock := MkSuperblock FSMAGIC 2000 1954 200 30 2 32 45.
Definition demo_log : logst := MkLog 2 30 0 0 1 1 (60 :: replicate 29 0).
Definition demo_rest : kstate := (rest boot_kstate) <| k_log := demo_log |>.
Definition sevens : list Z := replicate 1024 7.

(** A transaction that has overwritten block 60. *)
Definition demo_txn : acache := MkA (<[60 := sevens]> zero_blocks) zero_blocks [] {[60 := 1]} ∅.

Lemma demo_txn_ok m : ∃ w, @bstate sync_rw sync_spec 0 0 demo_txn demo_rest m w.
Proof.
  destruct (@bread_spec sync_rw sync_spec 0 0 (fresh zero_blocks []) (rest boot_kstate) m 60 bio_demo) as (b & w1 & _ & S1).
  { apply bio_demo_ok. }
  { split; [lia|]. split; [done|]. split; [done|]. right. vm_compute. lia. }
  destruct (@store_spec sync_rw sync_spec 0 0 _ _ m 60 b (λ _, sevens) w1 S1) as (w2 & _ & S2); [done|done|].
  destruct (@bpin_spec sync_rw sync_spec 0 0 _ _ m 60 b w2 S2) as (w3 & _ & S3); [done|done|].
  destruct (@brelse_spec sync_rw sync_spec 0 0 _ _ m 60 b w3 S3) as (w4 & _ & S4); [done|done|].
  destruct (@modify_log_spec sync_rw sync_spec 0 0 _ _ m (λ _, demo_log) w4 S4) as (w5 & _ & S5).
  exists w5. eapply bstate_proper in S5; [exact S5| |done..]. split; [done|]. split; [done|]. split; [done|].
  split; [|done]. simpl. by map_cases k.
Qed.

Lemma demo_geo : log_geo demo_log.
Proof. by split. Qed.

Lemma demo_txn_fits : log_txn demo_log ∧ distinct (l_block demo_log) 1 ∧ pinned demo_txn 60.
Proof.
  split; [|split].
  - split; [done|]. intros [|i] Hi; [|simpl in Hi; lia]. split; [done|]. intros [? ?]. simpl in *. lia.
  - intros i j Hi Hj _. lia.
  - exists 1. split; [done|lia].
Qed.

Lemma demo_cache : log_cache demo_log demo_txn.
Proof.
  split; [done| |simpl; rewrite map_size_singleton; vm_compute; lia].
  intros n Hn. simpl in *. rewrite lookup_singleton_ne by lia. done.
Qed.

Lemma booted_demo m : @booted sync_rw sync_spec 0 0 zero_blocks (rest boot_kstate) m bio_demo.
Proof. split; [|done]. pose proof (bio_demo_ok m) as Hb. by rewrite (proj2 (r_disk _ _ _ _ (bs_rep _ _ _ _ _ _ Hb))). Qed.

Lemma commit_crash_safe_witness :
  ∃ w w', @commit sync_rw w = Ok () w' ∧ d_blocks (k_disk (ks w')) 60 = sevens.
Proof.
  destruct (demo_txn_ok 100) as [w Hw].
  destruct (@commit_crash_safe sync_rw sync_spec 0 0 demo_txn demo_rest 90 w) as (w' & ws & E & _ & _ & Hh & Hcrash).
  - exact Hw.
  - exact demo_geo.
  - apply demo_txn_fits.
  - exact demo_cache.
  - apply demo_txn_fits.
  - intros [|i] Hi; [apply demo_txn_fits|simpl in Hi; lia].
  - reflexivity.
  - intros k _ Hk. specialize (Hk 0%nat ltac:(simpl; lia)). simpl in *. by rewrite fn_lookup_insert_ne.
  - destruct (Hcrash 0%nat 0%nat demo_sb (rest boot_kstate) bio_demo) as (wb' & _ & _).
    + by split.
    + rewrite take_0. apply booted_demo.
    + exists w, w'. split; [exact E|]. rewrite Hh; [reflexivity|]. intros [? ?]. simpl in *. lia.
Defined.

Lemma recovery_crash_safe_witness :
  ∃ w', @initlog sync_rw ROOTDEV demo_sb bio_demo = Ok () w' ∧ hdr_n (d_blocks (k_disk (ks w')) 2) = 0.
Proof.
  destruct (@recovery_crash_safe sync_rw sync_spec 0 0 zero_blocks (rest boot_kstate) 0 demo_sb 2 30 bio_demo)
    as (w' & ws & E & _ & Hn & _).
  - apply booted_demo.
  - by split.
  - lia.
  - by split.
  - lia.
  - by apply hdr_ok_empty.
  - exists w'. split; [exact E|exact Hn].
Defined.
