(* ===== verification/LogGroup.v ===== *)
(** * Group commit: reservations of log space

    Several file-system calls share one transaction.  [begin_op] admits a call
    when the log has room for MAXOPBLOCKS blocks of it besides what is logged
    and what the outstanding calls may still log; [end_op] of the last call
    commits.  The calls are interleaved arbitrarily: a step relation on the
    log's state, each of whose steps is shown to be what the code does. *)

From S2P Require Import Prelude Memory Kernel Sched Sleeplock Bio BufList BioSpec Log LogSpec.

(** ** What the calls do to the log's state *)

(** The test that [begin_op] sleeps on. *)
Definition must_wait (L : logst) : bool :=
  negb (l_committing L =? 0) || (LOGSIZE <? l_n L + (l_outstanding L + 1) * MAXOPBLOCKS).

Definition begun (L : logst) : logst := L <| l_outstanding ::= λ o, o + 1 |>.

(** The slot that [log_write] uses for a block. *)
Definition slot (L : logst) (bno : Z) : nat := find_block (l_block L) (Z.to_nat (l_n L)) 0 bno.
Definition is_new (L : logst) (bno : Z) : bool := Z.of_nat (slot L bno) =? l_n L.

Definition logged (bno : Z) (L : logst) : logst :=
  let L' := L <| l_block ::= <[slot L bno := i32 bno]> |> in
  if is_new L bno then L' <| l_n ::= λ n, n + 1 |> else L'.

Definition too_big (L : logst) : bool := (LOGSIZE <=? l_n L) || (l_size L - 1 <=? l_n L).

(** [end_op]: the last call of the group starts the commit. *)
Definition ended (L : logst) : logst :=
  let L' := L <| l_outstanding ::= λ o, o - 1 |> in
  if l_outstanding L' =? 0 then L' <| l_committing := 1 |> else L'.

(** ** The code performs these steps *)

Lemma find_block_bound blk n i bno : (i <= find_block blk n i bno <= i + n)%nat.
Proof.
  revert i. induction n as [|n IH]; intros i; simpl; [lia|]. case_match; [lia|]. specialize (IH (S i)). lia.
Qed.

Lemma find_block_spec blk n i bno :
  let j := find_block blk n i bno in
  ((j < i + n)%nat → u32 (blk !!! j) = bno) ∧ ∀ q, (i <= q < j)%nat → u32 (blk !!! q) ≠ bno.
Proof.
  revert i. induction n as [|n IH]; intros i; simpl; [split; intros; lia|].
  destruct (Z.eqb_spec (u32 (blk !!! i)) bno) as [E|E]; [split; [done|intros; lia]|].
  destruct (IH (S i)) as [H1 H2]. split.
  - intros Hj. apply H1. lia.
  - intros q Hq. destruct (decide (q = i)) as [->|?]; [done|]. apply H2. lia.
Qed.

Lemma begin_op_run w :
  LLog ∉ held w → must_wait (k_log (ks w)) = false →
  begin_op w = Ok () (w <| ks ::= λ k, k <| k_log ::= begun |> |>).
Proof.
  intros Hlk Hc. unfold begin_op. rewrite (bind_ok _ _ _ _ _ (acquire_free _ _ Hlk)).
  erewrite bind_ok by (by apply sleep_while_false). erewrite bind_ok by reflexivity.
  exact (locked_section LLog w _ Hlk).
Qed.

(** The block's buffer is pinned when it enters the log. *)
Definition pin_if_new (L : logst) (b : nat) (k : kstate) : kstate :=
  if is_new L (b_blockno (get_buf b k)) then upd_buf b (λ x, x <| b_refcnt ::= λ r, u32 (r + 1) |>) k else k.

Lemma log_write_run b w :
  let L := k_log (ks w) in
  LLog ∉ held w → LBcache ∉ held w → too_big L = false → 0 <= l_n L → 1 <= l_outstanding L →
  log_write b w =
    Ok () (w <| ks ::= λ k, (pin_if_new L b k) <| k_log ::= logged (b_blockno (get_buf b k)) |> |>).
Proof.
  intros L H1 H2 Hb Hn Ho. unfold log_write. rewrite (bind_ok _ _ _ _ _ (acquire_free _ _ H1)).
  erewrite bind_ok by reflexivity. cbv beta. set (w1 := w <| held ::= _ |>). change (k_log (ks w1)) with L.
  unfold panic_if. fold (too_big L). rewrite Hb. erewrite bind_ok by reflexivity.
  assert (l_outstanding L <? 1 = false) as -> by (apply Z.ltb_ge; lia). erewrite bind_ok by reflexivity.
  erewrite bind_ok by reflexivity. cbv beta. change (get_buf b (ks w1)) with (get_buf b (ks w)).
  set (bno := b_blockno (get_buf b (ks w))). fold (slot L bno). fold (is_new L bno).
  pose proof (find_block_bound (l_block L) (Z.to_nat (l_n L)) 0 bno) as Hs. fold (slot L bno) in Hs.
  unfold too_big in Hb. apply orb_false_iff in Hb as [Hb%Z.leb_gt _].
  unfold store_lh_block, panic_if.
  assert ((Z.of_nat (slot L bno) <? 0) || (LOGSIZE <=? Z.of_nat (slot L bno)) = false) as ->.
  { apply orb_false_iff. split; [apply Z.ltb_ge|apply Z.leb_gt]; lia. }
  erewrite bind_ok.
  2:{ erewrite bind_ok by reflexivity. reflexivity. }
  rewrite Nat2Z.id.
  set (w2 := w1 <| ks ::= _ |>).
  assert (w <| ks ::= λ k, (pin_if_new L b k) <| k_log ::= logged (b_blockno (get_buf b k)) |> |>
    = w <| ks := (pin_if_new L b (ks w)) <| k_log := logged bno L |> |>) as ->.
  { unfold pin_if_new. rsimpl. fold bno. by destruct (is_new L bno). }
  unfold pin_if_new, logged. fold bno. destruct (is_new L bno) eqn:En; unfold when.
  - assert (LBcache ∉ held w2) as H2' by (subst w2 w1; rsimpl; set_solver).
    erewrite bind_ok.
    2:{ unfold bpin. erewrite bind_ok by (by apply lock_modify). reflexivity. }
    exact (locked_section LLog w _ H1).
  - erewrite bind_ok by reflexivity. exact (locked_section LLog w _ H1).
Qed.

(** [end_op] of a call that is not the last one. *)
Lemma end_op_run `{DiskDriver} w :
  let L := k_log (ks w) in
  LLog ∉ held w → procs_ok (ks w) → no_proc_lock w → l_committing L = 0 → l_outstanding L ≠ 1 →
  end_op w = Ok () (w <| ks ::= λ k, wake_all ChLog (me w) (k <| k_log := ended L |>) |>).
Proof.
  intros L Hlk Hp Hnp Hc Ho. unfold end_op. rewrite (bind_ok _ _ _ _ _ (acquire_free _ _ Hlk)).
  erewrite bind_ok by reflexivity. erewrite bind_ok by reflexivity. cbv beta.
  set (w1 := (w <| held ::= _ |>) <| ks ::= _ |>).
  change (k_log (ks w1)) with (L <| l_outstanding ::= λ o, o - 1 |>).
  change (l_committing (L <| l_outstanding ::= λ o, o - 1 |>)) with (l_committing L).
  change (l_outstanding (L <| l_outstanding ::= λ o, o - 1 |>)) with (l_outstanding L - 1).
  rewrite Hc. erewrite bind_ok by reflexivity. cbv zeta.
  assert (l_outstanding L - 1 =? 0 = false) as E by (apply Z.eqb_neq; lia). rewrite E.
  erewrite bind_ok.
  2:{ apply wakeup_run; [done|]. intros i Hi. subst w1. rsimpl. rsimpl in Hi. specialize (Hnp i Hi). set_solver. }
  erewrite bind_ok by exact (locked_section LLog w _ Hlk). unfold when, mret, K_ret. f_equal.
  unfold ended. cbv zeta. change (l_outstanding (L <| l_outstanding ::= λ o, o - 1 |>)) with (l_outstanding L - 1).
  rewrite E. done.
Qed.

(** ** Interleavings of the calls of a group

    [us] holds, for every outstanding call, how many blocks it has added to the
    log so far. *)

Inductive lstep : logst → list Z → logst → list Z → Prop :=
| LBegin L us : must_wait L = false → lstep L us (begun L) (0 :: us)
| LWrite L us i u bno :
    us !! i = Some u → u < MAXOPBLOCKS → too_big L = false → 0 <= bno < 2 ^ 31 →
    lstep L us (logged bno L) (<[i := if is_new L bno then u + 1 else u]> us)
| LEnd L us i u : us !! i = Some u → l_committing L = 0 → lstep L us (ended L) (delete i us)
| LCommit L : l_committing L = 1 → lstep L [] (L <| l_n := 0 |> <| l_committing := 0 |>) [].

Inductive lreach (L0 : logst) : logst → list Z → Prop :=
| LInit : lreach L0 L0 []
| LNext L us L' us' : lreach L0 L us → lstep L us L' us' → lreach L0 L' us'.

(** The log as [initlog] leaves it. *)
Record log_start (L : logst) : Prop := {
  ls_n : l_n L = 0;
  ls_out : l_outstanding L = 0;
  ls_com : l_committing L = 0;
  ls_len : length (l_block L) = Z.to_nat LOGSIZE
}.

(** What the outstanding calls may still add. *)
Fixpoint reserved (us : list Z) : Z :=
  match us with
  | [] => 0
  | u :: us => (MAXOPBLOCKS - u) + reserved us
  end.

Record ginv (L : logst) (us : list Z) : Prop := {
  gi_n : 0 <= l_n L;
  gi_out : l_outstanding L = Z.of_nat (length us);
  gi_us : Forall (λ u, 0 <= u <= MAXOPBLOCKS) us;
  gi_room : l_n L + reserved us <= LOGSIZE;
  gi_com : l_committing L = 0 ∨ l_committing L = 1 ∧ us = [];
  gi_len : length (l_block L) = Z.to_nat LOGSIZE;
  gi_range : ∀ i, (i < Z.to_nat (l_n L))%nat → 0 <= l_block L !!! i < 2 ^ 31;
  gi_distinct : distinct (l_block L) (Z.to_nat (l_n L))
}.

Lemma reserved_nonneg us : Forall (λ u, 0 <= u <= MAXOPBLOCKS) us → 0 <= reserved us.
Proof. induction 1; simpl; lia. Qed.

Lemma reserved_le us : Forall (λ u, 0 <= u <= MAXOPBLOCKS) us → reserved us <= Z.of_nat (length us) * MAXOPBLOCKS.
Proof. induction 1; simpl; [done|]. unfold MAXOPBLOCKS in *. lia. Qed.

Lemma reserved_insert us i u v : us !! i = Some u → reserved (<[i := v]> us) = reserved us + u - v.
Proof.
  revert i. induction us as [|x us IH]; intros [|i] H; try done; simpl in *; [injection H as ->; lia|].
  rewrite (IH i) by done. lia.
Qed.

Lemma reserved_delete us i u : us !! i = Some u → reserved (delete i us) = reserved us - (MAXOPBLOCKS - u).
Proof.
  revert i. induction us as [|x us IH]; intros [|i] H; try done; simpl in *; [injection H as ->; lia|].
  rewrite (IH i) by done. lia.
Qed.

Lemma slot_le L bno : (slot L bno <= Z.to_nat (l_n L))%nat.
Proof. pose proof (find_block_bound (l_block L) (Z.to_nat (l_n L)) 0 bno). unfold slot. lia. Qed.

Lemma is_new_spec L bno : 0 <= l_n L → is_new L bno = true ↔ slot L bno = Z.to_nat (l_n L).
Proof. intros Hn. unfold is_new. rewrite Z.eqb_eq. lia. Qed.

(** Absorption keeps the logged blocks distinct. *)
Lemma logged_blocks L us bno :
  ginv L us → too_big L = false → 0 <= bno < 2 ^ 31 → let L' := logged bno L in
  length (l_block L') = Z.to_nat LOGSIZE
  ∧ (∀ i, (i < Z.to_nat (l_n L'))%nat → 0 <= l_block L' !!! i < 2 ^ 31)
  ∧ distinct (l_block L') (Z.to_nat (l_n L')).
Proof.
  intros [G1 _ _ _ _ G6 G7 G8] Hb Hbno L'.
  apply orb_false_iff in Hb as [Hb%Z.leb_gt _].
  destruct (find_block_spec (l_block L) (Z.to_nat (l_n L)) 0 bno) as [F1 F2]. fold (slot L bno) in F1, F2.
  pose proof (slot_le L bno) as Hs.
  assert (i32 bno = bno) as Ei by (apply i32_small; lia).
  assert (l_block L' = <[slot L bno := bno]> (l_block L)) as EB.
  { subst L'. unfold logged. rewrite Ei. by destruct (is_new L bno). }
  assert (∀ i, i ≠ slot L bno → l_block L' !!! i = l_block L !!! i) as Ene.
  { intros i Hi. rewrite EB. by rewrite list_lookup_total_insert_ne. }
  assert (l_block L' !!! slot L bno = bno) as Eeq. { rewrite EB. apply list_lookup_total_insert_eq. lia. }
  assert (∀ i, (i < Z.to_nat (l_n L))%nat → l_block L !!! i = bno → i = slot L bno) as Huniq.
  { intros i Hi E. destruct (decide (i < slot L bno)%nat) as [Hlt|].
    - exfalso. apply (F2 i); [lia|]. rewrite E. apply u32_small. lia.
    - destruct (decide (slot L bno < Z.to_nat (l_n L))%nat) as [Hlt|]; [|lia].
      apply G8; [done|done|]. rewrite E. specialize (F1 Hlt). rewrite u32_small in F1; [done|].
      pose proof (G7 _ Hlt). lia. }
  assert (Z.to_nat (l_n L') = if is_new L bno then S (Z.to_nat (l_n L)) else Z.to_nat (l_n L)) as En.
  { subst L'. unfold logged. destruct (is_new L bno); rsimpl; lia. }
  assert (∀ i, (i < Z.to_nat (l_n L'))%nat → i = slot L bno ∨ (i < Z.to_nat (l_n L))%nat ∧ i ≠ slot L bno) as Hcase.
  { intros i. rewrite En. destruct (is_new L bno) eqn:E.
    - apply is_new_spec in E; [|done]. intros. destruct (decide (i = slot L bno)); [by left|right; lia].
    - intros. destruct (decide (i = slot L bno)); [by left|by right]. }
  split; [by rewrite EB, length_insert|]. split.
  - intros i [->|[Hi Hne]]%Hcase; [by rewrite Eeq|]. rewrite Ene by done. by apply G7.
  - intros i j [->|[Hi Hne]]%Hcase [->|[Hj Hnj]]%Hcase; rewrite ?Eeq, ?Ene by done.
    + done.
    + intros E. symmetry. apply Huniq; [done|by symmetry].
    + intros E. by apply Huniq.
    + by apply G8.
Qed.

Lemma ginv_step L us L' us' : ginv L us → lstep L us L' us' → ginv L' us'.
Proof.
  intros HG Hst. pose proof HG as [G1 G2 G3 G4 G5 G6 G7 G8]. pose proof (reserved_le us G3) as Hrl.
  destruct Hst as [L us Hw|L us i u bno Hi Hu Hb Hbno|L us i u Hi Hc|L Hc].
  - unfold must_wait in Hw. apply orb_false_iff in Hw as [Hc%negb_false_iff%Z.eqb_eq Hw%Z.ltb_ge].
    rewrite G2 in Hw. split; unfold begun; rsimpl; simpl; try done; try lia.
    constructor; [unfold MAXOPBLOCKS; lia|done].
  - destruct (logged_blocks L us bno HG Hb Hbno) as (B1 & B2 & B3).
    assert (0 <= u <= MAXOPBLOCKS) as Hu0 by (by eapply Forall_lookup_1 in G3).
    assert (l_n (logged bno L) = if is_new L bno then l_n L + 1 else l_n L) as En.
    { unfold logged. by destruct (is_new L bno). }
    assert (l_outstanding (logged bno L) = l_outstanding L ∧ l_committing (logged bno L) = l_committing L) as [Eo Ec].
    { unfold logged. by destruct (is_new L bno). }
    split; try done.
    + rewrite En. destruct (is_new L bno); lia.
    + by rewrite Eo, length_insert.
    + apply Forall_insert; [done|]. destruct (is_new L bno); lia.
    + rewrite En, (reserved_insert us i u) by done. destruct (is_new L bno); lia.
    + rewrite Ec. destruct G5 as [?|[? ->]]; [by left|]. done.
  - assert (0 <= u <= MAXOPBLOCKS) as Hu0 by (by eapply Forall_lookup_1 in G3).
    assert (l_n (ended L) = l_n L ∧ l_block (ended L) = l_block L ∧ l_outstanding (ended L) = l_outstanding L - 1)
      as (En & Eb & Eo) by (unfold ended; by case_match).
    assert (length (delete i us) = length us - 1)%nat as Ed by (apply length_delete; eauto).
    pose proof (lookup_lt_Some _ _ _ Hi).
    split; rewrite ?En, ?Eb, ?Eo; try done.
    + rewrite Ed. lia.
    + by apply Forall_delete.
    + rewrite (reserved_delete us i u) by done. lia.
    + unfold ended. destruct (Z.eqb_spec (l_outstanding L - 1) 0) as [E|E]; rsimpl.
      * rewrite (proj2 (Z.eqb_eq _ _) E). rsimpl. right. split; [done|]. apply nil_length_inv. lia.
      * rewrite (proj2 (Z.eqb_neq _ _) E). by left.
  - split; rsimpl; simpl; try done; try lia; intros i j Hi; simpl in Hi; lia.
Qed.

Lemma ginv_reach L0 L us : log_start L0 → lreach L0 L us → ginv L us.
Proof.
  intros [H1 H2 H3 H4]. induction 1 as [|L us L' us' _ IH Hst]; [|by eapply ginv_step].
  split; rewrite ?H1, ?H2; simpl; try done; try lia; first [by left|intros i j Hi; simpl in Hi; lia].
Qed.

(** ** Theorems *)


(** a call that has added fewer than MAXOPBLOCKS blocks can log another one:
    if the log has more than LOGSIZE blocks on the disk, [log_write] does not
    panic, adds the block unless it is there already, pins its buffer exactly
    when it is added, and is a step of the group. *)
Theorem log_write_reserved (L0 : logst) (us : list Z) (i : nat) (u : Z) (b : nat) (w : world) :
  let L := k_log (ks w) in let bno := b_blockno (get_buf b (ks w)) in
  log_start L0 → lreach L0 L us → LOGSIZE < l_size L → us !! i = Some u → u < MAXOPBLOCKS →
  held w = ∅ → 0 <= bno < 2 ^ 31 →
  ∃ w', log_write b w = Ok () w'
    ∧ lstep L us (k_log (ks w')) (<[i := if is_new L bno then u + 1 else u]> us)
    ∧ ks w' = (pin_if_new L b (ks w)) <| k_log := k_log (ks w') |>
    ∧ held w' = ∅.
Proof.
  intros L bno H0 Hr Hs Hi Hu Hh Hbno. destruct (ginv_reach L0 L us H0 Hr) as [G1 G2 G3 G4 G5 G6 G7 G8].
  assert (0 <= reserved (<[i := MAXOPBLOCKS]> us)) as Hres.
  { apply reserved_nonneg, Forall_insert; [done|]. unfold MAXOPBLOCKS. lia. }
  rewrite (reserved_insert us i u) in Hres by done.
  assert (too_big L = false) as Hb. { apply orb_false_iff. split; apply Z.leb_gt; lia. }
  assert (1 <= l_outstanding L) as Ho. { apply lookup_lt_Some in Hi. lia. }
  rewrite log_write_run by (done || (rewrite Hh; set_solver)). eexists. split; [reflexivity|].
  assert (k_log (pin_if_new L b (ks w)) = L) as EL by (unfold pin_if_new; by case_match).
  split; [|split].
  - rsimpl. fold L bno. rewrite EL. by apply (LWrite L us i u bno).
  - rsimpl. fold L bno. done.
  - done.
Qed.

(** Buffers 0 to 29 hold different blocks; no call is outstanding. *)
Definition gap_world : world :=
  MkWorld (boot_kstate <| k_log := MkLog 2 30 0 0 1 0 (replicate 30 0) |>
             <| k_bcache ::= λ c, c <| bc_buf := imap (λ i b, b <| b_blockno := 100 + Z.of_nat i |>) (bc_buf c) |> |>)
    ∅ (Some 0%nat) [].


(** [begin_op] under arbitrary interference that keeps the invariant [P]:
    when it returns, the call was admitted in a state [k] with no commit in
    progress and with room for MAXOPBLOCKS more blocks beside the reservations
    of the outstanding calls, and it is counted; no lock is left held.  It
    neither panics nor diverges; otherwise the caller is never woken. *)
Theorem begin_op_reserves (P : kstate → Prop) (p : nat) (w : world) :
  (∀ k, P k → (p < length (k_procs k))%nat) →
  (∀ k, P k → P (asleep p ChLog k)) → (∀ k, P k → P (resumed p k)) →
  me w = Some p → held w = ∅ → P (ks w) → env_keeps P w →
  match begin_op w with
  | Ok _ w' => ∃ k, P k ∧ l_committing (k_log k) = 0
      ∧ l_n (k_log k) + (l_outstanding (k_log k) + 1) * MAXOPBLOCKS <= LOGSIZE
      ∧ ks w' = k <| k_log ::= begun |> ∧ held w' = ∅ ∧ me w' = Some p
  | Blocked => True
  | _ => False
  end.
Proof.
  intros HP Hs Hr Hme Hh HPw He. set (w1 := w <| held ::= λ h, {[LLog]} ∪ h |>).
  assert (acquire LLog w = Ok () w1) as Ea by (apply acquire_free; rewrite Hh; set_solver).
  assert (held w1 = {[LLog]}) as Hh1 by (subst w1; rsimpl; rewrite Hh; set_solver).
  pose proof (sleep_while_spec P (λ k, must_wait (k_log k)) ChLog LLog p ltac:(done) HP Hs Hr w1 Hme Hh1 HPw He) as H.
  unfold wsafe in H. unfold begin_op. rewrite (bind_ok _ _ _ _ _ Ea). unfold mbind at 1, K_bind at 1.
  change (sleep_while _ ChLog LLog w1) with (sleep_while (λ k, must_wait (k_log k)) ChLog LLog w1).
  destruct (sleep_while _ _ _ w1) as [[] w2| | |]; try done.
  destruct H as (Hc & HP2 & Hh2 & Hm2 & _).
  erewrite bind_ok by reflexivity. rewrite release_held by (rsimpl; rewrite Hh2; set_solver).
  unfold must_wait in Hc. apply orb_false_iff in Hc as [Hc1%negb_false_iff%Z.eqb_eq Hc2%Z.ltb_ge].
  exists (ks w2). split; [done|]. split; [done|]. split; [done|]. split; [done|]. split; [|done].
  rsimpl. rewrite Hh2. set_solver.
Qed.

(** ** Witnesses *)

Definition group0 : logst := MkLog 2 31 0 0 1 0 (replicate 30 0).

Lemma group0_start : log_start group0.
Proof. by split. Qed.

(** Two calls, the first of which logs a block. *)
Lemma group_demo : lreach group0 (logged 60 (begun (begun group0))) [0; 1].
Proof.
  eapply LNext; [eapply LNext; [eapply LNext; [apply LInit|]|]|].
  - by apply LBegin.
  - by apply LBegin.
  - change [0; 1] with (<[1%nat := if is_new (begun (begun group0)) 60 then 0 + 1 else 0]> [0; 0]). by apply LWrite.
Qed.


Definition group_world : world :=
  MkWorld (boot_kstate <| k_log := logged 60 (begun (begun group0)) |>) ∅ (Some 0%nat) [].

Lemma log_write_reserved_witness :
  ∃ w', log_write 5 group_world = Ok () w' ∧ l_n (k_log (ks w')) = 2.
Proof.
  destruct (log_write_reserved group0 [0; 1] 0 0 5 group_world) as (w' & E & Hst & _).
  - exact group0_start.
  - exact group_demo.
  - reflexivity.
  - reflexivity.
  - reflexivity.
  - reflexivity.
  - split; [reflexivity|reflexivity].
  - exists w'. split; [exact E|]. rewrite log_write_run in E;
      [|set_solver|set_solver|reflexivity|vm_compute; discriminate|vm_compute; discriminate].
    injection E as <-. reflexivity.
Defined.

(** The first call waits until a commit is over. *)
Definition commit_wait_demo : world :=
  MkWorld (boot_kstate <| k_log := group0 <| l_committing := 1 |> |>) ∅ (Some 0%nat)
    [λ k, wake_all ChLog None (k <| k_log ::= λ l, l <| l_committing := 0 |> |>)].

Lemma begin_op_reserves_witness :
  match begin_op commit_wait_demo with
  | Ok _ w' => held w' = ∅
  | _ => False
  end.
Proof.
  pose proof (begin_op_reserves procs_ok 0 commit_wait_demo) as H.
  destruct (begin_op commit_wait_demo) as [[] w'|m| |] eqn:E; try (vm_compute in E; discriminate E).
  destruct H as (k & _ & _ & _ & _ & Hh & _); [..|exact Hh].
  - intros k Hk. rewrite Hk. unfold NPROC. lia.
  - intros k Hk. by apply procs_ok_upd.
  - intros k Hk. by apply procs_ok_upd.
  - reflexivity.
  - reflexivity.
  - reflexivity.
  - intros f [->|Hf]%elem_of_cons k Hk; [|by apply elem_of_nil in Hf].
    by apply procs_ok_wake_all.
Defined.
