(* ===== verification/TxnSpec.v ===== *)
(** * Blocks inside a transaction

    Between [begin_op] and [end_op] the file system reads blocks with [bread],
    changes them in their buffers, hands the changed ones to [log_write] and
    gives them back with [brelse].  This file presents these steps on an
    abstract state [tstate]: the current contents of every block, the blocks in
    the transaction, the blocks the thread has open, those it has changed but
    not logged yet, and the number of calls in the transaction.  fs.c is verified on top of it. *)

From S2P Require Import Prelude Memory Kernel Sched Sleeplock Bio BufList BioSpec Log LogSpec LogGroup.

(** ** The abstract state *)

Record tstate := MkT {
  t_view : Z → list Z;
  t_disk : Z → list Z;
  t_hist : list (Z * list Z);
  t_logged : gset Z;
  t_open : gmap Z nat;
  t_dirty : gset Z;
  t_out : Z
}.

Definition t_opened (n : Z) (b : nat) (T : tstate) : tstate :=
  MkT (t_view T) (t_disk T) (t_hist T) (t_logged T) (<[n := b]> (t_open T)) (t_dirty T) (t_out T).
Definition t_store (n : Z) (data : list Z) (T : tstate) : tstate :=
  MkT (<[n := data]> (t_view T)) (t_disk T) (t_hist T) (t_logged T) (t_open T) ({[n]} ∪ t_dirty T) (t_out T).
Definition t_log (n : Z) (T : tstate) : tstate :=
  MkT (t_view T) (t_disk T) (t_hist T) ({[n]} ∪ t_logged T) (t_open T) (t_dirty T ∖ {[n]}) (t_out T).
Definition t_close (n : Z) (T : tstate) : tstate :=
  MkT (t_view T) (t_disk T) (t_hist T) (t_logged T) (delete n (t_open T)) (t_dirty T) (t_out T).

(** The blocks that occupy a buffer for good or for now. *)
Definition t_busy (T : tstate) : gset Z := t_logged T ∪ dom (t_open T).

(** A logged block is pinned once, an open one counts one reference. *)
Definition t_refs (T : tstate) (n : Z) : Z :=
  (if decide (n ∈ t_logged T) then 1 else 0) + (if decide (n ∈ dom (t_open T)) then 1 else 0).

(** ** The log in memory *)

Definition log_blocks (L : logst) : list Z := take (Z.to_nat (l_n L)) (l_block L).

Record log_in (B : gset Z) (size out : Z) (L : logst) : Prop := {
  li_n : 0 <= l_n L <= LOGSIZE;
  li_len : length (l_block L) = Z.to_nat LOGSIZE;
  li_set : list_to_set (log_blocks L) = B;
  li_nodup : NoDup (log_blocks L);
  li_range : Forall (λ n, 0 <= n < 2 ^ 31) (log_blocks L);
  li_out : l_outstanding L = out;
  li_size : l_size L = size
}.

Lemma log_blocks_length B sz o L : log_in B sz o L → length (log_blocks L) = Z.to_nat (l_n L).
Proof. intros [H1 H2 _ _ _ _ _]. unfold log_blocks. rewrite length_take, H2. lia. Qed.

Lemma log_in_size B sz o L : log_in B sz o L → Z.of_nat (size B) = l_n L.
Proof.
  intros HL. pose proof (log_blocks_length _ _ _ _ HL) as El. destruct HL as [H1 H2 H3 H4 _ _ _].
  rewrite <- H3, size_list_to_set, El by done. lia.
Qed.

(** The slot of a block, and whether it is new. *)
Lemma log_slot B sz o L n :
  log_in B sz o L →
  (n ∈ B → is_new L n = false ∧ log_blocks L !! slot L n = Some n)
  ∧ (n ∉ B → slot L n = Z.to_nat (l_n L) ∧ is_new L n = true).
Proof.
  intros HL. pose proof (log_blocks_length _ _ _ _ HL) as El. destruct HL as [H1 H2 H3 H4 H5 _ _].
  destruct (find_block_spec (l_block L) (Z.to_nat (l_n L)) 0 n) as [F1 F2]. fold (slot L n) in F1, F2.
  pose proof (find_block_bound (l_block L) (Z.to_nat (l_n L)) 0 n) as Fb. fold (slot L n) in Fb. simpl in Fb.
  assert (∀ i, (i < Z.to_nat (l_n L))%nat → log_blocks L !! i = Some (l_block L !!! i)
            ∧ u32 (l_block L !!! i) = l_block L !!! i) as Hi.
  { intros i Hi. assert (log_blocks L !! i = Some (l_block L !!! i)) as E.
    { unfold log_blocks. rewrite lookup_take_lt by done. apply list_lookup_lookup_total_lt. lia. }
    split; [done|]. apply u32_small. apply (Forall_lookup_1 _ _ _ _ H5) in E. lia. }
  unfold is_new. split; intros Hn.
  - rewrite <- H3 in Hn. apply elem_of_list_to_set, list_elem_of_lookup in Hn as [i Hn].
    pose proof (lookup_lt_Some _ _ _ Hn) as Hlt. rewrite El in Hlt. destruct (Hi i Hlt) as [E1 E2].
    assert (slot L n < Z.to_nat (l_n L))%nat as Hs.
    { destruct (decide (slot L n < Z.to_nat (l_n L))%nat) as [|Hge]; [done|]. exfalso.
      apply (F2 i); [lia|]. congruence. }
    split; [apply Z.eqb_neq; lia|]. destruct (Hi _ Hs) as [E3 E4]. rewrite E3. f_equal.
    rewrite <- E4. apply F1. lia.
  - assert (slot L n = Z.to_nat (l_n L)) as Es.
    { destruct (decide (slot L n = Z.to_nat (l_n L))) as [|Hne]; [done|]. exfalso. apply Hn.
      assert (slot L n < Z.to_nat (l_n L))%nat as Hs by lia. destruct (Hi _ Hs) as [E1 E2].
      rewrite <- H3. apply elem_of_list_to_set. apply list_elem_of_lookup. exists (slot L n).
      rewrite E1. f_equal. rewrite <- E2. apply F1. lia. }
    rewrite Es. split; [done|]. apply Z.eqb_eq. lia.
Qed.

Lemma log_in_logged B sz o L n :
  log_in B sz o L → 0 <= n < 2 ^ 31 → l_n L < LOGSIZE → log_in ({[n]} ∪ B) sz o (logged n L).
Proof.
  intros HL Hn Hlt. destruct (log_slot _ _ _ _ n HL) as [S1 S2]. pose proof HL as [H1 H2 H3 H4 H5 H6 H7].
  unfold logged. rewrite i32_small by lia. destruct (decide (n ∈ B)) as [Hin|Hnin].
  - destruct (S1 Hin) as [En Es]. rewrite En.
    assert (<[slot L n := n]> (l_block L) = l_block L) as E.
    { apply list_insert_id. unfold log_blocks in Es.
      rewrite lookup_take_lt in Es; [done|]. apply lookup_lt_Some in Es. rewrite length_take in Es. lia. }
    replace ({[n]} ∪ B) with B by set_solver.
    split; unfold log_blocks; rsimpl; rewrite ?E; try done.
  - destruct (S2 Hnin) as [Es En]. rewrite En, Es.
    assert (log_blocks (L <| l_block ::= <[Z.to_nat (l_n L) := n]> |> <| l_n ::= λ n, n + 1 |>) = log_blocks L ++ [n]) as E.
    { unfold log_blocks. rsimpl. replace (Z.to_nat (l_n L + 1)) with (S (Z.to_nat (l_n L))) by lia.
      rewrite (take_S_r _ _ n) by (apply list_lookup_insert_eq; unfold LOGSIZE, MAXOPBLOCKS in *; lia).
      by rewrite take_insert_ge by lia. }
    split; rewrite ?E; rsimpl; try done.
    + lia.
    + by rewrite length_insert.
    + rewrite list_to_set_app_L, H3. simpl. set_solver.
    + apply list.NoDup_app. split; [done|]. split; [|apply list.NoDup_singleton].
      intros x Hx ->%list_elem_of_singleton. apply Hnin. rewrite <- H3. by apply elem_of_list_to_set.
    + apply Forall_app. split; [done|]. by constructor.
Qed.

(** ** The thread in a transaction *)

Record cache_is (T : tstate) (A : acache) : Prop := {
  ci_view : ∀ n, a_view A n = t_view T n;
  ci_disk : ∀ n, a_disk A n = t_disk T n;
  ci_hist : a_hist A = t_hist T;
  ci_lock : a_lock A = t_open T;
  ci_refs : ∀ n, default 0 (a_refs A !! n) = t_refs T n;
  ci_clean : ∀ n, n ∉ t_logged T → n ∉ t_dirty T → t_view T n = t_disk T n
}.

(** What a transaction leaves alone: everything but processes, cache, disk,
    driver and log. *)
Definition frame (k : kstate) : kstate := (rest k) <| k_log := MkLog 0 0 0 0 0 0 [] |>.

Section txn.
Context `{DS : DiskSpec} (p : nat) (pid sz : Z).

(** The state [T], the frame [F]; the disk will serve [m] more reads. *)
Record txn (T : tstate) (F : kstate) (m : nat) (w : world) : Prop := {
  tx_cache : ∃ A, bstate p pid A (rest (ks w)) m w ∧ cache_is T A;
  tx_frame : frame (ks w) = F;
  tx_log : log_in (t_logged T) sz (t_out T) (k_log (ks w))
}.

Lemma frame_of_rest k k' : rest k = rest k' → frame k = frame k' ∧ k_log k = k_log k'.
Proof.
  intros E. split; [unfold frame; by rewrite E|].
  change (k_log k) with (k_log (rest k)). change (k_log k') with (k_log (rest k')). by rewrite E.
Qed.

(** A step that only touches the cache. *)
Lemma txn_step T T' F m m' A A' w w' :
  txn T F m w → bstate p pid A (rest (ks w)) m w → bstate p pid A' (rest (ks w)) m' w' →
  cache_is T' A' → t_logged T' = t_logged T → t_out T' = t_out T → txn T' F m' w'.
Proof.
  intros [_ Hf Hl] _ Hb Hc El Eo. pose proof (bs_rest _ _ _ _ _ _ Hb) as Er.
  destruct (frame_of_rest _ _ Er) as [E1 E2]. split.
  - exists A'. split; [by rewrite Er|done].
  - by rewrite E1.
  - by rewrite El, Eo, E2.
Qed.

Lemma txn_le T F n m w : (m <= n)%nat → txn T F n w → txn T F m w.
Proof. intros Hm [(A & Hb & Hc) Hf Hl]. split; [|done|done]. exists A. split; [by apply (bstate_le _ _ _ _ n)|done]. Qed.

(** Every open or logged block has a buffer of its own, and no other has references. *)
Lemma cache_busy T A (c : bcache) d : rep A pid c d → cache_is T A → dom (a_refs A) = t_busy T.
Proof.
  intros HR HC. apply set_eq. intros n. rewrite elem_of_dom. pose proof (ci_refs _ _ HC n) as Hr.
  unfold t_refs in Hr. unfold t_busy. rewrite elem_of_union. split.
  - intros [r Er]. destruct (r_refs _ _ _ _ HR n r Er) as [Hr0 _]. rewrite Er in Hr. simpl in Hr.
    destruct (decide (n ∈ t_logged T)); [by left|]. destruct (decide (n ∈ dom (t_open T))); [by right|lia].
  - intros Hn. destruct (a_refs A !! n) as [r|]; [eauto|]. exfalso. simpl in Hr.
    destruct (decide (n ∈ t_logged T)), (decide (n ∈ dom (t_open T))); try lia. tauto.
Qed.

Lemma bread_txn T F m n w :
  txn T F (S m) w → 0 <= n < 2 ^ 31 → t_open T !! n = None →
  (n ∈ t_logged T ∨ (size (t_busy T) < HEAD)%nat) →
  ∃ b w', bread ROOTDEV n w = Ok b w' ∧ txn (t_opened n b T) F m w'.
Proof.
  intros Ht Hn Ho Hroom. destruct (tx_cache _ _ _ _ Ht) as (A & Hb & HC).
  pose proof (cache_busy T A _ _ (bs_rep _ _ _ _ _ _ Hb) HC) as Hbusy.
  assert (t_refs T n <= 1) as Hr1.
  { unfold t_refs. rewrite (decide_False (P := n ∈ dom (t_open T))) by (by rewrite not_elem_of_dom). case_decide; lia. }
  destruct (bread_spec p pid A (rest (ks w)) m n w Hb) as (b & w' & E & Hb').
  { split; [done|]. split; [by rewrite (ci_lock _ _ HC)|]. split; [rewrite (ci_refs _ _ HC); lia|].
    destruct Hroom as [Hl|Hl]; [left|right].
    - apply elem_of_dom. rewrite Hbusy. unfold t_busy. set_solver.
    - by rewrite <- size_dom, Hbusy. }
  exists b, w'. split; [done|]. eapply txn_step; [done|exact Hb|exact Hb'| |done|done].
  destruct HC as [C1 C2 C3 C4 C5 C6]. split; simpl; try done.
  - by rewrite C4.
  - intros n'. unfold t_refs. simpl. rewrite dom_insert_L. destruct (decide (n' = n)) as [->|Hne].
    + rewrite lookup_insert_eq. simpl. rewrite C5. unfold t_refs.
      rewrite (decide_False (P := n ∈ dom (t_open T))) by (by rewrite not_elem_of_dom).
      rewrite (decide_True (P := n ∈ {[n]} ∪ _)) by set_solver. lia.
    + rewrite lookup_insert_ne by done. rewrite C5. unfold t_refs. f_equal.
      destruct (decide (n' ∈ dom (t_open T))); [by rewrite decide_True by set_solver|by rewrite decide_False by set_solver].
Qed.

(** The contents of an open block. *)
Lemma open_data T F m n b w :
  txn T F m w → t_open T !! n = Some b →
  b_data (get_buf b (ks w)) = t_view T n ∧ b_blockno (get_buf b (ks w)) = n
  ∧ length (t_view T n) = Z.to_nat BSIZE ∧ 0 <= n < 2 ^ 31.
Proof.
  intros Ht Ho. destruct (tx_cache _ _ _ _ Ht) as (A & Hb & HC). rewrite <- (ci_lock _ _ HC) in Ho.
  pose proof (bs_rep _ _ _ _ _ _ Hb) as HR.
  destruct (rep_locked _ _ _ _ _ _ HR Ho) as (x & r & Hx & Kx & _ & _ & _ & _ & Hd & _ & _ & Hn & _).
  apply cores_lookup in Hx as (y & Hy & -> & Ey). unfold get_buf. rewrite (list_lookup_total_correct _ _ _ Hy).
  apply bkey_Some in Kx as [_ Kx]. rewrite <- (ci_view _ _ HC). split; [exact Hd|]. split; [exact Kx|].
  split; [apply (r_len _ _ _ _ HR)|done].
Qed.

Lemma view_length T F m n w : txn T F m w → length (t_view T n) = Z.to_nat BSIZE.
Proof.
  intros Ht. destruct (tx_cache _ _ _ _ Ht) as (A & Hb & HC). rewrite <- (ci_view _ _ HC).
  apply (r_len _ _ _ _ (bs_rep _ _ _ _ _ _ Hb)).
Qed.

Lemma store_txn T F m n b f w :
  txn T F m w → t_open T !! n = Some b → length (f (t_view T n)) = Z.to_nat BSIZE →
  ∃ w', modify (upd_buf b (λ x, x <| b_data ::= f |>)) w = Ok () w' ∧ txn (t_store n (f (t_view T n)) T) F m w'.
Proof.
  intros Ht Ho Hl. destruct (tx_cache _ _ _ _ Ht) as (A & Hb & HC).
  destruct (store_spec p pid A (rest (ks w)) m n b f w Hb) as (w' & E & Hb');
    [by rewrite (ci_lock _ _ HC)|by rewrite (ci_view _ _ HC)|].
  exists w'. split; [done|]. eapply txn_step; [done|exact Hb|exact Hb'| |done|done].
  destruct HC as [C1 C2 C3 C4 C5 C6]. split; simpl; try done.
  - intros n'. destruct (decide (n' = n)) as [->|Hne].
    + by rewrite !fn_lookup_insert, C1.
    + by rewrite !fn_lookup_insert_ne.
  - intros n' H1 H2. rewrite fn_lookup_insert_ne by set_solver. apply C6; [done|set_solver].
Qed.

Lemma brelse_txn T F m n b w :
  txn T F m w → t_open T !! n = Some b → n ∉ t_dirty T →
  ∃ w', brelse b w = Ok () w' ∧ txn (t_close n T) F m w'.
Proof.
  intros Ht Ho Hd. destruct (tx_cache _ _ _ _ Ht) as (A & Hb & HC).
  destruct (brelse_spec p pid A (rest (ks w)) m n b w Hb) as (w' & E & Hb').
  { by rewrite (ci_lock _ _ HC). }
  { intros Hr. rewrite (ci_view _ _ HC), (ci_disk _ _ HC). apply (ci_clean _ _ HC); [|done].
    intros Hl. pose proof (ci_refs _ _ HC n) as E. rewrite Hr in E. unfold t_refs in E. simpl in E.
    rewrite !decide_True in E by (done || (apply elem_of_dom; eauto)). lia. }
  exists w'. split; [done|]. eapply txn_step; [done|exact Hb|exact Hb'| |done|done].
  destruct HC as [C1 C2 C3 C4 C5 C6]. split; simpl; try done.
  - by rewrite C4.
  - intros n'. unfold t_refs. simpl. rewrite dom_delete_L. pose proof (C5 n') as E5. unfold t_refs in E5.
    destruct (decide (n' = n)) as [->|Hne].
    + rewrite (decide_True (P := n ∈ dom (t_open T))) in E5 by (apply elem_of_dom; eauto).
      rewrite (decide_False (P := n ∈ dom (t_open T) ∖ _)) by set_solver. rewrite E5.
      destruct (decide (n ∈ t_logged T)); simpl; by rewrite ?lookup_insert_eq, ?lookup_delete_eq.
    + destruct (a_add_ref_agree n (-1) A n' Hne) as (_ & _ & Er & _). simpl in Er. rewrite Er, C5. unfold t_refs. f_equal.
      destruct (decide (n' ∈ dom (t_open T))); [by rewrite decide_True by set_solver|by rewrite decide_False by set_solver].
Qed.

(** Changing the log's state in memory. *)
Lemma bstate_klog A m f k w :
  bstate p pid A (rest k) m (w <| ks := k |>) →
  bstate p pid A (rest (k <| k_log ::= f |>)) m (w <| ks := k <| k_log ::= f |> |>).
Proof.
  intros [[H1 H2 H3 H4 H5] _ B3 B4]. split; [by split|done| |done].
  by apply (disk_ready_frame m (w <| ks := k |>)).
Qed.

Lemma log_write_txn T F m n b w :
  txn T F m w → t_open T !! n = Some b → 1 <= t_out T → Z.of_nat (size (t_logged T)) < Z.min LOGSIZE (sz - 1) →
  ∃ w', log_write b w = Ok () w' ∧ txn (t_log n T) F m w'.
Proof.
  intros Ht Ho Hout Hsz. destruct (tx_cache _ _ _ _ Ht) as (A & Hb & HC).
  destruct (open_data _ _ _ _ _ _ Ht Ho) as (_ & Hbn & _ & Hn). pose proof (tx_log _ _ _ _ Ht) as HL.
  pose proof (log_in_size _ _ _ _ HL) as Es. pose proof (bs_thread _ _ _ _ _ _ Hb) as Hth.
  destruct (log_slot _ _ _ _ n HL) as [S1 S2]. set (L := k_log (ks w)) in *.
  assert (too_big L = false) as Htb.
  { unfold too_big. rewrite (li_size _ _ _ _ HL). apply orb_false_iff. rewrite !Z.leb_gt. lia. }
  rewrite log_write_run; try done; try (by eapply thread_not_held); [|apply HL|pose proof (li_out _ _ _ _ HL); fold L; lia].
  eexists. split; [reflexivity|].
  change (w <| ks ::= ?g |>) with (w <| ks := g (ks w) |>). cbv beta. unfold pin_if_new. fold L. rewrite Hbn.
  assert (log_in (t_logged (t_log n T)) sz (t_out T) (logged n L)) as HL' by (apply log_in_logged; [done|done|lia]).
  pose proof HC as [C1 C2 C3 C4 C5 C6].
  assert (n ∈ dom (t_open T)) as Hdom by (apply elem_of_dom; eauto).
  destruct (decide (n ∈ t_logged T)) as [Hin|Hnin].
  - destruct (S1 Hin) as [-> _]. split; [|apply Ht|exact HL']. exists A.
    split; [apply (bstate_klog A m (logged n) (ks w) w); by destruct w|].
    replace (t_log n T) with (MkT (t_view T) (t_disk T) (t_hist T) (t_logged T) (t_open T) (t_dirty T ∖ {[n]}) (t_out T)).
    2:{ unfold t_log. f_equal. set_solver. }
    split; try done. simpl. intros n' H1 H2. apply C6; [done|]. set_solver.
  - destruct (S2 Hnin) as [_ ->].
    destruct (bpin_spec p pid A (rest (ks w)) m n b w Hb) as (w1 & E1 & Hb1).
    { by rewrite C4. }
    { rewrite C5. unfold t_refs. rewrite decide_False, decide_True by done. lia. }
    unfold bpin in E1. rewrite lock_modify in E1 by (by eapply thread_not_held). injection E1 as <-.
    split; [|apply Ht|exact HL']. exists (a_add_ref n 1 A). split.
    + set (g := upd_buf b (λ x, x <| b_refcnt ::= λ r, u32 (r + 1) |>)) in *.
      exact (bstate_klog (a_add_ref n 1 A) m (logged n) (g (ks w)) w Hb1).
    + split; try done.
      * intros n'. unfold t_refs. simpl. destruct (decide (n' = n)) as [->|Hne].
        -- rewrite (C5 n). unfold t_refs. rewrite (decide_False (P := n ∈ t_logged T)) by done.
           rewrite (decide_True (P := n ∈ dom (t_open T))) by done. rewrite (decide_True (P := n ∈ {[n]} ∪ _)) by set_solver.
           simpl. by rewrite lookup_insert_eq.
        -- destruct (a_add_ref_agree n 1 A n' Hne) as (_ & _ & Er & _). simpl in Er. rewrite Er, C5. unfold t_refs. f_equal.
           destruct (decide (n' ∈ t_logged T)); [by rewrite decide_True by set_solver|by rewrite decide_False by set_solver].
      * simpl. intros n' H1 H2. apply C6; set_solver.
Qed.
End txn.
