(* ===== verification/Uart.v ===== *)
(** * kernel/uart.c

    The driver of the 16550 UART: a transmit ring of 32 bytes between
    [uartputc] and the device.  The device is the record [uartst]: what it
    reports in LSR and has received is input of the model, the bytes and
    register values written to it are recorded. *)

From S2P Require Import Prelude Memory Kernel Sched.

(** Registers. *)
Definition IER : Z := 1.
Definition IER_RX_ENABLE : Z := Z.shiftl 1 0.
Definition IER_TX_ENABLE : Z := Z.shiftl 1 1.
Definition FCR : Z := 2.
Definition FCR_FIFO_ENABLE : Z := Z.shiftl 1 0.
Definition FCR_FIFO_CLEAR : Z := Z.shiftl 3 1.
Definition LCR : Z := 3.
Definition LCR_EIGHT_BITS : Z := Z.shiftl 3 0.
Definition LCR_BAUD_LATCH : Z := Z.shiftl 1 7.

Definition modify_uart (f : uartst → uartst) : K unit := modify (λ k, k <| k_uart ::= f |>).

Definition WriteReg (r v : Z) : K unit := modify_uart (λ u, u <| ua_regs ::= cons (r, v) |>).
Definition WriteTHR (c : Z) : K unit := modify_uart (λ u, u <| ua_thr ::= cons (u8 c) |>).

(** [ReadReg(LSR) & LSR_TX_IDLE]: the next report of the device. *)
Definition tx_idle : K bool :=
  u ← gets k_uart;
  match ua_idle u with
  | [] => mret true
  | b :: l => modify_uart (λ u, u <| ua_idle := l |>);; mret b
  end.

Definition uartinit : K unit :=
  WriteReg IER 0x00;;
  WriteReg LCR LCR_BAUD_LATCH;;
  WriteReg 0 0x03;;
  WriteReg 1 0x00;;
  WriteReg LCR LCR_EIGHT_BITS;;
  WriteReg FCR (Z.lor FCR_FIFO_ENABLE FCR_FIFO_CLEAR);;
  WriteReg IER (Z.lor IER_TX_ENABLE IER_RX_ENABLE);;
  initlock LUart.

Fixpoint uartstart_loop (fuel : nat) : K unit :=
  match fuel with
  | O => diverge
  | S fuel =>
    u ← gets k_uart;
    if ua_tx_w u =? ua_tx_r u then mret ()
    else
      idle ← tx_idle;
      if negb idle then mret ()
      else
        let c := ua_tx_buf u !!! Z.to_nat (ua_tx_r u mod UART_TX_BUF_SIZE) in
        modify_uart (λ u, u <| ua_tx_r ::= λ r, u64 (r + 1) |>);;
        wakeup ChUart;;
        WriteTHR c;;
        uartstart_loop fuel
  end.

(** One iteration per byte in the ring. *)
Definition uartstart : K unit :=
  u ← gets k_uart;
  uartstart_loop (S (Z.to_nat (u64 (ua_tx_w u - ua_tx_r u)))).

(** [for(;;) ;] when the kernel has panicked. *)
Definition spin_if_panicked : K unit :=
  p ← gets k_panicked;
  if negb (p =? 0) then diverge else mret ().

Definition uartputc (c : Z) : K unit :=
  acquire LUart;;
  spin_if_panicked;;
  sleep_while (λ k, ua_tx_w (k_uart k) =? u64 (ua_tx_r (k_uart k) + UART_TX_BUF_SIZE)) ChUart LUart;;
  modify_uart (λ u, u <| ua_tx_buf ::= <[Z.to_nat (ua_tx_w u mod UART_TX_BUF_SIZE) := u8 c]> |>);;
  modify_uart (λ u, u <| ua_tx_w ::= λ w, u64 (w + 1) |>);;
  uartstart;;
  release LUart.

(** [while((ReadReg(LSR) & LSR_TX_IDLE) == 0) ;] *)
Fixpoint tx_spin (fuel : nat) : K unit :=
  match fuel with
  | O => diverge
  | S fuel => idle ← tx_idle; if negb idle then tx_spin fuel else mret ()
  end.

(** [push_off] and [pop_off] only concern interrupts. *)
Definition uartputc_sync (c : Z) : K unit :=
  spin_if_panicked;;
  u ← gets k_uart;
  tx_spin (S (length (ua_idle u)));;
  WriteTHR c.

Definition uartgetc : K Z :=
  u ← gets k_uart;
  match ua_rx u with
  | [] => mret (-1)
  | c :: l => modify_uart (λ u, u <| ua_rx := l |>);; mret c
  end.
