(* ===== verification/Printf.v ===== *)
(** * kernel/printf.c and consputc of kernel/console.c

    Formatted output to the console.  The variable arguments are a list of
    [parg]; taking an argument that is not there, or of another kind, is
    undefined in C and a panic here. *)

From S2P Require Import Prelude Memory Kernel Sched Uart.

Definition BACKSPACE : Z := 0x100.

Definition consputc (c : Z) : K unit :=
  if c =? BACKSPACE then
    uartputc_sync 8;; uartputc_sync (ch " ");; uartputc_sync 8
  else uartputc_sync c.

Inductive parg := AInt (x : Z) | APtr (x : Z) | AStr (s : option (list Z)).

Definition digits : list Z := str "0123456789abcdef".

(** The [do ... while] loop: the digits of [x], least significant first.  A
    32-bit number has at most 32 digits in a base of at least 2. *)
Fixpoint printint_digits (fuel : nat) (x base : Z) : list Z :=
  match fuel with
  | O => []
  | S fuel =>
    digits !!! Z.to_nat (x mod base) ::
    (if negb (x / base =? 0) then printint_digits fuel (x / base) base else [])
  end.

(** The characters that [printint] puts into [buf], in the order it prints them. *)
Definition printint_chars (xx base : Z) (sign : bool) : list Z :=
  let neg := sign && (xx <? 0) in
  let x := if neg then u32 (- xx) else u32 xx in
  let buf := printint_digits 32 x base in
  reverse (if neg then buf ++ [ch "-"] else buf).

Definition printint (xx base : Z) (sign : bool) : K unit :=
  mfor (printint_chars xx base sign) consputc.

Fixpoint printptr_loop (n : nat) (x : Z) : K unit :=
  match n with
  | O => mret ()
  | S n =>
    consputc (digits !!! Z.to_nat (Z.shiftr x 60));;
    printptr_loop n (u64 (Z.shiftl x 4))
  end.

Definition printptr (x : Z) : K unit :=
  consputc (ch "0");;
  consputc (ch "x");;
  printptr_loop 16 x.

(** [for(; *s; s++) consputc( *s);] *)
Fixpoint print_str (s : list Z) : K unit :=
  match s with
  | [] => mret ()
  | c :: s => if c =? 0 then mret () else consputc c;; print_str s
  end.

Fixpoint printf_loop (fmt : list Z) (ap : list parg) : K unit :=
  match fmt with
  | [] => mret ()
  | c :: fmt =>
    if c =? 0 then mret ()
    else if negb (c =? ch "%") then consputc c;; printf_loop fmt ap
    else
      match fmt with
      | [] => mret ()
      | c :: fmt =>
        if c =? 0 then mret ()
        else if c =? ch "d" then
          match ap with
          | AInt x :: ap => printint x 10 true;; printf_loop fmt ap
          | _ => panic "va_arg"
          end
        else if c =? ch "x" then
          match ap with
          | AInt x :: ap => printint x 16 true;; printf_loop fmt ap
          | _ => panic "va_arg"
          end
        else if c =? ch "p" then
          match ap with
          | APtr x :: ap => printptr x;; printf_loop fmt ap
          | _ => panic "va_arg"
          end
        else if c =? ch "s" then
          match ap with
          | AStr None :: ap => print_str (str "(null)");; printf_loop fmt ap
          | AStr (Some s) :: ap => print_str s;; printf_loop fmt ap
          | _ => panic "va_arg"
          end
        else if c =? ch "%" then consputc (ch "%");; printf_loop fmt ap
        else consputc (ch "%");; consputc c;; printf_loop fmt ap
      end
  end.

Definition printf (fmt : list Z) (ap : list parg) : K unit :=
  locking ← gets k_prlocking;
  when (negb (locking =? 0)) (acquire LPr);;
  printf_loop fmt ap;;
  when (negb (locking =? 0)) (release LPr).

(** The C function [panic]: print, freeze the other CPUs' output, spin.  The
    other files use the outcome [Panic], which carries the message. *)
Definition c_panic (s : list Z) : K unit :=
  modify (λ k, k <| k_prlocking := 0 |>);;
  printf (str "panic: ") [];;
  printf s [];;
  printf [10] [];;
  modify (λ k, k <| k_panicked := 1 |>);;
  diverge.

Definition printfinit : K unit :=
  initlock LPr;;
  modify (λ k, k <| k_prlocking := 1 |>).
