(* ===== verification/Copy.v ===== *)
(** * kernel/proc.c: either_copyout and either_copyin

    Copies to a user or to a kernel address.  A kernel destination is physical
    memory ([DKern]) or a local variable of the caller ([DLocal]), who gets the
    bytes it passed; a kernel source is a local variable of the caller. *)

From S2P Require Import Prelude Memory Kernel Kalloc Vm.

Inductive kdst := DUser (va : Z) | DKern (pa : Z) | DLocal.
Inductive ksrc := SUser (va : Z) | SKern (bytes : list Z).

(** [dst += n] and [src += n] *)
Definition kdst_add (d : kdst) (n : Z) : kdst :=
  match d with DUser va => DUser (u64 (va + n)) | DKern pa => DKern (u64 (pa + n)) | DLocal => DLocal end.
Definition ksrc_add (s : ksrc) (n : Z) : ksrc :=
  match s with SUser va => SUser (u64 (va + n)) | SKern l => SKern (drop (Z.to_nat n) l) end.

Definition either_copyout (d : kdst) (src : list Z) (len : Z) : K Z :=
  match d with
  | DUser va =>
    p ← curproc;
    pt ← gets (λ k, p_pagetable (get_proc p k));
    copyout pt va src len
  | DKern pa => modify (λ k, k <| k_mem ::= λ m, st_bytes m pa (take (Z.to_nat len) src) |>);; mret 0
  | DLocal => mret 0
  end.

(** The bytes stored at [dst] come with the result. *)
Definition either_copyin (s : ksrc) (len : Z) : K (Z * list Z) :=
  match s with
  | SUser va =>
    p ← curproc;
    pt ← gets (λ k, p_pagetable (get_proc p k));
    copyin pt va len
  | SKern l => mret (0, take (Z.to_nat len) l)
  end.
