(* ===== verification/Console.v ===== *)
(** * kernel/console.c, uartintr of kernel/uart.c, procdump of kernel/proc.c

    The console input buffer with line editing.  The circular buffer holds the
    bytes from [cons.r] to [cons.w], complete lines for [consoleread], followed
    by the bytes from [cons.w] to [cons.e], the line being edited.  The three
    indices run freely modulo 2^32. *)

From S2P Require Import Prelude Memory Kernel Kalloc Vm Sched Uart Printf Copy.

(** [C(x)]: control-x *)
Definition ctrl (c : Ascii.ascii) : Z := ch c - ch "@".
Arguments ctrl c%_char_scope.

Definition modify_cons (f : consst → consst) : K unit := modify (λ k, k <| k_cons ::= f |>).

Fixpoint consolewrite_loop (n : nat) (i : Z) (src : ksrc) : K Z :=
  match n with
  | O => mret i
  | S n =>
    r ← either_copyin (ksrc_add src i) 1;
    if r.1 =? -1 then mret i
    else uartputc (r.2 !!! 0%nat);; consolewrite_loop n (i + 1) src
  end.

Definition consolewrite (src : ksrc) (n : Z) : K Z := consolewrite_loop (Z.to_nat n) 0 src.

(** The inner loop of [consoleread]: whether there is input ([false] if the
    process was killed, after the lock was released). *)
Fixpoint cons_wait (fuel : nat) : K bool :=
  match fuel with
  | O => diverge
  | S fuel =>
    c ← gets k_cons;
    if cs_r c =? cs_w c then
      p ← curproc;
      k ← killed p;
      if negb (k =? 0) then release LCons;; mret false
      else sleep ChCons LCons;; cons_wait fuel
    else mret true
  end.

(** The result is [Some n], what is left of [n], or [None] for [return -1]. *)
Fixpoint consoleread_loop (fuel : nat) (dst : kdst) (n target : Z) : K (option Z) :=
  match fuel with
  | O => diverge
  | S fuel =>
    if 0 <? n then
      ok ← env_fuel cons_wait;
      if negb ok then mret None
      else
        c ← gets (λ k, cs_buf (k_cons k) !!! Z.to_nat (cs_r (k_cons k) mod INPUT_BUF_SIZE));
        modify_cons (λ s, s <| cs_r ::= λ r, u32 (r + 1) |>);;
        if c =? ctrl "D" then
          when (n <? target) (modify_cons (λ s, s <| cs_r ::= λ r, u32 (r - 1) |>));;
          mret (Some n)
        else
          r ← either_copyout dst [c] 1;
          if r =? -1 then mret (Some n)
          else if c =? 10 then mret (Some (n - 1))
          else consoleread_loop fuel (kdst_add dst 1) (n - 1) target
    else mret (Some n)
  end.

(** Every iteration consumes one byte of [n]. *)
Definition consoleread (dst : kdst) (n : Z) : K Z :=
  let target := n in
  acquire LCons;;
  r ← consoleread_loop (S (Z.to_nat n)) dst n target;
  match r with
  | None => mret (-1)
  | Some n => release LCons;; mret (i32 (target - n))
  end.

(** ** Interrupts *)

Definition state_name (s : procstate) : list Z :=
  match s with
  | UNUSED => str "unused" | USED => str "used" | SLEEPING => str "sleep "
  | RUNNABLE => str "runble" | RUNNING => str "run   " | ZOMBIE => str "zombie"
  end.

Definition procdump : K unit :=
  printf [10] [];;
  mfor all_procs (λ i,
    p ← gets (get_proc i);
    if decide (p_state p = UNUSED) then mret ()
    else
      printf (str "%d %s %s") [AInt (p_pid p); AStr (Some (state_name (p_state p))); AStr (Some (p_name p))];;
      printf [10] []).

(** Control-U: the buffer holds at most INPUT_BUF_SIZE characters. *)
Fixpoint kill_line_loop (fuel : nat) : K unit :=
  match fuel with
  | O => diverge
  | S fuel =>
    c ← gets k_cons;
    if negb (cs_e c =? cs_w c)
       && negb (cs_buf c !!! Z.to_nat (u32 (cs_e c - 1) mod INPUT_BUF_SIZE) =? 10) then
      modify_cons (λ s, s <| cs_e ::= λ e, u32 (e - 1) |>);;
      consputc BACKSPACE;;
      kill_line_loop fuel
    else mret ()
  end.

Definition consoleintr (c : Z) : K unit :=
  acquire LCons;;
  (if c =? ctrl "P" then procdump
   else if c =? ctrl "U" then
     s ← gets k_cons;
     kill_line_loop (S (Z.to_nat (u32 (cs_e s - cs_w s))))
   else if (c =? ctrl "H") || (c =? 0x7f) then
     s ← gets k_cons;
     if negb (cs_e s =? cs_w s) then
       modify_cons (λ s, s <| cs_e ::= λ e, u32 (e - 1) |>);;
       consputc BACKSPACE
     else mret ()
   else
     s ← gets k_cons;
     if negb (c =? 0) && (u32 (cs_e s - cs_r s) <? INPUT_BUF_SIZE) then
       let c := if c =? 13 then 10 else c in
       consputc c;;
       modify_cons (λ s, s <| cs_buf ::= <[Z.to_nat (cs_e s mod INPUT_BUF_SIZE) := u8 c]> |>);;
       modify_cons (λ s, s <| cs_e ::= λ e, u32 (e + 1) |>);;
       s ← gets k_cons;
       if (c =? 10) || (c =? ctrl "D") || (u32 (cs_e s - cs_r s) =? INPUT_BUF_SIZE) then
         modify_cons (λ s, s <| cs_w := cs_e s |>);;
         wakeup ChCons
       else mret ()
     else mret ());;
  release LCons.

(** uart.c: one iteration per byte received. *)
Fixpoint uartintr_loop (fuel : nat) : K unit :=
  match fuel with
  | O => diverge
  | S fuel =>
    c ← uartgetc;
    if c =? -1 then mret () else consoleintr c;; uartintr_loop fuel
  end.

Definition uartintr : K unit :=
  u ← gets k_uart;
  uartintr_loop (S (length (ua_rx u)));;
  acquire LUart;;
  uartstart;;
  release LUart.

Definition consoleinit : K unit :=
  initlock LCons;;
  uartinit;;
  modify (λ k, k <| k_devsw ::= <[Z.to_nat CONSOLE := true]> |>).
