(* ===== verification/ConsoleSpec.v ===== *)
(** * Correctness of kernel/console.c: line editing and reading

    The ring buffer with its three indices implements a line editor: bytes that
    are ready for [consoleread], and a line that is still being edited. *)

From S2P Require Import Prelude Memory Kernel Kalloc Vm PageTable VmSpec Sched Uart Printf Copy Console.

(** ** The line editor *)

Record editor := MkEditor { ready : list Z; line : list Z }.

Definition drop_last (l : list Z) : list Z := take (length l - 1) l.

(** What typing the byte [c] does. Control-U kills the line, backspace and delete
    its last byte; newline, control-D and a full buffer make it ready. *)
Definition typed (c : Z) (s : editor) : editor :=
  if c =? ctrl "P" then s
  else if c =? ctrl "U" then MkEditor (ready s) []
  else if (c =? ctrl "H") || (c =? 0x7f) then MkEditor (ready s) (drop_last (line s))
  else if (c =? 0) || bool_decide (128 <= length (ready s ++ line s))%nat then s
  else
    let c := if c =? 13 then 10 else c in
    let l := line s ++ [c] in
    if (c =? 10) || (c =? ctrl "D") || bool_decide (length (ready s ++ l) = 128)%nat
    then MkEditor (ready s ++ l) [] else MkEditor (ready s) l.

(** ** The ring *)

(** The slot of the byte [i] after [cs_r]. *)
Definition slot (c : consst) (i : nat) : nat := Z.to_nat (u32 (cs_r c + Z.of_nat i) mod INPUT_BUF_SIZE).

Record holds (c : consst) (s : editor) : Prop := {
  ho_buf : length (cs_buf c) = 128%nat;
  ho_r : 0 <= cs_r c < 2 ^ 32;
  ho_w : cs_w c = u32 (cs_r c + Z.of_nat (length (ready s)));
  ho_e : cs_e c = u32 (cs_r c + Z.of_nat (length (ready s ++ line s)));
  ho_fits : (length (ready s ++ line s) <= 128)%nat;
  ho_bytes i b : (ready s ++ line s) !! i = Some b → cs_buf c !! slot c i = Some b
}.

Lemma u32_add r k : 0 <= r < 2 ^ 32 → 0 <= k < 2 ^ 32 → u32 (u32 (r + k) - r) = k.
Proof. intros Hr Hk. unfold u32. rewrite Zminus_mod_idemp_l. replace (r + k - r) with k by lia. by apply Z.mod_small. Qed.

Lemma u32_add_inj r i j : 0 <= i < 2 ^ 32 → 0 <= j < 2 ^ 32 → u32 (r + i) = u32 (r + j) → i = j.
Proof.
  intros Hi Hj E. apply (f_equal (λ z, u32 (z - r))) in E. unfold u32 in E. rewrite !Zminus_mod_idemp_l in E.
  replace (r + i - r) with i in E by lia. replace (r + j - r) with j in E by lia. by rewrite !Z.mod_small in E.
Qed.

Lemma slot_inj c i j : (i < 128)%nat → (j < 128)%nat → slot c i = slot c j → i = j.
Proof.
  intros Hi Hj E. unfold slot, u32, INPUT_BUF_SIZE in E. apply (f_equal Z.of_nat) in E.
  rewrite !Z2Nat.id in E by (apply Z.mod_pos_bound; lia). rewrite <- !(Znumtheory.Zmod_div_mod 128 (2 ^ 32)) in E by (try lia; by exists (2 ^ 25)).
  pose proof (Z.div_mod (cs_r c + Z.of_nat i) 128). pose proof (Z.div_mod (cs_r c + Z.of_nat j) 128). lia.
Qed.

Lemma slot_lt c i : (slot c i < 128)%nat.
Proof. unfold slot, INPUT_BUF_SIZE. pose proof (Z.mod_pos_bound (u32 (cs_r c + Z.of_nat i)) 128 ltac:(lia)). lia. Qed.

Section holds.
Variables (c : consst) (s : editor).
Hypothesis Hh : holds c s.

Lemma holds_count : u32 (cs_e c - cs_r c) = Z.of_nat (length (ready s ++ line s)).
Proof. rewrite (ho_e _ _ Hh). pose proof (ho_fits _ _ Hh). apply u32_add; [apply Hh|lia]. Qed.

Lemma holds_line : u32 (cs_e c - cs_w c) = Z.of_nat (length (line s)).
Proof.
  rewrite (ho_e _ _ Hh), (ho_w _ _ Hh). pose proof (ho_fits _ _ Hh) as Hf. rewrite length_app in *. unfold u32. rewrite <-Zminus_mod.
  replace (_ - _) with (Z.of_nat (length (line s))) by lia. apply Z.mod_small. lia.
Qed.

Lemma holds_empty : (cs_e c =? cs_w c) = bool_decide (line s = []).
Proof.
  pose proof (ho_fits _ _ Hh) as Hf. rewrite length_app in Hf. destruct (Z.eqb_spec (cs_e c) (cs_w c)) as [E|E]; symmetry.
  - apply bool_decide_eq_true_2. rewrite (ho_e _ _ Hh), (ho_w _ _ Hh) in E. rewrite length_app in E. apply u32_add_inj in E; [|lia..].
    apply nil_length_inv. lia.
  - apply bool_decide_eq_false_2. intros El. apply E. rewrite (ho_e _ _ Hh), (ho_w _ _ Hh), El, app_nil_r. done.
Qed.

Lemma drop_last_app : line s ≠ [] → ∃ b, line s = drop_last (line s) ++ [b].
Proof.
  intros Hne. unfold drop_last. destruct (line s) as [|x l] using rev_ind; [done|]. exists x. rewrite length_app. cbn.
  rewrite Nat.add_sub, take_app_length. done.
Qed.

(** The last byte of the line, which [kill_line_loop] looks at. *)
Lemma holds_last b l : line s = l ++ [b] → cs_buf c !!! Z.to_nat (u32 (cs_e c - 1) mod INPUT_BUF_SIZE) = b.
Proof.
  intros El. apply list_lookup_total_correct.
  replace (Z.to_nat _) with (slot c (length (ready s ++ l))); [apply Hh; rewrite El, app_assoc, lookup_app_r, Nat.sub_diag by done; done|].
  unfold slot. rewrite (ho_e _ _ Hh), El, app_assoc, (length_app (ready s ++ l)). cbn. do 2 f_equal. unfold u32. rewrite Zminus_mod_idemp_l. f_equal. lia.
Qed.

Lemma holds_back l b : line s = l ++ [b] → holds (c <| cs_e ::= λ e, u32 (e - 1) |>) (MkEditor (ready s) l).
Proof.
  intros El. destruct Hh as [H1 H2 H3 H4 H5 H6]. rewrite El in *. rewrite app_assoc in *. split; rsimpl; cbn [ready line]; try done.
  - rewrite H4, (length_app (ready s ++ l)). cbn. unfold u32. rewrite Zminus_mod_idemp_l. f_equal. lia.
  - rewrite (length_app (ready s ++ l)) in H5. lia.
  - intros i x Hi. change (slot _ i) with (slot c i). apply H6. by apply lookup_app_l_Some.
Qed.

Lemma holds_insert x :
  (length (ready s ++ line s) < 128)%nat →
  holds (c <| cs_buf ::= <[Z.to_nat (cs_e c mod INPUT_BUF_SIZE) := x]> |> <| cs_e ::= λ e, u32 (e + 1) |>) (MkEditor (ready s) (line s ++ [x])).
Proof.
  intros Hlt. destruct Hh as [H1 H2 H3 H4 H5 H6].
  assert (Es : Z.to_nat (cs_e c mod INPUT_BUF_SIZE) = slot c (length (ready s ++ line s))) by (unfold slot; by rewrite H4).
  split; rsimpl; cbn [ready line]; rewrite ?Es, ?app_assoc, ?length_insert, ?(length_app (ready s ++ line s)); try done.
  - rewrite H4. cbn. unfold u32. rewrite Zplus_mod_idemp_l. f_equal. lia.
  - cbn. lia.
  - intros i b Hi. change (slot _ i) with (slot c i). apply lookup_app_Some in Hi as [Hi|[Hi Hi']].
    + rewrite list_lookup_insert_ne; [by apply H6|]. intros E. apply slot_inj in E; apply lookup_lt_Some in Hi; lia.
    + apply list_lookup_singleton_Some in Hi' as [Hi' <-]. replace i with (length (ready s ++ line s)) by lia.
      apply list_lookup_insert_eq. rewrite H1. apply slot_lt.
Qed.

Lemma holds_commit : holds (c <| cs_w := cs_e c |>) (MkEditor (ready s ++ line s) []).
Proof. destruct Hh as [H1 H2 H3 H4 H5 H6]. split; rsimpl; cbn [ready line]; rewrite ?app_nil_r; done. Qed.
End holds.

(** ** Echo and the process list *)

(** [w'] is [w] after output to the UART. *)
Definition echoed (w w' : world) : Prop := ∃ u, w' = w <| ks ::= λ k, k <| k_uart := u |> |>.

Lemma echoed_refl w : echoed w w.
Proof. exists (k_uart (ks w)). by destruct w as [[] ? ? ?]. Qed.

Lemma echoed_trans w1 w2 w3 : echoed w1 w2 → echoed w2 w3 → echoed w1 w3.
Proof. intros [u1 ->] [u2 ->]. by exists u2. Qed.

Lemma echoed_same w w' : echoed w w' →
  k_panicked (ks w') = k_panicked (ks w) ∧ k_cons (ks w') = k_cons (ks w) ∧ k_procs (ks w') = k_procs (ks w) ∧ held w' = held w ∧ me w' = me w.
Proof. by intros [u ->]. Qed.

(** Code that only writes to the UART, unless the kernel has panicked. *)
Definition echoes (m : K unit) : Prop := ∀ w, k_panicked (ks w) = 0 → ∃ w', m w = Ok () w' ∧ echoed w w'.

Lemma echoes_bind m m' : echoes m → echoes m' → echoes (m;; m').
Proof.
  intros H H' w Hp. destruct (H w Hp) as (w1 & E1 & R1). destruct (echoed_same _ _ R1) as (Ep & _).
  destruct (H' w1) as (w2 & E2 & R2); [by rewrite Ep|]. exists w2. rewrite (bind_ok _ _ _ _ _ E1). split; [done|by eapply echoed_trans].
Qed.

Lemma echoes_ret : echoes (mret ()).
Proof. intros w _. exists w. split; [done|apply echoed_refl]. Qed.

Lemma echoes_mfor {A} (l : list A) f : (∀ x, echoes (f x)) → echoes (mfor l f).
Proof. intros Hf. induction l; cbn [mfor]; [apply echoes_ret|by apply echoes_bind]. Qed.

Lemma tx_idle_run w :
  tx_idle w = match ua_idle (k_uart (ks w)) with
              | [] => Ok true w
              | b :: l => Ok b (w <| ks ::= λ k, k <| k_uart ::= λ u, u <| ua_idle := l |> |> |>)
              end.
Proof. unfold tx_idle. erewrite bind_ok by reflexivity. cbv beta. by destruct (ua_idle (k_uart (ks w))). Qed.

Lemma tx_spin_echoes n w : length (ua_idle (k_uart (ks w))) = n → ∃ w', tx_spin (S n) w = Ok () w' ∧ echoed w w'.
Proof.
  revert w. induction n as [|n IH]; intros w Hn; cbn [tx_spin]; pose proof (tx_idle_run w) as E; destruct (ua_idle (k_uart (ks w))) as [|b l]; try done;
    rewrite (bind_ok _ _ _ _ _ E).
  - exists w. split; [done|apply echoed_refl].
  - set (w1 := w <| ks ::= _ |>) in *. assert (R1 : echoed w w1) by (eexists; reflexivity).
    destruct b; [by exists w1|]. change (negb false) with true. cbv iota. destruct (IH w1) as (w2 & E2 & R2); [cbn in *; lia|]. exists w2. split; [exact E2|exact (echoed_trans _ _ _ R1 R2)].
Qed.

Lemma uartputc_sync_echoes c : echoes (uartputc_sync c).
Proof.
  intros w Hp. unfold uartputc_sync. assert (E0 : spin_if_panicked w = Ok () w) by (unfold spin_if_panicked; erewrite bind_ok by reflexivity; by rewrite Hp).
  rewrite (bind_ok _ _ _ _ _ E0). erewrite bind_ok by reflexivity.
  destruct (tx_spin_echoes (length (ua_idle (k_uart (ks w)))) w eq_refl) as (w1 & E1 & R1). rewrite (bind_ok _ _ _ _ _ E1).
  eexists. split; [reflexivity|]. eapply echoed_trans; [exact R1|]. eexists. reflexivity.
Qed.

Lemma consputc_echoes c : echoes (consputc c).
Proof. unfold consputc. destruct (c =? BACKSPACE); repeat first [apply uartputc_sync_echoes|apply echoes_bind]. Qed.

Lemma print_str_echoes l : echoes (print_str l).
Proof. induction l as [|c l IH]; cbn [print_str]; [apply echoes_ret|]. destruct (c =? 0); [apply echoes_ret|]. apply echoes_bind; [apply consputc_echoes|done]. Qed.

Lemma printint_echoes x base sign : echoes (printint x base sign).
Proof. apply echoes_mfor, consputc_echoes. Qed.

Lemma printf_echoes fmt ap w :
  echoes (printf_loop fmt ap) → k_panicked (ks w) = 0 → LPr ∉ held w → ∃ w', printf fmt ap w = Ok () w' ∧ echoed w w'.
Proof.
  intros Hl Hp Hlk. unfold printf. erewrite bind_ok by reflexivity. cbv beta. destruct (negb (k_prlocking (ks w) =? 0)); cbn [when].
  - rewrite (bind_ok _ _ _ _ _ (acquire_free LPr w Hlk)). cbv beta.
    set (w0 := w <| held ::= λ h, {[LPr]} ∪ h |>). destruct (Hl w0 Hp) as (w1 & E1 & [u R1]).
    exists (w <| ks ::= λ k, k <| k_uart := u |> |>). split; [|by exists u]. rewrite (bind_ok _ _ _ _ _ E1). subst w1.
    exact (locked_section LPr w _ Hlk).
  - erewrite bind_ok by reflexivity. cbv beta. destruct (Hl w Hp) as (w1 & E1 & R1). exists w1. rewrite (bind_ok _ _ _ _ _ E1). done.
Qed.

(** The same for code that calls [printf], which takes its lock. *)
Definition dumps (m : K unit) : Prop := ∀ w, k_panicked (ks w) = 0 → LPr ∉ held w → ∃ w', m w = Ok () w' ∧ echoed w w'.

Lemma dumps_bind m m' : dumps m → dumps m' → dumps (m;; m').
Proof.
  intros H H' w Hp Hlk. destruct (H w Hp Hlk) as (w1 & E1 & R1). destruct (echoed_same _ _ R1) as (Ep & _ & _ & Eh & _).
  destruct (H' w1) as (w2 & E2 & R2); [by rewrite Ep|by rewrite Eh|]. exists w2. rewrite (bind_ok _ _ _ _ _ E1). split; [done|by eapply echoed_trans].
Qed.

Lemma dumps_newline : dumps (printf [10] []).
Proof.
  intros w. apply printf_echoes. change (printf_loop [10] []) with (consputc 10;; mret ()). apply echoes_bind; [apply consputc_echoes|apply echoes_ret].
Qed.

Lemma dumps_entry p : dumps (printf (str "%d %s %s") [AInt (p_pid p); AStr (Some (state_name (p_state p))); AStr (Some (p_name p))]).
Proof.
  intros w. apply printf_echoes.
  change (printf_loop _ _) with (printint (p_pid p) 10 true;; consputc 32;; print_str (state_name (p_state p));; consputc 32;; print_str (p_name p);; mret ()).
  repeat first [apply consputc_echoes|apply print_str_echoes|apply printint_echoes|apply echoes_ret|apply echoes_bind].
Qed.

Lemma procdump_dumps : dumps procdump.
Proof.
  apply dumps_bind; [apply dumps_newline|]. induction all_procs as [|i l IH]; cbn [mfor]; [intros w _ _; exists w; split; [done|apply echoed_refl]|].
  apply dumps_bind; [|done]. intros w. erewrite bind_ok by reflexivity. case_decide; [intros _ _; exists w; split; [done|apply echoed_refl]|].
  apply dumps_bind; [apply dumps_entry|apply dumps_newline].
Qed.

(** ** Typing *)

(** [w'] is [w] after changes to the console, output, and perhaps a [wakeup]. *)
Definition console_only (w w' : world) : Prop :=
  ∃ cs u ps, w' = w <| ks ::= λ k, k <| k_cons := cs |> <| k_uart := u |> <| k_procs := ps |> |>.

Lemma console_only_refl w : console_only w w.
Proof. exists (k_cons (ks w)), (k_uart (ks w)), (k_procs (ks w)). by destruct w as [[] ? ? ?]. Qed.

Lemma console_only_trans w1 w2 w3 : console_only w1 w2 → console_only w2 w3 → console_only w1 w3.
Proof. intros (c1 & u1 & p1 & ->) (c2 & u2 & p2 & ->). by exists c2, u2, p2. Qed.

Lemma echoed_console w w' : echoed w w' → console_only w w'.
Proof. intros [u ->]. exists (k_cons (ks w)), u, (k_procs (ks w)). by destruct w as [[] ? ? ?]. Qed.

Lemma modify_cons_console f w : console_only w (w <| ks ::= λ k, k <| k_cons ::= f |> |>).
Proof. exists (f (k_cons (ks w))), (k_uart (ks w)), (k_procs (ks w)). by destruct w as [[] ? ? ?]. Qed.

Lemma console_only_same w w' : console_only w w' → k_panicked (ks w') = k_panicked (ks w) ∧ held w' = held w ∧ me w' = me w.
Proof. by intros (c & u & p & ->). Qed.

Lemma wake_console w : console_only w (w <| ks ::= wake_all ChCons (me w) |>).
Proof. exists (k_cons (ks w)), (k_uart (ks w)), (k_procs (wake_all ChCons (me w) (ks w))). by destruct w as [[] ? ? ?]. Qed.

#[local] Hint Resolve console_only_refl echoed_console modify_cons_console : console.

(** One byte of the line is rubbed out. *)
Lemma rub_out w s l b :
  holds (k_cons (ks w)) s → line s = l ++ [b] → k_panicked (ks w) = 0 →
  ∃ w', (modify_cons (λ s, s <| cs_e ::= λ e, u32 (e - 1) |>);; consputc BACKSPACE) w = Ok () w'
    ∧ holds (k_cons (ks w')) (MkEditor (ready s) l) ∧ console_only w w' ∧ k_procs (ks w') = k_procs (ks w).
Proof.
  intros Hh El Hp. erewrite bind_ok by reflexivity. set (w1 := w <| ks ::= _ |>). destruct (consputc_echoes BACKSPACE w1 Hp) as (w2 & E & R).
  destruct (echoed_same _ _ R) as (_ & Ec & Eq & _). exists w2. split; [done|]. split; [rewrite Ec; by apply (holds_back _ s Hh l b)|].
  split; [|done]. eapply console_only_trans; [|by apply echoed_console]. apply modify_cons_console.
Qed.

Lemma kill_line_spec n w s :
  length (line s) = n → holds (k_cons (ks w)) s → 10 ∉ line s → k_panicked (ks w) = 0 →
  ∃ w', kill_line_loop (S n) w = Ok () w' ∧ holds (k_cons (ks w')) (MkEditor (ready s) []) ∧ console_only w w' ∧ k_procs (ks w') = k_procs (ks w).
Proof.
  revert w s. induction n as [|n IH]; intros w s Hn Hh H10 Hp; cbn [kill_line_loop]; erewrite bind_ok by reflexivity; cbv beta; rewrite (holds_empty _ s Hh).
  - apply nil_length_inv in Hn. rewrite bool_decide_eq_true_2 by done. exists w. split; [done|]. destruct s as [r l]. cbn in *. subst l. auto with console.
  - assert (Hne : line s ≠ []) by (by intros E; rewrite E in Hn). rewrite bool_decide_eq_false_2 by done. destruct (drop_last_app s Hne) as [b El].
    rewrite (holds_last _ s Hh b _ El). destruct (Z.eqb_spec b 10) as [->|_].
    { exfalso. apply H10. rewrite El. apply elem_of_app. right. by left. }
    cbn [negb andb]. destruct (rub_out w s _ b Hh El Hp) as (w1 & E1 & H1 & C1 & P1). rewrite <-bind_assoc, (bind_ok _ _ _ _ _ E1).
    destruct (console_only_same _ _ C1) as (Ep & _). destruct (IH w1 (MkEditor (ready s) (drop_last (line s)))) as (w2 & E2 & H2 & C2 & P2); cbn [line ready]; try done.
    { rewrite El, length_app in Hn. cbn in Hn. lia. } { intros Hin. apply H10. rewrite El. apply elem_of_app. by left. } { by rewrite Ep. }
    exists w2. split; [done|]. split; [done|]. split; [by eapply console_only_trans|by rewrite P2].
Qed.

(** The body of [consoleintr], between [acquire] and [release]. *)
Definition intr_body (c : Z) : K unit :=
  if c =? ctrl "P" then procdump
  else if c =? ctrl "U" then
    s ← gets k_cons;
    kill_line_loop (S (Z.to_nat (u32 (cs_e s - cs_w s))))
  else if (c =? ctrl "H") || (c =? 0x7f) then
    s ← gets k_cons;
    if negb (cs_e s =? cs_w s) then
      modify_cons (λ s, s <| cs_e ::= λ e, u32 (e - 1) |>);;
      consputc BACKSPACE
    else mret ()
  else
    s ← gets k_cons;
    if negb (c =? 0) && (u32 (cs_e s - cs_r s) <? INPUT_BUF_SIZE) then
      let c := if c =? 13 then 10 else c in
      consputc c;;
      modify_cons (λ s, s <| cs_buf ::= <[Z.to_nat (cs_e s mod INPUT_BUF_SIZE) := u8 c]> |>);;
      modify_cons (λ s, s <| cs_e ::= λ e, u32 (e + 1) |>);;
      s ← gets k_cons;
      if (c =? 10) || (c =? ctrl "D") || (u32 (cs_e s - cs_r s) =? INPUT_BUF_SIZE) then
        modify_cons (λ s, s <| cs_w := cs_e s |>);;
        wakeup ChCons
      else mret ()
    else mret ().

Lemma consoleintr_body c : consoleintr c = (acquire LCons;; intr_body c;; release LCons).
Proof. reflexivity. Qed.

(** Readers are woken when, and only when, bytes have become ready. *)
Definition woken_if (s s' : editor) (w w' : world) : Prop :=
  k_procs (ks w') = if decide (ready s' = ready s) then k_procs (ks w) else k_procs (wake_all ChCons (me w) (ks w)).

Lemma ready_app s l : l ≠ [] → ready s ++ l ≠ ready s.
Proof. intros Hl E. apply (f_equal length) in E. rewrite length_app in E. destruct l; [done|]. cbn in E. lia. Qed.

(** An ordinary byte, with room in the buffer. *)
Lemma insert_spec c w s :
  let w0 := w <| ks ::= λ k, k <| k_cons ::= λ s, s <| cs_buf ::= <[Z.to_nat (cs_e s mod INPUT_BUF_SIZE) := u8 c]> |> |> |>
              <| ks ::= λ k, k <| k_cons ::= λ s, s <| cs_e ::= λ e, u32 (e + 1) |> |> |> in
  holds (k_cons (ks w)) s → (length (ready s ++ line s) < 128)%nat → 0 <= c < 256 → 10 ∉ line s → procs_ok (ks w) → no_proc_lock w →
  let full := (c =? 10) || (c =? ctrl "D") || bool_decide (length (ready s ++ line s ++ [c]) = 128)%nat in
  let s' := if full then MkEditor (ready s ++ line s ++ [c]) [] else MkEditor (ready s) (line s ++ [c]) in
  ∃ w', (s ← gets k_cons;
         if (c =? 10) || (c =? ctrl "D") || (u32 (cs_e s - cs_r s) =? INPUT_BUF_SIZE) then modify_cons (λ s, s <| cs_w := cs_e s |>);; wakeup ChCons else mret ()) w0 = Ok () w'
    ∧ holds (k_cons (ks w')) s' ∧ 10 ∉ line s' ∧ console_only w w' ∧ woken_if s s' w w'.
Proof.
  intros w0 Hh Hlt Hc H10 Hok Hnp full s'. assert (Eu : u8 c = c) by (by apply Z.mod_small).
  assert (H1 : holds (k_cons (ks w0)) (MkEditor (ready s) (line s ++ [c]))) by (pose proof (holds_insert _ s Hh c Hlt) as H1; rewrite <-Eu in H1 at 1; exact H1).
  assert (C0 : console_only w w0) by (eapply console_only_trans; apply modify_cons_console).
  erewrite bind_ok by reflexivity. cbv beta. rewrite (holds_count _ _ H1). cbn [ready line].
  replace (Z.of_nat (length (ready s ++ line s ++ [c])) =? INPUT_BUF_SIZE) with (bool_decide (length (ready s ++ line s ++ [c]) = 128)%nat); cycle 1.
  { unfold INPUT_BUF_SIZE. case_bool_decide; symmetry; [apply Z.eqb_eq|apply Z.eqb_neq]; lia. }
  fold full. subst s'. destruct full eqn:Ef.
  - erewrite bind_ok by reflexivity. set (w1 := w0 <| ks ::= _ |>). rewrite (wakeup_run ChCons w1) by done. eexists. split; [reflexivity|].
    split; [exact (holds_commit _ _ H1)|]. split; [by intros ?%elem_of_nil|]. split.
    + eapply console_only_trans; [exact C0|]. eapply console_only_trans; [apply modify_cons_console|]. apply wake_console.
    + unfold woken_if. cbn [ready]. rewrite decide_False; [done|]. apply ready_app. by destruct (line s).
  - exists w0. split; [done|]. split; [done|]. split; [|split; [done|]].
    + cbn [line]. intros [?|<-%list_elem_of_singleton]%elem_of_app; [done|]. discriminate Ef.
    + unfold woken_if. cbn [ready]. by rewrite decide_True.
Qed.

Lemma body_spec c w s :
  0 <= c < 256 → holds (k_cons (ks w)) s → 10 ∉ line s → k_panicked (ks w) = 0 → procs_ok (ks w) → LPr ∉ held w → no_proc_lock w →
  ∃ w', intr_body c w = Ok () w' ∧ holds (k_cons (ks w')) (typed c s) ∧ 10 ∉ line (typed c s) ∧ console_only w w' ∧ woken_if s (typed c s) w w'.
Proof.
  intros Hc Hh H10 Hp Hok Hpr Hnp. unfold intr_body, typed. destruct (c =? ctrl "P").
  { destruct (procdump_dumps w Hp Hpr) as (w' & E & R). exists w'. destruct (echoed_same _ _ R) as (_ & Ec & Eq & _). split; [done|].
    split; [by rewrite Ec|]. split; [done|]. split; [by apply echoed_console|]. unfold woken_if. by rewrite decide_True. }
  assert (Hkeep : ∀ w' l, k_procs (ks w') = k_procs (ks w) → woken_if s (MkEditor (ready s) l) w w') by (intros; unfold woken_if; by rewrite decide_True).
  destruct (c =? ctrl "U").
  { erewrite bind_ok by reflexivity. cbv beta. rewrite (holds_line _ s Hh), Nat2Z.id. destruct (kill_line_spec _ w s eq_refl Hh H10 Hp) as (w' & E & H1 & C1 & P1).
    exists w'. split; [done|]. split; [done|]. split; [by intros ?%elem_of_nil|]. auto. }
  destruct ((c =? ctrl "H") || (c =? 0x7f)).
  { erewrite bind_ok by reflexivity. cbv beta. rewrite (holds_empty _ s Hh). case_bool_decide as El; cbn [negb].
    - exists w. destruct s as [r l]. cbn [line ready] in *. subst l. split; [done|]. auto with console.
    - destruct (drop_last_app s El) as [b Eb]. destruct (rub_out w s _ b Hh Eb Hp) as (w' & E & H1 & C1 & P1). exists w'. split; [done|]. split; [done|].
      split; [|auto]. intros Hin. apply H10. rewrite Eb. apply elem_of_app. by left. }
  erewrite bind_ok by reflexivity. cbv beta. rewrite (holds_count _ s Hh).
  replace (Z.of_nat (length (ready s ++ line s)) <? INPUT_BUF_SIZE) with (negb (bool_decide (128 <= length (ready s ++ line s))%nat)); cycle 1.
  { unfold INPUT_BUF_SIZE. case_bool_decide; symmetry; [apply Z.ltb_ge|apply Z.ltb_lt]; lia. }
  rewrite <-negb_orb. destruct ((c =? 0) || bool_decide (128 <= length (ready s ++ line s))%nat) eqn:Eq; cbn [negb].
  { exists w. split; [done|]. split; [done|]. split; [done|]. split; [auto with console|]. unfold woken_if. by rewrite decide_True. }
  apply orb_false_iff in Eq as [_ Elt]. apply bool_decide_eq_false_1 in Elt. cbv zeta. set (c' := if c =? 13 then 10 else c).
  assert (Hc' : 0 <= c' < 256) by (unfold c'; destruct (c =? 13); lia). destruct (consputc_echoes c' w Hp) as (w1 & E1 & R1). rewrite (bind_ok _ _ _ _ _ E1).
  destruct (echoed_same _ _ R1) as (_ & Ec & Eq & Eh & Em). do 2 erewrite bind_ok by reflexivity.
  destruct (insert_spec c' w1 s) as (w2 & E2 & H2 & L2 & C2 & W2); rewrite ?Ec; try done; [lia|by unfold procs_ok; rewrite Eq|by unfold no_proc_lock; rewrite Em, Eh|].
  exists w2. split; [done|]. split; [done|]. split; [done|]. split; [eapply console_only_trans; [by apply echoed_console|done]|].
  unfold woken_if in *. rewrite W2, Em. destruct R1 as [u ->]. done.
Qed.

(** C35: the interrupt handler of the console implements the line editor: typing a
    byte edits the line or makes it ready for readers exactly as [typed] says, for
    every state of the ring, wherever its indices have wrapped to; it never panics
    or blocks, wakes the readers exactly when bytes have become ready, and changes
    nothing but the console, the output and the processes it wakes. *)
Theorem consoleintr_refines (c : Z) (w : world) (s : editor) :
  0 <= c < 256 → holds (k_cons (ks w)) s → 10 ∉ line s → k_panicked (ks w) = 0 → procs_ok (ks w) →
  LCons ∉ held w → LPr ∉ held w → (∀ i, LProc i ∉ held w) →
  ∃ w', consoleintr c w = Ok () w' ∧ holds (k_cons (ks w')) (typed c s) ∧ 10 ∉ line (typed c s)
    ∧ console_only w w' ∧ woken_if s (typed c s) w w'.
Proof.
  intros Hc Hh H10 Hp Hok Hlk Hpr Hnp. rewrite consoleintr_body, (bind_ok _ _ _ _ _ (acquire_free LCons w Hlk)).
  set (w0 := w <| held ::= λ h, {[LCons]} ∪ h |>).
  destruct (body_spec c w0 s) as (w1 & E & H1 & H2 & (cs & u & ps & ->) & H3); try done; [set_solver|intros i _; set_solver|].
  rewrite (bind_ok _ _ _ _ _ E). exists (w <| ks ::= λ k, k <| k_cons := cs |> <| k_uart := u |> <| k_procs := ps |> |>).
  split; [exact (locked_section LCons w _ Hlk)|]. do 2 (split; [done|]). split; [by exists cs, u, ps|done].
Qed.

(** ** Reading *)

(** What a read of [n] bytes delivers and leaves when [l] is ready; [None] if it
    has to wait for more.  Control-D ends the read; it is kept for the next one
    unless nothing has been delivered. *)
Fixpoint read_line (n : nat) (first : bool) (l : list Z) : option (list Z * list Z) :=
  match n with
  | O => Some ([], l)
  | S n =>
    match l with
    | [] => None
    | c :: l' =>
      if c =? ctrl "D" then Some ([], if first then l' else l)
      else if c =? 10 then Some ([c], l')
      else '(got, rest) ← read_line n false l'; Some (c :: got, rest)
    end
  end.

Lemma read_line_le n first l got rest : read_line n first l = Some (got, rest) → (length got <= n)%nat.
Proof.
  revert first l got rest. induction n as [|n IH]; intros first l got rest H; cbn [read_line] in H; [by injection H as <- <-|].
  destruct l as [|c l]; [done|]. destruct (c =? ctrl "D"); [injection H as <- <-; cbn; lia|]. destruct (c =? 10); [injection H as <- <-; cbn; lia|].
  destruct (read_line n false l) as [[g r]|] eqn:E; [|done]. injection H as <- <-. apply IH in E. cbn. lia.
Qed.

Lemma holds_next c b l ln :
  holds c (MkEditor (b :: l) ln) →
  (cs_r c =? cs_w c) = false ∧ cs_buf c !!! Z.to_nat (cs_r c mod INPUT_BUF_SIZE) = b
  ∧ holds (c <| cs_r ::= λ r, u32 (r + 1) |>) (MkEditor l ln) ∧ c <| cs_r ::= λ r, u32 (r + 1) |> <| cs_r ::= λ r, u32 (r - 1) |> = c.
Proof.
  intros [H1 H2 H3 H4 H5 H6]. cbn [ready line app length] in *.
  assert (Er : u32 (cs_r c) = cs_r c) by (by apply Z.mod_small). split; [|split; [|split]].
  - apply Z.eqb_neq. rewrite H3. rewrite <-Er at 1. rewrite <-(Z.add_0_r (cs_r c)) at 1. intros E%u32_add_inj; [lia|lia|].
    rewrite length_app in H5. lia.
  - apply list_lookup_total_correct. rewrite <-Er at 1. rewrite <-(Z.add_0_r (cs_r c)) at 1. apply (H6 0%nat). done.
  - split; rsimpl; cbn [ready line]; try done.
    + apply Z.mod_pos_bound. lia.
    + rewrite H3. unfold u32. rewrite Zplus_mod_idemp_l. f_equal. lia.
    + rewrite H4. unfold u32. rewrite Zplus_mod_idemp_l. f_equal. lia.
    + lia.
    + intros i x Hi. rewrite <-(H6 (S i) x Hi). f_equal. unfold slot. rsimpl. do 2 f_equal. unfold u32. rewrite Zplus_mod_idemp_l. f_equal. lia.
  - destruct c as [bf r w e]. unfold set_field, set_cs_r. cbn in *. f_equal. unfold u32. rewrite Zminus_mod_idemp_l. rewrite <-Er at 2. unfold u32. f_equal. lia.
Qed.

Lemma cons_put_back w f g :
  g (f (k_cons (ks w))) = k_cons (ks w) →
  w <| ks ::= λ k, k <| k_cons ::= f |> |> <| ks ::= λ k, k <| k_cons ::= g |> |> = w <| ks ::= λ k, k <| k_cons := k_cons (ks w) |> <| k_mem := k_mem (ks w) |> |>.
Proof.
  intros E. change (_ <| ks ::= _ |> <| ks ::= _ |>) with (w <| ks ::= λ k, k <| k_cons := g (f (k_cons (ks w))) |> |>) at 1. rewrite E. by destruct w as [[] ? ? ?].
Qed.

(** A byte of an array at [addr] that begins with [c]. *)
Lemma delivered_cons addr c got x (y : option Z) :
  addr <= x →
  (if decide (addr + 1 <= x < addr + 1 + Z.of_nat (length got)) then got !! Z.to_nat (x - (addr + 1)) else if decide (x = addr) then Some c else y)
  = if decide (addr <= x < addr + Z.of_nat (length (c :: got))) then (c :: got) !! Z.to_nat (x - addr) else y.
Proof.
  intros Hx. cbn [length]. destruct (decide (x = addr)) as [->|Hne].
  - rewrite decide_False by lia. rewrite decide_True by lia. by replace (Z.to_nat (addr - addr)) with 0%nat by lia.
  - destruct (decide (addr + 1 <= x < addr + 1 + Z.of_nat (length got))).
    + rewrite decide_True by lia. by replace (Z.to_nat (x - addr)) with (S (Z.to_nat (x - (addr + 1)))) by lia.
    + by rewrite decide_False by lia.
Qed.

(** The loop of [consoleread], when it need not wait and the destination is mapped. *)
Lemma consoleread_loop_spec fuel (n : nat) (first : bool) target addr got rest s p pt w :
  (n < fuel)%nat → read_line n first (ready s) = Some (got, rest) → (if first then Z.of_nat n = target else Z.of_nat n < target) → holds (k_cons (ks w)) s →
  me w = Some p → p_pagetable (get_proc p (ks w)) = pt → user_sep (k_mem (ks w)) pt → 0 <= addr → addr + Z.of_nat n < 2 ^ 64 →
  (∀ x, addr <= x < addr + Z.of_nat (length got) → is_Some (urd (k_mem (ks w)) pt x)) →
  ∃ cs m', consoleread_loop fuel (DUser addr) (Z.of_nat n) target w
      = Ok (Some (Z.of_nat n - Z.of_nat (length got))) (w <| ks ::= λ k, k <| k_cons := cs |> <| k_mem := m' |> |>)
    ∧ holds cs (MkEditor rest (line s))
    ∧ ∀ x, 0 <= x → urd m' pt x = if decide (addr <= x < addr + Z.of_nat (length got)) then got !! Z.to_nat (x - addr) else urd (k_mem (ks w)) pt x.
Proof.
  revert fuel first addr got s w. induction n as [|n IH]; intros fuel first addr got s w Hf Hr Hfirst Hh Hme Hpt Hsep Ha Hmax Hmap;
    (destruct fuel as [|fuel]; [lia|]); cbn [consoleread_loop]; cbn [read_line] in Hr.
  { injection Hr as <- <-. exists (k_cons (ks w)), (k_mem (ks w)). split; [by destruct w as [[] ? ? ?]|]. split; [by destruct s|].
    intros x Hx. by rewrite decide_False by (cbn; lia). }
  destruct (Z.ltb_spec 0 (Z.of_nat (S n))) as [_|]; [|lia].
  destruct s as [[|c l] ln]; cbn [ready line] in *; [done|]. destruct (holds_next _ c l ln Hh) as (Hne & Hc & Hh' & Hback).
  assert (Ew : env_fuel cons_wait w = Ok true w) by (unfold env_fuel; cbn [cons_wait]; erewrite bind_ok by reflexivity; cbv beta; by rewrite Hne).
  rewrite (bind_ok _ _ _ _ _ Ew). change (negb true) with false. cbv iota. erewrite bind_ok by reflexivity. erewrite bind_ok by reflexivity. cbv beta. rewrite Hc.
  set (w1 := w <| ks ::= λ k, k <| k_cons ::= λ s, s <| cs_r ::= λ r, u32 (r + 1) |> |> |>).
  assert (Hw1 : ∀ m', w1 <| ks ::= λ k, k <| k_mem := m' |> |> = w <| ks ::= λ k, k <| k_cons := k_cons (ks w1) |> <| k_mem := m' |> |>) by (intros; by destruct w as [[] ? ? ?]).
  destruct (c =? ctrl "D").
  { injection Hr as <- <-. destruct first; [rewrite (proj2 (Z.ltb_ge _ _)) by lia | rewrite (proj2 (Z.ltb_lt _ _)) by lia]; cbn [when].
    - exists (k_cons (ks w1)), (k_mem (ks w)). split; [by destruct w as [[] ? ? ?]|]. split; [exact Hh'|]. intros x Hx. by rewrite decide_False by (cbn; lia).
    - exists (k_cons (ks w)), (k_mem (ks w)). split; [|split; [exact Hh|intros x Hx; by rewrite decide_False by (cbn; lia)]].
      erewrite bind_ok by reflexivity. unfold w1. rewrite cons_put_back by exact Hback. by rewrite Z.sub_0_r. }
  assert (∃ got', got = c :: got' ∧ (if c =? 10 then got' = [] ∧ rest = l else read_line n false l = Some (got', rest))) as (got' & -> & Hr').
  { destruct (c =? 10); [injection Hr as <- <-; by exists []|]. destruct (read_line n false l) as [[g r]|]; [|done]. injection Hr as <- <-. by exists g. }
  clear Hr. cbn [length] in Hmap.
  destruct (copyout1_run pt addr c w1) as (r & m1 & E & Hsep1 & Hcase); [done|exact Hsep|].
  assert (E' : either_copyout (DUser addr) [c] 1 w1 = Ok r (w1 <| ks ::= λ k, k <| k_mem := m1 |> |>)).
  { cbn [either_copyout]. rewrite (bind_ok _ _ _ p w1) by (unfold curproc; unfold w1; rsimpl; by rewrite Hme).
    erewrite bind_ok by reflexivity. change (p_pagetable (get_proc p (ks w1))) with (p_pagetable (get_proc p (ks w))). by rewrite Hpt. }
  rewrite (bind_ok _ _ _ _ _ E'). rewrite Hw1.
  change (k_mem (ks w1)) with (k_mem (ks w)) in Hcase.
  destruct Hcase as [(-> & _ & U)|(-> & Hn & _)]; [|destruct (Hmap addr) as [? Hx]; [lia|]; by rewrite Hx in Hn].
  change (0 =? -1) with false. cbv iota.
  destruct (c =? 10).
  { destruct Hr' as [-> ->]. exists (k_cons (ks w1)), m1. split; [unfold mret, K_ret; do 2 f_equal|]. split; [exact Hh'|].
    intros x Hx. rewrite U by done. destruct (decide (addr <= x)).
    - rewrite <-delivered_cons by done. cbn [length]. by rewrite (decide_False (P := addr + 1 <= _ < _)) by lia.
    - rewrite !decide_False by lia. done. }
  set (w2 := w <| ks ::= _ |>).
  destruct (IH fuel false (addr + 1) got' (MkEditor l ln) w2) as (cs & m' & E2 & Hh2 & U2); [lia|done|destruct first; lia|exact Hh'|done|done|exact Hsep1|lia|lia| |].
  { intros x Hx. change (k_mem (ks w2)) with m1. rewrite U by lia. rewrite decide_False by lia. apply Hmap. lia. }
  exists cs, m'. split; [|split; [exact Hh2|]].
  - cbn [kdst_add]. rewrite u64_small by lia. replace (Z.of_nat (S n) - 1) with (Z.of_nat n) by lia. rewrite E2. cbn [length].
    replace (Z.of_nat n - Z.of_nat (length got')) with (Z.of_nat (S n) - Z.of_nat (S (length got'))) by lia. by destruct w as [[] ? ? ?].
  - intros x Hx. rewrite U2 by done. change (k_mem (ks w2)) with m1. rewrite U by done. destruct (decide (addr <= x)); [by apply delivered_cons|].
    by rewrite !decide_False by (cbn [length]; lia).
Qed.

(** C36: a read from the console of [n] bytes, when enough has been typed for it to
    return without waiting, delivers to user memory what [read_line] says (up to
    [n] bytes, up to and including a newline, or up to control-D, which is
    consumed only by a read that delivers nothing), returns how many bytes that
    is, and leaves the rest, and the line being edited, in the console. *)
Theorem consoleread_delivers (p n : nat) pt addr got rest (s : editor) (w : world) :
  holds (k_cons (ks w)) s → read_line n true (ready s) = Some (got, rest) → LCons ∉ held w →
  me w = Some p → p_pagetable (get_proc p (ks w)) = pt → user_sep (k_mem (ks w)) pt →
  0 <= addr → addr + Z.of_nat n < 2 ^ 64 → Z.of_nat n < 2 ^ 31 →
  (∀ x, addr <= x < addr + Z.of_nat (length got) → is_Some (urd (k_mem (ks w)) pt x)) →
  ∃ cs m', consoleread (DUser addr) (Z.of_nat n) w = Ok (Z.of_nat (length got)) (w <| ks ::= λ k, k <| k_cons := cs |> <| k_mem := m' |> |>)
    ∧ holds cs (MkEditor rest (line s))
    ∧ ∀ x, 0 <= x → urd m' pt x = if decide (addr <= x < addr + Z.of_nat (length got)) then got !! Z.to_nat (x - addr) else urd (k_mem (ks w)) pt x.
Proof.
  intros Hh Hr Hlk Hme Hpt Hsep Ha Hmax Hn Hmap. unfold consoleread. rewrite Nat2Z.id, (bind_ok _ _ _ _ _ (acquire_free LCons w Hlk)).
  set (w0 := w <| held ::= λ h, {[LCons]} ∪ h |>).
  destruct (consoleread_loop_spec (S n) n true (Z.of_nat n) addr got rest s p pt w0) as (cs & m' & E & H1 & U); try done; [lia|].
  exists cs, m'. split; [|done]. rewrite (bind_ok _ _ _ _ _ E). cbv iota.
  set (k' := (ks w) <| k_cons := cs |> <| k_mem := m' |>). change (w0 <| ks ::= _ |>) with (MkWorld k' ({[LCons]} ∪ held w) (me w) (env w)).
  rewrite (bind_ok _ _ _ _ _ (locked_section LCons w k' Hlk)).
  pose proof (read_line_le _ _ _ _ _ Hr). replace (Z.of_nat n - (Z.of_nat n - Z.of_nat (length got))) with (Z.of_nat (length got)) by lia.
  rewrite i32_small by lia. done.
Qed.


(** ** Example: an empty console whose indices are about to wrap *)

Definition console_demo : world :=
  boot_world <| ks ::= λ k, k <| k_cons := MkCons (replicate 128 0) (2 ^ 32 - 1) (2 ^ 32 - 1) (2 ^ 32 - 1) |> |>.

Lemma console_demo_holds : holds (k_cons (ks console_demo)) (MkEditor [] []).
Proof. split; [reflexivity|cbn; lia|reflexivity|reflexivity|cbn; lia|]. intros i b Hi. cbn in Hi. by rewrite lookup_nil in Hi. Qed.

Lemma consoleintr_refines_witness :
  ∃ w', consoleintr (ch "x") console_demo = Ok () w' ∧ holds (k_cons (ks w')) (MkEditor [] [ch "x"]).
Proof.
  destruct (consoleintr_refines (ch "x") console_demo (MkEditor [] [])) as (w' & E & H & _).
  - by vm_compute.
  - exact console_demo_holds.
  - by intros ?%elem_of_nil.
  - reflexivity.
  - reflexivity.
  - cbn. set_solver.
  - cbn. set_solver.
  - intros i. cbn. set_solver.
  - exists w'. split; [exact E|exact H].
Defined.

(** Two lines typed, by a process that reads ten bytes to its address 100. *)
Definition two_lines (w : world) : world :=
  MkWorld ((ks w) <| k_procs ::= alter (λ q, q <| p_pagetable := demo_root |>) 0%nat |>
            <| k_cons := MkCons ([10; 99] ++ replicate 123 0 ++ [97; 98; 10]) (2 ^ 32 - 3) 1 2 |>)
    ∅ (Some 0%nat) [].

Lemma two_lines_mem w : k_mem (ks (two_lines w)) = k_mem (ks w).
Proof. done. Qed.

Lemma two_lines_free w : LCons ∉ held (two_lines w).
Proof. cbn. set_solver. Qed.

Lemma two_lines_me w : me (two_lines w) = Some 0%nat.
Proof. done. Qed.

Lemma two_lines_holds w : holds (k_cons (ks (two_lines w))) (MkEditor [97; 98; 10; 10] [99]).
Proof.
  split; [reflexivity|cbn; lia|reflexivity|reflexivity|cbn; lia|].
  intros i b Hi. do 5 (destruct i as [|i]; [by injection Hi as <-|]). discriminate Hi.
Qed.

Definition read_demo : world := two_lines demo3.

Lemma read_demo_pagetable : p_pagetable (get_proc 0 (ks read_demo)) = demo_root.
Proof. reflexivity. Qed.
#[local] Opaque demo3 two_lines.

Lemma consoleread_delivers_witness :
  ∃ cs m', consoleread (DUser 100) 10 read_demo = Ok 3 (read_demo <| ks ::= λ k, k <| k_cons := cs |> <| k_mem := m' |> |>)
    ∧ holds cs (MkEditor [10] [99]) ∧ urd m' demo_root 101 = Some 98.
Proof.
  destruct (consoleread_delivers 0 10 demo_root 100 [97; 98; 10] [10] (MkEditor [97; 98; 10; 10] [99]) read_demo) as (cs & m' & E & H & U).
  - exact (two_lines_holds demo3).
  - reflexivity.
  - exact (two_lines_free demo3).
  - exact (two_lines_me demo3).
  - exact read_demo_pagetable.
  - unfold read_demo. rewrite two_lines_mem. exact demo3_sep.
  - lia.
  - lia.
  - lia.
  - intros x Hx. cbn [length] in Hx. apply not_eq_None_Some. unfold read_demo. rewrite two_lines_mem, demo3_urd by lia. unfold PGSIZE. lia.
  - exists cs, m'. split; [exact E|]. split; [exact H|]. rewrite U by lia. reflexivity.
Defined.
