(* ===== verification/Pipe.v ===== *)
(** * kernel/pipe.c

    A pipe is a ring of PIPESIZE bytes with two free-running 32-bit counters.
    [pi] is the address of the page that holds the struct. *)

From S2P Require Import Prelude Memory Kernel Kalloc Vm Sched.

Definition get_pipe (pi : Z) (k : kstate) : pipe := k_pipes k !!! pi.
Definition upd_pipe (pi : Z) (f : pipe → pipe) : K unit :=
  modify (λ k, k <| k_pipes ::= alter f pi |>).

Section pipe.
Context `{Image}.

Definition pipeclose (pi : Z) (writable : bool) : K unit :=
  acquire (LPipe pi);;
  (if writable then
     upd_pipe pi (λ p, p <| pi_writeopen := 0 |>);;
     wakeup (ChPipeR pi)
   else
     upd_pipe pi (λ p, p <| pi_readopen := 0 |>);;
     wakeup (ChPipeW pi));;
  p ← gets (get_pipe pi);
  if (pi_readopen p =? 0) && (pi_writeopen p =? 0) then
    release (LPipe pi);;
    modify (λ k, k <| k_pipes ::= delete pi |>);;
    kfree pi
  else release (LPipe pi).

(** The result is [None] for [return -1] with the lock released. *)
Fixpoint pipewrite_loop (fuel : nat) (pi : Z) (pr : nat) (addr n i : Z) : K (option Z) :=
  match fuel with
  | O => diverge
  | S fuel =>
    if i <? n then
      p ← gets (get_pipe pi);
      dead ← (if pi_readopen p =? 0 then mret true else k ← killed pr; mret (negb (k =? 0)));
      if dead : bool then release (LPipe pi);; mret None
      else if pi_nwrite p =? u32 (pi_nread p + PIPESIZE) then
        wakeup (ChPipeR pi);;
        sleep (ChPipeW pi) (LPipe pi);;
        pipewrite_loop fuel pi pr addr n i
      else
        pt ← gets (λ k, p_pagetable (get_proc pr k));
        r ← copyin pt (u64 (addr + i)) 1;
        if r.1 =? -1 then mret (Some i)
        else
          upd_pipe pi (λ p, p <| pi_data ::= <[Z.to_nat (pi_nwrite p mod PIPESIZE) := r.2 !!! 0%nat]> |>);;
          upd_pipe pi (λ p, p <| pi_nwrite ::= λ x, u32 (x + 1) |>);;
          pipewrite_loop fuel pi pr addr n (i + 1)
    else mret (Some i)
  end.

(** Each iteration stores a byte or uses up an entry of the schedule. *)
Definition pipewrite (pi addr n : Z) : K Z :=
  pr ← curproc;
  acquire (LPipe pi);;
  r ← env_fuel (λ fuel, pipewrite_loop (Z.to_nat n + fuel) pi pr addr n 0);
  match r with
  | None => mret (-1)
  | Some i =>
    wakeup (ChPipeR pi);;
    release (LPipe pi);;
    mret i
  end.

(** Waiting for data: [false] if the process was killed, the lock released. *)
Fixpoint pipe_wait (fuel : nat) (pi : Z) (pr : nat) : K bool :=
  match fuel with
  | O => diverge
  | S fuel =>
    p ← gets (get_pipe pi);
    if (pi_nread p =? pi_nwrite p) && negb (pi_writeopen p =? 0) then
      k ← killed pr;
      if negb (k =? 0) then release (LPipe pi);; mret false
      else sleep (ChPipeR pi) (LPipe pi);; pipe_wait fuel pi pr
    else mret true
  end.

Fixpoint piperead_loop (todo : nat) (pi : Z) (pr : nat) (addr i : Z) : K Z :=
  match todo with
  | O => mret i
  | S todo =>
    p ← gets (get_pipe pi);
    if pi_nread p =? pi_nwrite p then mret i
    else
      let c := pi_data p !!! Z.to_nat (pi_nread p mod PIPESIZE) in
      upd_pipe pi (λ p, p <| pi_nread ::= λ x, u32 (x + 1) |>);;
      pt ← gets (λ k, p_pagetable (get_proc pr k));
      r ← copyout pt (u64 (addr + i)) [c] 1;
      if r =? -1 then mret i
      else piperead_loop todo pi pr addr (i + 1)
  end.

Definition piperead (pi addr n : Z) : K Z :=
  pr ← curproc;
  acquire (LPipe pi);;
  ok ← env_fuel (λ fuel, pipe_wait fuel pi pr);
  if negb ok then mret (-1)
  else
    i ← piperead_loop (Z.to_nat n) pi pr addr 0;
    wakeup (ChPipeW pi);;
    release (LPipe pi);;
    mret i.

End pipe.
