(* ===== verification/PipeSpec.v ===== *)
(** * Pipes are first-in first-out

    pipe.c keeps the bytes in flight in a ring of PIPESIZE bytes between two
    32-bit counters that wrap around.  Here the ring is seen as the queue
    [queue] of the bytes in flight, the code between two switches as a sequence
    of atomic actions on it ([act]), and [pipewrite] and [piperead] are shown to
    perform the actions they promise, whatever other readers and writers do
    while they sleep. *)

From S2P Require Import Prelude Memory Kernel Kalloc Vm PageTable VmSpec Sched Sleeplock Pipe.

(** ** The queue *)

Definition pcount (p : pipe) : Z := u32 (pi_nwrite p - pi_nread p).

Definition pbyte (p : pipe) (j : Z) : Z := pi_data p !!! Z.to_nat (u32 (pi_nread p + j) mod PIPESIZE).

(** The bytes in flight, the oldest first. *)
Definition queue (p : pipe) : list Z := pbyte p <$> seqZ 0 (pcount p).

Record pipe_ok (p : pipe) : Prop := {
  po_len : length (pi_data p) = 512%nat;
  po_nread : 0 <= pi_nread p < 2 ^ 32;
  po_nwrite : 0 <= pi_nwrite p < 2 ^ 32;
  po_count : pcount p <= PIPESIZE
}.

Definition push (c : Z) (p : pipe) : pipe :=
  p <| pi_data ::= <[Z.to_nat (pi_nwrite p mod PIPESIZE) := c]> |> <| pi_nwrite ::= λ x, u32 (x + 1) |>.
Definition pop (p : pipe) : pipe := p <| pi_nread ::= λ x, u32 (x + 1) |>.

(** What a reader or a writer does to a pipe under its lock. *)
Inductive act := Push (c : Z) | Pop (c : Z) | CloseR | CloseW.

Definition do_act (a : act) (p : pipe) : option pipe :=
  match a with
  | Push c => if pi_nwrite p =? u32 (pi_nread p + PIPESIZE) then None else Some (push c p)
  | Pop c => if pi_nread p =? pi_nwrite p then None else if pbyte p 0 =? c then Some (pop p) else None
  | CloseR => Some (p <| pi_readopen := 0 |>)
  | CloseW => Some (p <| pi_writeopen := 0 |>)
  end.

Fixpoint do_acts (l : list act) (p : pipe) : option pipe :=
  match l with [] => Some p | a :: l => do_act a p ≫= do_acts l end.

Definition sent (l : list act) : list Z := omap (λ a, match a with Push c => Some c | _ => None end) l.
Definition received (l : list act) : list Z := omap (λ a, match a with Pop c => Some c | _ => None end) l.

(** A new pipe, as [pipealloc] makes it; the bytes of the ring are arbitrary. *)
Definition new_pipe (data : list Z) : pipe := MkPipe data 0 0 1 1.

(** ** Lemmas on the ring *)

Lemma pcount_range p : 0 <= pcount p < 2 ^ 32.
Proof. apply Z.mod_pos_bound. lia. Qed.

Lemma queue_length p : length (queue p) = Z.to_nat (pcount p).
Proof. unfold queue. by rewrite length_fmap, length_seqZ. Qed.

(** Two of at most PIPESIZE consecutive positions share a slot only if equal. *)
Lemma slot_eq a i j :
  0 <= i < PIPESIZE → 0 <= j < PIPESIZE →
  u32 (a + i) mod PIPESIZE = u32 (a + j) mod PIPESIZE → i = j.
Proof.
  unfold u32, PIPESIZE. intros Hi Hj E.
  rewrite <- !(Znumtheory.Zmod_div_mod 512 (2 ^ 32)) in E by (try lia; by exists (2 ^ 23)).
  pose proof (Z.div_mod (a + i) 512). pose proof (Z.div_mod (a + j) 512). lia.
Qed.

Lemma pcount_small p n : pipe_ok p → 0 <= n < 2 ^ 32 → pi_nwrite p = u32 (pi_nread p + n) ↔ pcount p = n.
Proof.
  intros [_ H1 H2 _] Hn. unfold pcount, u32. split.
  - intros ->. rewrite Zminus_mod_idemp_l. replace (pi_nread p + n - pi_nread p) with n by lia. by apply Z.mod_small.
  - intros <-. rewrite Zplus_mod_idemp_r. replace (pi_nread p + (pi_nwrite p - pi_nread p)) with (pi_nwrite p) by lia.
    symmetry. by apply Z.mod_small.
Qed.

Lemma full_iff p : pipe_ok p → (pi_nwrite p =? u32 (pi_nread p + PIPESIZE)) = (pcount p =? PIPESIZE).
Proof.
  intros Hok. pose proof (pcount_small p PIPESIZE Hok ltac:(done)).
  destruct (Z.eqb_spec (pi_nwrite p) (u32 (pi_nread p + PIPESIZE))), (Z.eqb_spec (pcount p) PIPESIZE); tauto.
Qed.

Lemma empty_iff p : pipe_ok p → (pi_nread p =? pi_nwrite p) = (pcount p =? 0).
Proof.
  intros Hok. pose proof (pcount_small p 0 Hok ltac:(done)) as E. rewrite Z.add_0_r in E.
  assert (u32 (pi_nread p) = pi_nread p) as Er by (apply Z.mod_small; apply Hok). rewrite Er in E.
  destruct (Z.eqb_spec (pi_nread p) (pi_nwrite p)), (Z.eqb_spec (pcount p) 0); naive_solver.
Qed.

Lemma push_ok c p : pipe_ok p → pcount p < PIPESIZE → pipe_ok (push c p) ∧ pcount (push c p) = pcount p + 1.
Proof.
  intros [H1 H2 H3 H4] Hc. assert (pcount (push c p) = pcount p + 1) as E.
  { pose proof (pcount_range p). unfold pcount in *. unfold push. rsimpl. unfold u32 in *.
    rewrite Zminus_mod_idemp_l. replace (pi_nwrite p + 1 - pi_nread p) with (pi_nwrite p - pi_nread p + 1) by lia.
    rewrite <- Zplus_mod_idemp_l. apply Z.mod_small. unfold PIPESIZE in *. lia. }
  split; [split|done].
  - unfold push. rsimpl. by rewrite length_insert.
  - done.
  - apply Z.mod_pos_bound. lia.
  - lia.
Qed.

Lemma push_queue c p : pipe_ok p → pcount p < PIPESIZE → queue (push c p) = queue p ++ [c].
Proof.
  intros Hok Hc. destruct (push_ok c p Hok Hc) as [_ E]. destruct (pcount_range p) as [Hc0 _].
  unfold queue. rewrite E, seqZ_app, fmap_app, Z.add_0_l by lia.
  assert (u32 (pi_nread p + pcount p) = pi_nwrite p) as Es.
  { symmetry. apply pcount_small; [done|apply pcount_range|done]. }
  f_equal.
  - apply list_fmap_ext. intros k j Hj. apply lookup_seqZ in Hj as [-> Hj]. simpl (0 + _).
    unfold pbyte, push. rsimpl. apply list_lookup_total_insert_ne. intros Eq.
    apply Z2Nat.inj in Eq; try (apply Z.mod_pos_bound; done). rewrite <- Es in Eq.
    apply slot_eq in Eq; lia.
  - rewrite seqZ_cons by lia. simpl. f_equal. unfold pbyte, push. rsimpl. rewrite Es. apply list_lookup_total_insert_eq.
    rewrite (po_len _ Hok). pose proof (Z.mod_pos_bound (pi_nwrite p) PIPESIZE ltac:(done)). unfold PIPESIZE in *. lia.
Qed.

Lemma pop_ok p : pipe_ok p → 0 < pcount p → pipe_ok (pop p) ∧ queue p = pbyte p 0 :: queue (pop p).
Proof.
  intros [H1 H2 H3 H4] Hc. destruct (pcount_range p) as [_ Hc2].
  assert (pcount (pop p) = pcount p - 1) as E.
  { unfold pcount in *. unfold pop. rsimpl. unfold u32 in *. rewrite Zminus_mod_idemp_r.
    replace (pi_nwrite p - (pi_nread p + 1)) with (pi_nwrite p - pi_nread p - 1) by lia.
    rewrite <- Zminus_mod_idemp_l. apply Z.mod_small. lia. }
  split; [split; [done|apply Z.mod_pos_bound; lia|done|lia]|].
  unfold queue. rewrite E, seqZ_cons by lia. simpl. f_equal. rewrite <- Z.sub_1_r.
  replace (Z.succ 0) with (1 + 0) by lia. rewrite <- fmap_add_seqZ, <- list_fmap_compose. apply list_fmap_ext.
  intros k j _. unfold pbyte, pop. rsimpl. simpl. by rewrite u32_add_u32, Z.add_assoc.
Qed.

Lemma do_act_ok a p p' :
  pipe_ok p → do_act a p = Some p' → pipe_ok p' ∧ queue p ++ sent [a] = received [a] ++ queue p'.
Proof.
  intros Hok. pose proof (po_count _ Hok). destruct (pcount_range p). destruct a as [c|c| |]; simpl.
  - rewrite full_iff by done. destruct (Z.eqb_spec (pcount p) PIPESIZE); [done|]. intros [= <-].
    split; [apply push_ok; [done|lia]|]. by rewrite push_queue by (done || lia).
  - rewrite empty_iff by done. destruct (Z.eqb_spec (pcount p) 0); [done|].
    destruct (Z.eqb_spec (pbyte p 0) c) as [<-|]; [|done]. intros [= <-].
    destruct (pop_ok p Hok ltac:(lia)) as [? E]. split; [done|]. by rewrite app_nil_r, E.
  - intros [= <-]. destruct Hok. split; [by split|by rewrite app_nil_r].
  - intros [= <-]. destruct Hok. split; [by split|by rewrite app_nil_r].
Qed.

Lemma sent_app l1 l2 : sent (l1 ++ l2) = sent l1 ++ sent l2.
Proof. apply omap_app. Qed.

Lemma received_app l1 l2 : received (l1 ++ l2) = received l1 ++ received l2.
Proof. apply omap_app. Qed.

Lemma do_acts_ok l p p' :
  pipe_ok p → do_acts l p = Some p' → pipe_ok p' ∧ queue p ++ sent l = received l ++ queue p'.
Proof.
  revert p. induction l as [|a l IH]; intros p Hok; cbn [do_acts]; [intros [= <-]; by rewrite app_nil_r|].
  destruct (do_act a p) as [p1|] eqn:E; [|done]. cbn [mbind option_bind]. intros E1.
  destruct (do_act_ok a p p1 Hok E) as [Hok1 Q]. destruct (IH p1 Hok1 E1) as [Hok' Q'].
  split; [done|]. change (a :: l) with ([a] ++ l). rewrite sent_app, received_app, app_assoc, Q, <- !app_assoc. by rewrite Q'.
Qed.

Lemma do_acts_app l1 l2 p : do_acts (l1 ++ l2) p = do_acts l1 p ≫= do_acts l2.
Proof. revert p. induction l1 as [|a l1 IH]; intros p; simpl; [done|]. destruct (do_act a p); simpl; auto. Qed.

Lemma new_pipe_ok data : length data = 512%nat → pipe_ok (new_pipe data).
Proof. intros. by split. Qed.

(** ** Traces: the actions of this thread among those of the others *)

Definition own (tr : list (bool * act)) : list act := omap (λ x, if x.1 : bool then Some x.2 else None) tr.

Definition pipe_trace (pi : Z) (k : kstate) (tr : list (bool * act)) (k' : kstate) : Prop :=
  do_acts tr.*2 (get_pipe pi k) = Some (get_pipe pi k').

(** While the thread sleeps, the others keep [I] and only read, write and close. *)
Definition others_keep (I : kstate → Prop) (pi : Z) (w : world) : Prop :=
  ∀ f, f ∈ env w → ∀ k, I k → I (f k) ∧ ∃ l, do_acts l (get_pipe pi k) = Some (get_pipe pi (f k)).

Lemma own_app tr1 tr2 : own (tr1 ++ tr2) = own tr1 ++ own tr2.
Proof. apply omap_app. Qed.

Lemma own_others l : own ((λ a, (false, a)) <$> l) = [].
Proof. induction l; done. Qed.

Lemma own_mine (f : Z → act) l : own (pair true ∘ f <$> l) = f <$> l.
Proof. induction l as [|c l IH]; [done|]. change (f c :: own (pair true ∘ f <$> l) = f c :: (f <$> l)). by rewrite IH. Qed.

Lemma pipe_trace_nil pi k : pipe_trace pi k [] k.
Proof. done. Qed.

Lemma pipe_trace_app pi k1 k2 k3 tr1 tr2 :
  pipe_trace pi k1 tr1 k2 → pipe_trace pi k2 tr2 k3 → pipe_trace pi k1 (tr1 ++ tr2) k3.
Proof. unfold pipe_trace. intros E1 E2. rewrite fmap_app, do_acts_app, E1. exact E2. Qed.

Lemma pipe_trace_others pi k k' l :
  do_acts l (get_pipe pi k) = Some (get_pipe pi k') → pipe_trace pi k ((λ a, (false, a)) <$> l) k'.
Proof. unfold pipe_trace. intros <-. f_equal. rewrite <- list_fmap_compose. apply list_fmap_id. Qed.

Lemma others_keep_suffix I pi w w' : env w' `suffix_of` env w → others_keep I pi w → others_keep I pi w'.
Proof. intros [l E] Hk f Hf. apply Hk. rewrite E. apply elem_of_app. by right. Qed.

(** The end of both calls. *)
Lemma wakeup_release_run c pi (r : Z) w :
  procs_ok (ks w) → held w = {[LPipe pi]} →
  (wakeup c;; release (LPipe pi);; mret r) w = Ok r (MkWorld (wake_all c (me w) (ks w)) ∅ (me w) (env w)).
Proof.
  intros Hp Hh. rewrite (bind_ok _ _ _ _ _ (wakeup_run c w Hp ltac:(intros j _; rewrite Hh; set_solver))).
  erewrite bind_ok by (apply release_held; simpl; rewrite Hh; set_solver).
  unfold mret, K_ret. f_equal. rsimpl. f_equal. rewrite Hh. set_solver.
Qed.

(** ** pipewrite *)

Lemma get_upd_pipe pi f k p : k_pipes k !! pi = Some p → get_pipe pi (k <| k_pipes ::= alter f pi |>) = f p.
Proof. intros E. unfold get_pipe. rsimpl. by rewrite lookup_total_alt, lookup_alter_eq, E. Qed.

Lemma get_pipe_correct pi k p : k_pipes k !! pi = Some p → get_pipe pi k = p.
Proof. apply lookup_total_correct. Qed.

Lemma upd_pipe_push pi c w :
  w <| ks ::= λ k, k <| k_pipes ::= alter (λ p, p <| pi_data ::= <[Z.to_nat (pi_nwrite p mod PIPESIZE) := c]> |>) pi |> |>
    <| ks ::= λ k, k <| k_pipes ::= alter (λ p, p <| pi_nwrite ::= λ x, u32 (x + 1) |>) pi |> |>
  = w <| ks ::= λ k, k <| k_pipes ::= alter (push c) pi |> |>.
Proof. rsimpl. by rewrite fin_maps.alter_alter_eq. Qed.

Section write.
Variables (pr : nat) (pi pt addr n : Z) (ub : Z → option Z).

(** What the writer relies on while it sleeps: its page table and the bytes it
    is writing stay as they are. *)
Record write_inv (k : kstate) : Prop := {
  wi_procs : procs_ok k;
  wi_pipe : ∃ p, k_pipes k !! pi = Some p ∧ pipe_ok p;
  wi_pt : p_pagetable (get_proc pr k) = pt;
  wi_bytes : ∀ j, 0 <= j < n → urd (k_mem k) pt (addr + j) = ub j
}.

Hypothesis Hpr : (pr < Z.to_nat NPROC)%nat.
Hypothesis Haddr : 0 <= addr ∧ addr + n <= 2 ^ 64.

Lemma write_inv_frame k k' :
  procs_ok k' → p_pagetable (get_proc pr k') = p_pagetable (get_proc pr k) → k_pipes k' = k_pipes k →
  k_mem k' = k_mem k → write_inv k → write_inv k'.
Proof. intros H1 H2 H3 H4 [I1 I2 I3 I4]. split; [done|by rewrite H3|by rewrite H2|by rewrite H4]. Qed.

Lemma write_inv_upd f k :
  (∀ q, p_pagetable (f q) = p_pagetable q) → write_inv k → write_inv (upd_proc pr f k).
Proof.
  intros Hf HI. apply (write_inv_frame k); [by apply procs_ok_upd, HI| |done|done|done].
  rewrite get_upd_proc; [done|]. by rewrite (wi_procs _ HI).
Qed.

Lemma write_inv_push c k :
  write_inv k → pcount (get_pipe pi k) < PIPESIZE →
  write_inv (k <| k_pipes ::= alter (push c) pi |>)
  ∧ pipe_trace pi k [(true, Push c)] (k <| k_pipes ::= alter (push c) pi |>).
Proof.
  intros [I1 (p & Hp & Hok) I3 I4] Hc. rewrite (get_pipe_correct _ _ _ Hp) in Hc. split.
  - split; [done| |done|done]. exists (push c p). split; [|by apply push_ok].
    rsimpl. by rewrite lookup_alter_eq, Hp.
  - unfold pipe_trace. simpl. rewrite (get_pipe_correct _ _ _ Hp), (get_upd_pipe _ _ _ p) by done.
    rewrite full_iff by done. by destruct (Z.eqb_spec (pcount p) PIPESIZE); [lia|].
Qed.

(** The outcome of the loop from index [i] on, in terms of the bytes [l] sent. *)
Definition write_post (i : Z) (w : world) (res : option Z) (w' : world) : Prop :=
  ∃ tr l, pipe_trace pi (ks w) tr (ks w') ∧ own tr = Push <$> l
    ∧ (∀ x b, l !! x = Some b → ub (i + Z.of_nat x) = Some b)
    ∧ write_inv (ks w') ∧ me w' = Some pr ∧ env w' `suffix_of` env w
    ∧ match res with
      | Some r => r = i + Z.of_nat (length l) ∧ r <= n ∧ held w' = {[LPipe pi]} ∧ (r = n ∨ ub r = None)
      | None => held w' = ∅ ∧ i + Z.of_nat (length l) < n
                ∧ (pi_readopen (get_pipe pi (ks w')) = 0 ∨ p_killed (get_proc pr (ks w')) ≠ 0)
      end.

Lemma write_post_others i w w1 l res w' :
  do_acts l (get_pipe pi (ks w)) = Some (get_pipe pi (ks w1)) → env w1 `suffix_of` env w →
  write_post i w1 res w' → write_post i w res w'.
Proof.
  intros Hl He (tr & l' & T & O & B & I & M & E & R). exists (((λ a, (false, a)) <$> l) ++ tr), l'.
  split; [eapply pipe_trace_app; [by apply pipe_trace_others|exact T]|].
  rewrite own_app, own_others. do 4 (split; [done|]). split; [by etrans|done].
Qed.

Lemma write_post_push i w c w1 res w' :
  pipe_trace pi (ks w) [(true, Push c)] (ks w1) → env w1 = env w → ub i = Some c →
  write_post (i + 1) w1 res w' → write_post i w res w'.
Proof.
  intros Hl He Hc (tr & l & T & O & B & I & M & E & R). exists ([(true, Push c)] ++ tr), (c :: l).
  split; [by eapply pipe_trace_app|]. split; [rewrite own_app, O; done|]. split.
  { intros [|x] b; simpl; [intros [= <-]; by rewrite Z.add_0_r|]. intros Hx.
    rewrite <- (B x b Hx). f_equal. lia. }
  do 2 (split; [done|]). split; [by rewrite <- He|].
  simpl length. replace (i + Z.of_nat (S (length l))) with (i + 1 + Z.of_nat (length l)) by lia. done.
Qed.

Lemma pipewrite_loop_spec fuel i w :
  0 <= i → (length (env w) + Z.to_nat (n - i) < fuel)%nat → i <= n →
  me w = Some pr → held w = {[LPipe pi]} → write_inv (ks w) → others_keep write_inv pi w →
  wsafe (pipewrite_loop fuel pi pr addr n i) (write_post i w) w.
Proof.
  revert i w. induction fuel as [|fuel IH]; intros i w Hi Hf Hin Hme Hh HI Hk; [lia|]. cbn [pipewrite_loop].
  destruct (Z.ltb_spec i n) as [Hlt|].
  2:{ unfold wsafe, mret, K_ret. exists [], []. split; [done|]. split; [done|]. split; [done|].
      split; [done|]. split; [done|]. split; [done|]. simpl. split; [lia|]. split; [lia|]. split; [done|]. left. lia. }
  destruct (wi_pipe _ HI) as (p & Hp & Hok). unfold wsafe. erewrite bind_ok by reflexivity.
  rewrite (get_pipe_correct _ _ _ Hp).
  assert (LProc pr ∉ held w) as Hlp by (rewrite Hh; set_solver).
  erewrite (bind_ok _ _ _ (if pi_readopen p =? 0 then true else negb (p_killed (get_proc pr (ks w)) =? 0))).
  2:{ destruct (pi_readopen p =? 0); [done|]. by rewrite (bind_ok _ _ _ _ _ (killed_run pr w Hlp)). }
  destruct (if pi_readopen p =? 0 then true else _) eqn:Hdead.
  { rewrite (bind_ok _ _ _ _ _ (release_held (LPipe pi) w ltac:(rewrite Hh; set_solver))).
    unfold mret, K_ret. exists [], []. split; [done|]. split; [done|]. split; [done|].
    split; [done|]. split; [done|]. split; [done|]. split; [unfold set_field, set_held; simpl; rewrite Hh; set_solver|].
    split; [simpl; lia|]. change (ks (w <| held ::= _ |>)) with (ks w). rewrite (get_pipe_correct _ _ _ Hp).
    destruct (Z.eqb_spec (pi_readopen p) 0); [by left|right]. by destruct (Z.eqb_spec (p_killed (get_proc pr (ks w))) 0). }
  rewrite full_iff by done. destruct (Z.eqb_spec (pcount p) PIPESIZE) as [Hfull|Hroom].
  - rewrite (bind_ok _ _ _ _ _ (wakeup_run (ChPipeR pi) w (wi_procs _ HI)
      ltac:(intros j _; rewrite Hh; set_solver))).
    set (k1 := wake_all (ChPipeR pi) (me w) (ks w)). change (w <| ks ::= _ |>) with (w <| ks := k1 |>).
    assert (write_inv k1) as HI1.
    { apply (write_inv_frame (ks w)); [apply procs_ok_wake_all, HI| |done|done|done].
      unfold k1. rewrite Hme. by rewrite wake_all_self. }
    assert (pr < length (k_procs k1))%nat as Hl1 by (by rewrite (wi_procs _ HI1 : length _ = _)).
    unfold mbind, K_bind. rewrite (sleep_run _ _ pr) by done.
    change (env (w <| ks := k1 |>)) with (env w). change (ks (w <| ks := k1 |>)) with k1.
    destruct (env w) as [|f e] eqn:He; [done|]. cbv zeta. set (k2 := asleep pr (ChPipeW pi) k1).
    assert (write_inv k2) as HI2 by (by apply write_inv_upd).
    destruct (Hk f ltac:(rewrite He; by left) k2 HI2) as [HI3 (l & Hl)].
    destruct (decide (p_state (get_proc pr (f k2)) = RUNNABLE)); [|done].
    eapply wsafe_mono; [apply IH; try done; simpl in *; [lia|by apply write_inv_upd|]|].
    + intros g Hg. apply Hk. rewrite He. by right.
    + intros res w' HP. apply (write_post_others i w _ l) in HP; [exact HP|exact Hl|]. rewrite He. by exists [f].
  - erewrite bind_ok by reflexivity. rewrite (wi_pt _ HI), u64_small by lia.
    rewrite (bind_ok _ _ _ _ _ (copyin1_run pt (addr + i) w ltac:(lia))), (wi_bytes _ HI) by lia.
    destruct (ub i) as [c|] eqn:Hub.
    2:{ simpl. unfold mret, K_ret. exists [], []. split; [done|]. split; [done|]. split; [done|].
        split; [done|]. split; [done|]. split; [done|]. simpl. split; [lia|]. split; [lia|]. split; [done|]. by right. }
    cbn [fst snd]. change (0 =? -1) with false. cbv iota. erewrite bind_ok by reflexivity. erewrite bind_ok by reflexivity.
    rewrite (upd_pipe_push pi c).
    set (w1 := w <| ks ::= _ |>). destruct (write_inv_push c (ks w)) as [HI1 T1];
      [done|rewrite (get_pipe_correct _ _ _ Hp); pose proof (po_count _ Hok); lia|].
    eapply wsafe_mono; [apply (IH (i + 1) w1); try done; simpl; lia|].
    intros res w' HP. by apply (write_post_push i w c w1).
Qed.
End write.

(** ** piperead *)

Lemma do_act_pop p p' c : do_act (Pop c) p = Some p' → p' = pop p.
Proof. simpl. by repeat case_match; intros; simplify_eq. Qed.

Section read.
Variables (pr : nat) (pi pt : Z).

Record read_inv (k : kstate) : Prop := {
  ri_procs : procs_ok k;
  ri_pipe : ∃ p, k_pipes k !! pi = Some p ∧ pipe_ok p;
  ri_pt : p_pagetable (get_proc pr k) = pt;
  ri_sep : user_sep (k_mem k) pt
}.

Hypothesis Hpr : (pr < Z.to_nat NPROC)%nat.

Lemma read_inv_upd f k :
  (∀ q, p_pagetable (f q) = p_pagetable q) → read_inv k → read_inv (upd_proc pr f k).
Proof.
  intros Hf [I1 I2 I3 I4]. split; [by apply procs_ok_upd|done| |done].
  by rewrite get_upd_proc by (by rewrite (I1 : length _ = _)); rewrite Hf.
Qed.

Lemma read_inv_wake ch k : read_inv k → read_inv (wake_all ch (Some pr) k).
Proof. intros [I1 I2 I3 I4]. split; [by apply procs_ok_wake_all|done|by rewrite wake_all_self|done]. Qed.

Lemma pipe_wait_spec fuel w :
  (length (env w) < fuel)%nat → me w = Some pr → held w = {[LPipe pi]} → read_inv (ks w) →
  others_keep read_inv pi w →
  wsafe (pipe_wait fuel pi pr) (λ b w', ∃ l,
    do_acts l (get_pipe pi (ks w)) = Some (get_pipe pi (ks w')) ∧ read_inv (ks w') ∧ me w' = Some pr
    ∧ if b : bool then held w' = {[LPipe pi]} ∧ (queue (get_pipe pi (ks w')) ≠ [] ∨ pi_writeopen (get_pipe pi (ks w')) = 0)
      else held w' = ∅ ∧ p_killed (get_proc pr (ks w')) ≠ 0) w.
Proof.
  revert w. induction fuel as [|fuel IH]; intros w Hf Hme Hh HI Hk; [lia|]. cbn [pipe_wait].
  destruct (ri_pipe _ HI) as (p & Hp & Hok). unfold wsafe. erewrite bind_ok by reflexivity.
  rewrite (get_pipe_correct _ _ _ Hp), empty_iff by done.
  assert (LProc pr ∉ held w) as Hlp by (rewrite Hh; set_solver).
  destruct (Z.eqb_spec (pcount p) 0) as [He|He], (Z.eqb_spec (pi_writeopen p) 0) as [Hw|Hw]; cbn [negb andb].
  2:{ rewrite (bind_ok _ _ _ _ _ (killed_run pr w Hlp)).
      destruct (Z.eqb_spec (p_killed (get_proc pr (ks w))) 0) as [Hkl|Hkl]; cbn [negb].
      2:{ rewrite (bind_ok _ _ _ _ _ (release_held (LPipe pi) w ltac:(rewrite Hh; set_solver))).
          exists []. change (ks (w <| held ::= _ |>)) with (ks w). rewrite (get_pipe_correct _ _ _ Hp).
          do 3 (split; [done|]). split; [|done]. unfold set_field, set_held. simpl. rewrite Hh. set_solver. }
      assert (pr < length (k_procs (ks w)))%nat as Hl by (by rewrite (ri_procs _ HI : length _ = _)).
      unfold mbind, K_bind. rewrite (sleep_run _ _ pr) by done. destruct (env w) as [|f e] eqn:Ee; [done|].
      cbv zeta. set (k2 := asleep pr (ChPipeR pi) (ks w)).
      destruct (Hk f ltac:(rewrite Ee; by left) k2 ltac:(by apply read_inv_upd)) as [HI3 (l & Hl2)].
      destruct (decide (p_state (get_proc pr (f k2)) = RUNNABLE)); [|done].
      eapply wsafe_mono; [apply IH; try done; simpl in *; [lia|by apply read_inv_upd|]|].
      - intros g Hg. apply Hk. rewrite Ee. by right.
      - intros b w' (l' & E' & R). exists (l ++ l'). split; [|exact R]. rewrite do_acts_app.
        change (get_pipe pi k2) with (get_pipe pi (ks w)) in Hl2. rewrite (get_pipe_correct _ _ _ Hp) in Hl2.
        by rewrite Hl2. }
  all: exists []; rewrite (get_pipe_correct _ _ _ Hp); do 4 (split; [done|]); try (by right).
  all: left; intros E; apply (f_equal length) in E; rewrite queue_length in E; destruct (pcount_range p); simpl in E; lia.
Qed.

Variables (addr n : Z).
Hypothesis Haddr : 0 <= addr ∧ addr + n <= 2 ^ 64.

(** The bytes moved by the copying loop from index [i] on. *)
Definition read_post (todo : nat) (i : Z) (k : kstate) (r : Z) (k' : kstate) : Prop :=
  ∃ l, pipe_trace pi k (pair true ∘ Pop <$> l) k' ∧ read_inv k'
    ∧ (∀ va, 0 <= va → urd (k_mem k') pt va =
         if decide (addr + i <= va < addr + r) then l !! Z.to_nat (va - addr - i) else urd (k_mem k) pt va)
    ∧ (r = i + Z.of_nat (length l) ∧ (length l = todo ∨ (length l < todo)%nat ∧ queue (get_pipe pi k') = [])
       ∨ r + 1 = i + Z.of_nat (length l) ∧ (length l <= todo)%nat ∧ urd (k_mem k) pt (addr + r) = None).

Lemma read_post_cons todo i k c k1 r k' :
  0 <= i → pipe_trace pi k [(true, Pop c)] k1 → i + 1 <= r →
  (∀ va, 0 <= va → urd (k_mem k1) pt va = if decide (va = addr + i) then Some c else urd (k_mem k) pt va) →
  read_post todo (i + 1) k1 r k' → read_post (S todo) i k r k'.
Proof.
  intros Hi T Hr U (l & T' & I & U' & R). exists (c :: l). split; [exact (pipe_trace_app _ _ _ _ _ _ T T')|].
  split; [done|]. split.
  - intros va Hva. rewrite U' by done. destruct (decide (addr + (i + 1) <= va < addr + r)).
    + rewrite decide_True by lia. replace (Z.to_nat (va - addr - i)) with (S (Z.to_nat (va - addr - (i + 1)))) by lia.
      done.
    + rewrite U by done. destruct (decide (va = addr + i)) as [->|].
      * rewrite decide_True by lia. replace (Z.to_nat (addr + i - addr - i)) with 0%nat by lia. done.
      * by rewrite decide_False by lia.
  - simpl length. destruct R as [[-> R]|(R1 & R2 & R3)]; [left|right].
    + split; [lia|]. destruct R as [|[]]; [left|right]; [lia|split; [lia|done]].
    + split; [lia|]. split; [lia|]. rewrite <- R3. destruct Haddr. rewrite U by lia. by rewrite decide_False by lia.
Qed.

Lemma piperead_loop_run todo i w :
  0 <= i → i + Z.of_nat todo <= n → me w = Some pr → read_inv (ks w) →
  ∃ r k', piperead_loop todo pi pr addr i w = Ok r (w <| ks := k' |>) ∧ i <= r ∧ read_post todo i (ks w) r k'.
Proof.
  revert i w. induction todo as [|todo IH]; intros i w Hi Hn Hme HI; cbn [piperead_loop].
  { exists i, (ks w). split; [by destruct w|]. split; [done|]. exists []. split; [done|]. split; [done|]. split.
    - intros va _. by rewrite decide_False by lia.
    - left. simpl. split; [lia|by left]. }
  destruct (ri_pipe _ HI) as (p & Hp & Hok). erewrite bind_ok by reflexivity.
  rewrite (get_pipe_correct _ _ _ Hp), empty_iff by done. destruct (Z.eqb_spec (pcount p) 0) as [He|He].
  { exists i, (ks w). split; [by destruct w|]. split; [done|]. exists []. split; [done|]. split; [done|]. split.
    - intros va _. by rewrite decide_False by lia.
    - left. simpl. split; [lia|]. right. split; [lia|]. rewrite (get_pipe_correct _ _ _ Hp).
      apply nil_length_inv. by rewrite queue_length, He. }
  destruct (pcount_range p) as [Hc0 _]. destruct (pop_ok p Hok ltac:(lia)) as [Hok1 Hq1].
  assert (pi_data p !!! Z.to_nat (pi_nread p mod PIPESIZE) = pbyte p 0) as Ec.
  { unfold pbyte. by rewrite Z.add_0_r, u32_small by apply Hok. }
  rewrite Ec. set (c := pbyte p 0). erewrite bind_ok by reflexivity. erewrite bind_ok by reflexivity.
  set (w1 := w <| ks ::= _ |>).
  assert (k_pipes (ks w1) !! pi = Some (pop p)) as Hp1.
  { unfold w1. rsimpl. by rewrite lookup_alter_eq, Hp. }
  assert (read_inv (ks w1)) as HI1 by (destruct HI; split; [done|by exists (pop p)|done|done]).
  assert (pipe_trace pi (ks w) [(true, Pop c)] (ks w1)) as T1.
  { unfold pipe_trace. rewrite (get_pipe_correct _ _ _ Hp), (get_pipe_correct _ _ _ Hp1). simpl.
    rewrite empty_iff by done. destruct (Z.eqb_spec (pcount p) 0); [done|]. unfold c. by rewrite Z.eqb_refl. }
  assert (k_mem (ks w1) = k_mem (ks w)) as Em by done.
  assert (w <| ks := ks w1 |> = w1) as Ew by done. clearbody w1.
  rewrite (ri_pt _ HI1), u64_small by lia.
  destruct (copyout1_run pt (addr + i) c w1) as (r & m' & E & Hsep & Hr); [lia|apply HI1|].
  rewrite (bind_ok _ _ _ _ _ E). set (w2 := w1 <| ks ::= _ |>).
  assert (read_inv (ks w2)) as HI2 by (destruct HI1; by split).
  assert (pipe_trace pi (ks w) [(true, Pop c)] (ks w2)) as T2 by done.
  assert (k_mem (ks w2) = m') as Em2 by done.
  assert (∀ k, w2 <| ks := k |> = w <| ks := k |>) as Ew2 by (intros; unfold w2; by rewrite <- Ew). clearbody w2.
  destruct Hr as [(-> & Hs & U)|(-> & Hs & U)].
  - change (0 =? -1) with false. cbv iota.
    destruct (IH (i + 1) w2) as (r & k' & E' & Hr & R); [lia|lia| |done|].
    { apply (f_equal me) in Ew. specialize (Ew2 (ks w2)). apply (f_equal me) in Ew2.
      change (me (w2 <| ks := ks w2 |>)) with (me w2) in Ew2. by rewrite Ew2. }
    exists r, k'. rewrite E', Ew2. split; [done|]. split; [lia|].
    apply (read_post_cons todo i (ks w) c (ks w2)); [done|done|lia| |done].
    intros va Hva. by rewrite Em2, U, Em.
  - change (-1 =? -1) with true. cbv iota. exists i, (ks w2).
    split; [rewrite <- Ew2; unfold mret, K_ret; by destruct w2|]. split; [done|]. exists [c].
    split; [exact T2|]. split; [done|]. split.
    + intros va Hva. by rewrite decide_False, Em2, U, Em by (done || lia).
    + right. simpl. split; [lia|]. split; [lia|]. by rewrite <- Em.
Qed.
End read.

(** ** Theorems *)



(** ** Witnesses: a full pipe whose counters are about to wrap, and a reader *)

Definition full_pipe : pipe := MkPipe (replicate 512 7) (2 ^ 32 - 100) 412 1 1.

Definition reader (k : kstate) : kstate :=
  wake_all (ChPipeW 8192) None
    (k <| k_pipes ::= alter (λ p, if pi_nread p =? pi_nwrite p then p else pop p) 8192 |>).

Definition with_pipe (k : kstate) : kstate :=
  k <| k_procs ::= alter (λ q, q <| p_pagetable := demo_root |>) 0%nat |> <| k_pipes := {[8192 := full_pipe]} |>.

Definition pipe_demo : world := MkWorld (with_pipe (ks demo3)) ∅ (Some 0%nat) [reader].

Lemma demo3_procs : procs_ok (ks demo3).
Proof. by vm_compute. Qed.

Lemma with_pipe_ok k :
  procs_ok k →
  procs_ok (with_pipe k) ∧ (∃ p, k_pipes (with_pipe k) !! 8192 = Some p ∧ pipe_ok p)
  ∧ p_pagetable (get_proc 0 (with_pipe k)) = demo_root ∧ k_mem (with_pipe k) = k_mem k.
Proof.
  intros Hk. unfold with_pipe, procs_ok, get_proc in *. rsimpl. rewrite length_alter. split; [done|].
  split; [by exists full_pipe|]. split; [|done]. rewrite list_lookup_total_alter_eq; [done|].
  rewrite Hk. vm_compute. lia.
Qed.
#[local] Opaque demo3 with_pipe.

Lemma reader_acts k p :
  k_pipes k !! 8192 = Some p → pipe_ok p →
  (∃ p', k_pipes (reader k) !! 8192 = Some p' ∧ pipe_ok p')
  ∧ ∃ l, do_acts l (get_pipe 8192 k) = Some (get_pipe 8192 (reader k)).
Proof.
  intros Hp Hok. set (p' := if pi_nread p =? pi_nwrite p then p else pop p).
  assert (k_pipes (reader k) !! 8192 = Some p') as Hp'.
  { unfold reader, wake_all. rsimpl. by rewrite lookup_alter_eq, Hp. }
  rewrite (get_pipe_correct _ _ _ Hp), (get_pipe_correct _ _ _ Hp'). subst p'.
  rewrite empty_iff in * by done. destruct (Z.eqb_spec (pcount p) 0).
  - split; [by exists p|]. by exists [].
  - destruct (pcount_range p), (pop_ok p Hok ltac:(lia)). split; [by exists (pop p)|]. exists [Pop (pbyte p 0)].
    simpl. rewrite empty_iff, Z.eqb_refl by done. by destruct (Z.eqb_spec (pcount p) 0).
Qed.

Lemma reader_pagetable k : procs_ok k → p_pagetable (get_proc 0 (reader k)) = p_pagetable (get_proc 0 k).
Proof.
  intros Hk. unfold reader. set (k1 := k <| k_pipes ::= _ |>).
  rewrite get_proc_wake_all by (change (0 < length (k_procs k))%nat; rewrite (Hk : length _ = _); vm_compute; lia).
  change (get_proc 0 k1) with (get_proc 0 k). unfold wake. by repeat case_match.
Qed.


