(* ===== verification/Fs.v ===== *)
(** * kernel/fs.c

    The file system above the log: block allocation, inodes, file contents,
    directories and path names.  An inode pointer is an index of the inode
    table; [uint] quantities wrap modulo 2^32 where the code can make them. *)

From S2P Require Import Prelude Memory CString Kernel Kalloc Vm Sched Sleeplock Bio Log Uart Printf Copy.

(** fs.h *)
Definition DINODE_SIZE : Z := 64.
Definition IPB : Z := BSIZE / DINODE_SIZE.
Definition IBLOCK (i : Z) (sb : superblock) : Z := u32 (i / IPB + sb_inodestart sb).
Definition BPB : Z := BSIZE * 8.
Definition BBLOCK (b : Z) (sb : superblock) : Z := u32 (b / BPB + sb_bmapstart sb).
Definition DIRENT_SIZE : Z := 16.

(** ** On-disk formats *)

Definition dec_superblock (data : list Z) : superblock :=
  MkSuperblock (get32 data 0) (get32 data 4) (get32 data 8) (get32 data 12)
    (get32 data 16) (get32 data 20) (get32 data 24) (get32 data 28).

(** A struct dinode at byte offset [o]. *)
Definition get_dinode (data : list Z) (o : nat) : dinode :=
  MkDinode (i16 (get16 data o)) (i16 (get16 data (o + 2))) (i16 (get16 data (o + 4)))
    (i16 (get16 data (o + 6))) (get32 data (o + 8))
    ((λ j, get32 data (o + 12 + 4 * j)) <$> seq 0 13).

Definition enc_dinode (d : dinode) : list Z :=
  le_enc 2 (di_type d) ++ le_enc 2 (di_major d) ++ le_enc 2 (di_minor d) ++ le_enc 2 (di_nlink d)
  ++ le_enc 4 (di_size d) ++ (di_addrs d ≫= le_enc 4).

Definition dinode_off (inum : Z) : nat := Z.to_nat (inum mod IPB * DINODE_SIZE).

(** A struct dirent. *)
Definition dirent_inum (de : list Z) : Z := get16 de 0.
Definition dirent_name (de : list Z) : list Z := take (Z.to_nat DIRSIZ) (drop 2 de).
Definition enc_dirent (inum : Z) (name : list Z) : list Z := le_enc 2 inum ++ name.

Definition get_inode (i : nat) (k : kstate) : inode := k_itable k !!! i.
Definition upd_inode (i : nat) (f : inode → inode) (k : kstate) : kstate := k <| k_itable ::= alter f i |>.

(** The pure part of [balloc]: the first free bit among the [n] from [bi] on. *)
Fixpoint scan_bitmap (n : nat) (data : list Z) (b bi size : Z) : option Z :=
  match n with
  | O => None
  | S n =>
    if u32 (b + bi) <? size then
      let m := Z.shiftl 1 (bi mod 8) in
      if Z.land (data !!! Z.to_nat (bi / 8)) m =? 0 then Some bi
      else scan_bitmap n data b (bi + 1) size
    else None
  end.

Section fs.
Context `{DiskDriver}.

Definition buf_data (b : nat) : K (list Z) := gets (λ k, b_data (get_buf b k)).
Definition upd_data (b : nat) (f : list Z → list Z) : K unit :=
  modify (upd_buf b (λ x, x <| b_data ::= f |>)).

Definition readsb (dev : Z) : K unit :=
  bp ← bread (u32 dev) 1;
  data ← buf_data bp;
  modify (λ k, k <| k_sb := dec_superblock data |>);;
  brelse bp.

Definition fsinit (dev : Z) : K unit :=
  readsb dev;;
  sb ← gets k_sb;
  panic_if (negb (sb_magic sb =? FSMAGIC)) "invalid file system";;
  initlog dev sb.

Definition bzero (dev bno : Z) : K unit :=
  bp ← bread (u32 dev) (u32 bno);
  upd_data bp (λ _, replicate (Z.to_nat BSIZE) 0);;
  log_write bp;;
  brelse bp.

(** ** Blocks *)

(** One iteration per bitmap block, from block number [b] on. *)
Fixpoint balloc_loop (fuel : nat) (dev b : Z) : K Z :=
  match fuel with
  | O => diverge
  | S fuel =>
    sb ← gets k_sb;
    if u32 b <? sb_size sb then
      bp ← bread dev (BBLOCK b sb);
      data ← buf_data bp;
      match scan_bitmap (Z.to_nat BPB) data b 0 (sb_size sb) with
      | Some bi =>
        upd_data bp (alter (λ x, Z.lor x (Z.shiftl 1 (bi mod 8))) (Z.to_nat (bi / 8)));;
        log_write bp;;
        brelse bp;;
        bzero dev (b + bi);;
        mret (u32 (b + bi))
      | None =>
        brelse bp;;
        balloc_loop fuel dev (b + BPB)
      end
    else
      printf (str "balloc: out of blocks" ++ [10]) [];;
      mret 0
  end.

Definition balloc (dev : Z) : K Z :=
  sb ← gets k_sb;
  balloc_loop (S (S (Z.to_nat (sb_size sb / BPB)))) dev 0.

Definition bfree (dev b : Z) : K unit :=
  sb ← gets k_sb;
  bp ← bread (u32 dev) (BBLOCK b sb);
  let bi := b mod BPB in
  let m := Z.shiftl 1 (bi mod 8) in
  data ← buf_data bp;
  panic_if (Z.land (data !!! Z.to_nat (bi / 8)) m =? 0) "freeing free block";;
  upd_data bp (alter (λ x, u8 (Z.land x (Z.lnot m))) (Z.to_nat (bi / 8)));;
  log_write bp;;
  brelse bp.

(** ** Inodes *)

Definition iinit : K unit :=
  initlock LItable;;
  mfor (seq 0 (Z.to_nat NINODE)) (λ i, initsleeplock (SLInode i)).

(** The scan of [iget]: the entry that holds the inode, or the first empty one. *)
Fixpoint iget_scan (l : list inode) (i : nat) (empty : option nat) (dev inum : Z) : option nat * option nat :=
  match l with
  | [] => (None, empty)
  | ip :: l =>
    if (0 <? i_ref ip) && (i_dev ip =? dev) && (i_inum ip =? inum) then (Some i, empty)
    else
      let empty := match empty with
                   | None => if i_ref ip =? 0 then Some i else None
                   | Some _ => empty
                   end in
      iget_scan l (S i) empty dev inum
  end.

Definition iget (dev inum : Z) : K nat :=
  acquire LItable;;
  t ← gets k_itable;
  let r := iget_scan t 0 None dev inum in
  match r.1, r.2 with
  | Some i, _ =>
    modify (upd_inode i (λ ip, ip <| i_ref ::= λ r, r + 1 |>));;
    release LItable;;
    mret i
  | None, None => panic "iget: no inodes"
  | None, Some i =>
    modify (upd_inode i (λ ip, ip <| i_dev := dev |> <| i_inum := inum |>
                                  <| i_ref := 1 |> <| i_valid := 0 |>));;
    release LItable;;
    mret i
  end.

(** One iteration per inode number from [inum] on. *)
Fixpoint ialloc_loop (fuel : nat) (dev type inum : Z) : K (option nat) :=
  match fuel with
  | O => diverge
  | S fuel =>
    sb ← gets k_sb;
    if u32 inum <? sb_ninodes sb then
      bp ← bread dev (IBLOCK inum sb);
      data ← buf_data bp;
      if di_type (get_dinode data (dinode_off inum)) =? 0 then
        upd_data bp (splice (dinode_off inum) (enc_dinode (MkDinode type 0 0 0 0 (replicate 13 0))));;
        log_write bp;;
        brelse bp;;
        ip ← iget dev (u32 inum);
        mret (Some ip)
      else
        brelse bp;;
        ialloc_loop fuel dev type (inum + 1)
    else
      printf (str "ialloc: no inodes" ++ [10]) [];;
      mret None
  end.

Definition ialloc (dev type : Z) : K (option nat) :=
  sb ← gets k_sb;
  ialloc_loop (S (Z.to_nat (sb_ninodes sb))) dev type 1.

Definition iupdate (ip : nat) : K unit :=
  x ← gets (get_inode ip);
  sb ← gets k_sb;
  bp ← bread (i_dev x) (IBLOCK (i_inum x) sb);
  upd_data bp (splice (dinode_off (i_inum x))
    (enc_dinode (MkDinode (i_type x) (i_major x) (i_minor x) (i_nlink x) (i_size x) (i_addrs x))));;
  log_write bp;;
  brelse bp.

Definition idup (ip : nat) : K nat :=
  acquire LItable;;
  modify (upd_inode ip (λ x, x <| i_ref ::= λ r, r + 1 |>));;
  release LItable;;
  mret ip.

Definition ilock (ip : nat) : K unit :=
  x ← gets (get_inode ip);
  panic_if (i_ref x <? 1) "ilock";;
  acquiresleep (SLInode ip);;
  x ← gets (get_inode ip);
  when (i_valid x =? 0)
    (sb ← gets k_sb;
     bp ← bread (i_dev x) (IBLOCK (i_inum x) sb);
     data ← buf_data bp;
     let d := get_dinode data (dinode_off (i_inum x)) in
     modify (upd_inode ip (λ x, x <| i_type := di_type d |> <| i_major := di_major d |>
       <| i_minor := di_minor d |> <| i_nlink := di_nlink d |> <| i_size := di_size d |>
       <| i_addrs := di_addrs d |>));;
     brelse bp;;
     modify (upd_inode ip (λ x, x <| i_valid := 1 |>));;
     panic_if (di_type d =? 0) "ilock: no type").

Definition iunlock (ip : nat) : K unit :=
  h ← holdingsleep (SLInode ip);
  x ← gets (get_inode ip);
  panic_if (negb h || (i_ref x <? 1)) "iunlock";;
  releasesleep (SLInode ip).

(** ** Inode content *)

Definition bmap (ip : nat) (bn : Z) : K Z :=
  x ← gets (get_inode ip);
  if bn <? NDIRECT then
    let addr := i_addrs x !!! Z.to_nat bn in
    if addr =? 0 then
      addr ← balloc (i_dev x);
      if addr =? 0 then mret 0
      else
        modify (upd_inode ip (λ x, x <| i_addrs ::= <[Z.to_nat bn := addr]> |>));;
        mret addr
    else mret addr
  else
    let bn := bn - NDIRECT in
    if bn <? NINDIRECT then
      addr ← (let addr := i_addrs x !!! Z.to_nat NDIRECT in
              if addr =? 0 then
                addr ← balloc (i_dev x);
                when (negb (addr =? 0))
                  (modify (upd_inode ip (λ x, x <| i_addrs ::= <[Z.to_nat NDIRECT := addr]> |>)));;
                mret addr
              else mret addr);
      if addr =? 0 then mret 0
      else
        bp ← bread (i_dev x) addr;
        data ← buf_data bp;
        let addr := get32 data (4 * Z.to_nat bn) in
        addr ← (if addr =? 0 then
                  addr ← balloc (i_dev x);
                  when (negb (addr =? 0))
                    (upd_data bp (set32 (4 * Z.to_nat bn) addr);;
                     log_write bp);;
                  mret addr
                else mret addr);
        brelse bp;;
        mret addr
    else panic "bmap: out of range".

Definition itrunc (ip : nat) : K unit :=
  mfor (seq 0 (Z.to_nat NDIRECT)) (λ i,
    x ← gets (get_inode ip);
    when (negb (i_addrs x !!! i =? 0))
      (bfree (i_dev x) (i_addrs x !!! i);;
       modify (upd_inode ip (λ x, x <| i_addrs ::= <[i := 0]> |>))));;
  x ← gets (get_inode ip);
  let ind := i_addrs x !!! Z.to_nat NDIRECT in
  when (negb (ind =? 0))
    (bp ← bread (i_dev x) ind;
     mfor (seq 0 (Z.to_nat NINDIRECT)) (λ j,
       data ← buf_data bp;
       when (negb (get32 data (4 * j) =? 0)) (bfree (i_dev x) (get32 data (4 * j))));;
     brelse bp;;
     bfree (i_dev x) ind;;
     modify (upd_inode ip (λ x, x <| i_addrs ::= <[Z.to_nat NDIRECT := 0]> |>)));;
  modify (upd_inode ip (λ x, x <| i_size := 0 |>));;
  iupdate ip.

Definition iput (ip : nat) : K unit :=
  acquire LItable;;
  x ← gets (get_inode ip);
  when ((i_ref x =? 1) && negb (i_valid x =? 0) && (i_nlink x =? 0))
    (acquiresleep (SLInode ip);;
     release LItable;;
     itrunc ip;;
     modify (upd_inode ip (λ x, x <| i_type := 0 |>));;
     iupdate ip;;
     modify (upd_inode ip (λ x, x <| i_valid := 0 |>));;
     releasesleep (SLInode ip);;
     acquire LItable);;
  modify (upd_inode ip (λ x, x <| i_ref ::= λ r, r - 1 |>));;
  release LItable.

Definition iunlockput (ip : nat) : K unit := iunlock ip;; iput ip.

(** struct stat, with the four bytes of padding before [size]. *)
Definition stati (pad : list Z) (ip : nat) : K (list Z) :=
  x ← gets (get_inode ip);
  mret (le_enc 4 (i_dev x) ++ le_enc 4 (i_inum x) ++ le_enc 2 (i_type x) ++ le_enc 2 (i_nlink x)
        ++ pad ++ le_enc 8 (i_size x)).

(** The copy loop of [readi]; [out] collects what a local destination gets. *)
Fixpoint readi_loop (fuel : nat) (ip : nat) (dst : kdst) (off n tot : Z) (out : list Z) : K (Z * list Z) :=
  match fuel with
  | O => diverge
  | S fuel =>
    if tot <? n then
      addr ← bmap ip (off / BSIZE);
      if addr =? 0 then mret (tot, out)
      else
        x ← gets (get_inode ip);
        bp ← bread (i_dev x) addr;
        let m := Z.min (n - tot) (BSIZE - off mod BSIZE) in
        data ← buf_data bp;
        let src := take (Z.to_nat m) (drop (Z.to_nat (off mod BSIZE)) data) in
        r ← either_copyout dst src m;
        brelse bp;;
        if r =? -1 then mret (-1, out)
        else readi_loop fuel ip (kdst_add dst m) (u32 (off + m)) n (tot + m)
               (match dst with DLocal => out ++ src | _ => out end)
    else mret (tot, out)
  end.

(** Every iteration but the first and the last moves a whole block.  The result
    comes with the bytes stored in a local destination. *)
Definition readi (ip : nat) (dst : kdst) (off n : Z) : K (Z * list Z) :=
  x ← gets (get_inode ip);
  if (i_size x <? off) || (u32 (off + n) <? off) then mret (0, [])
  else
    let n := if i_size x <? u32 (off + n) then i_size x - off else n in
    r ← readi_loop (S (S (S (Z.to_nat (n / BSIZE))))) ip dst off n 0 [];
    mret (i32 r.1, r.2).

(** A [copyin] that fails part-way has already stored the bytes it got. *)
Fixpoint writei_loop (fuel : nat) (ip : nat) (src : ksrc) (off n tot : Z) : K (Z * Z) :=
  match fuel with
  | O => diverge
  | S fuel =>
    if tot <? n then
      addr ← bmap ip (off / BSIZE);
      if addr =? 0 then mret (tot, off)
      else
        x ← gets (get_inode ip);
        bp ← bread (i_dev x) addr;
        let m := Z.min (n - tot) (BSIZE - off mod BSIZE) in
        r ← either_copyin src m;
        upd_data bp (splice (Z.to_nat (off mod BSIZE)) r.2);;
        if r.1 =? -1 then brelse bp;; mret (tot, off)
        else
          log_write bp;;
          brelse bp;;
          writei_loop fuel ip (ksrc_add src m) (u32 (off + m)) n (tot + m)
    else mret (tot, off)
  end.

Definition writei (ip : nat) (src : ksrc) (off n : Z) : K Z :=
  x ← gets (get_inode ip);
  if (i_size x <? off) || (u32 (off + n) <? off) then mret (-1)
  else if MAXFILE * BSIZE <? u32 (off + n) then mret (-1)
  else
    r ← writei_loop (S (S (S (Z.to_nat (n / BSIZE))))) ip src off n 0;
    modify (upd_inode ip (λ x, x <| i_size ::= λ s, if s <? r.2 then r.2 else s |>));;
    iupdate ip;;
    mret (i32 r.1).

(** ** Directories *)

Definition namecmp (s t : list Z) : Z := strncmp s t DIRSIZ.

(** One iteration per directory entry from offset [off] on; the result is the
    inode and the offset of its entry ([*poff]). *)
Fixpoint dirlookup_loop (fuel : nat) (dp : nat) (name : list Z) (off : Z) : K (option (nat * Z)) :=
  match fuel with
  | O => diverge
  | S fuel =>
    x ← gets (get_inode dp);
    if off <? i_size x then
      r ← readi dp DLocal off DIRENT_SIZE;
      panic_if (negb (r.1 =? DIRENT_SIZE)) "dirlookup read";;
      if dirent_inum r.2 =? 0 then dirlookup_loop fuel dp name (u32 (off + DIRENT_SIZE))
      else if namecmp name (dirent_name r.2) =? 0 then
        ip ← iget (i_dev x) (dirent_inum r.2);
        mret (Some (ip, off))
      else dirlookup_loop fuel dp name (u32 (off + DIRENT_SIZE))
    else mret None
  end.

Definition dirlookup (dp : nat) (name : list Z) : K (option (nat * Z)) :=
  x ← gets (get_inode dp);
  panic_if (negb (i_type x =? T_DIR)) "dirlookup not DIR";;
  dirlookup_loop (S (S (Z.to_nat (i_size x / DIRENT_SIZE)))) dp name 0.

(** The offset of the first empty entry, or the size of the directory. *)
Fixpoint dirlink_loop (fuel : nat) (dp : nat) (off : Z) : K Z :=
  match fuel with
  | O => diverge
  | S fuel =>
    x ← gets (get_inode dp);
    if off <? i_size x then
      r ← readi dp DLocal off DIRENT_SIZE;
      panic_if (negb (r.1 =? DIRENT_SIZE)) "dirlink read";;
      if dirent_inum r.2 =? 0 then mret off else dirlink_loop fuel dp (off + DIRENT_SIZE)
    else mret off
  end.

Definition dirlink (dp : nat) (name : list Z) (inum : Z) : K Z :=
  r ← dirlookup dp name;
  match r with
  | Some (ip, _) => iput ip;; mret (-1)
  | None =>
    x ← gets (get_inode dp);
    off ← dirlink_loop (S (S (Z.to_nat (i_size x / DIRENT_SIZE)))) dp 0;
    let de := enc_dirent inum (strncpy (replicate (Z.to_nat DIRSIZ) 0) name DIRSIZ) in
    n ← writei dp (SKern de) off DIRENT_SIZE;
    if negb (n =? DIRENT_SIZE) then mret (-1) else mret 0
  end.

End fs.

(** ** Paths *)

Fixpoint skip_slashes (path : list Z) : list Z :=
  match path with
  | c :: rest => if c =? ch "/" then skip_slashes rest else path
  | [] => []
  end.

(** The characters before the next slash or NUL, and the rest. *)
Fixpoint span_elem (path : list Z) : list Z * list Z :=
  match path with
  | c :: rest =>
    if (c =? ch "/") || (c =? 0) then ([], path)
    else let '(e, r) := span_elem rest in (c :: e, r)
  | [] => ([], [])
  end.

(** The rest of the path and the name buffer, or [None] if there is no element.
    A path is a C string; its list may leave out the final NUL. *)
Definition skipelem (path name : list Z) : option (list Z * list Z) :=
  let path := skip_slashes path in
  if byte0 path =? 0 then None
  else
    let '(s, rest) := span_elem path in
    let len := Z.of_nat (length s) in
    let name := if DIRSIZ <=? len then splice 0 (take (Z.to_nat DIRSIZ) s) name
                else splice 0 (s ++ [0]) name in
    Some (skip_slashes rest, name).

Section namex.
Context `{DiskDriver}.

(** Every iteration consumes at least one character of the path.  The result is
    the inode and the name buffer. *)
Fixpoint namex_loop (fuel : nat) (ip : nat) (path : list Z) (nameiparent : bool) (name : list Z)
    : K (option nat * list Z) :=
  match fuel with
  | O => diverge
  | S fuel =>
    match skipelem path name with
    | None =>
      if nameiparent then iput ip;; mret (None, name) else mret (Some ip, name)
    | Some (path, name) =>
      ilock ip;;
      x ← gets (get_inode ip);
      if negb (i_type x =? T_DIR) then iunlockput ip;; mret (None, name)
      else if nameiparent && (byte0 path =? 0) then iunlock ip;; mret (Some ip, name)
      else
        r ← dirlookup ip name;
        match r with
        | None => iunlockput ip;; mret (None, name)
        | Some (nxt, _) => iunlockput ip;; namex_loop fuel nxt path nameiparent name
        end
    end
  end.

Definition namex (path : list Z) (nameiparent : bool) (name : list Z) : K (option nat * list Z) :=
  ip ← (if byte0 path =? ch "/" then iget ROOTDEV ROOTINO
        else
          p ← curproc;
          cwd ← gets (λ k, p_cwd (get_proc p k));
          match cwd with Some ip => idup ip | None => panic "null cwd" end);
  namex_loop (S (length path)) ip path nameiparent name.

(** The local [char name[DIRSIZ]] is never read before it is written. *)
Definition namei (path : list Z) : K (option nat) :=
  r ← namex path false (replicate (Z.to_nat DIRSIZ) 0);
  mret r.1.

Definition nameiparent (path name : list Z) : K (option nat * list Z) := namex path true name.

End namex.
