(* ===== verification/FsSpec.v ===== *)
(** * Block allocation

    fs.c on top of the transactions of TxnSpec.v: what the operations do to the
    contents of the disk's blocks as the file system sees them, [t_view]. *)

From S2P Require Import Prelude Memory CString Kernel Kalloc Vm Sched Sleeplock Bio BufList BioSpec Log LogSpec LogGroup.
From S2P Require Import TxnSpec Uart Printf Copy Fs.

(** ** The free bitmap *)

Definition bit_of (data : list Z) (i : Z) : bool := Z.testbit (data !!! Z.to_nat (i / 8)) (i mod 8).

Definition set_bit (i : Z) (data : list Z) : list Z :=
  alter (λ x, Z.lor x (Z.shiftl 1 (i mod 8))) (Z.to_nat (i / 8)) data.
Definition reset_bit (i : Z) (data : list Z) : list Z :=
  alter (λ x, u8 (Z.land x (Z.lnot (Z.shiftl 1 (i mod 8))))) (Z.to_nat (i / 8)) data.

(** The bitmap says that block [n] is in use. *)
Definition used (V : Z → list Z) (sb : superblock) (n : Z) : bool := bit_of (V (BBLOCK n sb)) (n mod BPB).

Definition first_free (V : Z → list Z) (sb : superblock) (n : Z) : Prop :=
  0 <= n < sb_size sb ∧ used V sb n = false ∧ ∀ n', 0 <= n' < n → used V sb n' = true.

(** The first data block; the blocks before it hold the boot block, the
    superblock, the log, the inodes and the bitmap. *)
Definition dstart (sb : superblock) : Z := sb_size sb - sb_nblocks sb.

(** A disk of less than 2^30 blocks with its inodes and its bitmap before the
    data blocks, as mkfs lays it out. *)
Record sb_ok (sb : superblock) : Prop := {
  so_size : 0 <= sb_size sb < 2 ^ 30;
  so_bmap : 0 <= sb_bmapstart sb;
  so_inode : 0 <= sb_inodestart sb;
  so_bmap_end : sb_bmapstart sb + sb_size sb / BPB < dstart sb;
  so_inode_end : sb_inodestart sb + sb_ninodes sb / IPB < sb_bmapstart sb;
  so_dstart : dstart sb <= sb_size sb
}.

Lemma land_bit x j : 0 <= j → (Z.land x (Z.shiftl 1 j) =? 0) = negb (Z.testbit x j).
Proof.
  intros Hj. rewrite Z.shiftl_1_l. destruct (Z.eqb_spec (Z.land x (2 ^ j)) 0) as [E|E].
  - apply (f_equal (λ y, Z.testbit y j)) in E. rewrite Z.land_spec, Z.pow2_bits_true, Z.bits_0, andb_true_r in E by done.
    by rewrite E.
  - destruct (Z.testbit x j) eqn:Eb; [done|]. exfalso. apply E. apply Z.bits_inj'. intros i Hi.
    rewrite Z.land_spec, Z.bits_0. destruct (decide (i = j)) as [->|]; [by rewrite Eb|].
    by rewrite Z.pow2_bits_false, andb_false_r.
Qed.

Lemma bit_index i : 0 <= i → i = 8 * (i / 8) + i mod 8 ∧ 0 <= i mod 8 < 8 ∧ 0 <= i / 8.
Proof.
  intros. pose proof (Z.div_mod i 8 ltac:(done)). pose proof (Z.mod_pos_bound i 8 ltac:(done)).
  assert (0 <= i / 8) by (by apply Z.div_pos). lia.
Qed.

Lemma length_set_bit i data : length (set_bit i data) = length data.
Proof. apply length_alter. Qed.

Lemma length_reset_bit i data : length (reset_bit i data) = length data.
Proof. apply length_alter. Qed.

(** Setting a bit sets that bit and no other. *)
Lemma bit_of_set_bit i j data :
  0 <= i < 8 * Z.of_nat (length data) → 0 <= j →
  bit_of (set_bit i data) j = if decide (j = i) then true else bit_of data j.
Proof.
  intros Hi Hj. destruct (bit_index i ltac:(lia)) as (Ei & Hi8 & Hid), (bit_index j Hj) as (Ej & Hj8 & Hjd).
  unfold bit_of, set_bit. destruct (decide (j / 8 = i / 8)) as [E|E].
  - rewrite E, list_lookup_total_alter_eq by lia. rewrite Z.lor_spec, Z.shiftl_1_l.
    destruct (decide (j = i)) as [->|Hne]; [by rewrite Z.pow2_bits_true, orb_true_r by lia|].
    by rewrite Z.pow2_bits_false, orb_false_r by lia.
  - rewrite list_lookup_total_alter_ne by lia. by rewrite decide_False by congruence.
Qed.

Lemma bit_of_reset_bit i j data :
  0 <= i < 8 * Z.of_nat (length data) → 0 <= j →
  bit_of (reset_bit i data) j = if decide (j = i) then false else bit_of data j.
Proof.
  intros Hi Hj. destruct (bit_index i ltac:(lia)) as (Ei & Hi8 & Hid), (bit_index j Hj) as (Ej & Hj8 & Hjd).
  unfold bit_of, reset_bit. destruct (decide (j / 8 = i / 8)) as [E|E].
  - rewrite E, list_lookup_total_alter_eq by lia. unfold u8. change 256 with (2 ^ 8).
    rewrite Z.mod_pow2_bits_low, Z.land_spec, Z.lnot_spec, Z.shiftl_1_l by lia.
    destruct (decide (j = i)) as [->|Hne]; [by rewrite Z.pow2_bits_true, andb_false_r by lia|].
    by rewrite Z.pow2_bits_false, andb_true_r by lia.
  - rewrite list_lookup_total_alter_ne by lia. by rewrite decide_False by congruence.
Qed.

(** The inner loop of [balloc]. *)
Lemma scan_bitmap_spec n data b bi size :
  0 <= b → 0 <= bi → b + bi + Z.of_nat n < 2 ^ 32 →
  match scan_bitmap n data b bi size with
  | Some i => bi <= i < bi + Z.of_nat n ∧ b + i < size ∧ bit_of data i = false
              ∧ ∀ j, bi <= j < i → bit_of data j = true
  | None => ∀ j, bi <= j < bi + Z.of_nat n → b + j < size → bit_of data j = true
  end.
Proof.
  revert bi. induction n as [|n IH]; intros bi Hb Hbi Hr; cbn [scan_bitmap]; [intros; lia|].
  rewrite u32_small by lia. destruct (Z.ltb_spec (b + bi) size) as [Hlt|Hge]; [|intros; lia].
  destruct (bit_index bi Hbi) as (_ & H8 & _). rewrite land_bit by lia. fold (bit_of data bi).
  destruct (bit_of data bi) eqn:Eb; cbn [negb].
  - specialize (IH (bi + 1) Hb ltac:(lia) ltac:(lia)). destruct (scan_bitmap n data b (bi + 1) size) as [i|].
    + destruct IH as (I1 & I2 & I3 & I4). repeat split; try done; try lia. intros j Hj.
      destruct (decide (j = bi)) as [->|]; [done|]. apply I4. lia.
    + intros j Hj Hs. destruct (decide (j = bi)) as [->|]; [done|]. apply IH; lia.
  - repeat split; try done; lia.
Qed.

(** ** Composite steps on blocks *)

(** A block read, changed, logged and given back. *)
Definition t_update (n : Z) (data : list Z) (T : tstate) : tstate :=
  MkT (<[n := data]> (t_view T)) (t_disk T) (t_hist T) ({[n]} ∪ t_logged T) (t_open T) (t_dirty T) (t_out T).

Lemma close_opened n b T : t_open T !! n = None → t_close n (t_opened n b T) = T.
Proof. intros. destruct T as [v d h l o di ou]. unfold t_close, t_opened. simpl in *. by rewrite delete_insert_id. Qed.

Lemma update_opened n b data T :
  t_open T !! n = None → n ∉ t_dirty T →
  t_close n (t_log n (t_store n data (t_opened n b T))) = t_update n data T.
Proof.
  intros. destruct T as [v d h l o di ou]. unfold t_close, t_log, t_store, t_opened, t_update. simpl in *.
  rewrite delete_insert_id by done. f_equal. set_solver.
Qed.

(** How many more blocks the transaction may take. *)
Definition room (sz : Z) (k : nat) (T : tstate) : Prop :=
  1 <= t_out T ∧ Z.of_nat (size (t_logged T) + k) <= Z.min LOGSIZE (sz - 1).

(** How many more buffers the thread may hold at once. *)
Definition buffers (k : nat) (T : tstate) : Prop := (size (t_busy T) + k <= HEAD)%nat.

Lemma room_update sz k n data T : room sz (S k) T → room sz k (t_update n data T).
Proof.
  unfold room, t_update. simpl. intros H. pose proof (size_union_alt {[n]} (t_logged T)) as E.
  pose proof (subseteq_size (t_logged T ∖ {[n]}) (t_logged T) ltac:(set_solver)) as E2.
  rewrite size_singleton in E. lia.
Qed.

Lemma buffers_update k n data T : buffers (S k) T → buffers k (t_update n data T).
Proof.
  unfold buffers, t_busy, t_update. simpl. intros H. rewrite <- union_assoc_L.
  pose proof (size_union_alt {[n]} (t_logged T ∪ dom (t_open T))) as E.
  pose proof (subseteq_size ((t_logged T ∪ dom (t_open T)) ∖ {[n]}) (t_logged T ∪ dom (t_open T)) ltac:(set_solver)) as E2.
  rewrite size_singleton in E. lia.
Qed.

Lemma room_le sz j k T : (j <= k)%nat → room sz k T → room sz j T.
Proof. unfold room. intros Hj [H1 H2]. split; [done|lia]. Qed.

Lemma buffers_le j k T : (j <= k)%nat → buffers k T → buffers j T.
Proof. unfold buffers. lia. Qed.

Section blocks.
Context `{DS : DiskSpec} (p : nat) (pid sz : Z).
Notation txn := (txn p pid sz).

Lemma buf_data_txn T F m n b w :
  txn T F m w → t_open T !! n = Some b → buf_data b w = Ok (t_view T n) w.
Proof. intros Ht Ho. unfold buf_data, gets. by destruct (open_data _ _ _ _ _ _ _ _ _ Ht Ho) as [-> _]. Qed.

(** From [bread] on: change, [log_write], [brelse]. *)
Lemma finish_update T F m n b f w :
  txn (t_opened n b T) F m w → t_open T !! n = None → n ∉ t_dirty T → room sz 1 T →
  length (f (t_view T n)) = Z.to_nat BSIZE →
  ∃ w', (upd_data b f;; log_write b;; brelse b) w = Ok () w'
    ∧ (∀ A (c : K A), (upd_data b f;; log_write b;; brelse b;; c) w = c w')
    ∧ txn (t_update n (f (t_view T n)) T) F m w'.
Proof.
  intros Ht Ho Hd Hr Hl. assert (t_open (t_opened n b T) !! n = Some b) as Ho1 by apply lookup_insert_eq.
  destruct (store_txn p pid sz _ F m n b f w Ht Ho1 Hl) as (w1 & E1 & Ht1).
  destruct (log_write_txn p pid sz _ F m n b w1 Ht1 Ho1) as (w2 & E2 & Ht2); [apply Hr|unfold room in Hr; simpl; lia|].
  destruct (brelse_txn p pid sz _ F m n b w2 Ht2 Ho1) as (w3 & E3 & Ht3); [simpl; set_solver|].
  exists w3. unfold upd_data. rewrite (bind_ok _ _ _ _ _ E1), (bind_ok _ _ _ _ _ E2). split; [done|]. split.
  { intros A c. by rewrite (bind_ok _ _ _ _ _ E1), (bind_ok _ _ _ _ _ E2), (bind_ok _ _ _ _ _ E3). }
  by rewrite update_opened in Ht3.
Qed.

(** [bread] and [brelse] of a block that is not changed. *)
Lemma finish_read T F m n b w :
  txn (t_opened n b T) F m w → t_open T !! n = None → n ∉ t_dirty T →
  ∃ w', brelse b w = Ok () w' ∧ txn T F m w'.
Proof.
  intros Ht Ho Hd. destruct (brelse_txn p pid sz _ F m n b w Ht) as (w3 & E3 & Ht3); [apply lookup_insert_eq|done|].
  exists w3. split; [done|]. by rewrite close_opened in Ht3.
Qed.

Lemma bzero_spec T F m n w :
  txn T F (S m) w → 0 <= n < 2 ^ 31 → t_open T !! n = None → n ∉ t_dirty T → room sz 1 T → buffers 1 T →
  ∃ w', bzero ROOTDEV n w = Ok () w' ∧ txn (t_update n (replicate (Z.to_nat BSIZE) 0) T) F m w'.
Proof.
  intros Ht Hn Ho Hd Hr Hb. unfold bzero. rewrite (u32_small ROOTDEV), (u32_small n) by (unfold ROOTDEV; lia).
  destruct (bread_txn p pid sz T F m n w Ht Hn Ho) as (b & w1 & E1 & Ht1); [right; unfold buffers in Hb; lia|].
  rewrite (bind_ok _ _ _ _ _ E1).
  destruct (finish_update T F m n b (λ _, replicate (Z.to_nat BSIZE) 0) w1) as (w2 & E2 & _ & Ht2);
    [done|done|done|done|by rewrite length_replicate|].
  by exists w2.
Qed.

Lemma txn_sb T F m w : txn T F m w → k_sb (ks w) = k_sb F.
Proof. intros Ht. by rewrite <- (tx_frame _ _ _ _ _ _ _ Ht). Qed.

(** No bitmap block is open or half changed. *)
Definition bitmap_closed (sb : superblock) (T : tstate) : Prop :=
  ∀ n, 0 <= n < sb_size sb → t_open T !! BBLOCK n sb = None ∧ BBLOCK n sb ∉ t_dirty T.

Lemma BBLOCK_range sb n : sb_ok sb → 0 <= n < sb_size sb → 0 <= BBLOCK n sb < dstart sb ∧ dstart sb < 2 ^ 31.
Proof.
  intros [H1 H2 _ H3 _ H4] Hn. unfold BBLOCK. assert (0 <= n / BPB <= sb_size sb / BPB) as Hd.
  { split; [apply Z.div_pos; [lia|done]|]. apply Z.div_le_mono; [done|lia]. }
  rewrite u32_small by lia. lia.
Qed.

(** The blocks whose bits are in bitmap block [k]. *)
Lemma bitmap_block sb k n : BPB * k <= n < BPB * (k + 1) → BBLOCK n sb = BBLOCK (BPB * k) sb ∧ n mod BPB = n - BPB * k.
Proof.
  intros Hn. assert (n / BPB = k) as E by (symmetry; apply (Z.div_unique n BPB k (n - BPB * k)); [left|]; lia).
  unfold BBLOCK. rewrite E. rewrite (Z.mul_comm BPB k), Z.div_mul by done. split; [done|].
  rewrite Z.mod_eq, E by done. lia.
Qed.

(** [balloc]'s effect: the bit is set, then the block is zeroed. *)
Definition t_alloc (sb : superblock) (n : Z) (T : tstate) : tstate :=
  t_update n (replicate (Z.to_nat BSIZE) 0)
    (t_update (BBLOCK n sb) (set_bit (n mod BPB) (t_view T (BBLOCK n sb))) T).

Lemma balloc_loop_found sb n k fuel T F m w :
  txn T F (m + (Z.to_nat (n / BPB - k) + 2)) w → k_sb F = sb → sb_ok sb → bitmap_closed sb T →
  first_free (t_view T) sb n → t_open T !! n = None → n ∉ t_dirty T → room sz 2 T → buffers 2 T →
  0 <= k → BPB * k <= n → (Z.to_nat (n / BPB - k) < fuel)%nat →
  ∃ w', balloc_loop fuel ROOTDEV (BPB * k) w = Ok n w' ∧ txn (t_alloc sb n T) F m w'.
Proof.
  revert k w. induction fuel as [|fuel IH]; intros k w Ht Esb Hsb Hcl Hff Ho Hd Hr Hb Hk Hkn Hfuel; [lia|].
  cbn [balloc_loop]. erewrite bind_ok by reflexivity. rewrite (txn_sb _ _ _ _ Ht), Esb.
  pose proof Hff as ([Hn0 Hns] & Hnf & Hbelow). pose proof (so_size _ Hsb) as Hss.
  rewrite u32_small by (unfold BPB, BSIZE in *; lia).
  destruct (Z.ltb_spec (BPB * k) (sb_size sb)) as [Hlt|]; [|lia].
  destruct (Hcl (BPB * k)) as [Hob Hdb]; [unfold BPB, BSIZE in *; lia|].
  assert (0 <= BBLOCK (BPB * k) sb < 2 ^ 31) as Hbr.
  { pose proof (BBLOCK_range sb (BPB * k) Hsb ltac:(unfold BPB, BSIZE in *; lia)). lia. }
  replace (m + (Z.to_nat (n / BPB - k) + 2))%nat with (S (m + (Z.to_nat (n / BPB - k) + 1)))%nat in Ht by lia.
  destruct (bread_txn p pid sz T F _ _ w Ht Hbr Hob) as (b & w1 & E1 & Ht1); [right; unfold buffers in Hb; lia|].
  rewrite (bind_ok _ _ _ _ _ E1), (bind_ok _ _ _ _ _ (buf_data_txn _ _ _ _ _ _ Ht1 (lookup_insert_eq _ _ _))).
  change (t_view (t_opened (BBLOCK (BPB * k) sb) b T)) with (t_view T).
  set (data := t_view T (BBLOCK (BPB * k) sb)).
  pose proof (scan_bitmap_spec (Z.to_nat BPB) data (BPB * k) 0 (sb_size sb) ltac:(unfold BPB, BSIZE in *; lia) ltac:(lia)
    ltac:(unfold BPB, BSIZE in *; lia)) as Hscan.
  assert (∀ n', BPB * k <= n' < BPB * (k + 1) → used (t_view T) sb n' = bit_of data (n' - BPB * k)) as Hused.
  { intros n' Hn'. unfold used. by destruct (bitmap_block sb k n' Hn') as [-> ->]. }
  assert (Z.of_nat (Z.to_nat BPB) = BPB) as EB by (by rewrite Z2Nat.id).
  destruct (scan_bitmap (Z.to_nat BPB) data (BPB * k) 0 (sb_size sb)) as [i|].
  - destruct Hscan as (Hi & His & Hif & Hil). rewrite EB in Hi.
    assert (n = BPB * k + i) as ->.
    { destruct (Z.lt_trichotomy n (BPB * k + i)) as [Hl|[->|Hl]]; [|done|].
      - exfalso. rewrite Hused in Hnf by lia. rewrite Hil in Hnf by lia. done.
      - exfalso. specialize (Hbelow (BPB * k + i) ltac:(lia)). rewrite Hused in Hbelow by lia.
        replace (BPB * k + i - BPB * k) with i in Hbelow by lia. congruence. }
    destruct (bitmap_block sb k (BPB * k + i) ltac:(lia)) as [EBB EBm].
    assert (i = (BPB * k + i) mod BPB) as Ei by (rewrite EBm; lia).
    destruct (finish_update T F _ _ b (set_bit i) w1 Ht1 Hob Hdb) as (w2 & _ & E2 & Ht2).
    { unfold room in *. lia. }
    { rewrite length_set_bit. apply (view_length _ _ _ _ _ _ _ _ Ht). }
    unfold set_bit in E2. rewrite E2.
    replace (m + (Z.to_nat ((BPB * k + i) / BPB - k) + 1))%nat with (S m) in Ht2.
    2:{ replace ((BPB * k + i) / BPB) with k; [lia|]. apply (Z.div_unique _ BPB k i); [left|]; lia. }
    destruct (bzero_spec _ F m (BPB * k + i) w2 Ht2) as (w3 & E3 & Ht3);
      [lia|done|done|by apply room_update|by apply buffers_update|].
    rewrite (bind_ok _ _ _ _ _ E3). exists w3. split; [unfold mret, K_ret; by rewrite u32_small by lia|].
    unfold t_alloc. rewrite EBB, <- Ei. exact Ht3.
  - destruct (finish_read T F _ _ b w1 Ht1 Hob Hdb) as (w2 & E2 & Ht2). rewrite (bind_ok _ _ _ _ _ E2).
    assert (BPB * (k + 1) <= n) as Hnext.
    { destruct (Z.le_gt_cases (BPB * (k + 1)) n) as [|Hg]; [done|]. exfalso. rewrite Hused in Hnf by lia.
      rewrite Hscan in Hnf by lia. done. }
    assert (k + 1 <= n / BPB) as Hq by (apply Z.div_le_lower_bound; [done|lia]).
    replace (BPB * k + BPB) with (BPB * (k + 1)) by lia.
    apply IH; try done; try lia.
    replace (m + (Z.to_nat (n / BPB - (k + 1)) + 2))%nat with (m + (Z.to_nat (n / BPB - k) + 1))%nat by lia. done.
Qed.

(** No free block: the loop reads the whole bitmap and reports. *)
Lemma balloc_loop_full sb k fuel T F m w :
  txn T F (m + fuel) w → k_sb F = sb → sb_ok sb → bitmap_closed sb T → buffers 1 T →
  (∀ n, 0 <= n < sb_size sb → used (t_view T) sb n = true) →
  0 <= k <= sb_size sb / BPB + 1 → (Z.to_nat (sb_size sb / BPB + 1 - k) < fuel)%nat →
  ∃ w', balloc_loop fuel ROOTDEV (BPB * k) w = (printf (str "balloc: out of blocks" ++ [10]) [];; mret 0) w'
    ∧ txn T F m w'.
Proof.
  revert k w. induction fuel as [|fuel IH]; intros k w Ht Esb Hsb Hcl Hb Hall Hk Hfuel; [lia|].
  cbn [balloc_loop]. erewrite bind_ok by reflexivity. rewrite (txn_sb _ _ _ _ Ht), Esb.
  pose proof (so_size _ Hsb) as Hss. pose proof (Z.div_mod (sb_size sb) BPB ltac:(done)) as Hdm.
  pose proof (Z.mod_pos_bound (sb_size sb) BPB ltac:(done)) as Hmb.
  rewrite u32_small by (unfold BPB, BSIZE in *; lia).
  destruct (Z.ltb_spec (BPB * k) (sb_size sb)) as [Hlt|].
  2:{ exists w. split; [done|]. eapply txn_le; [|done]. lia. }
  destruct (Hcl (BPB * k)) as [Hob Hdb]; [unfold BPB, BSIZE in *; lia|].
  assert (0 <= BBLOCK (BPB * k) sb < 2 ^ 31) as Hbr.
  { pose proof (BBLOCK_range sb (BPB * k) Hsb ltac:(unfold BPB, BSIZE in *; lia)). lia. }
  replace (m + S fuel)%nat with (S (m + fuel))%nat in Ht by lia.
  destruct (bread_txn p pid sz T F _ _ w Ht Hbr Hob) as (b & w1 & E1 & Ht1); [right; unfold buffers in Hb; lia|].
  rewrite (bind_ok _ _ _ _ _ E1), (bind_ok _ _ _ _ _ (buf_data_txn _ _ _ _ _ _ Ht1 (lookup_insert_eq _ _ _))).
  change (t_view (t_opened (BBLOCK (BPB * k) sb) b T)) with (t_view T).
  set (data := t_view T (BBLOCK (BPB * k) sb)).
  pose proof (scan_bitmap_spec (Z.to_nat BPB) data (BPB * k) 0 (sb_size sb) ltac:(unfold BPB, BSIZE in *; lia) ltac:(lia)
    ltac:(unfold BPB, BSIZE in *; lia)) as Hscan.
  assert (Z.of_nat (Z.to_nat BPB) = BPB) as EB by (by rewrite Z2Nat.id).
  destruct (scan_bitmap (Z.to_nat BPB) data (BPB * k) 0 (sb_size sb)) as [i|].
  { exfalso. destruct Hscan as (Hi & His & Hif & _). rewrite EB in Hi.
    specialize (Hall (BPB * k + i) ltac:(unfold BPB, BSIZE in *; lia)). unfold used in Hall.
    destruct (bitmap_block sb k (BPB * k + i) ltac:(lia)) as [EBB EBm]. rewrite EBB, EBm in Hall.
    replace (BPB * k + i - BPB * k) with i in Hall by lia. fold data in Hall. congruence. }
  destruct (finish_read T F _ _ b w1 Ht1 Hob Hdb) as (w2 & E2 & Ht2). rewrite (bind_ok _ _ _ _ _ E2).
  replace (BPB * k + BPB) with (BPB * (k + 1)) by lia.
  assert (k <= sb_size sb / BPB) by (apply Z.div_le_lower_bound; [done|lia]).
  apply IH; try done; lia.
Qed.

Lemma bfree_spec sb n T F m w :
  txn T F (S m) w → k_sb F = sb → sb_ok sb → 0 <= n < sb_size sb → bitmap_closed sb T → room sz 1 T → buffers 1 T →
  if used (t_view T) sb n then
    ∃ w', bfree ROOTDEV n w = Ok () w'
      ∧ txn (t_update (BBLOCK n sb) (reset_bit (n mod BPB) (t_view T (BBLOCK n sb))) T) F m w'
  else bfree ROOTDEV n w = Panic "freeing free block".
Proof.
  intros Ht Esb Hsb Hn Hcl Hr Hb. destruct (Hcl n Hn) as [Hob Hdb]. assert (0 <= BBLOCK n sb < 2 ^ 31) as Hbr by (pose proof (BBLOCK_range sb n Hsb Hn); lia).
  assert (∀ x, bfree ROOTDEV n w = x ↔ (bp ← bread ROOTDEV (BBLOCK n sb);
     let bi := n mod BPB in
     let m := Z.shiftl 1 (bi mod 8) in
     data ← buf_data bp;
     panic_if (Z.land (data !!! Z.to_nat (bi / 8)) m =? 0) "freeing free block";;
     upd_data bp (reset_bit bi);; log_write bp;; brelse bp) w = x) as Hx.
  { intros x. unfold bfree. erewrite bind_ok by reflexivity. rewrite (txn_sb _ _ _ _ Ht), Esb. done. }
  destruct (bread_txn p pid sz T F m _ w Ht Hbr Hob) as (b & w1 & E1 & Ht1); [right; unfold buffers in Hb; lia|].
  pose proof (Z.mod_pos_bound n BPB ltac:(done)) as Hmb. destruct (bit_index (n mod BPB) ltac:(lia)) as (_ & H8 & _).
  assert ((Z.land (t_view T (BBLOCK n sb) !!! Z.to_nat (n mod BPB / 8)) (Z.shiftl 1 ((n mod BPB) mod 8)) =? 0)
    = negb (used (t_view T) sb n)) as Eu by (by rewrite land_bit by lia).
  destruct (used (t_view T) sb n) eqn:Hu.
  - destruct (finish_update T F m _ b (reset_bit (n mod BPB)) w1 Ht1 Hob Hdb Hr) as (w2 & E2 & _ & Ht2).
    { rewrite length_reset_bit. apply (view_length _ _ _ _ _ _ _ _ Ht). }
    exists w2. split; [|done]. apply Hx.
    rewrite (bind_ok _ _ _ _ _ E1). cbv zeta.
    rewrite (bind_ok _ _ _ _ _ (buf_data_txn _ _ _ _ _ _ Ht1 (lookup_insert_eq _ _ _))).
    change (t_view (t_opened (BBLOCK n sb) b T)) with (t_view T). rewrite Eu. erewrite bind_ok by reflexivity. exact E2.
  - apply Hx. rewrite (bind_ok _ _ _ _ _ E1). cbv zeta.
    rewrite (bind_ok _ _ _ _ _ (buf_data_txn _ _ _ _ _ _ Ht1 (lookup_insert_eq _ _ _))).
    change (t_view (t_opened (BBLOCK n sb) b T)) with (t_view T). by rewrite Eu.
Qed.
End blocks.

(** ** Allocation and the contents of the other blocks *)

(** The blocks before the data blocks are all marked in use. *)
Definition meta_used (V : Z → list Z) (sb : superblock) : Prop :=
  ∀ n, 0 <= n < dstart sb → used V sb n = true.

Definition blocks_ok (V : Z → list Z) : Prop := ∀ n, length (V n) = Z.to_nat BSIZE.

Lemma used_update_other V sb n b data :
  (∀ n', 0 <= n' < sb_size sb → BBLOCK n' sb ≠ b) → 0 <= n < sb_size sb →
  used (<[b := data]> V) sb n = used V sb n.
Proof. intros Hb Hn. unfold used. rewrite fn_lookup_insert_ne; [done|]. intros E. by apply (Hb n). Qed.

Lemma bitmap_same sb n n' :
  sb_ok sb → 0 <= n < sb_size sb → 0 <= n' < sb_size sb → BBLOCK n sb = BBLOCK n' sb → n mod BPB = n' mod BPB → n = n'.
Proof.
  intros Hsb Hn Hn' E1 E2. assert (∀ x, 0 <= x < sb_size sb → BBLOCK x sb = x / BPB + sb_bmapstart sb) as Eb.
  { intros x Hx. unfold BBLOCK. destruct Hsb as [H1 H2 _ H3 _ H4].
    assert (0 <= x / BPB <= sb_size sb / BPB) by (split; [apply Z.div_pos; [lia|done]|apply Z.div_le_mono; [done|lia]]).
    apply u32_small. lia. }
  rewrite !Eb in E1 by done. pose proof (Z.div_mod n BPB ltac:(done)). pose proof (Z.div_mod n' BPB ltac:(done)).
  assert (n / BPB = n' / BPB) by lia. congruence.
Qed.

(** Changing the bit of block [n] changes no other bit. *)
Lemma used_set_bit V sb n n' (f : Z → list Z → list Z) (v : bool) :
  (∀ i j data, 0 <= i < 8 * Z.of_nat (length data) → 0 <= j →
     bit_of (f i data) j = if decide (j = i) then v else bit_of data j) →
  sb_ok sb → blocks_ok V → 0 <= n < sb_size sb → 0 <= n' < sb_size sb →
  used (<[BBLOCK n sb := f (n mod BPB) (V (BBLOCK n sb))]> V) sb n' = if decide (n' = n) then v else used V sb n'.
Proof.
  intros Hf Hsb Hlen Hn Hn'. unfold used. pose proof (Z.mod_pos_bound n BPB ltac:(done)) as Hm.
  pose proof (Z.mod_pos_bound n' BPB ltac:(done)) as Hm'.
  assert (8 * Z.of_nat (length (V (BBLOCK n sb))) = BPB) as El by (rewrite Hlen; done).
  destruct (decide (BBLOCK n' sb = BBLOCK n sb)) as [E|E].
  - rewrite E, fn_lookup_insert, Hf by lia. destruct (decide (n' mod BPB = n mod BPB)) as [E2|E2].
    + rewrite decide_True; [done|]. by apply (bitmap_same sb).
    + by rewrite decide_False by congruence.
  - rewrite fn_lookup_insert_ne by done. by rewrite decide_False by congruence.
Qed.

Section alloc.
Context (sb : superblock) (n : Z) (T : tstate).
Hypothesis Hsb : sb_ok sb.
Hypothesis Hlen : blocks_ok (t_view T).
Hypothesis Hmeta : meta_used (t_view T) sb.
Hypothesis Hff : first_free (t_view T) sb n.

Lemma first_free_data : dstart sb <= n < sb_size sb.
Proof.
  destruct Hff as (Hn & Hf & _). split; [|lia]. destruct (Z.le_gt_cases (dstart sb) n) as [|Hg]; [done|].
  rewrite Hmeta in Hf by lia. done.
Qed.

Lemma alloc_view_new : t_view (t_alloc sb n T) n = replicate (Z.to_nat BSIZE) 0.
Proof. apply fn_lookup_insert. Qed.

(** No data block but the new one changes. *)
Lemma alloc_view_old b : b ≠ n → dstart sb <= b → t_view (t_alloc sb n T) b = t_view T b.
Proof.
  intros Hb Hd. unfold t_alloc, t_update. cbn [t_view]. rewrite fn_lookup_insert_ne by done. apply fn_lookup_insert_ne.
  pose proof first_free_data. pose proof (BBLOCK_range sb n Hsb) as Hr. destruct Hff as (? & _). specialize (Hr ltac:(lia)). lia.
Qed.

Lemma alloc_used n' : 0 <= n' < sb_size sb → used (t_view (t_alloc sb n T)) sb n' = if decide (n' = n) then true else used (t_view T) sb n'.
Proof.
  intros Hn'. pose proof first_free_data as Hd. pose proof (proj1 Hff) as Hn. unfold t_alloc, t_update. cbn [t_view].
  rewrite used_update_other; [|intros m Hm; pose proof (BBLOCK_range sb m Hsb Hm); lia|done].
  apply (used_set_bit _ _ _ _ set_bit true bit_of_set_bit); done.
Qed.

Lemma alloc_blocks_ok : blocks_ok (t_view (t_alloc sb n T)).
Proof.
  intros b. unfold t_alloc, t_update. cbn [t_view]. destruct (decide (b = n)) as [->|].
  { rewrite fn_lookup_insert. apply length_replicate. }
  rewrite fn_lookup_insert_ne by done. destruct (decide (b = BBLOCK n sb)) as [->|].
  - rewrite fn_lookup_insert, length_set_bit. apply Hlen.
  - rewrite fn_lookup_insert_ne by done. apply Hlen.
Qed.

Lemma alloc_meta_used : meta_used (t_view (t_alloc sb n T)) sb.
Proof.
  intros n' Hn'. destruct Hsb as [? _ _ _ _ ?]. rewrite alloc_used by lia. case_decide; [done|]. by apply Hmeta.
Qed.
End alloc.

(** At least [k] blocks are free. *)
Definition free_blocks (V : Z → list Z) (sb : superblock) (k : nat) : Prop :=
  ∃ X : gset Z, (k <= size X)%nat ∧ ∀ n, n ∈ X → 0 <= n < sb_size sb ∧ used V sb n = false.

Lemma free_blocks_first V sb k : free_blocks V sb (S k) → ∃ n, first_free V sb n.
Proof.
  intros (X & Hk & HX). assert (size X ≠ 0%nat) as Hne by lia.
  apply size_non_empty_iff, set_choose in Hne as [n Hn]. destruct (HX n Hn) as [Hns Hu].
  assert (∀ j : nat, (∃ n, first_free V sb n) ∨ ∀ n, 0 <= n < Z.of_nat j → n < sb_size sb → used V sb n = true) as Hscan.
  { induction j as [|j [IH|IH]]; [right; intros; lia|by left|].
    destruct (decide (Z.of_nat j < sb_size sb)) as [Hj|Hj]; [|right; intros; apply IH; lia].
    destruct (used V sb (Z.of_nat j)) eqn:Eu.
    - right. intros n' Hn' Hs. destruct (decide (n' = Z.of_nat j)) as [->|]; [done|]. apply IH; lia.
    - left. exists (Z.of_nat j). split; [lia|]. split; [done|]. intros n' Hn'. apply IH; lia. }
  destruct (Hscan (S (Z.to_nat n))) as [|Hno]; [done|]. rewrite Hno in Hu by lia. done.
Qed.

Lemma free_blocks_le V sb j k : (j <= k)%nat → free_blocks V sb k → free_blocks V sb j.
Proof. intros Hj (X & Hk & HX). exists X. split; [lia|done]. Qed.

(** Allocation takes one of them. *)
Lemma free_blocks_alloc sb n T k :
  sb_ok sb → blocks_ok (t_view T) → meta_used (t_view T) sb → first_free (t_view T) sb n →
  free_blocks (t_view T) sb (S k) → free_blocks (t_view (t_alloc sb n T)) sb k.
Proof.
  intros Hsb Hlen Hm Hff (X & Hk & HX). exists (X ∖ {[n]}). split.
  - pose proof (size_difference_alt X {[n]}) as E. pose proof (subseteq_size (X ∩ {[n]}) {[n]} ltac:(set_solver)) as E2.
    rewrite size_singleton in E2. lia.
  - intros x Hx. destruct (HX x ltac:(set_solver)) as [X1 X2]. split; [done|].
    rewrite alloc_used by done. by rewrite decide_False by set_solver.
Qed.


(** ** Theorems *)

(** Disk reads that [balloc] may take. *)
Definition balloc_reads (sb : superblock) : nat := (Z.to_nat (sb_size sb / BPB) + 2)%nat.

Section theorems.
Context `{DS : DiskSpec} (p : nat) (pid sz : Z).

(** [balloc] inside a transaction returns the first block that the bitmap
    says is free.  It marks that block, and no other, in use, zeroes it, changes
    no other data block, and leaves the disk itself alone: everything is in the
    transaction.  If every block is in use it goes through the whole bitmap,
    changes nothing, reports and returns 0. *)
Theorem balloc_first_free (T : tstate) (F : kstate) (m : nat) (w : world) :
  let sb := k_sb F in
  txn p pid sz T F (m + balloc_reads sb) w → sb_ok sb → bitmap_closed sb T → t_dirty T = ∅ →
  meta_used (t_view T) sb → room sz 2 T → buffers 2 T →
  (∀ n, first_free (t_view T) sb n → t_open T !! n = None →
     ∃ w' T', balloc ROOTDEV w = Ok n w' ∧ txn p pid sz T' F m w'
       ∧ t_view T' n = replicate (Z.to_nat BSIZE) 0
       ∧ (∀ b, dstart sb <= b → b ≠ n → t_view T' b = t_view T b)
       ∧ (∀ n', 0 <= n' < sb_size sb → used (t_view T') sb n' = if decide (n' = n) then true else used (t_view T) sb n')
       ∧ t_disk T' = t_disk T ∧ t_hist T' = t_hist T ∧ t_open T' = t_open T)
  ∧ ((∀ n, 0 <= n < sb_size sb → used (t_view T) sb n = true) →
     ∃ w', balloc ROOTDEV w = (printf (str "balloc: out of blocks" ++ [10]) [];; mret 0) w' ∧ txn p pid sz T F m w').
Proof.
  intros sb Ht Hsb Hc Hd Hm Hr Hb. pose proof (so_size _ Hsb) as Hss.
  assert (∀ w', balloc_loop (S (S (Z.to_nat (sb_size sb / BPB)))) ROOTDEV (BPB * 0) w = w' → balloc ROOTDEV w = w') as Eb.
  { intros w' <-. unfold balloc. erewrite bind_ok by reflexivity. by rewrite (txn_sb _ _ _ _ _ _ _ Ht). }
  split.
  - intros n Hff Ho. pose proof Hff as ([Hn1 Hn2] & _ & _).
    assert (blocks_ok (t_view T)) as Hlen by (intros b; apply (view_length _ _ _ _ _ _ _ _ Ht)).
    assert (n / BPB <= sb_size sb / BPB) as Hdiv by (apply Z.div_le_mono; [done|lia]).
    destruct (balloc_loop_found p pid sz sb n 0 (S (S (Z.to_nat (sb_size sb / BPB)))) T F m w) as (w' & E & Ht');
      try done; try lia.
    { eapply txn_le; [|exact Ht]. unfold balloc_reads. lia. }
    { by rewrite Hd. }
    exists w', (t_alloc sb n T). split; [by apply Eb|]. split; [done|]. split; [apply alloc_view_new|].
    split; [intros; by apply alloc_view_old|]. split; [intros; by apply alloc_used|done].
  - intros Hall. assert (0 <= sb_size sb / BPB) by (apply Z.div_pos; [lia|done]).
    destruct (balloc_loop_full p pid sz sb 0 (S (S (Z.to_nat (sb_size sb / BPB)))) T F m w) as (w' & E & Ht'); try done; try lia.
    { eapply txn_le; [|exact Ht]. unfold balloc_reads. lia. }
    { eapply buffers_le; [|done]. lia. }
    exists w'. split; [by apply Eb|done].
Qed.

(** [bfree] marks a block in use as free, changes no other bit and no data
    block; on a block that is free already it panics. *)
Theorem bfree_marks_free (T : tstate) (F : kstate) (m : nat) (n : Z) (w : world) :
  let sb := k_sb F in
  txn p pid sz T F (S m) w → sb_ok sb → bitmap_closed sb T → room sz 1 T → buffers 1 T → 0 <= n < sb_size sb →
  if used (t_view T) sb n then
    ∃ w' T', bfree ROOTDEV n w = Ok () w' ∧ txn p pid sz T' F m w'
      ∧ (∀ b, dstart sb <= b → t_view T' b = t_view T b)
      ∧ (∀ n', 0 <= n' < sb_size sb → used (t_view T') sb n' = if decide (n' = n) then false else used (t_view T) sb n')
  else bfree ROOTDEV n w = Panic "freeing free block".
Proof.
  intros sb Ht Hsb Hc Hr Hb Hn. pose proof (bfree_spec p pid sz sb n T F m w Ht eq_refl Hsb Hn Hc Hr Hb) as Hf.
  destruct (used (t_view T) sb n); [|done]. destruct Hf as (w' & E & Ht').
  eexists w', _. split; [done|]. split; [exact Ht'|]. split.
  - intros b Hb'. unfold t_update. cbn [t_view]. apply fn_lookup_insert_ne. pose proof (BBLOCK_range sb n Hsb Hn). lia.
  - intros n' Hn'. apply (used_set_bit _ _ _ _ reset_bit false bit_of_reset_bit); try done.
    intros b. apply (view_length _ _ _ _ _ _ _ _ Ht).
Qed.
End theorems.

(** ** Witnesses: a small disk whose 46 metadata blocks are in use *)

Definition demo_fs_sb : superblock := MkSuperblock FSMAGIC 200 154 200 30 2 32 45.
Definition demo_bitmap : list Z := [255; 255; 255; 255; 255; 63] ++ replicate 1018 0.
Definition demo_blocks (n : Z) : list Z := if n =? 45 then demo_bitmap else replicate 1024 0.
Definition fs_demo0 : world :=
  MkWorld (boot_kstate <| k_disk := MkDisk demo_blocks [] |> <| k_sb := demo_fs_sb |>
             <| k_log := MkLog 2 30 1 0 1 0 (replicate 30 0) |>) ∅ (Some 0%nat) [].
Definition fs_demo : world := after binit fs_demo0.
Definition fs_demo_t : tstate := MkT demo_blocks demo_blocks [] ∅ ∅ ∅ 1.

Lemma fs_demo_ok m : @txn sync_rw sync_spec 0 0 30 fs_demo_t (frame (ks fs_demo0)) m fs_demo.
Proof.
  destruct (binit_rep 0 fs_demo0) as (c & E & HR).
  { reflexivity. }
  { exact boot_bufs_unused. }
  { intros n. cbn. unfold demo_blocks. by destruct (n =? 45). }
  unfold fs_demo, after. rewrite E. split; [|done|].
  - exists (fresh demo_blocks []). split; [|by split].
    split; [|done|done|exact HR]. split; [done|done|done|by vm_compute; lia|done].
  - split; try done. cbn. constructor.
Qed.
#[global] Opaque fs_demo.

Lemma demo_fs_sb_ok : sb_ok demo_fs_sb.
Proof. by split. Qed.

Lemma demo_used n : 0 <= n < 200 → used demo_blocks demo_fs_sb n = (n <? 46).
Proof.
  intros Hn. assert (forallb (λ n, Bool.eqb (used demo_blocks demo_fs_sb n) (n <? 46)) (seqZ 0 200) = true) as E
    by (vm_compute; reflexivity).
  apply Bool.eqb_prop. rewrite forallb_forall in E. apply E. apply list_elem_of_In, elem_of_seqZ. lia.
Qed.

Lemma demo_first_free : first_free demo_blocks demo_fs_sb 46.
Proof.
  split; [by cbn|]. split; [by rewrite demo_used by lia|]. intros n' Hn'. rewrite demo_used by lia. apply Z.ltb_lt. lia.
Qed.

Lemma demo_meta_used : meta_used demo_blocks demo_fs_sb.
Proof.
  intros n Hn. change (dstart demo_fs_sb) with 46 in Hn. rewrite demo_used by lia. apply Z.ltb_lt. lia.
Qed.

Lemma balloc_first_free_witness : ∃ w', @balloc sync_rw ROOTDEV fs_demo = Ok 46 w'.
Proof.
  destruct (@balloc_first_free sync_rw sync_spec 0 0 30 fs_demo_t (frame (ks fs_demo0)) 0 fs_demo) as [Hff _].
  - apply fs_demo_ok.
  - exact demo_fs_sb_ok.
  - intros n _. split; [reflexivity|]. set_solver.
  - reflexivity.
  - exact demo_meta_used.
  - split; vm_compute; congruence.
  - vm_compute. lia.
  - destruct (Hff 46 demo_first_free eq_refl) as (w' & _ & E & _). exists w'. exact E.
Defined.

Lemma bfree_marks_free_witness : ∃ w', @bfree sync_rw ROOTDEV 45 fs_demo = Ok () w'.
Proof.
  pose proof (@bfree_marks_free sync_rw sync_spec 0 0 30 fs_demo_t (frame (ks fs_demo0)) 0 45 fs_demo) as Hf. cbv zeta in Hf.
  change (k_sb (frame (ks fs_demo0))) with demo_fs_sb in Hf. change (t_view fs_demo_t) with demo_blocks in Hf.
  rewrite demo_used in Hf by lia. destruct Hf as (w' & _ & E & _).
  - apply fs_demo_ok.
  - exact demo_fs_sb_ok.
  - intros n _. split; [reflexivity|]. set_solver.
  - split; vm_compute; congruence.
  - vm_compute. lia.
  - split; vm_compute; congruence.
  - exists w'. exact E.
Defined.
