(* ===== verification/FileSpec.v ===== *)
(** * File contents

    [bmap], [readi], [writei] and [iupdate] of fs.c: an inode as the file it
    represents.  The allocation of FsSpec.v gives a file new blocks without
    touching the blocks of any other file. *)

From S2P Require Import Prelude Memory CString Kernel Kalloc Vm Sched Sleeplock Bio BufList BioSpec Log LogSpec LogGroup.
From S2P Require Import TxnSpec Uart Printf Copy Fs FsSpec.

(** ** The blocks of a file

    The slots of an inode: 0 to 11 are the direct blocks, 12 the indirect block,
    13 to 268 the blocks listed in the indirect block. *)

Definition NSLOT : Z := NDIRECT + 1 + NINDIRECT.
Definition slot_of (bn : Z) : Z := if bn <? NDIRECT then bn else bn + 1.

Definition slot_addr (V : Z → list Z) (x : inode) (j : Z) : Z :=
  let ind := i_addrs x !!! Z.to_nat NDIRECT in
  if j <=? NDIRECT then i_addrs x !!! Z.to_nat j
  else if ind =? 0 then 0 else get32 (V ind) (4 * Z.to_nat (j - NDIRECT - 1)).

(** The blocks of a file are data blocks in use, and no two slots share one. *)
Record file_ok (V : Z → list Z) (sb : superblock) (x : inode) : Prop := {
  fo_dev : i_dev x = ROOTDEV;
  fo_len : length (i_addrs x) = 13%nat;
  fo_data : ∀ j, 0 <= j < NSLOT → slot_addr V x j ≠ 0 →
              dstart sb <= slot_addr V x j < sb_size sb ∧ used V sb (slot_addr V x j) = true;
  fo_inj : ∀ j j', 0 <= j < NSLOT → 0 <= j' < NSLOT →
             slot_addr V x j = slot_addr V x j' → slot_addr V x j ≠ 0 → j = j'
}.

(** Slot [j] gets the new block [n]. *)
Record grows (sb : superblock) (j n : Z) (V : Z → list Z) (x : inode) (V' : Z → list Z) (x' : inode) : Prop := {
  gr_slot : ∀ j', 0 <= j' < NSLOT → slot_addr V' x' j' = if decide (j' = j) then n else slot_addr V x j';
  gr_used : ∀ b, 0 <= b < sb_size sb → used V' sb b = if decide (b = n) then true else used V sb b;
  gr_new : V' n = replicate (Z.to_nat BSIZE) 0;
  gr_old : ∀ b, dstart sb <= b → b ≠ n → b ≠ slot_addr V' x' NDIRECT → V' b = V b;
  gr_inode : x' = x <| i_addrs := i_addrs x' |>;
  gr_len : length (i_addrs x') = length (i_addrs x)
}.

(** The file keeps its blocks and their contents, new blocks are zero, and no
    block is taken from others. *)
Record extends (sb : superblock) (V : Z → list Z) (x : inode) (V' : Z → list Z) (x' : inode) : Prop := {
  ex_slot : ∀ j, 0 <= j < NSLOT → slot_addr V x j ≠ 0 → slot_addr V' x' j = slot_addr V x j;
  ex_data : ∀ j, 0 <= j < NSLOT → j ≠ NDIRECT → slot_addr V x j ≠ 0 → V' (slot_addr V x j) = V (slot_addr V x j);
  ex_new : ∀ j, 0 <= j < NSLOT → j ≠ NDIRECT → slot_addr V x j = 0 → slot_addr V' x' j ≠ 0 →
             V' (slot_addr V' x' j) = replicate (Z.to_nat BSIZE) 0;
  ex_used : ∀ b, dstart sb <= b < sb_size sb → used V sb b = true → used V' sb b = true;
  ex_other : ∀ b, dstart sb <= b < sb_size sb → used V sb b = true →
               (∀ j, 0 <= j < NSLOT → slot_addr V x j ≠ b) →
               V' b = V b ∧ ∀ j, 0 <= j < NSLOT → slot_addr V' x' j ≠ b;
  ex_inode : x' = x <| i_addrs := i_addrs x' |>
}.

Lemma extends_refl sb V x : extends sb V x V x.
Proof. split; try done. by destruct x. Qed.

Lemma extends_trans sb V x V1 x1 V2 x2 :
  extends sb V x V1 x1 → extends sb V1 x1 V2 x2 → extends sb V x V2 x2.
Proof.
  intros [A1 A2 An A3 A4 A5] [B1 B2 Bn B3 B4 B5]. split.
  - intros j Hj Hs. rewrite B1, A1; [done..|]. by rewrite A1.
  - intros j Hj Hne Hs. pose proof (A1 j Hj Hs) as E. rewrite <- E, B2, E by (done || congruence). by apply A2.
  - intros j Hj Hne Hs Hs2. destruct (decide (slot_addr V1 x1 j = 0)) as [Hz|Hz]; [by apply Bn|].
    rewrite (B1 j Hj Hz), (B2 j Hj Hne Hz). by apply An.
  - auto.
  - intros b Hb Hu Hs. destruct (A4 b Hb Hu Hs) as [E1 E2]. destruct (B4 b Hb (A3 b Hb Hu) E2).
    split; [congruence|done].
  - rewrite B5, A5. done.
Qed.

Section grow.
Context (sb : superblock) (j n : Z) (V V' : Z → list Z) (x x' : inode).
Hypothesis Hg : grows sb j n V x V' x'.
Hypothesis Hj : 0 <= j < NSLOT.
Hypothesis Hf : file_ok V sb x.
Hypothesis Hn : dstart sb <= n < sb_size sb.
Hypothesis Hd0 : 0 < dstart sb.
Hypothesis Hu : used V sb n = false.
Hypothesis H0 : slot_addr V x j = 0.

Lemma grow_not_old j' : 0 <= j' < NSLOT → slot_addr V x j' ≠ n.
Proof.
  intros Hj' E. destruct (fo_data _ _ _ Hf j' Hj') as [_ E2]; [lia|]. rewrite E in E2. congruence.
Qed.

Lemma grow_file_ok : file_ok V' sb x'.
Proof.
  split.
  - rewrite (gr_inode _ _ _ _ _ _ _ Hg). apply Hf.
  - rewrite (gr_len _ _ _ _ _ _ _ Hg). apply Hf.
  - intros j' Hj'. rewrite (gr_slot _ _ _ _ _ _ _ Hg) by done. destruct (decide (j' = j)) as [->|Hne].
    + intros _. split; [lia|]. rewrite (gr_used _ _ _ _ _ _ _ Hg) by lia. by rewrite decide_True.
    + intros Hs. destruct (fo_data _ _ _ Hf j' Hj' Hs) as [D1 D2]. split; [done|].
      rewrite (gr_used _ _ _ _ _ _ _ Hg) by lia. by case_decide.
  - intros j1 j2 Hj1 Hj2. rewrite !(gr_slot _ _ _ _ _ _ _ Hg) by done.
    destruct (decide (j1 = j)) as [->|], (decide (j2 = j)) as [->|]; try done.
    + intros E _. exfalso. by apply (grow_not_old j2).
    + intros E _. exfalso. by apply (grow_not_old j1).
    + by apply (fo_inj _ _ _ Hf).
Qed.

Lemma grow_extends : extends sb V x V' x'.
Proof.
  assert (∀ j', 0 <= j' < NSLOT → slot_addr V x j' ≠ 0 → slot_addr V' x' j' = slot_addr V x j') as Hs.
  { intros j' Hj' Hs. rewrite (gr_slot _ _ _ _ _ _ _ Hg) by done. rewrite decide_False; [done|]. intros ->. done. }
  split; [done| | | | |apply Hg].
  - intros j' Hj' Hne Hs'. apply (gr_old _ _ _ _ _ _ _ Hg); [by apply (fo_data _ _ _ Hf)|by apply grow_not_old|].
    rewrite <- (Hs j') by done. intros E. apply Hne.
    apply (fo_inj _ _ _ grow_file_ok); [done|done|done|by rewrite Hs].
  - intros j' Hj' _ Hz. rewrite (gr_slot _ _ _ _ _ _ _ Hg) by done. case_decide; [|done]. intros _. apply (gr_new _ _ _ _ _ _ _ Hg).
  - intros b Hb Hub. rewrite (gr_used _ _ _ _ _ _ _ Hg) by lia. by case_decide.
  - intros b Hb Hub Hfor. assert (b ≠ n) as Hbn by congruence.
    assert (∀ j', 0 <= j' < NSLOT → slot_addr V' x' j' ≠ b) as Hfor'.
    { intros j' Hj'. rewrite (gr_slot _ _ _ _ _ _ _ Hg) by done. case_decide; [congruence|]. by apply Hfor. }
    split; [|done]. apply (gr_old _ _ _ _ _ _ _ Hg); [lia|done|]. intros E. by apply (Hfor' NDIRECT).
Qed.
End grow.

Lemma get32_zeros o n : get32 (replicate n 0) o = 0.
Proof. unfold get32. rewrite drop_replicate, take_replicate. apply le_dec_zeros. Qed.

(** Block [n] was free and is now a zeroed block in use; no other data block changed. *)
Record allocs (sb : superblock) (n : Z) (V V' : Z → list Z) : Prop := {
  al_data : dstart sb <= n < sb_size sb;
  al_free : used V sb n = false;
  al_used : ∀ b, 0 <= b < sb_size sb → used V' sb b = if decide (b = n) then true else used V sb b;
  al_new : V' n = replicate (Z.to_nat BSIZE) 0;
  al_old : ∀ b, b ≠ n → dstart sb <= b → V' b = V b
}.

(** The indirect block of an inode. *)
Definition ind_block (x : inode) : Z := i_addrs x !!! Z.to_nat NDIRECT.

Section grow_steps.
Context (sb : superblock) (j n : Z) (V V' : Z → list Z) (x : inode).
Hypothesis Hsb : sb_ok sb.
Hypothesis Hlen : blocks_ok V.
Hypothesis Hal : allocs sb n V V'.
Hypothesis Hf : file_ok V sb x.
Hypothesis H0 : slot_addr V x j = 0.
Hypothesis Hd0 : 0 < dstart sb.

Lemma free_not_slot j' : 0 <= j' < NSLOT → slot_addr V x j' ≠ n.
Proof.
  intros Hj' E. pose proof (al_data _ _ _ _ Hal). destruct (fo_data _ _ _ Hf j' Hj') as [_ E2]; [lia|].
  rewrite E, (al_free _ _ _ _ Hal) in E2. done.
Qed.

(** A direct block or the indirect block itself. *)
Lemma grow_direct : 0 <= j <= NDIRECT → grows sb j n V x V' (x <| i_addrs ::= <[Z.to_nat j := n]> |>).
Proof.
  intros Hj. pose proof Hal as [Hn _ Hu Hnew Hold]. split; [| |done| |done|rsimpl; by rewrite length_insert].
  - intros j' Hj'. unfold slot_addr. rsimpl. unfold slot_addr in H0.
    assert (j <=? NDIRECT = true) as Ej by (apply Z.leb_le; lia). rewrite Ej in H0.
    destruct (Z.leb_spec j' NDIRECT) as [Hd|Hd].
    + destruct (decide (j' = j)) as [->|Hne].
      * apply list_lookup_total_insert_eq. rewrite (fo_len _ _ _ Hf). unfold NDIRECT in *. lia.
      * rewrite list_lookup_total_insert_ne by lia. done.
    + rewrite decide_False by lia. destruct (decide (j = NDIRECT)) as [->|Hne].
      * rewrite list_lookup_total_insert_eq by (rewrite (fo_len _ _ _ Hf); unfold NDIRECT in *; lia).
        rewrite H0, Z.eqb_refl. destruct (Z.eqb_spec n 0); [lia|]. rewrite Hnew. apply get32_zeros.
      * rewrite list_lookup_total_insert_ne by (unfold NDIRECT in *; lia).
        destruct (Z.eqb_spec (i_addrs x !!! Z.to_nat NDIRECT) 0) as [|Hind]; [done|].
        pose proof (free_not_slot NDIRECT ltac:(done)) as Hns. pose proof (fo_data _ _ _ Hf NDIRECT ltac:(done) Hind) as [Hd1 _].
        unfold slot_addr in Hns, Hd1. simpl in Hns, Hd1. rewrite Hold by (done || lia). done.
  - done.
  - intros b Hb Hbn _. by apply Hold.
Qed.

(** A block listed in the indirect block. *)
Lemma grow_indirect :
  NDIRECT < j < NSLOT → ind_block x ≠ 0 →
  grows sb j n V x (<[ind_block x := set32 (4 * Z.to_nat (j - NDIRECT - 1)) n (V (ind_block x))]> V') x.
Proof.
  intros Hj Hind. pose proof Hal as [Hn _ Hu Hnew Hold]. pose proof (so_size _ Hsb) as Hss.
  pose proof (fo_data _ _ _ Hf NDIRECT ltac:(done) Hind) as [Hd1 _]. pose proof (free_not_slot NDIRECT ltac:(done)) as Hns.
  change (slot_addr V x NDIRECT) with (ind_block x) in Hd1, Hns.
  assert (∀ i, NDIRECT < i < NSLOT → (4 * Z.to_nat (i - NDIRECT - 1) + 4 <= length (V (ind_block x)))%nat) as Hb4.
  { intros i Hi. rewrite Hlen. change NSLOT with 269 in Hi. change NDIRECT with 12 in *. change (Z.to_nat BSIZE) with 1024%nat. lia. }
  split.
  - intros j' Hj'. unfold slot_addr at 1. fold (ind_block x). destruct (Z.leb_spec j' NDIRECT) as [Hd|Hd].
    + rewrite decide_False by lia. unfold slot_addr. by rewrite (proj2 (Z.leb_le j' NDIRECT) Hd).
    + destruct (Z.eqb_spec (ind_block x) 0); [done|]. rewrite fn_lookup_insert. destruct (decide (j' = j)) as [->|Hne].
      * rewrite get32_set32 by auto. apply u32_small. lia.
      * rewrite get32_set32_disj by (auto || lia). unfold slot_addr. fold (ind_block x).
        rewrite (proj2 (Z.leb_gt j' NDIRECT) Hd). by rewrite (proj2 (Z.eqb_neq (ind_block x) 0) Hind).
  - intros b Hb. rewrite <- Hu by done. apply used_update_other; [|done]. intros b' Hb'.
    pose proof (BBLOCK_range sb b' Hsb Hb'). lia.
  - by rewrite fn_lookup_insert_ne.
  - intros b Hb Hbn Hbi. rewrite fn_lookup_insert_ne by done. by apply Hold.
  - by destruct x.
  - done.
Qed.
End grow_steps.

(** The same for the allocator of the kernel. *)
Section grow_alloc.
Context (sb : superblock) (j n : Z) (T : tstate) (x : inode).
Hypothesis Hsb : sb_ok sb.
Hypothesis Hlen : blocks_ok (t_view T).
Hypothesis Hmeta : meta_used (t_view T) sb.
Hypothesis Hff : first_free (t_view T) sb n.
Hypothesis Hf : file_ok (t_view T) sb x.
Hypothesis H0 : slot_addr (t_view T) x j = 0.
Hypothesis Hd0 : 0 < dstart sb.

Lemma alloc_allocs : allocs sb n (t_view T) (t_view (t_alloc sb n T)).
Proof.
  split; [by apply (first_free_data sb n T)|apply Hff|intros; by apply alloc_used|apply alloc_view_new|].
  intros. by apply alloc_view_old.
Qed.

Lemma grows_direct :
  0 <= j <= NDIRECT →
  grows sb j n (t_view T) x (t_view (t_alloc sb n T)) (x <| i_addrs ::= <[Z.to_nat j := n]> |>).
Proof. apply grow_direct; try done. apply alloc_allocs. Qed.

Definition t_alloc_ind : tstate :=
  t_update (ind_block x) (set32 (4 * Z.to_nat (j - NDIRECT - 1)) n (t_view T (ind_block x))) (t_alloc sb n T).

Lemma grows_indirect :
  NDIRECT < j < NSLOT → ind_block x ≠ 0 → grows sb j n (t_view T) x (t_view t_alloc_ind) x.
Proof. apply (grow_indirect sb j n (t_view T) (t_view (t_alloc sb n T)) x); try done. apply alloc_allocs. Qed.

Lemma alloc_ind_meta : NDIRECT < j < NSLOT → ind_block x ≠ 0 → meta_used (t_view t_alloc_ind) sb.
Proof.
  intros Hj Hind b Hb. pose proof (so_dstart _ Hsb). pose proof (first_free_data sb n T Hmeta Hff).
  rewrite (gr_used _ _ _ _ _ _ _ (grows_indirect Hj Hind)) by lia.
  rewrite decide_False by lia. by apply Hmeta.
Qed.
End grow_alloc.

Lemma slot_of_range bn : 0 <= bn < MAXFILE → 0 <= slot_of bn < NSLOT ∧ slot_of bn ≠ NDIRECT.
Proof.
  intros Hbn. unfold slot_of. change MAXFILE with 268 in Hbn. change NSLOT with 269. change NDIRECT with 12 in *.
  destruct (Z.ltb_spec bn 12); lia.
Qed.

Lemma slot_of_inj bn bn' : 0 <= bn → 0 <= bn' → slot_of bn = slot_of bn' → bn = bn'.
Proof. unfold slot_of. repeat case_match; rewrite ?Z.ltb_lt, ?Z.ltb_ge in *; lia. Qed.

(** ** The bytes of a file *)

(** The byte at offset [i]; where the file has no block it reads as zero. *)
Definition fbyte (V : Z → list Z) (x : inode) (i : Z) : Z :=
  let a := slot_addr V x (slot_of (i / BSIZE)) in
  if a =? 0 then 0 else V a !!! Z.to_nat (i mod BSIZE).

Definition fbytes (V : Z → list Z) (x : inode) (off n : Z) : list Z := fbyte V x <$> seqZ off n.

(** Every block up to the size of the file is there. *)
Definition mapped (V : Z → list Z) (x : inode) : Prop :=
  ∀ bn, 0 <= bn → bn * BSIZE < i_size x → slot_addr V x (slot_of bn) ≠ 0.

Lemma fbytes_app V x off n m : 0 <= n → 0 <= m → fbytes V x off (n + m) = fbytes V x off n ++ fbytes V x (off + n) m.
Proof. intros. unfold fbytes. by rewrite seqZ_app, fmap_app by lia. Qed.

Lemma off_split off m :
  0 <= off → 0 <= m → off mod BSIZE + m <= BSIZE → ∀ j, 0 <= j < m →
  (off + j) / BSIZE = off / BSIZE ∧ (off + j) mod BSIZE = off mod BSIZE + j.
Proof.
  intros Ho Hm Hb j Hj. pose proof (Z.div_mod off BSIZE ltac:(done)). pose proof (Z.mod_pos_bound off BSIZE ltac:(done)).
  assert ((off + j) / BSIZE = off / BSIZE) as E.
  { symmetry. apply (Z.div_unique _ BSIZE _ (off mod BSIZE + j)); [left|]; lia. }
  split; [done|]. rewrite Z.mod_eq, E by done. lia.
Qed.

(** A piece of one block. *)
Lemma block_bytes V x off m :
  blocks_ok V → 0 <= off → 0 <= m → off mod BSIZE + m <= BSIZE → slot_addr V x (slot_of (off / BSIZE)) ≠ 0 →
  take (Z.to_nat m) (drop (Z.to_nat (off mod BSIZE)) (V (slot_addr V x (slot_of (off / BSIZE))))) = fbytes V x off m.
Proof.
  intros Hlen Ho Hm Hb Hnz. pose proof (Z.mod_pos_bound off BSIZE ltac:(done)).
  set (a := slot_addr V x (slot_of (off / BSIZE))) in *. pose proof (Hlen a) as Hl.
  apply list_eq. intros i. unfold fbytes. rewrite list_lookup_fmap.
  destruct (decide (i < Z.to_nat m)%nat) as [Hi|Hi].
  - rewrite lookup_take_lt, lookup_drop by done. rewrite lookup_seqZ_lt by lia. simpl.
    destruct (off_split off m Ho Hm Hb (Z.of_nat i) ltac:(lia)) as [E1 E2]. unfold fbyte. rewrite E1, E2. fold a.
    rewrite (proj2 (Z.eqb_neq a 0) Hnz). replace (Z.to_nat (off mod BSIZE + Z.of_nat i)) with (Z.to_nat (off mod BSIZE) + i)%nat by lia.
    apply list_lookup_lookup_total_lt. rewrite Hl. unfold BSIZE in *. lia.
  - rewrite lookup_take_ge by lia. by rewrite lookup_seqZ_ge by lia.
Qed.

(** ** Inodes on disk *)

Record dinode_ok (d : dinode) : Prop := {
  do_type : - 2 ^ 15 <= di_type d < 2 ^ 15;
  do_major : - 2 ^ 15 <= di_major d < 2 ^ 15;
  do_minor : - 2 ^ 15 <= di_minor d < 2 ^ 15;
  do_nlink : - 2 ^ 15 <= di_nlink d < 2 ^ 15;
  do_size : 0 <= di_size d < 2 ^ 32;
  do_len : length (di_addrs d) = 13%nat;
  do_addrs : Forall (λ a, 0 <= a < 2 ^ 32) (di_addrs d)
}.

Lemma length_enc_dinode d : length (di_addrs d) = 13%nat → length (enc_dinode d) = 64%nat.
Proof.
  destruct d as [? ? ? ? ? l]. cbn [di_addrs]. intros Hl.
  do 13 (destruct l as [|? l]; [done|]). by destruct l.
Qed.

(** A field inside an array that has been overwritten. *)
Lemma get_splice (k n o len : nat) (new l : list Z) :
  length new = len → (o + len <= length l)%nat → (k + n <= len)%nat →
  take n (drop (o + k) (splice o new l)) = take n (drop k new).
Proof.
  intros <- Hl Hk. apply list_eq. intros i. destruct (decide (i < n)%nat) as [Hi|]; [|by rewrite !lookup_take_ge by lia].
  rewrite !lookup_take_lt, !lookup_drop by done. rewrite lookup_splice_new by lia. f_equal. lia.
Qed.

Lemma i16_dec_enc v : - 2 ^ 15 <= v < 2 ^ 15 → i16 (le_dec (le_enc 2 v)) = v.
Proof.
  intros Hv. rewrite le_dec_enc. change (256 ^ Z.of_nat 2) with (2 ^ 16). unfold i16, sx.
  rewrite Z.mod_mod by done. exact (sx_small 16 v ltac:(done) Hv).
Qed.

(** What [iupdate] stores, [ilock] reads back. *)
Lemma dinode_roundtrip d o data :
  dinode_ok d → (o + 64 <= length data)%nat → get_dinode (splice o (enc_dinode d) data) o = d.
Proof.
  intros [H1 H2 H3 H4 H5 H6 H7] Ho. pose proof (length_enc_dinode d H6) as Hl.
  unfold get_dinode, get16, get32. rewrite <- (Nat.add_0_r o) at 1.
  rewrite !(get_splice _ _ o 64) by (done || lia).
  assert ((λ j, le_dec (take 4 (drop (o + 12 + 4 * j) (splice o (enc_dinode d) data)))) <$> seq 0 13
    = (λ j, le_dec (take 4 (drop (12 + 4 * j) (enc_dinode d)))) <$> seq 0 13) as ->.
  { apply list_fmap_ext. intros i j Hj. apply lookup_seq in Hj as [-> Hj]. f_equal.
    rewrite <- Nat.add_assoc. apply (get_splice _ _ o 64); [done|done|lia]. }
  destruct d as [ty ma mi nl si l]. cbn [di_type di_major di_minor di_nlink di_size di_addrs] in *.
  do 13 (destruct l as [|? l]; [done|]). destruct l; [|done].
  assert (∀ a, 0 <= a < 2 ^ 32 → le_dec (le_enc 4 a) = a) as E4 by (intros; by apply le_dec_enc_small).
  f_equal; [by apply i16_dec_enc..|by apply E4|].
  repeat match goal with H : Forall _ (_ :: _) |- _ => apply list.Forall_cons in H as [? ?] end.
  cbn [seq fmap list_fmap]. do 12 (f_equal; [by apply E4|]). f_equal. by apply E4.
Qed.

(** ** Writing *)

(** The bytes from [off] on are replaced, the file keeps its blocks, and no
    block of another file changes. *)
Record wrote (sb : superblock) (off : Z) (bytes : list Z) (V : Z → list Z) (x : inode) (V' : Z → list Z) (x' : inode) : Prop := {
  wr_bytes : ∀ i, 0 <= i < MAXFILE * BSIZE →
    fbyte V' x' i = if decide (off <= i < off + Z.of_nat (length bytes)) then bytes !!! Z.to_nat (i - off) else fbyte V x i;
  wr_mapped : ∀ i, off <= i < off + Z.of_nat (length bytes) → slot_addr V' x' (slot_of (i / BSIZE)) ≠ 0;
  wr_slot : ∀ j, 0 <= j < NSLOT → slot_addr V x j ≠ 0 → slot_addr V' x' j = slot_addr V x j;
  wr_used : ∀ b, dstart sb <= b < sb_size sb → used V sb b = true → used V' sb b = true;
  wr_other : ∀ b, dstart sb <= b < sb_size sb → used V sb b = true →
               (∀ j, 0 <= j < NSLOT → slot_addr V x j ≠ b) →
               V' b = V b ∧ ∀ j, 0 <= j < NSLOT → slot_addr V' x' j ≠ b;
  wr_inode : x' = x <| i_addrs := i_addrs x' |>
}.

Lemma bn_range i : 0 <= i < MAXFILE * BSIZE → 0 <= i / BSIZE < MAXFILE.
Proof. intros Hi. split; [apply Z.div_pos; [lia|done]|]. apply Z.div_lt_upper_bound; [done|]. lia. Qed.

Lemma extends_wrote sb off V x V' x' : extends sb V x V' x' → wrote sb off [] V x V' x'.
Proof.
  intros [E1 E2 E3 E4 E5 E6]. split; try done.
  - intros i Hi. rewrite decide_False by (simpl; lia). unfold fbyte. pose proof (bn_range i Hi) as Hb.
    destruct (slot_of_range _ Hb) as [Hs Hs2]. set (j := slot_of (i / BSIZE)) in *.
    destruct (Z.eqb_spec (slot_addr V x j) 0) as [Hz|Hnz].
    + destruct (Z.eqb_spec (slot_addr V' x' j) 0) as [|Hnz']; [done|]. rewrite E3 by done.
      apply lookup_total_replicate_2. pose proof (Z.mod_pos_bound i BSIZE ltac:(done)). unfold BSIZE in *. lia.
    + rewrite E1 by done. rewrite (proj2 (Z.eqb_neq _ 0) Hnz). by rewrite E2.
  - intros i Hi. simpl in Hi. lia.
Qed.

Lemma wrote_trans sb off b1 b2 V x V1 x1 V2 x2 :
  wrote sb off b1 V x V1 x1 → wrote sb (off + Z.of_nat (length b1)) b2 V1 x1 V2 x2 → 0 <= off →
  off + Z.of_nat (length b1) + Z.of_nat (length b2) <= MAXFILE * BSIZE → wrote sb off (b1 ++ b2) V x V2 x2.
Proof.
  intros [A1 A2 A3 A4 A5 A6] [B1 B2 B3 B4 B5 B6] Hoff Hmax. split.
  - intros i Hi. rewrite B1 by done. rewrite length_app, Nat2Z.inj_add.
    destruct (decide (off + Z.of_nat (length b1) <= i < _)) as [Hin|Hout].
    + rewrite decide_True by lia. rewrite lookup_total_app_r by lia. f_equal. lia.
    + rewrite A1 by done. destruct (decide (off <= i < off + Z.of_nat (length b1))) as [Hin|Hout'].
      * rewrite decide_True by lia. by rewrite lookup_total_app_l by lia.
      * by rewrite decide_False by lia.
  - intros i Hi. rewrite length_app, Nat2Z.inj_add in Hi.
    destruct (decide (off + Z.of_nat (length b1) <= i)); [apply B2; lia|].
    pose proof (A2 i ltac:(lia)) as Hnz. destruct (slot_of_range _ (bn_range i ltac:(lia))) as [Hs _]. by rewrite B3.
  - intros j Hj Hs. rewrite B3, A3; [done..|]. by rewrite A3.
  - auto.
  - intros b Hb Hu Hs. destruct (A5 b Hb Hu Hs) as [E1 E2]. destruct (B5 b Hb (A4 b Hb Hu) E2). split; [congruence|done].
  - rewrite B6, A6. done.
Qed.

(** One block of the file gets new contents. *)
Section block_write.
Context (sb : superblock) (V : Z → list Z) (x : inode) (off : Z) (bytes : list Z).
Hypothesis Hsb : sb_ok sb.
Hypothesis Hlen : blocks_ok V.
Hypothesis Hf : file_ok V sb x.
Hypothesis Hd0 : 0 < dstart sb.
Hypothesis Hoff : 0 <= off.
Hypothesis Hbn : off / BSIZE < MAXFILE.
Hypothesis Hfit : off mod BSIZE + Z.of_nat (length bytes) <= BSIZE.
Let a := slot_addr V x (slot_of (off / BSIZE)).
Hypothesis Ha : a ≠ 0.
Let V' := <[a := splice (Z.to_nat (off mod BSIZE)) bytes (V a)]> V.

Lemma bw_facts : 0 <= slot_of (off / BSIZE) < NSLOT ∧ slot_of (off / BSIZE) ≠ NDIRECT ∧ dstart sb <= a < sb_size sb
  ∧ 0 <= off / BSIZE < MAXFILE.
Proof.
  assert (0 <= off / BSIZE) by (apply Z.div_pos; [lia|done]).
  destruct (slot_of_range (off / BSIZE) ltac:(lia)) as [H1 H2]. destruct (fo_data _ _ _ Hf _ H1 Ha) as [H3 _]. done.
Qed.

Lemma bw_slot j : 0 <= j < NSLOT → slot_addr V' x j = slot_addr V x j.
Proof.
  intros Hj. unfold slot_addr. destruct (j <=? NDIRECT); [done|].
  destruct (Z.eqb_spec (i_addrs x !!! Z.to_nat NDIRECT) 0) as [|Hi]; [done|].
  unfold V'. rewrite fn_lookup_insert_ne; [done|]. intros E. destruct bw_facts as (H1 & H2 & _). apply H2.
  apply (fo_inj _ _ _ Hf); [done|done| |done]. change (a = i_addrs x !!! Z.to_nat NDIRECT). congruence.
Qed.

Lemma bw_used b : 0 <= b < sb_size sb → used V' sb b = used V sb b.
Proof.
  intros Hb. apply used_update_other; [|done]. intros n Hn. pose proof (BBLOCK_range sb n Hsb Hn).
  destruct bw_facts as (_ & _ & H3 & _). lia.
Qed.

Lemma bw_file_ok : file_ok V' sb x.
Proof.
  split; [apply Hf|apply Hf| |].
  - intros j Hj. rewrite bw_slot by done. intros Hs. destruct (fo_data _ _ _ Hf j Hj Hs) as [D1 D2].
    split; [done|]. by rewrite bw_used by lia.
  - intros j j' Hj Hj'. rewrite !bw_slot by done. by apply (fo_inj _ _ _ Hf).
Qed.

Lemma bw_splice_length : length (splice (Z.to_nat (off mod BSIZE)) bytes (V a)) = Z.to_nat BSIZE.
Proof.
  pose proof (Z.mod_pos_bound off BSIZE ltac:(done)). rewrite length_splice; [apply Hlen|]. rewrite Hlen. unfold BSIZE in *. lia.
Qed.

Lemma bw_wrote : wrote sb off bytes V x V' x.
Proof.
  destruct bw_facts as (F1 & F2 & F3 & F4). pose proof (Z.mod_pos_bound off BSIZE ltac:(done)) as Hmod.
  pose proof (Z.div_mod off BSIZE ltac:(done)) as Hdm. pose proof (Hlen a) as Hla.
  split.
  - intros i Hi. pose proof (bn_range i Hi) as Hb. destruct (slot_of_range _ Hb) as [Hs _].
    pose proof (Z.mod_pos_bound i BSIZE ltac:(done)) as Hmi. pose proof (Z.div_mod i BSIZE ltac:(done)) as Hdi.
    unfold fbyte. rewrite bw_slot by done. destruct (decide (i / BSIZE = off / BSIZE)) as [E|E].
    + rewrite E. fold a. rewrite (proj2 (Z.eqb_neq a 0) Ha). unfold V'. rewrite fn_lookup_insert.
      rewrite !list_lookup_total_alt. destruct (decide (off <= i < off + Z.of_nat (length bytes))) as [Hin|Hout].
      * rewrite lookup_splice_new by (rewrite ?Hla; unfold BSIZE in *; lia). do 2 f_equal. lia.
      * rewrite lookup_splice_old by (rewrite ?Hla; unfold BSIZE in *; lia). done.
    + rewrite decide_False.
      2:{ intros [Hi1 Hi2]. apply E. destruct (off_split off (Z.of_nat (length bytes)) Hoff ltac:(lia) Hfit (i - off) ltac:(lia)) as [E2 _].
          replace (off + (i - off)) with i in E2 by lia. done. }
      destruct (Z.eqb_spec (slot_addr V x (slot_of (i / BSIZE))) 0) as [|Hnz]; [done|]. unfold V'.
      rewrite fn_lookup_insert_ne; [done|]. intros Eq. apply E. apply slot_of_inj; [lia|lia|]. symmetry.
      by apply (fo_inj _ _ _ Hf).
  - intros i Hi. destruct (off_split off (Z.of_nat (length bytes)) Hoff ltac:(lia) Hfit (i - off) ltac:(lia)) as [E2 _].
    replace (off + (i - off)) with i in E2 by lia. rewrite E2, bw_slot by done. exact Ha.
  - intros j Hj _. by apply bw_slot.
  - intros b Hb Hu. by rewrite bw_used by lia.
  - intros b Hb Hu Hs. split; [|intros; rewrite bw_slot by done; by apply Hs].
    unfold V'. apply fn_lookup_insert_ne. intros E. exact (Hs _ F1 E).
  - by destruct x.
Qed.
End block_write.

(** ** bmap *)

Lemma buffers_opened k n b T : buffers (S k) T → buffers k (t_opened n b T).
Proof.
  unfold buffers, t_busy, t_opened. simpl. intros Hk. rewrite dom_insert_L.
  replace (t_logged T ∪ ({[n]} ∪ dom (t_open T))) with ({[n]} ∪ (t_logged T ∪ dom (t_open T))) by set_solver.
  pose proof (size_union_alt {[n]} (t_logged T ∪ dom (t_open T))) as E.
  pose proof (subseteq_size ((t_logged T ∪ dom (t_open T)) ∖ {[n]}) (t_logged T ∪ dom (t_open T)) ltac:(set_solver)) as E2.
  rewrite size_singleton in E. lia.
Qed.

(** ** The layout of the disk *)

Section layout.
Context (sb : superblock).
Hypothesis Hsb : sb_ok sb.

Lemma dstart_pos : 0 < dstart sb.
Proof.
  destruct Hsb as [[H1 _] H2 _ H3 _ _]. assert (0 <= sb_size sb / BPB) by (apply Z.div_pos; [lia|done]). lia.
Qed.

Lemma IBLOCK_range i : 0 <= i < sb_ninodes sb → 0 <= IBLOCK i sb < sb_bmapstart sb.
Proof.
  intros Hi. destruct Hsb as [H1 H2 H3 H4 H5 H6]. pose proof (Z.div_pos i IPB ltac:(lia) ltac:(done)).
  assert (i / IPB <= sb_ninodes sb / IPB) by (apply Z.div_le_mono; [done|lia]).
  pose proof (Z.div_pos (sb_size sb) BPB ltac:(lia) ltac:(done)).
  unfold IBLOCK. rewrite u32_small by lia. lia.
Qed.

Lemma dinode_off_range i : (dinode_off i + 64 <= Z.to_nat BSIZE)%nat.
Proof.
  unfold dinode_off. change IPB with 16. change DINODE_SIZE with 64. change BSIZE with 1024.
  pose proof (Z.mod_pos_bound i 16 ltac:(done)). lia.
Qed.

(** Storing the inode leaves the bitmap and the data blocks alone. *)
Section meta_write.
Context (V : Z → list Z) (x : inode) (b : Z) (data : list Z).
Hypothesis (Hf : file_ok V sb x) (Hb : 0 <= b < sb_bmapstart sb).
Local Notation V' := (<[b := data]> V).

Lemma mw_data c : dstart sb <= c → V' c = V c.
Proof.
  intros Hc. apply fn_lookup_insert_ne. destruct Hsb as [H1 _ _ H4 _ _].
  pose proof (Z.div_pos (sb_size sb) BPB ltac:(lia) ltac:(done)). lia.
Qed.

Lemma mw_slot j : 0 <= j < NSLOT → slot_addr V' x j = slot_addr V x j.
Proof.
  intros Hj. unfold slot_addr. destruct (j <=? NDIRECT); [done|].
  destruct (Z.eqb_spec (i_addrs x !!! Z.to_nat NDIRECT) 0) as [|Hi]; [done|].
  destruct (fo_data _ _ _ Hf NDIRECT ltac:(done) Hi) as [Hd _]. change (slot_addr V x NDIRECT) with (i_addrs x !!! Z.to_nat NDIRECT) in Hd.
  by rewrite mw_data by lia.
Qed.

Lemma mw_used c : 0 <= c < sb_size sb → used V' sb c = used V sb c.
Proof.
  intros Hc. apply used_update_other; [|done]. intros n Hn. unfold BBLOCK. destruct Hsb as [H1 H2 _ H4 _ H6].
  assert (0 <= n / BPB <= sb_size sb / BPB) as Hd.
  { split; [apply Z.div_pos; [lia|done]|]. apply Z.div_le_mono; [done|lia]. }
  rewrite u32_small by lia. lia.
Qed.

Lemma mw_extends : extends sb V x V' x.
Proof.
  pose proof dstart_pos. split.
  - intros. by apply mw_slot.
  - intros j Hj _ Hn. apply mw_data. by apply (fo_data _ _ _ Hf).
  - intros j Hj _ Hz Hn. by rewrite mw_slot in Hn.
  - intros c Hc. by rewrite mw_used by lia.
  - intros c Hc _ Hn. split; [apply mw_data; lia|]. intros j Hj. rewrite mw_slot by done. by apply Hn.
  - by destruct x.
Qed.

Lemma mw_file_ok : file_ok V' sb x.
Proof.
  pose proof dstart_pos. split; [apply Hf|apply Hf| |].
  - intros j Hj. rewrite mw_slot by done. intros Hs. destruct (fo_data _ _ _ Hf j Hj Hs) as [D1 D2].
    split; [done|]. by rewrite mw_used by lia.
  - intros j j' Hj Hj'. rewrite !mw_slot by done. by apply (fo_inj _ _ _ Hf).
Qed.
End meta_write.

Definition dinode_of (x : inode) : dinode :=
  MkDinode (i_type x) (i_major x) (i_minor x) (i_nlink x) (i_size x) (i_addrs x).

(** The inode as the inode blocks record it. *)
Definition disk_inode (V : Z → list Z) (inum : Z) : dinode := get_dinode (V (IBLOCK inum sb)) (dinode_off inum).

Lemma file_ok_size V x s : file_ok V sb x → file_ok V sb (x <| i_size := s |>).
Proof. destruct x. intros [H1 H2 H3 H4]. by split. Qed.

(** The addresses of an inode fit the on-disk format. *)
Lemma dinode_ok_addrs V x : file_ok V sb x → Forall (λ a, 0 <= a < 2 ^ 32) (i_addrs x).
Proof.
  intros Hf. pose proof (so_size _ Hsb). pose proof dstart_pos. apply Forall_lookup_2. intros i a Hi.
  pose proof (lookup_lt_Some _ _ _ Hi) as Hl. rewrite (fo_len _ _ _ Hf) in Hl. assert (NDIRECT = 12) as En by done.
  assert (slot_addr V x (Z.of_nat i) = a) as Es.
  { unfold slot_addr. rewrite (proj2 (Z.leb_le _ _)), Nat2Z.id by lia. by apply list_lookup_total_correct. }
  destruct (Z.eq_dec a 0) as [->|Hn]; [done|]. rewrite <- Es in Hn |- *.
  destruct (fo_data _ _ _ Hf (Z.of_nat i)) as [Hd _]; [change NSLOT with 269; lia|done|]. lia.
Qed.

(** What [writei] leaves: the bytes of the file, its size, and the inode on disk. *)
Record written (off : Z) (src : list Z) (T : tstate) (x : inode) (T' : tstate) (x' : inode) : Prop := {
  wn_wrote : wrote sb off src (t_view T) x (t_view T') (x' <| i_size := i_size x |>);
  wn_size : i_size x' = Z.max (i_size x) (off + Z.of_nat (length src));
  wn_disk : disk_inode (t_view T') (i_inum x) = dinode_of x'
}.

Lemma wrote_mapped off src V x V' x' :
  wrote sb off src V x V' x' → mapped V x → 0 <= off <= i_size x → i_size x <= MAXFILE * BSIZE →
  off + Z.of_nat (length src) <= MAXFILE * BSIZE → mapped V' (x' <| i_size := Z.max (i_size x) (off + Z.of_nat (length src)) |>).
Proof.
  intros Hw Hm Hoff Hmax Hmax2 bn Hbn Hlt. rsimpl in Hlt.
  assert (∀ j, slot_addr V' (x' <| i_size := Z.max (i_size x) (off + Z.of_nat (length src)) |>) j = slot_addr V' x' j) as -> by done.
  destruct (Z.lt_ge_cases (bn * BSIZE) (i_size x)) as [Hin|Hge].
  - assert (0 <= bn < MAXFILE) as Hb by (unfold BSIZE in *; lia). destruct (slot_of_range _ Hb) as [Hr _].
    pose proof (Hm bn Hbn Hin) as Hn. by rewrite (wr_slot _ _ _ _ _ _ _ Hw) by done.
  - pose proof (wr_mapped _ _ _ _ _ _ _ Hw (bn * BSIZE) ltac:(lia)) as Hn. by rewrite Z.div_mul in Hn.
Qed.

Lemma written_mapped off src T x T' x' :
  written off src T x T' x' → mapped (t_view T) x → 0 <= off <= i_size x → i_size x <= MAXFILE * BSIZE →
  off + Z.of_nat (length src) <= MAXFILE * BSIZE → mapped (t_view T') x'.
Proof.
  intros [Hw Hs _] Hm Hoff Hmax Hmax2. pose proof (wrote_mapped _ _ _ _ _ _ Hw Hm Hoff Hmax Hmax2) as H. rewrite <- Hs in H.
  destruct x'. exact H.
Qed.

End layout.

(** The number of blocks that [off .. off + n) touches. *)
Definition touched (off n : Z) : nat := Z.to_nat ((off mod BSIZE + n + (BSIZE - 1)) / BSIZE).

Lemma touched_enough off n : 0 <= n → off mod BSIZE + n <= BSIZE * Z.of_nat (touched off n) ∧ (touched off n < S (S (S (Z.to_nat (n / BSIZE)))))%nat.
Proof.
  intros Hn. pose proof (Z.mod_pos_bound off BSIZE ltac:(done)). unfold touched. set (y := off mod BSIZE + n + (BSIZE - 1)).
  pose proof (Z.div_mod y BSIZE ltac:(done)). pose proof (Z.mod_pos_bound y BSIZE ltac:(done)).
  pose proof (Z.div_mod n BSIZE ltac:(done)). pose proof (Z.mod_pos_bound n BSIZE ltac:(done)).
  pose proof (Z.div_pos y BSIZE ltac:(lia) ltac:(done)). pose proof (Z.div_pos n BSIZE ltac:(lia) ltac:(done)).
  unfold y in *. unfold BSIZE in *. split; lia.
Qed.

Lemma writei_refused x off n :
  0 <= i_size x <= MAXFILE * BSIZE → 0 <= off < 2 ^ 32 → 0 <= n < 2 ^ 32 →
  ((i_size x <? off) || (u32 (off + n) <? off)) || (MAXFILE * BSIZE <? u32 (off + n))
  = (i_size x <? off) || (MAXFILE * BSIZE <? off + n).
Proof.
  intros Hs Hoff Hn. assert (MAXFILE * BSIZE = 274432) as EM by done. rewrite EM in *.
  destruct (Z.ltb_spec (i_size x) off); [done|]. cbn [orb].
  destruct (Z.lt_ge_cases (off + n) (2 ^ 32)).
  - rewrite u32_small by lia. by rewrite (proj2 (Z.ltb_ge (off + n) off)) by lia.
  - assert (u32 (off + n) = off + n - 2 ^ 32) as -> by (symmetry; apply (Z.mod_unique _ _ 1); lia).
    rewrite (proj2 (Z.ltb_lt _ off)), (proj2 (Z.ltb_lt _ (off + n))) by lia. done.
Qed.

(** Disk reads that [bmap] may take. *)
Definition bmap_reads (sb : superblock) : nat := (2 * balloc_reads sb + 1)%nat.

Section file.
Context `{DS : DiskSpec} (p : nat) (pid sz : Z) (F : kstate) (ip : nat) (sb : superblock).
Hypothesis Hip : (ip < length (k_itable F))%nat.
Hypothesis Hsbk : k_sb F = sb.
Hypothesis Hsb : sb_ok sb.
Notation txn := (txn p pid sz).

Lemma balloc_run T F' k m w :
  txn T F' (m + balloc_reads sb) w → k_sb F' = sb → bitmap_closed sb T → t_dirty T = ∅ → meta_used (t_view T) sb →
  free_blocks (t_view T) sb (S k) → (∀ n, first_free (t_view T) sb n → t_open T !! n = None) →
  room sz 2 T → buffers 2 T →
  ∃ n w', first_free (t_view T) sb n ∧ balloc ROOTDEV w = Ok n w' ∧ txn (t_alloc sb n T) F' m w'.
Proof.
  intros Ht Es Hc Hd Hm Hfb Hop Hr Hb. destruct (free_blocks_first _ _ _ Hfb) as [n Hff]. pose proof Hff as ([Hn1 Hn2] & _ & _).
  assert (n / BPB <= sb_size sb / BPB) as Hdiv by (apply Z.div_le_mono; [done|lia]).
  destruct (balloc_loop_found p pid sz sb n 0 (S (S (Z.to_nat (sb_size sb / BPB)))) T F' m w) as (w' & E & Ht');
    try done; try lia; try (by apply Hop).
  - eapply txn_le; [|exact Ht]. unfold balloc_reads. lia.
  - by rewrite Hd.
  - exists n, w'. split; [done|]. split; [|done]. unfold balloc. erewrite bind_ok by reflexivity.
    by rewrite (txn_sb _ _ _ _ _ _ _ Ht), Es.
Qed.

Definition set_inode (x : inode) : kstate := F <| k_itable ::= <[ip := x]> |>.
Definition ftxn (T : tstate) (x : inode) (m : nat) (w : world) : Prop := txn T (set_inode x) m w.

Lemma ftxn_inode T x m w : ftxn T x m w → get_inode ip (ks w) = x.
Proof.
  intros Ht. pose proof (tx_frame _ _ _ _ _ _ _ Ht) as E. change (get_inode ip (frame (ks w)) = x). rewrite E.
  unfold get_inode, set_inode. rsimpl. by apply list_lookup_total_insert_eq.
Qed.

Lemma ftxn_upd T x m f w :
  ftxn T x m w → ∃ w', modify (upd_inode ip f) w = Ok () w' ∧ ftxn T (f x) m w'.
Proof.
  intros Ht. eexists. split; [reflexivity|]. pose proof (tx_frame _ _ _ _ _ _ _ Ht) as Ef.
  destruct Ht as [(A & [[H1 H2 H3 H4 H5] _ B3 B4] & HC) _ HL]. split; [|  |done].
  - exists A. split; [|done]. split; [by split|done| |done]. by apply (disk_ready_frame m w).
  - change (frame (ks (w <| ks ::= upd_inode ip f |>))) with (upd_inode ip f (frame (ks w))). rewrite Ef.
    unfold set_inode, upd_inode. rsimpl. f_equal. by rewrite alter_insert_same.
Qed.

(** Between two steps of a file operation: nothing open, the invariants of the
    file system and of the file, and the resources left. *)
Record finv (k r bf : nat) (T : tstate) (x : inode) : Prop := {
  fi_open : t_open T = ∅;
  fi_dirty : t_dirty T = ∅;
  fi_meta : meta_used (t_view T) sb;
  fi_file : file_ok (t_view T) sb x;
  fi_free : free_blocks (t_view T) sb k;
  fi_room : room sz r T;
  fi_buf : buffers bf T
}.

Lemma finv_le k r bf k' r' bf' T x :
  (k' <= k)%nat → (r' <= r)%nat → (bf' <= bf)%nat → finv k r bf T x → finv k' r' bf' T x.
Proof.
  intros Hk Hr Hb [H1 H2 H3 H4 H5 H6 H7].
  split; try done; [by eapply free_blocks_le|by eapply room_le|by eapply buffers_le].
Qed.

Lemma finv_closed k r bf T x : finv k r bf T x → bitmap_closed sb T.
Proof. intros HI n Hn. rewrite (fi_open _ _ _ _ _ HI), (fi_dirty _ _ _ _ _ HI). done. Qed.

(** Allocation of a direct block or of the indirect block. *)
Lemma alloc_direct k r bf T x m j w :
  finv (S k) (2 + r) (2 + bf) T x → ftxn T x (m + balloc_reads sb) w → 0 <= j <= NDIRECT → slot_addr (t_view T) x j = 0 →
  ∃ n w1 w2, balloc ROOTDEV w = Ok n w1 ∧ n ≠ 0
    ∧ modify (upd_inode ip (λ x, x <| i_addrs ::= <[Z.to_nat j := n]> |>)) w1 = Ok () w2
    ∧ let T' := t_alloc sb n T in let x' := x <| i_addrs ::= <[Z.to_nat j := n]> |> in
      ftxn T' x' m w2 ∧ finv k r bf T' x' ∧ grows sb j n (t_view T) x (t_view T') x'
      ∧ extends sb (t_view T) x (t_view T') x'.
Proof.
  intros HI Ht Hj H0. pose proof HI as [I1 I2 I3 I4 I5 I6 I7].
  destruct (balloc_run T (set_inode x) k m w) as (n & w1 & Hff & E1 & Ht1); try done.
  { by eapply finv_closed. }
  { intros n _. by rewrite I1. }
  { eapply room_le; [|done]. lia. }
  { eapply buffers_le; [|done]. lia. }
  assert (blocks_ok (t_view T)) as Hlen by (intros b; apply (view_length _ _ _ _ _ _ _ _ Ht)).
  pose proof (dstart_pos sb Hsb) as Hd0. pose proof (first_free_data sb n T I3 Hff) as Hn.
  destruct (ftxn_upd _ _ _ (λ x, x <| i_addrs ::= <[Z.to_nat j := n]> |>) _ Ht1) as (w2 & E2 & Ht2).
  exists n, w1, w2. split; [done|]. split; [lia|]. split; [done|].
  pose proof (grows_direct sb j n T x Hsb Hlen I3 Hff I4 H0 Hd0 Hj) as Hg.
  assert (0 <= j < NSLOT) as Hj2 by (change NSLOT with 269; change NDIRECT with 12 in Hj; lia).
  destruct Hff as (Hff1 & Hff2 & Hff3) eqn:Eff. pose proof Hff2 as Hu.
  cbv zeta. split; [done|]. split; [|split; [done|by eapply grow_extends]].
  split; try done.
  - by apply alloc_meta_used.
  - by eapply grow_file_ok.
  - by apply (free_blocks_alloc sb n T k).
  - by do 2 apply room_update.
  - by do 2 apply buffers_update.
Qed.

(** The indirect block, allocated if need be. *)
Lemma ensure_indirect k r bf T x m w :
  finv (S k) (2 + r) (2 + bf) T x → ftxn T x (m + balloc_reads sb) w →
  ∃ T' x' w', (let addr := i_addrs x !!! Z.to_nat NDIRECT in
      if addr =? 0 then
        addr ← balloc (i_dev x);
        when (negb (addr =? 0))
          (modify (upd_inode ip (λ x, x <| i_addrs ::= <[Z.to_nat NDIRECT := addr]> |>)));;
        mret addr
      else mret addr) w = Ok (ind_block x') w'
    ∧ ind_block x' ≠ 0 ∧ ftxn T' x' m w' ∧ finv k r bf T' x' ∧ extends sb (t_view T) x (t_view T') x'
    ∧ ∀ j, 0 <= j < NSLOT → j ≠ NDIRECT → slot_addr (t_view T') x' j = slot_addr (t_view T) x j.
Proof.
  intros HI Ht. cbv zeta. fold (ind_block x). rewrite (fo_dev _ _ _ (fi_file _ _ _ _ _ HI)).
  destruct (Z.eqb_spec (ind_block x) 0) as [Hz|Hnz].
  - destruct (alloc_direct k r bf T x m NDIRECT w HI Ht) as (n & w1 & w2 & E1 & Hn & E2 & Ht2 & HI2 & Hg & Hex);
      [done|exact Hz|].
    eexists _, _, w2. split; [|split; [|split; [exact Ht2|split; [exact HI2|split; [exact Hex|]]]]].
    + rewrite (bind_ok _ _ _ _ _ E1), (proj2 (Z.eqb_neq n 0) Hn). cbn [negb when].
      rewrite (bind_ok _ _ _ _ _ E2). unfold mret, K_ret, ind_block. rsimpl. f_equal. symmetry.
      apply list_lookup_total_insert_eq. rewrite (fo_len _ _ _ (fi_file _ _ _ _ _ HI)). change NDIRECT with 12. lia.
    + unfold ind_block. rsimpl. rewrite list_lookup_total_insert_eq; [done|].
      rewrite (fo_len _ _ _ (fi_file _ _ _ _ _ HI)). change NDIRECT with 12. lia.
    + intros j Hj Hne. rewrite (gr_slot _ _ _ _ _ _ _ Hg) by done. by rewrite decide_False.
  - exists T, x, w. split; [done|]. split; [done|]. split; [eapply txn_le; [|exact Ht]; lia|].
    split; [eapply finv_le; [| | |exact HI]; lia|]. split; [apply extends_refl|done].
Qed.

(** The entry of the indirect block, allocated if need be. *)
Lemma indirect_entry k r bf T x m j w :
  finv (S k) (3 + r) (4 + bf) T x → ftxn T x (m + balloc_reads sb + 1) w → NDIRECT < j < NSLOT → ind_block x ≠ 0 →
  ∃ T' w', (bp ← bread (i_dev x) (ind_block x);
      data ← buf_data bp;
      let addr := get32 data (4 * Z.to_nat (j - NDIRECT - 1)) in
      addr ← (if addr =? 0 then
                addr ← balloc (i_dev x);
                when (negb (addr =? 0))
                  (upd_data bp (set32 (4 * Z.to_nat (j - NDIRECT - 1)) addr);;
                   log_write bp);;
                mret addr
              else mret addr);
      brelse bp;;
      mret addr) w = Ok (slot_addr (t_view T') x j) w'
    ∧ slot_addr (t_view T') x j ≠ 0 ∧ ftxn T' x m w' ∧ finv k r bf T' x ∧ extends sb (t_view T) x (t_view T') x.
Proof.
  intros HI Ht Hj Hind. pose proof HI as [I1 I2 I3 I4 I5 I6 I7]. rewrite (fo_dev _ _ _ I4).
  pose proof (fo_data _ _ _ I4 NDIRECT ltac:(done) Hind) as [Hd Hu]. change (slot_addr (t_view T) x NDIRECT) with (ind_block x) in *.
  assert (blocks_ok (t_view T)) as Hlen by (intros b; apply (view_length _ _ _ _ _ _ _ _ Ht)).
  pose proof (dstart_pos sb Hsb) as Hd0. pose proof (so_size _ Hsb) as Hss.
  assert (slot_addr (t_view T) x j = get32 (t_view T (ind_block x)) (4 * Z.to_nat (j - NDIRECT - 1))) as Es.
  { unfold slot_addr. fold (ind_block x). rewrite (proj2 (Z.leb_gt j NDIRECT)) by lia. by rewrite (proj2 (Z.eqb_neq _ 0) Hind). }
  assert (t_open T !! ind_block x = None) as Ho by (by rewrite I1).
  assert (ind_block x ∉ t_dirty T) as Hdy by (by rewrite I2).
  replace (m + balloc_reads sb + 1)%nat with (S (m + balloc_reads sb)) in Ht by lia.
  destruct (bread_txn p pid sz T _ _ (ind_block x) w Ht) as (b & w1 & E1 & Ht1);
    [lia|done|right; unfold buffers in I7; lia|].
  rewrite (bind_ok _ _ _ _ _ E1), (bind_ok _ _ _ _ _ (buf_data_txn p pid sz _ _ _ _ _ _ Ht1 (lookup_insert_eq _ _ _))).
  change (t_view (t_opened (ind_block x) b T)) with (t_view T). cbv zeta. rewrite <- Es.
  destruct (Z.eqb_spec (slot_addr (t_view T) x j) 0) as [Hz|Hnz].
  - destruct (balloc_run (t_opened (ind_block x) b T) (set_inode x) k m w1) as (n & w2 & Hff & E2 & Ht2); try done.
    { intros b' Hb'. simpl. rewrite I1, I2. split; [|set_solver]. rewrite lookup_insert_ne; [done|].
      pose proof (BBLOCK_range sb b' Hsb Hb'). lia. }
    { intros n (_ & Hnu & _). simpl. rewrite I1, lookup_insert_ne; [done|]. intros <-. simpl in Hnu. congruence. }
    { eapply room_le; [|exact I6]. lia. }
    { apply buffers_opened. eapply buffers_le; [|exact I7]. lia. }
    change (first_free (t_view (t_opened (ind_block x) b T)) sb n) with (first_free (t_view T) sb n) in Hff.
    pose proof (first_free_data sb n T I3 Hff) as Hn.
    pose proof (grows_indirect sb j n T x Hsb Hlen I3 Hff I4 Hz Hd0 Hj Hind) as Hg.
    assert (0 <= j < NSLOT) as Hj2 by (change NDIRECT with 12 in Hj; lia).
    pose proof Hff as (_ & Hnu & _).
    assert (slot_addr (t_view (t_alloc_ind sb j n T x)) x j = n) as Esn by (rewrite (gr_slot _ _ _ _ _ _ _ Hg) by done; by rewrite decide_True).
    change (t_alloc sb n (t_opened (ind_block x) b T)) with (t_opened (ind_block x) b (t_alloc sb n T)) in Ht2.
    destruct (finish_update p pid sz (t_alloc sb n T) _ m (ind_block x) b (set32 (4 * Z.to_nat (j - NDIRECT - 1)) n) w2 Ht2)
      as (w3 & E3 & _ & Ht3); [done|done|by do 2 apply room_update; eapply room_le; [|exact I6]; lia| |].
    { rewrite length_set32; [apply (alloc_blocks_ok sb n T Hlen)|]. rewrite (alloc_blocks_ok sb n T Hlen).
      change NSLOT with 269 in Hj. change NDIRECT with 12 in *. change (Z.to_nat BSIZE) with 1024%nat. lia. }
    exists (t_alloc_ind sb j n T x), w3. rewrite Esn. split; [|split; [lia|]].
    + rewrite bind_assoc, (bind_ok _ _ _ _ _ E2), (proj2 (Z.eqb_neq n 0)) by lia. cbn [negb when].
      rewrite !bind_assoc. revert E3. unfold mbind, K_bind, mret, K_ret.
      destruct (upd_data _ _ w2) as [[] w4| | |]; try done. destruct (log_write b w4) as [[] w5| | |]; try done.
      by intros ->.
    + rewrite (alloc_view_old sb n T Hsb I3 Hff) in Ht3 by (lia || congruence).
      split; [exact Ht3|]. split; [|by eapply (grow_extends sb j n)].
      split; try done.
      * by apply alloc_ind_meta.
      * by eapply (grow_file_ok sb j n).
      * destruct (free_blocks_alloc sb n T k Hsb Hlen I3 Hff I5) as (X & HX1 & HX2). exists X. split; [done|].
        intros b' Hb'. destruct (HX2 b' Hb') as [HX3 HX4]. split; [done|].
        by rewrite (gr_used _ _ _ _ _ _ _ Hg), <- (alloc_used sb n T Hsb Hlen I3 Hff b' HX3).
      * unfold t_alloc_ind. by do 3 apply room_update.
      * unfold t_alloc_ind. do 3 apply buffers_update. by eapply buffers_le; [|exact I7]; lia.
  - destruct (finish_read p pid sz T _ _ _ b w1 Ht1 Ho Hdy) as (w2 & E2 & Ht2).
    exists T, w2. split; [|split; [done|split; [|split; [|apply extends_refl]]]].
    + erewrite bind_ok by reflexivity. by rewrite (bind_ok _ _ _ _ _ E2).
    + eapply txn_le; [|exact Ht2]. lia.
    + eapply finv_le; [| | |exact HI]; lia.
Qed.

(** The code of [bmap] past the direct blocks, in terms of slots. *)
Lemma bmap_indirect_code bn x (w : world) :
  NDIRECT <= bn < MAXFILE → get_inode ip (ks w) = x →
  bmap ip bn w =
    (addr ← (let addr := i_addrs x !!! Z.to_nat NDIRECT in
             if addr =? 0 then
               addr ← balloc (i_dev x);
               when (negb (addr =? 0))
                 (modify (upd_inode ip (λ x, x <| i_addrs ::= <[Z.to_nat NDIRECT := addr]> |>)));;
               mret addr
             else mret addr);
     if addr =? 0 then mret 0
     else
       bp ← bread (i_dev x) addr;
       data ← buf_data bp;
       let addr := get32 data (4 * Z.to_nat (slot_of bn - NDIRECT - 1)) in
       addr ← (if addr =? 0 then
                 addr ← balloc (i_dev x);
                 when (negb (addr =? 0))
                   (upd_data bp (set32 (4 * Z.to_nat (slot_of bn - NDIRECT - 1)) addr);;
                    log_write bp);;
                 mret addr
               else mret addr);
       brelse bp;;
       mret addr) w.
Proof.
  intros Hbn Hx. unfold bmap. erewrite bind_ok by reflexivity. rewrite Hx.
  rewrite (proj2 (Z.ltb_ge bn NDIRECT)) by lia. unfold slot_of. rewrite (proj2 (Z.ltb_ge bn NDIRECT)) by lia.
  rewrite (proj2 (Z.ltb_lt (bn - NDIRECT) NINDIRECT)) by (unfold MAXFILE in Hbn; lia).
  replace (bn + 1 - NDIRECT - 1) with (bn - NDIRECT) by lia. done.
Qed.

(** [bmap] gives the file a block at [bn] if it has none. *)
Lemma bmap_spec k r bf T x m bn w :
  finv (2 + k) (5 + r) (6 + bf) T x → ftxn T x (m + bmap_reads sb) w → 0 <= bn < MAXFILE →
  ∃ T' x' w', bmap ip bn w = Ok (slot_addr (t_view T') x' (slot_of bn)) w' ∧ ftxn T' x' m w' ∧ finv k r bf T' x'
    ∧ extends sb (t_view T) x (t_view T') x' ∧ slot_addr (t_view T') x' (slot_of bn) ≠ 0.
Proof.
  intros HI Ht Hbn. pose proof (ftxn_inode _ _ _ _ Ht) as Hx. destruct (slot_of_range bn Hbn) as [Hs Hs12].
  destruct (Z.lt_ge_cases bn NDIRECT) as [Hd|Hi].
  - assert (slot_of bn = bn) as Es by (unfold slot_of; by rewrite (proj2 (Z.ltb_lt bn NDIRECT))).
    unfold bmap. erewrite bind_ok by reflexivity. rewrite Hx, (proj2 (Z.ltb_lt bn NDIRECT)) by done. cbv zeta.
    assert (∀ V y, slot_addr V y bn = i_addrs y !!! Z.to_nat bn) as Esl.
    { intros V y. unfold slot_addr. by rewrite (proj2 (Z.leb_le bn NDIRECT)) by lia. }
    rewrite Es. rewrite <- (Esl (t_view T)). destruct (Z.eqb_spec (slot_addr (t_view T) x bn) 0) as [Hz|Hnz].
    + destruct (alloc_direct (S k) (3 + r) (4 + bf) T x m bn w) as (n & w1 & w2 & E1 & Hn & E2 & Ht2 & HI2 & Hg & Hex);
        [done|eapply txn_le; [|exact Ht]; unfold bmap_reads; lia|lia|done|].
      eexists _, _, w2. rewrite (fo_dev _ _ _ (fi_file _ _ _ _ _ HI)).
      rewrite (gr_slot _ _ _ _ _ _ _ Hg), decide_True by (done || lia).
      rewrite (bind_ok _ _ _ _ _ E1), (proj2 (Z.eqb_neq n 0) Hn), (bind_ok _ _ _ _ _ E2).
      split; [done|]. split; [exact Ht2|]. split; [eapply finv_le; [| | |exact HI2]; lia|]. done.
    + exists T, x, w. split; [done|]. split; [eapply txn_le; [|exact Ht]; lia|].
      split; [eapply finv_le; [| | |exact HI]; lia|]. split; [apply extends_refl|done].
  - rewrite (bmap_indirect_code bn x) by (done || lia).
    destruct (ensure_indirect (S k) (3 + r) (4 + bf) T x (m + balloc_reads sb + 1) w) as (T1 & x1 & w1 & E1 & Hn1 & Ht1 & HI1 & Hex1 & Hs1);
      [done|eapply txn_le; [|exact Ht]; unfold bmap_reads; lia|].
    rewrite (bind_ok _ _ _ _ _ E1), (proj2 (Z.eqb_neq _ 0) Hn1).
    assert (i_dev x = i_dev x1) as -> by (by rewrite (ex_inode _ _ _ _ _ Hex1)).
    destruct (indirect_entry k r bf T1 x1 m (slot_of bn) w1) as (T2 & w2 & E2 & Hn2 & Ht2 & HI2 & Hex2); [done|done| |done|].
    { unfold slot_of in *. rewrite (proj2 (Z.ltb_ge bn NDIRECT)) in * by lia. lia. }
    exists T2, x1, w2. split; [exact E2|]. split; [done|]. split; [done|]. split; [by eapply extends_trans|done].
Qed.

(** [bmap] of a block that the file has, outside transactions too. *)
Lemma bmap_mapped T x m bn w :
  ftxn T x (S m) w → t_open T = ∅ → t_dirty T = ∅ → file_ok (t_view T) sb x → buffers 1 T → 0 <= bn < MAXFILE →
  slot_addr (t_view T) x (slot_of bn) ≠ 0 →
  ∃ w', bmap ip bn w = Ok (slot_addr (t_view T) x (slot_of bn)) w' ∧ ftxn T x m w'.
Proof.
  intros Ht Ho Hdy Hf Hb Hbn Hnz. pose proof (ftxn_inode _ _ _ _ Ht) as Hx.
  destruct (Z.lt_ge_cases bn NDIRECT) as [Hd|Hi].
  - unfold bmap. erewrite bind_ok by reflexivity. rewrite Hx, (proj2 (Z.ltb_lt bn NDIRECT)) by done. cbv zeta.
    assert (slot_addr (t_view T) x (slot_of bn) = i_addrs x !!! Z.to_nat bn) as Es.
    { unfold slot_of. rewrite (proj2 (Z.ltb_lt bn NDIRECT)) by done. unfold slot_addr.
      by rewrite (proj2 (Z.leb_le bn NDIRECT)) by lia. }
    rewrite <- Es, (proj2 (Z.eqb_neq _ 0) Hnz). exists w. split; [done|]. eapply txn_le; [|exact Ht]. lia.
  - rewrite (bmap_indirect_code bn x) by (done || lia). cbv zeta. fold (ind_block x).
    assert (slot_of bn = bn + 1) as Eb by (unfold slot_of; by rewrite (proj2 (Z.ltb_ge bn NDIRECT))).
    assert (ind_block x ≠ 0) as Hind.
    { intros E. apply Hnz. unfold slot_addr. fold (ind_block x). rewrite E, Eb.
      by rewrite (proj2 (Z.leb_gt (bn + 1) NDIRECT)) by lia. }
    assert (slot_addr (t_view T) x (slot_of bn) = get32 (t_view T (ind_block x)) (4 * Z.to_nat (slot_of bn - NDIRECT - 1))) as Es.
    { unfold slot_addr. fold (ind_block x). rewrite (proj2 (Z.leb_gt (slot_of bn) NDIRECT)) by lia.
      by rewrite (proj2 (Z.eqb_neq _ 0) Hind). }
    rewrite (proj2 (Z.eqb_neq _ 0) Hind). erewrite bind_ok by reflexivity. rewrite (proj2 (Z.eqb_neq _ 0) Hind).
    pose proof (fo_data _ _ _ Hf NDIRECT ltac:(done) Hind) as [Hdr _]. change (slot_addr (t_view T) x NDIRECT) with (ind_block x) in *.
    pose proof (dstart_pos sb Hsb). pose proof (so_size _ Hsb). rewrite (fo_dev _ _ _ Hf).
    assert (t_open T !! ind_block x = None) as Ho1 by (by rewrite Ho).
    destruct (bread_txn p pid sz T _ m (ind_block x) w Ht) as (b & w1 & E1 & Ht1);
      [lia|done|right; unfold buffers in Hb; lia|].
    rewrite (bind_ok _ _ _ _ _ E1), (bind_ok _ _ _ _ _ (buf_data_txn p pid sz _ _ _ _ _ _ Ht1 (lookup_insert_eq _ _ _))).
    change (t_view (t_opened (ind_block x) b T)) with (t_view T). rewrite <- Es, (proj2 (Z.eqb_neq _ 0) Hnz).
    erewrite bind_ok by reflexivity.
    destruct (finish_read p pid sz T _ _ _ b w1 Ht1 Ho1) as (w2 & E2 & Ht2); [by rewrite Hdy|].
    exists w2. by rewrite (bind_ok _ _ _ _ _ E2).
Qed.

(** ** readi *)

Lemma readi_loop_spec fuel T x m off n tot out w :
  ftxn T x (m + 2 * fuel) w → t_open T = ∅ → t_dirty T = ∅ → file_ok (t_view T) sb x → mapped (t_view T) x → buffers 1 T →
  0 <= off → 0 <= tot <= n → off + (n - tot) <= i_size x → i_size x <= MAXFILE * BSIZE →
  (0 < fuel)%nat → (n - tot <= 0 ∨ off mod BSIZE + (n - tot) <= BSIZE * (Z.of_nat fuel - 1)) →
  ∃ w', readi_loop fuel ip DLocal off n tot out w = Ok (n, out ++ fbytes (t_view T) x off (n - tot)) w' ∧ ftxn T x m w'.
Proof.
  revert off tot out w. induction fuel as [|fuel IH]; intros off tot out w Ht Ho Hdy Hf Hmp Hb Hoff Htot Hsz Hmax Hfuel0 Hfuel;
    [lia|]. pose proof (Z.mod_pos_bound off BSIZE ltac:(done)) as Hmod. cbn [readi_loop].
  destruct (Z.ltb_spec tot n) as [Hlt|Hge].
  2:{ exists w. replace (n - tot) with 0 by lia. rewrite app_nil_r.
      split; [unfold mret, K_ret; repeat f_equal; lia|]. eapply txn_le; [|exact Ht]. lia. }
  pose proof (Z.div_mod off BSIZE ltac:(done)) as Hdm. assert (0 <= off / BSIZE) as Hd0 by (apply Z.div_pos; [lia|done]).
  assert (slot_addr (t_view T) x (slot_of (off / BSIZE)) ≠ 0) as Hnz by (apply Hmp; lia).
  assert (0 <= off / BSIZE < MAXFILE) as Hbn by (split; [done|]; apply Z.div_lt_upper_bound; [done|]; lia).
  replace (m + 2 * S fuel)%nat with (S (S (m + 2 * fuel))) in Ht by lia.
  destruct (bmap_mapped T x _ (off / BSIZE) w Ht Ho Hdy Hf Hb Hbn Hnz) as (w1 & E1 & Ht1).
  rewrite (bind_ok _ _ _ _ _ E1), (proj2 (Z.eqb_neq _ 0) Hnz). erewrite bind_ok by reflexivity.
  rewrite (ftxn_inode _ _ _ _ Ht1), (fo_dev _ _ _ Hf). destruct (slot_of_range _ Hbn) as [Hsr _].
  destruct (fo_data _ _ _ Hf _ Hsr Hnz) as [Hdr _]. pose proof (dstart_pos sb Hsb). pose proof (so_size _ Hsb).
  set (a := slot_addr (t_view T) x (slot_of (off / BSIZE))) in *.
  assert (t_open T !! a = None) as Ho1 by (by rewrite Ho).
  destruct (bread_txn p pid sz T _ _ a w1 Ht1) as (b & w2 & E2 & Ht2); [lia|done|right; unfold buffers in Hb; lia|].
  rewrite (bind_ok _ _ _ _ _ E2). cbv zeta.
  rewrite (bind_ok _ _ _ _ _ (buf_data_txn p pid sz _ _ _ _ _ _ Ht2 (lookup_insert_eq _ _ _))).
  change (t_view (t_opened a b T)) with (t_view T).
  set (c := Z.min (n - tot) (BSIZE - off mod BSIZE)). assert (0 < c ∧ c <= n - tot ∧ off mod BSIZE + c <= BSIZE) as (Hc & Hc1 & Hc2) by (unfold c; lia).
  erewrite bind_ok by reflexivity.
  destruct (finish_read p pid sz T _ _ _ b w2 Ht2 Ho1) as (w3 & E3 & Ht3); [by rewrite Hdy|].
  rewrite (bind_ok _ _ _ _ _ E3). change (0 =? -1) with false. cbv iota. cbn [kdst_add].
  assert (blocks_ok (t_view T)) as Hlen by (intros b'; apply (view_length _ _ _ _ _ _ _ _ Ht)).
  unfold a. rewrite block_bytes by (done || lia).
  assert (MAXFILE * BSIZE = 274432) as EM by done. rewrite EM in Hmax. assert (0 <= off + c < 2 ^ 32) as Hoc by lia. rewrite (u32_small (off + c)) by exact Hoc.
  assert (n - (tot + c) <= 0 ∨ (off + c) mod BSIZE + (n - (tot + c)) <= BSIZE * (Z.of_nat fuel - 1)) as Hf2.
  { destruct (Z.eq_dec c (n - tot)) as [->|Hne]; [left; lia|right].
    assert (c = BSIZE - off mod BSIZE) as Ec by (unfold c in *; lia).
    assert ((off + c) mod BSIZE = 0) as ->; [|lia]. rewrite Ec.
    replace (off + (BSIZE - off mod BSIZE)) with ((off / BSIZE + 1) * BSIZE) by lia. by apply Z.mod_mul. }
  assert (0 < fuel)%nat as Hfp by (unfold BSIZE in *; lia).
  destruct (IH (off + c) (tot + c) (out ++ fbytes (t_view T) x off c) w3) as (w4 & E4 & Ht4);
    try done; try lia.
  exists w4. rewrite E4. split; [|done]. do 2 f_equal. rewrite <- app_assoc. f_equal.
  replace (n - tot) with (c + (n - (tot + c))) by lia. by rewrite fbytes_app by lia.
Qed.

(** [readi] into kernel memory, for all [uint] arguments. *)
Definition read_count (x : inode) (off n : Z) : Z :=
  if (i_size x <? off) || (2 ^ 32 <=? off + n) then 0 else Z.min n (i_size x - off).

Definition readi_reads (n : Z) : nat := (2 * (3 + Z.to_nat (n / BSIZE)))%nat.

Lemma readi_spec T x m off n w :
  ftxn T x (m + readi_reads n) w → t_open T = ∅ → t_dirty T = ∅ → file_ok (t_view T) sb x → mapped (t_view T) x → buffers 1 T →
  0 <= i_size x <= MAXFILE * BSIZE → 0 <= off < 2 ^ 32 → 0 <= n < 2 ^ 32 →
  ∃ w', readi ip DLocal off n w = Ok (read_count x off n, fbytes (t_view T) x off (read_count x off n)) w' ∧ ftxn T x m w'.
Proof.
  intros Ht Ho Hdy Hf Hmp Hb Hsz Hoff Hn. unfold readi. erewrite bind_ok by reflexivity. rewrite (ftxn_inode _ _ _ _ Ht).
  assert (MAXFILE * BSIZE = 274432) as EM by done.
  assert ((u32 (off + n) <? off) = (2 ^ 32 <=? off + n)) as Ew.
  { destruct (Z.leb_spec (2 ^ 32) (off + n)) as [Hge|Hlt].
    - apply Z.ltb_lt. unfold u32. rewrite <- (Z.mod_unique (off + n) (2 ^ 32) 1 (off + n - 2 ^ 32)) by lia. lia.
    - rewrite u32_small by lia. apply Z.ltb_ge. lia. }
  rewrite Ew. unfold read_count. destruct (Z.ltb_spec (i_size x) off) as [Hs|Hs]; cbn [orb].
  { exists w. split; [done|]. eapply txn_le; [|exact Ht]. lia. }
  destruct (Z.leb_spec (2 ^ 32) (off + n)) as [Hge|Hlt].
  { exists w. split; [done|]. eapply txn_le; [|exact Ht]. lia. }
  rewrite u32_small by lia. set (c := Z.min n (i_size x - off)).
  assert ((if i_size x <? off + n then i_size x - off else n) = c) as -> by (unfold c; case_match; rewrite ?Z.ltb_lt, ?Z.ltb_ge in *; lia).
  pose proof (Z.mod_pos_bound off BSIZE ltac:(done)). pose proof (Z.div_mod c BSIZE ltac:(done)).
  pose proof (Z.mod_pos_bound c BSIZE ltac:(done)).
  assert (0 <= c <= n ∧ c <= i_size x - off) as [Hc Hc2] by (unfold c; lia). clearbody c. assert (0 <= c / BSIZE <= n / BSIZE) as Hcd.
  { split; [apply Z.div_pos; [lia|done]|apply Z.div_le_mono; [done|lia]]. }
  destruct (readi_loop_spec (S (S (S (Z.to_nat (c / BSIZE))))) T x m off c 0 [] w) as (w' & E & Ht'); try done; try lia.
  { eapply txn_le; [|exact Ht]. unfold readi_reads. lia. }
  { right. replace (Z.of_nat (S (S (S (Z.to_nat (c / BSIZE))))) - 1) with (c / BSIZE + 2) by lia. unfold BSIZE in *. lia. }
  exists w'. split; [|done]. rewrite (bind_ok _ _ _ _ _ E). cbn [fst snd app]. rewrite Z.sub_0_r.
  unfold mret, K_ret. rewrite i32_small; [done|]. lia.
Qed.

(** ** writei *)

Lemma finv_blocks_ok k r bf T x m w : finv k r bf T x → ftxn T x m w → blocks_ok (t_view T).
Proof. intros _ Ht b. apply (view_length _ _ _ _ _ _ _ _ Ht). Qed.

(** Storing into a block of the file. *)
Lemma finv_write k r bf T x off bytes :
  finv k (S r) (S bf) T x → blocks_ok (t_view T) → 0 <= off → off / BSIZE < MAXFILE →
  off mod BSIZE + Z.of_nat (length bytes) <= BSIZE →
  let a := slot_addr (t_view T) x (slot_of (off / BSIZE)) in a ≠ 0 →
  finv k r bf (t_update a (splice (Z.to_nat (off mod BSIZE)) bytes (t_view T a)) T) x.
Proof.
  intros [I1 I2 I3 I4 I5 I6 I7] Hlen Hoff Hbn Hfit a Ha. pose proof (dstart_pos sb Hsb) as Hd0.
  assert (∀ b, 0 <= b < sb_size sb → used (<[a := splice (Z.to_nat (off mod BSIZE)) bytes (t_view T a)]> (t_view T)) sb b = used (t_view T) sb b) as Hu
    by (intros; by apply bw_used).
  split; [done|done| | | |by apply room_update|by apply buffers_update].
  - intros b Hb. destruct Hsb as [? _ _ _ _ ?]. unfold t_update. cbn [t_view]. rewrite Hu by lia. by apply I3.
  - by apply (bw_file_ok sb (t_view T) x off bytes).
  - destruct I5 as (X & HX1 & HX2). exists X. split; [done|]. intros b Hb. destruct (HX2 b Hb). split; [done|].
    unfold t_update. cbn [t_view]. by rewrite Hu.
Qed.

Definition block_reads : nat := (bmap_reads sb + 1)%nat.

(** One iteration of the copy loop. *)
Lemma write_block k r bf T x m off bytes w :
  finv (2 + k) (6 + r) (7 + bf) T x → ftxn T x (m + block_reads) w → 0 <= off → off / BSIZE < MAXFILE →
  off mod BSIZE + Z.of_nat (length bytes) <= BSIZE →
  ∃ T' x' w1 b w2, bmap ip (off / BSIZE) w = Ok (slot_addr (t_view T') x' (slot_of (off / BSIZE))) w1
    ∧ slot_addr (t_view T') x' (slot_of (off / BSIZE)) ≠ 0
    ∧ get_inode ip (ks w1) = x' ∧ i_dev x' = ROOTDEV
    ∧ bread ROOTDEV (slot_addr (t_view T') x' (slot_of (off / BSIZE))) w1 = Ok b w2
    ∧ ∃ T'' w3, (∀ A (c : K A), (upd_data b (splice (Z.to_nat (off mod BSIZE)) bytes);; log_write b;; brelse b;; c) w2 = c w3)
      ∧ ftxn T'' x' m w3 ∧ finv k r bf T'' x' ∧ wrote sb off bytes (t_view T) x (t_view T'') x'.
Proof.
  intros HI Ht Hoff Hbn Hfit. pose proof (dstart_pos sb Hsb) as Hd0. pose proof (so_size _ Hsb) as Hss.
  assert (0 <= off / BSIZE) as Hbn0 by (apply Z.div_pos; [lia|done]).
  destruct (bmap_spec k (1 + r) (1 + bf) T x (S m) (off / BSIZE) w) as (T1 & x1 & w1 & E1 & Ht1 & HI1 & Hex & Hnz);
    [done|eapply txn_le; [|exact Ht]; unfold block_reads; lia|done|].
  pose proof (finv_blocks_ok _ _ _ _ _ _ _ HI1 Ht1) as Hlen. pose proof HI1 as [I1 I2 _ I4 _ I6 I7].
  set (a := slot_addr (t_view T1) x1 (slot_of (off / BSIZE))) in *.
  destruct (slot_of_range (off / BSIZE) ltac:(lia)) as [Hs _]. destruct (fo_data _ _ _ I4 _ Hs Hnz) as [Hd _]. fold a in Hd.
  assert (t_open T1 !! a = None) as Ho by (by rewrite I1).
  destruct (bread_txn p pid sz T1 _ m a w1 Ht1) as (b & w2 & E2 & Ht2); [lia|done|right; unfold buffers in I7; lia|].
  destruct (finish_update p pid sz T1 _ m a b (splice (Z.to_nat (off mod BSIZE)) bytes) w2 Ht2 Ho) as (w3 & _ & E3 & Ht3);
    [by rewrite I2|by eapply room_le; [|exact I6]; lia|by apply bw_splice_length|].
  exists T1, x1, w1, b, w2. split; [done|]. split; [done|]. split; [by eapply ftxn_inode|].
  split; [apply I4|]. split; [done|].
  eexists _, w3. split; [exact E3|]. split; [exact Ht3|]. split; [by apply finv_write|].
  apply (wrote_trans sb off [] bytes _ _ (t_view T1) x1); [by apply extends_wrote| |done|].
  - simpl length. rewrite Z.add_0_r. by apply bw_wrote.
  - simpl. pose proof (Z.div_mod off BSIZE ltac:(done)). unfold MAXFILE, NDIRECT, NINDIRECT, BSIZE in *. lia.
Qed.

Lemma writei_loop_spec nb fuel k r bf T x m off n tot src w :
  finv (2 * nb + k) (6 * nb + r) (7 * nb + bf) T x → ftxn T x (m + nb * block_reads) w →
  0 <= off → 0 <= tot <= n → off + (n - tot) <= MAXFILE * BSIZE → Z.of_nat (length src) = n - tot →
  (n - tot <= 0 ∨ off mod BSIZE + (n - tot) <= BSIZE * Z.of_nat nb) → (nb < fuel)%nat →
  ∃ T' x' w', writei_loop fuel ip (SKern src) off n tot w = Ok (n, off + (n - tot)) w' ∧ ftxn T' x' m w'
    ∧ finv k r bf T' x' ∧ wrote sb off src (t_view T) x (t_view T') x'.
Proof.
  revert fuel T x off tot src w. induction nb as [|nb IH]; intros [|fuel] T x off tot src w HI Ht Hoff Htot Hmax Hsrc Hnb Hfuel;
    try lia; pose proof (Z.mod_pos_bound off BSIZE ltac:(done)) as Hmod; cbn [writei_loop];
    (destruct (Z.ltb_spec tot n) as [Hlt|Hge]; [|
      exists T, x, w; split; [unfold mret, K_ret; repeat f_equal; lia|];
      split; [eapply txn_le; [|exact Ht]; lia|]; split; [eapply finv_le; [| | |exact HI]; lia|];
      assert (src = []) as -> by (apply nil_length_inv; lia); apply extends_wrote, extends_refl]).
  { exfalso. lia. }
  set (c := Z.min (n - tot) (BSIZE - off mod BSIZE)).
  assert (0 < c ∧ c <= n - tot ∧ off mod BSIZE + c <= BSIZE) as (Hc & Hc1 & Hc2) by (unfold c; lia).
  assert (length (take (Z.to_nat c) src) = Z.to_nat c) as Hlc by (rewrite length_take; lia).
  assert (MAXFILE * BSIZE = 274432) as EM by done.
  destruct (write_block (2 * nb + k) (6 * nb + r) (7 * nb + bf) T x (m + nb * block_reads) off (take (Z.to_nat c) src) w)
    as (T1 & x1 & w1 & b & w2 & E1 & Hnz & Ex & Edev & E2 & T2 & w3 & E3 & Ht3 & HI3 & Hw).
  { eapply finv_le; [| | |exact HI]; lia. }
  { eapply txn_le; [|exact Ht]. lia. }
  { done. }
  { apply bn_range. lia. }
  { rewrite Hlc. lia. }
  rewrite (bind_ok _ _ _ _ _ E1), (proj2 (Z.eqb_neq _ 0) Hnz). erewrite bind_ok by reflexivity. rewrite Ex, Edev.
  rewrite (bind_ok _ _ _ _ _ E2). cbv zeta. fold c. cbn [either_copyin].
  erewrite bind_ok by reflexivity. cbn [fst snd]. change (0 =? -1) with false. cbv iota. rewrite E3. cbn [ksrc_add].
  assert (0 <= off + c < 2 ^ 32) as Hoc by lia. rewrite (u32_small (off + c)) by exact Hoc.
  assert (n - (tot + c) <= 0 ∨ (off + c) mod BSIZE + (n - (tot + c)) <= BSIZE * Z.of_nat nb) as Hnb2.
  { destruct (Z.eq_dec c (n - tot)) as [->|Hne]; [left; lia|right].
    assert (c = BSIZE - off mod BSIZE) as Ec by (unfold c in *; lia). pose proof (Z.div_mod off BSIZE ltac:(done)).
    assert ((off + c) mod BSIZE = 0) as ->; [|lia]. rewrite Ec.
    replace (off + (BSIZE - off mod BSIZE)) with ((off / BSIZE + 1) * BSIZE) by lia. by apply Z.mod_mul. }
  destruct (IH fuel T2 x1 (off + c) (tot + c) (drop (Z.to_nat c) src) w3) as (T4 & x4 & w4 & E4 & Ht4 & HI4 & Hw4);
    try done; try lia; [rewrite length_drop; lia|].
  exists T4, x4, w4. rewrite E4. split; [do 2 f_equal; lia|]. split; [done|]. split; [done|].
  rewrite <- (take_drop (Z.to_nat c) src). eapply wrote_trans; [exact Hw| |done|].
  - rewrite Hlc, Z2Nat.id by lia. exact Hw4.
  - rewrite Hlc, length_drop. lia.
Qed.

(** ** iupdate *)

Lemma finv_meta k r bf T x b data :
  finv k (S r) (S bf) T x → 0 <= b < sb_bmapstart sb → finv k r bf (t_update b data T) x.
Proof.
  intros [I1 I2 I3 I4 I5 I6 I7] Hb. pose proof (mw_used sb Hsb (t_view T) b data Hb) as Hu. destruct Hsb as [? _ _ _ _ ?].
  split; [done|done| |by apply mw_file_ok| |by apply room_update|by apply buffers_update].
  - intros n Hn. unfold t_update. cbn [t_view]. rewrite Hu by lia. by apply I3.
  - destruct I5 as (X & HX1 & HX2). exists X. split; [done|]. intros n Hn. destruct (HX2 n Hn). split; [done|].
    unfold t_update. cbn [t_view]. by rewrite Hu.
Qed.

Lemma iupdate_spec k r bf T x m w :
  finv k (S r) (S bf) T x → ftxn T x (S m) w → 0 <= i_inum x < sb_ninodes sb → dinode_ok (dinode_of x) →
  ∃ T' w', iupdate ip w = Ok () w' ∧ ftxn T' x m w' ∧ finv k r bf T' x
    ∧ extends sb (t_view T) x (t_view T') x ∧ disk_inode sb (t_view T') (i_inum x) = dinode_of x.
Proof.
  intros HI Ht Hi Hd. pose proof (IBLOCK_range sb Hsb _ Hi) as Hb. pose proof (dinode_off_range (i_inum x)) as Ho.
  pose proof (finv_blocks_ok _ _ _ _ _ _ _ HI Ht (IBLOCK (i_inum x) sb)) as Hlen. pose proof HI as [I1 I2 I3 I4 I5 I6 I7].
  unfold iupdate. erewrite bind_ok by reflexivity. rewrite (ftxn_inode _ _ _ _ Ht), (fo_dev _ _ _ I4).
  erewrite bind_ok by reflexivity. rewrite (txn_sb _ _ _ _ _ _ _ Ht). change (k_sb (set_inode x)) with (k_sb F). rewrite Hsbk.
  fold (dinode_of x).
  destruct (bread_txn p pid sz T _ m (IBLOCK (i_inum x) sb) w Ht) as (b & w2 & E2 & Ht2);
    [destruct Hsb; pose proof (Z.div_pos (sb_size sb) BPB ltac:(lia) ltac:(done)); lia|by rewrite I1|right; unfold buffers in I7; lia|].
  rewrite (bind_ok _ _ _ _ _ E2).
  destruct (finish_update p pid sz T _ m (IBLOCK (i_inum x) sb) b (splice (dinode_off (i_inum x)) (enc_dinode (dinode_of x))) w2 Ht2)
    as (w3 & E3 & _ & Ht3); [by rewrite I1|by rewrite I2|by eapply room_le; [|exact I6]; lia| |].
  { pose proof (length_enc_dinode (dinode_of x) (do_len _ Hd)) as El.
    rewrite length_splice; [apply Hlen|]. rewrite Hlen, El. lia. }
  rewrite E3. eexists _, w3. split; [done|]. split; [exact Ht3|]. split; [by apply finv_meta|].
  split; [by apply mw_extends|]. unfold disk_inode, t_update. cbn [t_view]. rewrite fn_lookup_insert.
  apply dinode_roundtrip; [done|]. by rewrite Hlen.
Qed.

(** ** writei as a whole *)

Lemma finv_size k r bf T x s : finv k r bf T x → finv k r bf T (x <| i_size := s |>).
Proof. intros [I1 I2 I3 I4 I5 I6 I7]. split; try done. by apply file_ok_size. Qed.

Lemma writei_spec k r bf T x m off src w :
  let n := Z.of_nat (length src) in let nb := touched off n in
  finv (2 * nb + k) (6 * nb + S r) (7 * nb + S bf) T x → ftxn T x (S m + nb * block_reads) w →
  0 <= i_inum x < sb_ninodes sb → dinode_ok (dinode_of x) → 0 <= off <= i_size x → off + n <= MAXFILE * BSIZE →
  i_size x <= MAXFILE * BSIZE →
  ∃ T' x' w', writei ip (SKern src) off n w = Ok n w' ∧ ftxn T' x' m w' ∧ finv k r bf T' x' ∧ written sb off src T x T' x'.
Proof.
  intros n nb HI Ht Hi Hd Hoff Hmax Hsz. assert (MAXFILE * BSIZE = 274432) as EM by done. rewrite EM in Hsz, Hmax.
  unfold writei. erewrite bind_ok by reflexivity. rewrite (ftxn_inode _ _ _ _ Ht). rewrite (u32_small (off + n)) by lia.
  rewrite (proj2 (Z.ltb_ge (i_size x) off)), (proj2 (Z.ltb_ge (off + n) off)), (proj2 (Z.ltb_ge _ (off + n))) by lia. cbn [orb].
  destruct (touched_enough off n ltac:(lia)) as [Hn1 Hn2]. fold nb in Hn1, Hn2.
  destruct (writei_loop_spec nb (S (S (S (Z.to_nat (n / BSIZE))))) k (S r) (S bf) T x (S m) off n 0 src w HI Ht) as (T1 & x1 & w1 & E1 & Ht1 & HI1 & Hw1);
    try done; try lia.
  rewrite (bind_ok _ _ _ _ _ E1). cbn [fst snd]. rewrite Z.sub_0_r.
  pose proof (wr_inode _ _ _ _ _ _ _ Hw1) as Ex.
  destruct (ftxn_upd _ _ _ (λ x, x <| i_size ::= λ s, if s <? off + n then off + n else s |>) _ Ht1) as (w2 & E2 & Ht2).
  rewrite (bind_ok _ _ _ _ _ E2).
  set (x2 := x1 <| i_size ::= λ s, if s <? off + n then off + n else s |>) in *.
  assert (x2 = x1 <| i_size := Z.max (i_size x) (off + n) |>) as Ex2.
  { unfold x2. rewrite Ex. destruct x. rsimpl. f_equal. destruct (Z.ltb_spec i_size (off + n)); lia. }
  clearbody x2. subst x2. pose proof (finv_size _ _ _ _ _ (Z.max (i_size x) (off + n)) HI1) as HI2.
  destruct (iupdate_spec k r bf _ _ m w2 HI2 Ht2) as (T3 & w3 & E3 & Ht3 & HI3 & Hex & Hdk).
  { rewrite Ex. by destruct x. }
  { destruct Hd as [D1 D2 D3 D4 D5 D6 D7]. rewrite Ex. destruct x. cbn in *. split; cbn; try done; [lia| |].
    - pose proof (fo_len _ _ _ (fi_file _ _ _ _ _ HI1)). done.
    - by apply (dinode_ok_addrs sb Hsb (t_view T1)), HI1. }
  rewrite (bind_ok _ _ _ _ _ E3). eexists T3, _, w3. split; [unfold mret, K_ret; rewrite i32_small by lia; done|].
  split; [exact Ht3|]. split; [exact HI3|]. split.
  - rewrite <- (app_nil_r src). eapply wrote_trans; [exact Hw1| |lia|cbn [length]; lia].
    apply extends_wrote. replace (_ <| i_size := i_size x |>) with x1 by (rewrite Ex; by destruct x).
    destruct Hex as [X1 X2 X3 X4 X5 X6]. split; try done. by destruct x1.
  - rewrite Ex. by destruct x.
  - rewrite <- Hdk. rewrite Ex. by destruct x.
Qed.

(** C10: [readi] into the kernel.  On a file whose blocks are all there, for every
    offset and count of the C type, it returns the number of bytes between the
    offset and the end of the file, at most [n] (0 for an offset past the end or
    a range that wraps around), and delivers exactly those bytes of the file, in
    order, across direct and indirect blocks.  It changes nothing. *)
Theorem readi_correct (T : tstate) (x : inode) (m : nat) (off n : Z) (w : world) :
  ftxn T x (m + readi_reads n) w → t_open T = ∅ → t_dirty T = ∅ → file_ok (t_view T) sb x → mapped (t_view T) x → buffers 1 T →
  0 <= i_size x <= MAXFILE * BSIZE → 0 <= off < 2 ^ 32 → 0 <= n < 2 ^ 32 →
  ∃ w', readi ip DLocal off n w = Ok (read_count x off n, fbytes (t_view T) x off (read_count x off n)) w' ∧ ftxn T x m w'.
Proof. apply readi_spec. Qed.

(** C9: [writei] from the kernel, inside a transaction with room for it.  A write
    that starts past the end of the file, or would make it larger than MAXFILE
    blocks, is refused with -1 and changes nothing.  Any other write returns the
    number of bytes; afterwards the file holds the new bytes in the range and its
    old bytes everywhere else, its size is the larger of the old size and the end
    of the range, all its blocks are there, the inode block holds the new inode,
    and every block that belonged to something else is as before. *)
Theorem writei_correct (T : tstate) (x : inode) (m : nat) (off : Z) (src : list Z) (w : world) :
  let n := Z.of_nat (length src) in let nb := touched off n in
  finv (2 * nb) (6 * nb + 1) (7 * nb + 1) T x → ftxn T x (S m + nb * block_reads) w →
  0 <= i_inum x < sb_ninodes sb → dinode_ok (dinode_of x) → mapped (t_view T) x →
  0 <= i_size x <= MAXFILE * BSIZE → 0 <= off < 2 ^ 32 → n < 2 ^ 32 →
  (i_size x < off ∨ MAXFILE * BSIZE < off + n → writei ip (SKern src) off n w = Ok (-1) w)
  ∧ (off <= i_size x → off + n <= MAXFILE * BSIZE →
     ∃ T' x' w', writei ip (SKern src) off n w = Ok n w' ∧ ftxn T' x' m w' ∧ finv 0 0 0 T' x' ∧ mapped (t_view T') x'
       ∧ i_size x' = Z.max (i_size x) (off + n)
       ∧ (∀ i, 0 <= i < MAXFILE * BSIZE →
            fbyte (t_view T') x' i = if decide (off <= i < off + n) then src !!! Z.to_nat (i - off) else fbyte (t_view T) x i)
       ∧ disk_inode sb (t_view T') (i_inum x) = dinode_of x'
       ∧ (∀ b, dstart sb <= b < sb_size sb → used (t_view T) sb b = true → (∀ j, 0 <= j < NSLOT → slot_addr (t_view T) x j ≠ b) →
            used (t_view T') sb b = true ∧ t_view T' b = t_view T b)).
Proof.
  intros n nb HI Ht Hi Hd Hm Hsz Hoff Hn. pose proof (writei_refused x off n Hsz Hoff ltac:(lia)) as Er. split.
  - intros Href. assert ((i_size x <? off) || (MAXFILE * BSIZE <? off + n) = true) as Et.
    { apply orb_true_iff. rewrite !Z.ltb_lt. done. }
    rewrite Et in Er. unfold writei. erewrite bind_ok by reflexivity. rewrite (ftxn_inode _ _ _ _ Ht).
    destruct ((i_size x <? off) || (u32 (off + n) <? off)); [done|]. cbn [orb] in Er. by rewrite Er.
  - intros Ho2 Hmax.
    destruct (writei_spec 0 0 0 T x m off src w) as (T' & x' & w' & E & Ht' & HI' & Hwr); try done; try lia.
    { fold n. fold nb. by rewrite Nat.add_0_r. }
    pose proof (written_mapped _ _ _ _ _ _ _ Hwr Hm ltac:(lia) ltac:(lia) ltac:(lia)) as Hm'. destruct Hwr as [Hw Hs Hdk].
    exists T', x', w'. do 5 (split; [done|]). split.
    { intros i Hir. by apply (wr_bytes _ _ _ _ _ _ _ Hw). }
    split; [done|]. intros b Hb Hu Hns. split; [by apply (wr_used _ _ _ _ _ _ _ Hw)|]. by apply (wr_other _ _ _ _ _ _ _ Hw).
Qed.

(** C11: what [writei] has written, [readi] of the same range reads back, within
    the same transaction and before any of it is on the disk. *)
Theorem writei_readi (T : tstate) (x : inode) (m : nat) (off : Z) (src : list Z) (w : world) :
  let n := Z.of_nat (length src) in let nb := touched off n in
  finv (2 * nb) (6 * nb + 1) (7 * nb + 2) T x → ftxn T x (S (m + readi_reads n) + nb * block_reads) w →
  0 <= i_inum x < sb_ninodes sb → dinode_ok (dinode_of x) → mapped (t_view T) x →
  0 <= off <= i_size x → i_size x <= MAXFILE * BSIZE → off + n <= MAXFILE * BSIZE →
  ∃ T' x' w', (r ← writei ip (SKern src) off n; q ← readi ip DLocal off n; mret (r, q)) w = Ok (n, (n, src)) w' ∧ ftxn T' x' m w'.
Proof.
  intros n nb HI Ht Hi Hd Hm Hoff Hsz Hmax. assert (MAXFILE * BSIZE = 274432) as EM by done.
  destruct (writei_spec 0 0 1 T x (m + readi_reads n) off src w) as (T' & x' & w1 & E & Ht' & HI' & Hwr); try done; try lia.
  { fold n. fold nb. by rewrite Nat.add_0_r. }
  pose proof (written_mapped _ _ _ _ _ _ _ Hwr Hm ltac:(lia) ltac:(lia) ltac:(lia)) as Hm'. destruct Hwr as [Hw Hs Hdk].
  fold n in Hs. destruct HI' as [I1 I2 I3 I4 I5 I6 I7].
  destruct (readi_spec T' x' m off n w1) as (w2 & E2 & Ht2); try done; try lia.
  exists T', x', w2. split; [|done]. rewrite (bind_ok _ _ _ _ _ E), (bind_ok _ _ _ _ _ E2).
  assert (read_count x' off n = n) as ->.
  { unfold read_count. rewrite (proj2 (Z.ltb_ge _ off)), (proj2 (Z.leb_gt _ (off + n))) by lia. cbn [orb]. lia. }
  assert (fbytes (t_view T') x' off n = src) as ->; [|done].
  apply list_eq_same_length with (n := length src); [done|unfold fbytes; rewrite length_fmap, length_seqZ; lia|].
  intros i y z Hil Hy Hz. unfold fbytes in Hy. rewrite list_lookup_fmap, lookup_seqZ_lt in Hy by lia. injection Hy as <-.
  change (fbyte (t_view T') (x' <| i_size := i_size x |>) (off + Z.of_nat i) = z).
  rewrite (wr_bytes _ _ _ _ _ _ _ Hw) by lia. rewrite decide_True by lia. apply list_lookup_total_correct.
  by replace (Z.to_nat (off + Z.of_nat i - off)) with i by lia.
Qed.
End file.

(** ** Witnesses: a file of five bytes in block 46 *)

Definition hello : list Z := str "hello".
Definition file_blocks (n : Z) : list Z :=
  if n =? 45 then [255; 255; 255; 255; 255; 127] ++ replicate 1018 0
  else if n =? 46 then hello ++ replicate 1019 0 else replicate 1024 0.
Definition demo_file : inode :=
  MkInode ROOTDEV 1 1 (MkSleeplock 1 0) 1 T_FILE 0 0 1 5 (46 :: replicate 12 0).
Definition file_demo0 : world :=
  MkWorld (boot_kstate <| k_disk := MkDisk file_blocks [] |> <| k_sb := demo_fs_sb |> <| k_itable ::= <[0%nat := demo_file]> |>
             <| k_log := MkLog 2 30 1 0 1 0 (replicate 30 0) |>) ∅ (Some 0%nat) [].
Definition file_demo : world := after binit file_demo0.
Definition file_demo_t : tstate := MkT file_blocks file_blocks [] ∅ ∅ ∅ 1.
Definition file_demo_F : kstate := frame (ks file_demo0).

Lemma file_demo_ok m : @ftxn sync_rw sync_spec 0 0 30 file_demo_F 0 file_demo_t demo_file m file_demo.
Proof.
  destruct (binit_rep 0 file_demo0) as (c & E & HR).
  { reflexivity. }
  { exact boot_bufs_unused. }
  { intros n. cbn. unfold file_blocks. by destruct (n =? 45), (n =? 46). }
  unfold file_demo, after. rewrite E. split; [|done|].
  - exists (fresh file_blocks []). split; [|by split].
    split; [|done|done|exact HR]. split; [done|done|done|by vm_compute; lia|done].
  - split; try done. cbn. constructor.
Qed.
#[global] Opaque file_demo.

Lemma file_used n : 0 <= n < 200 → used file_blocks demo_fs_sb n = (n <? 47).
Proof.
  intros Hn. assert (forallb (λ n, Bool.eqb (used file_blocks demo_fs_sb n) (n <? 47)) (seqZ 0 200) = true) as E
    by (vm_compute; reflexivity).
  apply Bool.eqb_prop. rewrite forallb_forall in E. apply E. apply list_elem_of_In, elem_of_seqZ. lia.
Qed.

Lemma demo_file_slot j : 0 <= j < NSLOT → slot_addr file_blocks demo_file j = if j =? 0 then 46 else 0.
Proof.
  intros Hj. assert (forallb (λ j, slot_addr file_blocks demo_file j =? (if j =? 0 then 46 else 0)) (seqZ 0 NSLOT) = true) as E
    by (vm_compute; reflexivity).
  rewrite forallb_forall in E. apply Z.eqb_eq, E, list_elem_of_In, elem_of_seqZ. lia.
Qed.

Lemma demo_file_ok : file_ok file_blocks demo_fs_sb demo_file.
Proof.
  split; [done|done| |].
  - intros j Hj. rewrite demo_file_slot by done. destruct (j =? 0); [|done]. intros _.
    split; [by cbn|]. by rewrite file_used by lia.
  - intros j j' Hj Hj'. rewrite !demo_file_slot by done.
    destruct (Z.eqb_spec j 0), (Z.eqb_spec j' 0); congruence.
Qed.

Lemma demo_file_mapped : mapped file_blocks demo_file.
Proof. intros bn Hb Hs. cbn in Hs. unfold BSIZE in Hs. assert (bn = 0) as -> by lia. by vm_compute. Qed.

Lemma demo_finv k : (k <= 8)%nat → finv 30 demo_fs_sb k 8 9 file_demo_t demo_file.
Proof.
  intros Hk. split; [done|done| |exact demo_file_ok| |split; vm_compute; congruence|vm_compute; lia].
  - intros n Hn. change (dstart demo_fs_sb) with 46 in Hn. rewrite file_used by lia. apply Z.ltb_lt. lia.
  - exists (list_to_set (seqZ 50 8)). split; [by vm_compute|]. intros n Hn. apply elem_of_list_to_set, elem_of_seqZ in Hn.
    split; [by cbn; lia|]. rewrite file_used by lia. apply Z.ltb_ge. lia.
Qed.

Lemma demo_dinode_ok : dinode_ok (dinode_of demo_file).
Proof.
  split; cbn [dinode_of demo_file di_type di_major di_minor di_nlink di_size di_addrs i_type i_major i_minor i_nlink i_size i_addrs].
  1-5: by vm_compute.
  - reflexivity.
  - apply list.Forall_cons. split; [lia|]. apply Forall_replicate. lia.
Qed.

Lemma readi_correct_witness : ∃ w', @readi sync_rw 0 DLocal 1 10 file_demo = Ok (4, str "ello") w'.
Proof.
  destruct (@readi_correct sync_rw sync_spec 0 0 30 file_demo_F 0 demo_fs_sb ltac:(vm_compute; lia) demo_fs_sb_ok
    file_demo_t demo_file 0 1 10 file_demo) as (w' & E & _).
  - apply file_demo_ok.
  - reflexivity.
  - reflexivity.
  - exact demo_file_ok.
  - exact demo_file_mapped.
  - vm_compute. lia.
  - split; vm_compute; congruence.
  - lia.
  - lia.
  - exists w'. exact E.
Defined.

Lemma writei_correct_witness : ∃ w', @writei sync_rw 0 (SKern (str " world")) 5 6 file_demo = Ok 6 w'.
Proof.
  destruct (@writei_correct sync_rw sync_spec 0 0 30 file_demo_F 0 demo_fs_sb ltac:(vm_compute; lia) eq_refl demo_fs_sb_ok
    file_demo_t demo_file 0 5 (str " world") file_demo) as [_ Hw].
  - eapply finv_le; [| | |apply (demo_finv 8); lia]; vm_compute; lia.
  - apply file_demo_ok.
  - split; vm_compute; congruence.
  - exact demo_dinode_ok.
  - exact demo_file_mapped.
  - split; vm_compute; congruence.
  - lia.
  - by vm_compute.
  - destruct Hw as (T' & x' & w' & E & _); [by vm_compute|by vm_compute|]. exists w'. exact E.
Defined.

Lemma writei_readi_witness :
  ∃ w', (r ← @writei sync_rw 0 (SKern (str "p!")) 3 2; q ← @readi sync_rw 0 DLocal 3 2; mret (r, q)) file_demo
        = Ok (2, (2, str "p!")) w'.
Proof.
  destruct (@writei_readi sync_rw sync_spec 0 0 30 file_demo_F 0 demo_fs_sb ltac:(vm_compute; lia) eq_refl demo_fs_sb_ok
    file_demo_t demo_file 0 3 (str "p!") file_demo) as (T' & x' & w' & E & _).
  - eapply finv_le; [| | |apply (demo_finv 8); lia]; vm_compute; lia.
  - apply file_demo_ok.
  - split; vm_compute; congruence.
  - exact demo_dinode_ok.
  - exact demo_file_mapped.
  - split; vm_compute; congruence.
  - by vm_compute.
  - by vm_compute.
  - exists w'. exact E.
Defined.
