(* ===== verification/DirSpec.v ===== *)
(** * Directories

    A directory is a file of entries of 16 bytes, an inode number and a name.
    [dirlookup] finds the first entry with a name, [dirlink] puts a new entry into
    the first empty place, and what was linked is found.  [skipelem] takes the
    elements from a path name. *)

From S2P Require Import Prelude Memory CString Kernel Sched Sleeplock Bio BufList BioSpec Log LogSpec LogGroup TxnSpec Copy Fs FsSpec FileSpec.

(** ** A directory as a list of entries *)

(** The name in a buffer of DIRSIZ bytes, which may lack a NUL. *)
Definition cname (name : list Z) : list Z := cstr (take (Z.to_nat DIRSIZ) name).

Definition dent (V : Z → list Z) (x : inode) (k : nat) : list Z := fbytes V x (DIRENT_SIZE * Z.of_nat k) DIRENT_SIZE.
Definition dir_size (x : inode) : nat := Z.to_nat (i_size x / DIRENT_SIZE).
Definition entries (V : Z → list Z) (x : inode) : list (list Z) := dent V x <$> seq 0 (dir_size x).

(** An entry in use, with the name [name]. *)
Definition named (name de : list Z) : Prop := dirent_inum de ≠ 0 ∧ cname (dirent_name de) = cname name.
#[global] Instance named_dec name de : Decision (named name de).
Proof. unfold named. apply _. Defined.

Definition empty_entry (de : list Z) : Prop := dirent_inum de = 0.
#[global] Instance empty_entry_dec de : Decision (empty_entry de).
Proof. unfold empty_entry. apply _. Defined.

(** The place for a new entry: the first empty one, or the end. *)
Definition free_place (l : list (list Z)) : nat :=
  match list_find empty_entry l with Some (k, _) => k | None => length l end.

Definition put_entry (k : nat) (de : list Z) (l : list (list Z)) : list (list Z) := take k l ++ de :: drop (S k) l.

Definition new_entry (inum : Z) (name : list Z) : list Z := enc_dirent inum (strncpy (replicate (Z.to_nat DIRSIZ) 0) name DIRSIZ).

Record is_dir (x : inode) : Prop := {
  id_type : i_type x = T_DIR;
  id_entries : i_size x = DIRENT_SIZE * Z.of_nat (dir_size x);
  id_max : i_size x <= MAXFILE * BSIZE
}.

Lemma namecmp_zero name de : (namecmp name (dirent_name de) =? 0) = bool_decide (cname (dirent_name de) = cname name).
Proof.
  unfold namecmp. destruct (Z.eqb_spec (strncmp name (dirent_name de) DIRSIZ) 0) as [E|E]; symmetry.
  - apply bool_decide_eq_true_2. by apply strncmp_zero in E.
  - apply bool_decide_eq_false_2. intros H. apply E, strncmp_zero; done.
Qed.

Lemma length_entries V x : length (entries V x) = dir_size x.
Proof. unfold entries. by rewrite length_fmap, length_seq. Qed.

Lemma lookup_entries V x k : (k < dir_size x)%nat → entries V x !! k = Some (dent V x k).
Proof. intros Hk. unfold entries. rewrite list_lookup_fmap, lookup_seq_lt by done. done. Qed.

Lemma cstr_padded n t : cstr (take n (cstr t ++ replicate n 0)) = cstr (take n t).
Proof.
  revert t. induction n as [|n IH]; intros [|b t]; [done..| |]; cbn [cstr].
  - done.
  - destruct (Z.eqb_spec b 0) as [->|Hb]; [done|]. cbn [app take cstr]. destruct (Z.eqb_spec b 0); [done|]. f_equal.
    rewrite <-(IH t). f_equal. generalize (cstr t) as l. clear. intros l. change (0 :: replicate n 0) with (replicate (S n) 0).
    rewrite !take_app, !take_replicate. do 2 f_equal. lia.
Qed.

Lemma new_entry_spec inum name :
  0 < inum < 2 ^ 16 → length (new_entry inum name) = 16%nat ∧ dirent_inum (new_entry inum name) = inum ∧ named name (new_entry inum name).
Proof.
  intros Hi. unfold new_entry, enc_dirent.
  assert (El : strncpy (replicate (Z.to_nat DIRSIZ) 0) name DIRSIZ = strncpy_loop (Z.to_nat DIRSIZ) name).
  { unfold strncpy, splice. rewrite take_0, length_strncpy_loop. cbn [app]. by rewrite drop_ge, app_nil_r by (by rewrite length_replicate). }
  rewrite El. assert (En : dirent_name (le_enc 2 inum ++ strncpy_loop (Z.to_nat DIRSIZ) name) = strncpy_loop (Z.to_nat DIRSIZ) name).
  { unfold dirent_name. rewrite drop_app_length' by (by rewrite length_le_enc). apply take_ge. by rewrite length_strncpy_loop. }
  assert (Ei : dirent_inum (le_enc 2 inum ++ strncpy_loop (Z.to_nat DIRSIZ) name) = inum).
  { unfold dirent_inum, get16. rewrite drop_0, take_app_length' by (by rewrite length_le_enc). apply le_dec_enc_small. change (256 ^ Z.of_nat 2) with (2 ^ 16). lia. }
  split; [by rewrite length_app, length_le_enc, length_strncpy_loop|]. split; [done|]. split; [rewrite Ei; lia|].
  rewrite En. unfold cname. rewrite take_ge by (by rewrite length_strncpy_loop).
  rewrite strncpy_loop_spec. apply cstr_padded.
Qed.

(** ** iget *)

(** The table entry of an inode in use. *)
Definition holds_inode (dev inum : Z) (y : inode) : Prop := 0 < i_ref y ∧ i_dev y = dev ∧ i_inum y = inum.
#[global] Instance holds_inode_dec dev inum y : Decision (holds_inode dev inum y).
Proof. unfold holds_inode. apply _. Defined.

(** [iget] counts one more reference to the entry that holds the inode, or makes
    an empty entry hold it if none does. *)
Definition igot (t : list inode) (dev inum : Z) (i : nat) (t' : list inode) : Prop :=
  ∃ y, t !! i = Some y
    ∧ ((holds_inode dev inum y ∧ t' = <[i := y <| i_ref ::= λ r, r + 1 |>]> t)
       ∨ (Forall (λ z, ¬ holds_inode dev inum z) t ∧ i_ref y = 0
          ∧ t' = <[i := y <| i_dev := dev |> <| i_inum := inum |> <| i_ref := 1 |> <| i_valid := 0 |>]> t)).

Definition table_has_room (dev inum : Z) (t : list inode) : Prop := Exists (λ y, holds_inode dev inum y ∨ i_ref y = 0) t.

Lemma iget_scan_spec dev inum l i0 e :
  match iget_scan l i0 e dev inum with
  | (Some i, _) => ∃ k y, i = (i0 + k)%nat ∧ l !! k = Some y ∧ holds_inode dev inum y
  | (None, e') => Forall (λ y, ¬ holds_inode dev inum y) l
      ∧ match e with
        | Some _ => e' = e
        | None => match e' with
                  | Some i => ∃ k y, i = (i0 + k)%nat ∧ l !! k = Some y ∧ i_ref y = 0
                  | None => Forall (λ y, i_ref y ≠ 0) l
                  end
        end
  end.
Proof.
  revert i0 e. induction l as [|y l IH]; intros i0 e; cbn [iget_scan]; [split; [constructor|]; by destruct e|].
  destruct ((0 <? i_ref y) && (i_dev y =? dev) && (i_inum y =? inum)) eqn:Eh.
  { apply andb_true_iff in Eh as [[H1%Z.ltb_lt H2%Z.eqb_eq]%andb_true_iff H3%Z.eqb_eq]. exists 0%nat, y. split; [lia|]. done. }
  assert (¬ holds_inode dev inum y) as Hn.
  { intros (H1%Z.ltb_lt & H2%Z.eqb_eq & H3%Z.eqb_eq). by rewrite H1, H2, H3 in Eh. }
  specialize (IH (S i0) (match e with None => if i_ref y =? 0 then Some i0 else None | Some _ => e end)).
  destruct (iget_scan l (S i0) _ dev inum) as [[i|] e'].
  { destruct IH as (k & z & -> & Hk & Hz). exists (S k), z. split; [lia|done]. }
  destruct IH as [Hl He]. split; [by constructor|]. destruct e; [done|]. destruct (Z.eqb_spec (i_ref y) 0) as [E0|E0].
  - subst e'. exists 0%nat, y. split; [lia|done].
  - destruct e' as [i|]; [|by constructor]. destruct He as (k & z & -> & Hk & Hz). exists (S k), z. split; [lia|done].
Qed.

Lemma alter_as_insert {A} (f : A → A) (l : list A) i y : l !! i = Some y → alter f i l = <[i := f y]> l.
Proof. intros E. rewrite <-(list_insert_id l i y) at 1 by done. apply alter_insert_same. Qed.

Lemma iget_run dev inum w :
  LItable ∉ held w → table_has_room dev inum (k_itable (ks w)) →
  ∃ i t', iget dev inum w = Ok i (w <| ks ::= λ k, k <| k_itable := t' |> |>) ∧ igot (k_itable (ks w)) dev inum i t'.
Proof.
  intros Hlk Hr. unfold iget. rewrite (bind_ok _ _ _ _ _ (acquire_free LItable w Hlk)). erewrite bind_ok by reflexivity. cbv beta zeta.
  change (k_itable (ks (w <| held ::= λ h, {[LItable]} ∪ h |>))) with (k_itable (ks w)).
  pose proof (iget_scan_spec dev inum (k_itable (ks w)) 0 None) as Hs.
  destruct (iget_scan (k_itable (ks w)) 0 None dev inum) as [[i|] [e|]]; cbn [fst snd].
  1,2: destruct Hs as (k & y & -> & Hk & Hy); cbn [Nat.add] in *; exists k, (<[k := y <| i_ref ::= λ r, r + 1 |>]> (k_itable (ks w)));
    (split; [|exists y; split; [done|by left]]); erewrite bind_ok by reflexivity; rewrite <-(alter_as_insert _ _ _ _ Hk);
    by erewrite bind_ok by exact (locked_section LItable w _ Hlk).
  - destruct Hs as (Hn & k & y & -> & Hk & Hy). cbn [Nat.add] in *.
    exists k, (<[k := y <| i_dev := dev |> <| i_inum := inum |> <| i_ref := 1 |> <| i_valid := 0 |>]> (k_itable (ks w))).
    split; [|exists y; split; [done|by right]]. erewrite bind_ok by reflexivity.
    rewrite <-(alter_as_insert (λ ip, ip <| i_dev := dev |> <| i_inum := inum |> <| i_ref := 1 |> <| i_valid := 0 |>) _ _ _ Hk).
    by erewrite bind_ok by exact (locked_section LItable w _ Hlk).
  - exfalso. destruct Hs as [Hn He]. rewrite list.Forall_forall in Hn, He. apply list.Exists_exists in Hr as (y & Hy & [Hh|H0]); [by apply (Hn y)|by apply (He y)].
Qed.

(** ** Inside a transaction *)

Section dir.
Context `{DS : DiskSpec} (p : nat) (pid sz : Z) (F : kstate) (dp : nat) (sb : superblock).
Hypothesis Hdp : (dp < length (k_itable F))%nat.
Hypothesis Hsbk : k_sb F = sb.
Hypothesis Hsb : sb_ok sb.
Notation txn := (txn p pid sz).
Notation ftxn := (ftxn p pid sz F dp).

(** Another inode table. *)
Lemma txn_itable T F' t m w :
  txn T F' m w → txn T (F' <| k_itable := t |>) m (w <| ks ::= λ k, k <| k_itable := t |> |>).
Proof.
  intros Ht. pose proof (tx_frame _ _ _ _ _ _ _ Ht) as Ef. destruct Ht as [(A & [[H1 H2 H3 H4 H5] _ B3 B4] & HC) _ HL]. split; [|  |done].
  - exists A. split; [|done]. split; [by split|done| |done]. by apply (disk_ready_frame m w).
  - change (frame (ks (w <| ks ::= λ k, k <| k_itable := t |> |>))) with ((frame (ks w)) <| k_itable := t |>). by rewrite Ef.
Qed.

(** Disk reads of a scan of [n] entries. *)
Definition scan_reads (n : nat) : nat := (n * readi_reads DIRENT_SIZE)%nat.

Section scan.
Context (T : tstate) (x : inode).
Hypothesis Hopen : t_open T = ∅.
Hypothesis Hdirty : t_dirty T = ∅.
Hypothesis Hfile : file_ok (t_view T) sb x.
Hypothesis Hmap : mapped (t_view T) x.
Hypothesis Hbuf : buffers 1 T.
Hypothesis Hdir : is_dir x.
Notation ents := (entries (t_view T) x).

(** Reading one entry. *)
Lemma read_entry k m w :
  (k < dir_size x)%nat → ftxn T x (m + readi_reads DIRENT_SIZE) w →
  ∃ w', readi dp DLocal (DIRENT_SIZE * Z.of_nat k) DIRENT_SIZE w = Ok (DIRENT_SIZE, dent (t_view T) x k) w' ∧ ftxn T x m w'.
Proof.
  intros Hk Ht. destruct Hdir as [_ He Hm]. assert (MAXFILE * BSIZE = 274432) as EM by done. rewrite EM in Hm.
  assert (DIRENT_SIZE = 16) as ED by done.
  destruct (readi_spec p pid sz F dp sb Hdp Hsb T x m (DIRENT_SIZE * Z.of_nat k) DIRENT_SIZE w) as (w' & E & Ht'); try done; try lia.
  exists w'. split; [|done]. rewrite E. assert (read_count x (DIRENT_SIZE * Z.of_nat k) DIRENT_SIZE = DIRENT_SIZE) as ->; [|done].
  unfold read_count. rewrite (proj2 (Z.ltb_ge _ _)), (proj2 (Z.leb_gt _ _)) by lia. cbn [orb]. lia.
Qed.

Lemma dirlookup_loop_spec name n : ∀ fuel k m w,
  (k + n = dir_size x)%nat → (n < fuel)%nat → ftxn T x (m + scan_reads n) w →
  ∃ w', ftxn T x m w' ∧
    dirlookup_loop fuel dp name (DIRENT_SIZE * Z.of_nat k) w
    = match list_find (named name) (drop k ents) with
      | None => Ok None w'
      | Some (j, de) => (i ← iget (i_dev x) (dirent_inum de); mret (Some (i, DIRENT_SIZE * Z.of_nat (k + j)))) w'
      end.
Proof.
  induction n as [|n IH]; intros fuel k m w Hk Hf Ht; (destruct fuel as [|fuel]; [lia|]); cbn [dirlookup_loop];
    erewrite bind_ok by reflexivity; rewrite (ftxn_inode _ _ _ _ _ Hdp _ _ _ _ Ht); pose proof (id_entries _ Hdir) as He; assert (DIRENT_SIZE = 16) as ED by done.
  - rewrite (proj2 (Z.ltb_ge _ _)) by lia. rewrite drop_ge by (rewrite length_entries; lia). exists w. split; [|done]. eapply txn_le; [|exact Ht]. lia.
  - rewrite (proj2 (Z.ltb_lt _ _)) by lia. rewrite (drop_S _ (dent (t_view T) x k)) by (apply lookup_entries; lia). cbn [list_find].
    destruct (read_entry k (m + scan_reads n) w) as (w1 & E1 & Ht1); [lia|eapply txn_le; [|exact Ht]; unfold scan_reads; lia|].
    rewrite (bind_ok _ _ _ _ _ E1). cbn [fst snd]. rewrite Z.eqb_refl. cbn [negb panic_if]. erewrite bind_ok by reflexivity.
    pose proof (id_max _ Hdir) as Hmax. assert (MAXFILE * BSIZE = 274432) as EM by done.
    replace (u32 (DIRENT_SIZE * Z.of_nat k + DIRENT_SIZE)) with (DIRENT_SIZE * Z.of_nat (S k)) by (rewrite u32_small; lia).
    destruct (IH fuel (S k) m w1) as (w2 & Ht2 & E2); [lia|lia|done|].
    rewrite namecmp_zero. unfold named at 1. destruct (Z.eqb_spec (dirent_inum (dent (t_view T) x k)) 0) as [E0|E0].
    + rewrite decide_False by (by intros [? _]). exists w2. split; [done|]. rewrite E2. destruct (list_find _ _) as [[j de]|]; cbn [fmap option_fmap option_map prod_map fst snd]; [|done].
      by replace (k + S j)%nat with (S k + j)%nat by lia.
    + case_bool_decide as Hn.
      * rewrite decide_True by done. exists w1. split; [eapply txn_le; [|exact Ht1]; lia|]. by rewrite Nat.add_0_r.
      * rewrite decide_False by (by intros [_ ?]). exists w2. split; [done|]. rewrite E2. destruct (list_find _ _) as [[j de]|]; cbn [fmap option_fmap option_map prod_map fst snd]; [|done].
        by replace (k + S j)%nat with (S k + j)%nat by lia.
Qed.

Lemma dirlink_loop_spec n : ∀ fuel k m w,
  (k + n = dir_size x)%nat → (n < fuel)%nat → ftxn T x (m + scan_reads n) w →
  ∃ w', ftxn T x m w' ∧ dirlink_loop fuel dp (DIRENT_SIZE * Z.of_nat k) w = Ok (DIRENT_SIZE * Z.of_nat (k + free_place (drop k ents))) w'.
Proof.
  induction n as [|n IH]; intros fuel k m w Hk Hf Ht; (destruct fuel as [|fuel]; [lia|]); cbn [dirlink_loop];
    erewrite bind_ok by reflexivity; rewrite (ftxn_inode _ _ _ _ _ Hdp _ _ _ _ Ht); pose proof (id_entries _ Hdir) as He; assert (DIRENT_SIZE = 16) as ED by done.
  - rewrite (proj2 (Z.ltb_ge _ _)) by lia. rewrite drop_ge by (rewrite length_entries; lia). exists w. split; [eapply txn_le; [|exact Ht]; lia|].
    unfold mret, K_ret. cbn. by rewrite Nat.add_0_r.
  - rewrite (proj2 (Z.ltb_lt _ _)) by lia. rewrite (drop_S _ (dent (t_view T) x k)) by (apply lookup_entries; lia). unfold free_place. cbn [list_find].
    destruct (read_entry k (m + scan_reads n) w) as (w1 & E1 & Ht1); [lia|eapply txn_le; [|exact Ht]; unfold scan_reads; lia|].
    rewrite (bind_ok _ _ _ _ _ E1). cbn [fst snd]. rewrite Z.eqb_refl. cbn [negb panic_if]. erewrite bind_ok by reflexivity.
    unfold empty_entry at 1. destruct (Z.eqb_spec (dirent_inum (dent (t_view T) x k)) 0) as [E0|E0].
    + rewrite decide_True by done. exists w1. split; [eapply txn_le; [|exact Ht1]; lia|]. by rewrite Nat.add_0_r.
    + rewrite decide_False by done. replace (DIRENT_SIZE * Z.of_nat k + DIRENT_SIZE) with (DIRENT_SIZE * Z.of_nat (S k)) by lia.
      destruct (IH fuel (S k) m w1) as (w2 & Ht2 & E2); [lia|lia|done|]. exists w2. split; [done|]. rewrite E2. unfold free_place.
      destruct (list_find _ _) as [[j de]|]; cbn; do 3 f_equal; lia.
Qed.

Lemma dirlookup_spec name m w :
  ftxn T x (m + scan_reads (dir_size x)) w →
  ∃ w', ftxn T x m w' ∧
    dirlookup dp name w
    = match list_find (named name) ents with
      | None => Ok None w'
      | Some (j, de) => (i ← iget (i_dev x) (dirent_inum de); mret (Some (i, DIRENT_SIZE * Z.of_nat j))) w'
      end.
Proof.
  intros Ht. unfold dirlookup. erewrite bind_ok by reflexivity. rewrite (ftxn_inode _ _ _ _ _ Hdp _ _ _ _ Ht), (id_type _ Hdir), Z.eqb_refl.
  cbn [negb panic_if]. erewrite bind_ok by reflexivity.
  destruct (dirlookup_loop_spec name (dir_size x) (S (S (Z.to_nat (i_size x / DIRENT_SIZE)))) 0 m w) as (w' & Ht' & E); [lia|unfold dir_size; lia|done|].
  exists w'. split; [done|]. exact E.
Qed.
End scan.

Lemma iget_txn T F' m dev inum w :
  txn T F' m w → table_has_room dev inum (k_itable F') →
  ∃ i t' w', iget dev inum w = Ok i w' ∧ igot (k_itable F') dev inum i t' ∧ txn T (F' <| k_itable := t' |>) m w'.
Proof.
  intros Ht Hr. assert (k_itable (ks w) = k_itable F') as Et by (by rewrite <-(tx_frame _ _ _ _ _ _ _ Ht)).
  assert (held w = ∅) as Eh by (destruct (tx_cache _ _ _ _ _ _ _ Ht) as (A & Hb & _); apply (th_held _ _ _ (bs_thread _ _ _ _ _ _ Hb))).
  destruct (iget_run dev inum w) as (i & t' & E & Hg); [rewrite Eh; set_solver|by rewrite Et|]. rewrite Et in Hg.
  exists i, t', (w <| ks ::= λ k, k <| k_itable := t' |> |>). split; [done|]. split; [done|]. by apply txn_itable.
Qed.

(** ** Writing an entry *)

Lemma dent_written V x V' x' k j de :
  length de = 16%nat → 16 * (Z.of_nat j + 1) <= MAXFILE * BSIZE →
  (∀ i, 0 <= i < MAXFILE * BSIZE →
    fbyte V' x' i = if decide (DIRENT_SIZE * Z.of_nat k <= i < DIRENT_SIZE * Z.of_nat k + 16) then de !!! Z.to_nat (i - DIRENT_SIZE * Z.of_nat k) else fbyte V x i) →
  dent V' x' j = if decide (j = k) then de else dent V x j.
Proof.
  intros Hl Hj Hb. assert (DIRENT_SIZE = 16) as ED by done. rewrite ED in *.
  assert (∀ V x i, (i < 16)%nat → dent V x j !! i = Some (fbyte V x (16 * Z.of_nat j + Z.of_nat i))) as Hd.
  { intros V0 x0 i Hi. unfold dent, fbytes. rewrite list_lookup_fmap, lookup_seqZ_lt by lia. done. }
  assert (∀ V x, length (dent V x j) = 16%nat) as Hdl by (intros; unfold dent, fbytes; rewrite length_fmap, length_seqZ; done).
  apply list_eq_same_length with (n := 16%nat); [by case_decide|done|]. intros i y z Hi Hy Hz. rewrite Hd in Hy by done. injection Hy as <-.
  rewrite Hb by lia. destruct (decide (j = k)) as [->|Hne].
  - rewrite decide_True by lia. replace (Z.to_nat _) with i by lia. by apply list_lookup_total_correct.
  - rewrite decide_False by lia. rewrite Hd in Hz by done. by injection Hz as <-.
Qed.

Lemma entries_written V x V' x' k de :
  is_dir x → (k <= dir_size x)%nat → length de = 16%nat → DIRENT_SIZE * (Z.of_nat k + 1) <= MAXFILE * BSIZE →
  i_size x' = Z.max (i_size x) (DIRENT_SIZE * Z.of_nat k + 16) →
  (∀ i, 0 <= i < MAXFILE * BSIZE →
    fbyte V' x' i = if decide (DIRENT_SIZE * Z.of_nat k <= i < DIRENT_SIZE * Z.of_nat k + 16) then de !!! Z.to_nat (i - DIRENT_SIZE * Z.of_nat k) else fbyte V x i) →
  dir_size x' = (dir_size x `max` S k)%nat ∧ entries V' x' = put_entry k de (entries V x).
Proof.
  intros [_ He Hm] Hk Hl Hmax Hs Hb. assert (DIRENT_SIZE = 16) as ED by done. assert (MAXFILE * BSIZE = 274432) as EM by done.
  assert (dir_size x' = (dir_size x `max` S k)%nat) as Esz.
  { unfold dir_size at 1. rewrite Hs, He, ED. replace (Z.max _ _) with (16 * Z.of_nat (dir_size x `max` S k)) by lia. rewrite Z.mul_comm, Z.div_mul by lia. lia. }
  split; [done|]. apply list_eq_same_length with (n := (dir_size x `max` S k)%nat).
  - unfold put_entry. rewrite length_app, length_take, length_entries. cbn [length]. rewrite length_drop, length_entries. lia.
  - by rewrite length_entries.
  - intros j y z Hj Hy Hz. rewrite lookup_entries in Hy by lia. injection Hy as <-.
    rewrite (dent_written V x V' x' k j de) by (done || lia). unfold put_entry in Hz. destruct (decide (j = k)) as [->|Hne].
    + rewrite lookup_app_r, length_take, length_entries in Hz by (rewrite length_take, length_entries; lia).
      rewrite Nat.min_l, Nat.sub_diag in Hz by lia. by injection Hz as <-.
    + destruct (decide (j < k)%nat).
      * rewrite lookup_app_l, lookup_take_lt, lookup_entries in Hz by (rewrite ?length_take, ?length_entries; lia). by injection Hz as <-.
      * rewrite lookup_app_r, length_take, length_entries in Hz by (rewrite length_take, length_entries; lia). rewrite Nat.min_l in Hz by lia.
        replace (j - k)%nat with (S (j - S k)) in Hz by lia. cbn [lookup list_lookup] in Hz. change (drop (S k) (entries V x) !! (j - S k)%nat = Some z) in Hz.
        rewrite lookup_drop in Hz. replace (S k + (j - S k))%nat with j in Hz by lia. rewrite lookup_entries in Hz by lia. by injection Hz as <-.
Qed.

Lemma free_place_le l : (free_place l <= length l)%nat.
Proof.
  unfold free_place. destruct (list_find empty_entry l) as [[k de]|] eqn:E; [|done].
  apply list_find_Some in E as (E & _). apply lookup_lt_Some in E. lia.
Qed.

(** The new entry is found, and no entry before it. *)
Lemma find_put name k de l :
  list_find (named name) l = None → (k <= length l)%nat → named name de → list_find (named name) (put_entry k de l) = Some (k, de).
Proof.
  intros Hn Hk Hd. apply list_find_Some. unfold put_entry. split; [|split; [done|]].
  - rewrite lookup_app_r by (rewrite length_take; lia). by rewrite length_take, Nat.min_l, Nat.sub_diag by lia.
  - intros j y Hj Hlt. rewrite lookup_app_l, lookup_take_lt in Hj by (rewrite ?length_take; lia).
    apply list_find_None in Hn. by eapply list.Forall_lookup_1 in Hn.
Qed.

(** Resources of [dirlink]: it writes one block of the directory. *)
Definition dirlink_reads (x : inode) : nat := (S (block_reads sb) + 2 * scan_reads (dir_size x))%nat.

Record linked (name : list Z) (inum : Z) (T : tstate) (x : inode) (T' : tstate) (x' : inode) : Prop := {
  ln_entries : entries (t_view T') x' = put_entry (free_place (entries (t_view T) x)) (new_entry inum name) (entries (t_view T) x);
  ln_dir : is_dir x';
  ln_dev : i_dev x' = i_dev x;
  ln_size : dir_size x' = (dir_size x `max` S (free_place (entries (t_view T) x)))%nat;
  ln_mapped : mapped (t_view T') x';
  ln_disk : disk_inode sb (t_view T') (i_inum x) = dinode_of x';
  ln_other : ∀ b, dstart sb <= b < sb_size sb → used (t_view T) sb b = true → (∀ j, 0 <= j < NSLOT → slot_addr (t_view T) x j ≠ b) →
    used (t_view T') sb b = true ∧ t_view T' b = t_view T b
}.

Lemma dirlink_spec k r bf T x m name inum w :
  finv sz sb (2 + k) (7 + r) (8 + bf) T x → ftxn T x (m + dirlink_reads x) w → is_dir x → mapped (t_view T) x →
  0 <= i_inum x < sb_ninodes sb → dinode_ok (dinode_of x) → 0 < inum < 2 ^ 16 →
  list_find (named name) (entries (t_view T) x) = None →
  DIRENT_SIZE * (Z.of_nat (free_place (entries (t_view T) x)) + 1) <= MAXFILE * BSIZE →
  ∃ T' x' w', dirlink dp name inum w = Ok 0 w' ∧ ftxn T' x' m w' ∧ finv sz sb k r bf T' x' ∧ linked name inum T x T' x'.
Proof.
  intros HI Ht Hdir Hmap Hi Hd Hinum Hnone Hmax. pose proof HI as [I1 I2 _ I4 _ _ I7]. set (pl := free_place (entries (t_view T) x)) in *.
  assert (Hpl : (pl <= dir_size x)%nat) by (unfold pl; rewrite <-(length_entries (t_view T) x); apply free_place_le).
  assert (DIRENT_SIZE = 16) as ED by done. assert (MAXFILE * BSIZE = 274432) as EM by done.
  destruct (new_entry_spec inum name Hinum) as (Hlen & Hnum & Hnamed). pose proof Hdir as [D1 D2 D3].
  unfold dirlink. destruct (dirlookup_spec T x I1 I2 I4 Hmap ltac:(unfold buffers in *; lia) Hdir name (S m + block_reads sb + scan_reads (dir_size x)) w) as (w1 & Ht1 & E1).
  { eapply txn_le; [|exact Ht]. unfold dirlink_reads. lia. }
  rewrite Hnone in E1. rewrite (bind_ok _ _ _ _ _ E1). erewrite bind_ok by reflexivity. rewrite (ftxn_inode _ _ _ _ _ Hdp _ _ _ _ Ht1).
  destruct (dirlink_loop_spec T x I1 I2 I4 Hmap ltac:(unfold buffers in *; lia) Hdir (dir_size x) (S (S (Z.to_nat (i_size x / DIRENT_SIZE)))) 0 (S m + block_reads sb) w1)
    as (w2 & Ht2 & E2); [lia|unfold dir_size; lia|done|]. cbn [Nat.add] in E2. rewrite drop_0 in E2. fold pl in E2.
  change (DIRENT_SIZE * Z.of_nat 0) with 0 in E2. rewrite (bind_ok _ _ _ _ _ E2). cbv zeta. fold (new_entry inum name).
  assert (touched (DIRENT_SIZE * Z.of_nat pl) 16 = 1%nat) as Etch.
  { unfold touched. change BSIZE with 1024. rewrite ED. pose proof (Z.mod_pos_bound (16 * Z.of_nat pl) 1024 ltac:(lia)).
    assert ((16 * Z.of_nat pl) mod 1024 = 16 * (Z.of_nat pl mod 64)) as E16 by (change 1024 with (16 * 64); by rewrite Z.mul_mod_distr_l by lia).
    rewrite E16 in *. pose proof (Z.mod_pos_bound (Z.of_nat pl) 64 ltac:(lia)). assert ((16 * (Z.of_nat pl mod 64) + 16 + (1024 - 1)) / 1024 = 1) as ->; [|done]. symmetry. apply Z.div_unique with (16 * (Z.of_nat pl mod 64) + 15); lia. }
  destruct (writei_spec p pid sz F dp sb Hdp Hsbk Hsb k r bf T x m (DIRENT_SIZE * Z.of_nat pl) (new_entry inum name) w2) as (T' & x' & w3 & E3 & Ht3 & HI3 & Hw);
    cbv zeta; rewrite ?Hlen; change (Z.of_nat 16) with 16; rewrite ?Etch; try done; try lia.
  { eapply txn_le; [|exact Ht2]. lia. }
  rewrite Hlen in E3. rewrite (bind_ok _ _ _ _ _ E3). cbn [negb]. exists T', x', w3. split; [done|]. split; [done|]. split; [done|].
  pose proof (written_mapped _ _ _ _ _ _ _ Hw Hmap ltac:(lia) ltac:(lia) ltac:(rewrite Hlen; lia)) as Hm'. destruct Hw as [Hwr Hs Hdk]. rewrite Hlen in Hs.
  destruct (entries_written (t_view T) x (t_view T') x' pl (new_entry inum name)) as [Esz Een]; try done.
  { intros i Hir. change (fbyte (t_view T') x' i) with (fbyte (t_view T') (x' <| i_size := i_size x |>) i). rewrite (wr_bytes _ _ _ _ _ _ _ Hwr i Hir), Hlen. done. }
  pose proof (wr_inode _ _ _ _ _ _ _ Hwr) as Ex.
  split; [done| | |done|done|done|].
  - split; [|rewrite Esz, Hs; lia|rewrite Hs; lia]. change (i_type x') with (i_type (x' <| i_size := i_size x |>)). rewrite Ex. done.
  - change (i_dev x') with (i_dev (x' <| i_size := i_size x |>)). by rewrite Ex.
  - intros b Hb Hu Hns. split; [by apply (wr_used _ _ _ _ _ _ _ Hwr)|]. by apply (wr_other _ _ _ _ _ _ _ Hwr).
Qed.

(** ** Theorems *)

(** C12: [dirlookup] finds the first entry in use that has the name, compared up
    to its NUL or DIRSIZ bytes, and returns its offset and its inode with one more
    reference, or returns 0 if there is none.  It changes nothing else. *)
Theorem dirlookup_correct (T : tstate) (x : inode) (m : nat) (name : list Z) (w : world) :
  ftxn T x (m + scan_reads (dir_size x)) w → t_open T = ∅ → t_dirty T = ∅ → file_ok (t_view T) sb x → mapped (t_view T) x → buffers 1 T → is_dir x →
  match list_find (named name) (entries (t_view T) x) with
  | None => ∃ w', dirlookup dp name w = Ok None w' ∧ ftxn T x m w'
  | Some (k, de) =>
    table_has_room (i_dev x) (dirent_inum de) (k_itable (set_inode F dp x)) →
    ∃ i t' w', dirlookup dp name w = Ok (Some (i, DIRENT_SIZE * Z.of_nat k)) w'
      ∧ igot (k_itable (set_inode F dp x)) (i_dev x) (dirent_inum de) i t' ∧ txn T ((set_inode F dp x) <| k_itable := t' |>) m w'
  end.
Proof.
  intros Ht Ho Hdy Hf Hm Hb Hdir. destruct (dirlookup_spec T x Ho Hdy Hf Hm Hb Hdir name m w Ht) as (w1 & Ht1 & E1).
  destruct (list_find (named name) (entries (t_view T) x)) as [[k de]|]; [|by exists w1]. intros Hr.
  destruct (iget_txn _ _ _ _ _ _ Ht1 Hr) as (i & t' & w2 & E2 & Hg & Ht2). exists i, t', w2. split; [|done]. by rewrite E1, (bind_ok _ _ _ _ _ E2).
Qed.

(** C13: [dirlink] of a name the directory does not have puts an entry for it into
    the first empty place, or appends it, and returns 0; all other entries are as
    before, the directory is well formed and on disk, and no block of another file
    changes. *)
Theorem dirlink_correct (T : tstate) (x : inode) (m : nat) (name : list Z) (inum : Z) (w : world) :
  finv sz sb 2 7 8 T x → ftxn T x (m + dirlink_reads x) w → is_dir x → mapped (t_view T) x →
  0 <= i_inum x < sb_ninodes sb → dinode_ok (dinode_of x) → 0 < inum < 2 ^ 16 →
  list_find (named name) (entries (t_view T) x) = None →
  DIRENT_SIZE * (Z.of_nat (free_place (entries (t_view T) x)) + 1) <= MAXFILE * BSIZE →
  ∃ T' x' w', dirlink dp name inum w = Ok 0 w' ∧ ftxn T' x' m w' ∧ finv sz sb 0 0 0 T' x' ∧ linked name inum T x T' x'.
Proof. intros HI. by apply (dirlink_spec 0 0 0). Qed.

(** C14: what [dirlink] has linked, [dirlookup] finds: the offset is that of the
    new entry, and the inode is the one that was linked. *)
Theorem dirlink_dirlookup (T : tstate) (x : inode) (m : nat) (name : list Z) (inum : Z) (w : world) :
  finv sz sb 2 7 9 T x → ftxn T x (m + scan_reads (S (dir_size x)) + dirlink_reads x) w → is_dir x → mapped (t_view T) x →
  0 <= i_inum x < sb_ninodes sb → dinode_ok (dinode_of x) → 0 < inum < 2 ^ 16 →
  list_find (named name) (entries (t_view T) x) = None →
  DIRENT_SIZE * (Z.of_nat (free_place (entries (t_view T) x)) + 1) <= MAXFILE * BSIZE →
  (∀ y, table_has_room (i_dev x) inum (<[dp := y]> (k_itable F))) →
  ∃ i y t' w', (r ← dirlink dp name inum; q ← dirlookup dp name; mret (r, q)) w
      = Ok (0, Some (i, DIRENT_SIZE * Z.of_nat (free_place (entries (t_view T) x)))) w'
    ∧ igot (<[dp := y]> (k_itable F)) (i_dev x) inum i t' ∧ k_itable (ks w') = t'.
Proof.
  intros HI Ht Hdir Hmap Hi Hd Hinum Hnone Hmax Hroom.
  destruct (dirlink_spec 0 0 1 T x (m + scan_reads (S (dir_size x))) name inum w) as (T' & x' & w1 & E1 & Ht1 & HI1 & HL); try done.
  destruct HL as [L1 L2 L3 L4 L5 _ _]. pose proof HI1 as [J1 J2 _ J4 _ _ J7]. destruct (new_entry_spec inum name Hinum) as (_ & Hnum & Hnamed).
  assert (Hpl : (free_place (entries (t_view T) x) <= dir_size x)%nat) by (rewrite <-(length_entries (t_view T) x); apply free_place_le).
  destruct (dirlookup_spec T' x' J1 J2 J4 L5 J7 L2 name m w1) as (w2 & Ht2 & E2).
  { eapply txn_le; [|exact Ht1]. rewrite L4. unfold scan_reads. nia. }
  rewrite L1, find_put in E2 by (try done; by rewrite length_entries). rewrite Hnum, L3 in E2.
  destruct (iget_txn _ _ _ (i_dev x) inum _ Ht2) as (i & t' & w3 & E3 & Hg & Ht3); [apply Hroom|].
  exists i, x', t', w3. split; [|split; [exact Hg|]].
  - rewrite (bind_ok _ _ _ _ _ E1). rewrite (bind_ok _ _ _ (Some (i, DIRENT_SIZE * Z.of_nat (free_place (entries (t_view T) x)))) w3); [done|].
    by rewrite E2, (bind_ok _ _ _ _ _ E3).
  - change (k_itable (ks w3)) with (k_itable (frame (ks w3))). by rewrite (tx_frame _ _ _ _ _ _ _ Ht3).
Qed.
End dir.

(** ** Path names *)

(** The parts of a string between its slashes. *)
Fixpoint split_path (l : list Z) : list (list Z) :=
  match l with
  | [] => [[]]
  | c :: l =>
    if c =? ch "/" then [] :: split_path l
    else match split_path l with [] => [[c]] | e :: es => (c :: e) :: es end
  end.

Definition nonempty (e : list Z) : Prop := e ≠ [].
#[global] Instance nonempty_dec e : Decision (nonempty e).
Proof. unfold nonempty. apply _. Defined.

Definition elements (path : list Z) : list (list Z) := filter nonempty (split_path (cstr path)).

Lemma split_path_app s l :
  Forall (λ c, c ≠ ch "/") s → split_path (s ++ l) = match split_path l with [] => [s] | e :: es => (s ++ e) :: es end.
Proof.
  induction 1 as [|c s Hc _ IH]; cbn [app split_path]; [destruct (split_path l) eqn:E; [|done]; by destruct l as [|c l]; [|cbn in E; repeat case_match]|].
  destruct (Z.eqb_spec c (ch "/")); [done|]. rewrite IH. by destruct (split_path l).
Qed.

Lemma elements_skip path : elements (skip_slashes path) = elements path.
Proof.
  induction path as [|c path IH]; [done|]. cbn [skip_slashes]. destruct (Z.eqb_spec c (ch "/")) as [->|]; [|done].
  rewrite IH. unfold elements. change (cstr (ch "/" :: path)) with (ch "/" :: cstr path). change (split_path (ch "/" :: cstr path)) with ([] :: split_path (cstr path)).
  by rewrite filter_cons_False by (by intros Hn).
Qed.

Lemma elements_end path : byte0 path = 0 → elements path = [].
Proof. destruct path as [|c path]; [done|]. cbn. by intros ->. Qed.

(** What follows an element. *)
Lemma span_elem_spec path :
  path = (span_elem path).1 ++ (span_elem path).2 ∧ Forall (λ c, c ≠ ch "/" ∧ c ≠ 0) (span_elem path).1
  ∧ (byte0 (span_elem path).2 = 0 ∨ byte0 (span_elem path).2 = ch "/").
Proof.
  induction path as [|c path (E & Hs & Hr)]; cbn [span_elem]; [split; [done|]; split; [constructor|by left]|].
  destruct (Z.eqb_spec c (ch "/")) as [->|Hc]; cbn [orb]; [split; [done|]; split; [constructor|by right]|].
  destruct (Z.eqb_spec c 0) as [->|H0]; [split; [done|]; split; [constructor|by left]|].
  destruct (span_elem path) as [e r]. cbn [fst snd] in *. split; [cbn; by rewrite <-E|]. split; [by constructor|done].
Qed.

Lemma cstr_app s l : Forall (λ c, c ≠ ch "/" ∧ c ≠ 0) s → cstr (s ++ l) = s ++ cstr l.
Proof. induction 1 as [|c s [_ Hc] _ IH]; [done|]. cbn. destruct (Z.eqb_spec c 0); [done|]. by rewrite IH. Qed.

Lemma elements_span path :
  (span_elem path).1 ≠ [] → elements path = (span_elem path).1 :: elements (span_elem path).2.
Proof.
  destruct (span_elem_spec path) as (E & Hs & Hr). destruct (span_elem path) as [s r]. cbn [fst snd] in *. intros Hne. rewrite E. unfold elements.
  assert (Forall (λ c, c ≠ ch "/") s) as Hs' by (eapply list.Forall_impl; [exact Hs|]; by intros c [? _]).
  rewrite cstr_app, split_path_app by done.
  destruct Hr as [Hr|Hr].
  - assert (cstr r = []) as -> by (destruct r as [|c r]; [done|]; cbn in *; by rewrite Hr). cbn [split_path]. rewrite app_nil_r. by rewrite filter_cons_True.
  - destruct r as [|c r]; [done|]. cbn in Hr. subst c. change (cstr (ch "/" :: r)) with (ch "/" :: cstr r). change (split_path (ch "/" :: cstr r)) with ([] :: split_path (cstr r)).
    cbv iota beta. rewrite app_nil_r, filter_cons_True by done. by rewrite (filter_cons_False _ []) by (by intros Hn).
Qed.

Lemma skip_slashes_head path : byte0 (skip_slashes path) ≠ ch "/".
Proof. induction path as [|c path IH]; cbn [skip_slashes]; [done|]. by destruct (Z.eqb_spec c (ch "/")). Qed.

(** The name buffer after an element has been copied to it. *)
Lemma name_buffer s name :
  length name = 14%nat → Forall (λ c, c ≠ ch "/" ∧ c ≠ 0) s →
  cname (if DIRSIZ <=? Z.of_nat (length s) then splice 0 (take (Z.to_nat DIRSIZ) s) name else splice 0 (s ++ [0]) name) = take (Z.to_nat DIRSIZ) s.
Proof.
  intros Hn Hs. unfold cname, splice. rewrite take_0. cbn [app Nat.add]. change (Z.to_nat DIRSIZ) with 14%nat. change DIRSIZ with 14.
  destruct (Z.leb_spec 14 (Z.of_nat (length s))).
  - rewrite take_app_length' by (rewrite length_take; lia). rewrite <-(app_nil_r (take 14 s)) at 1. rewrite cstr_app by (by apply Forall_take). by rewrite app_nil_r.
  - rewrite <-app_assoc. rewrite take_app, (take_ge s) by lia. rewrite cstr_app by done. destruct (14 - length s)%nat as [|k] eqn:Ek; [lia|]. cbn [take app cstr Z.eqb].
    by rewrite app_nil_r.
Qed.

(** C15: [skipelem] takes the elements of a path name from it one by one, as if the
    name were split at its slashes and empty parts dropped.  The element, cut to
    DIRSIZ bytes, is in the name buffer, and what is returned is the empty string
    exactly if there is no further element. *)
Theorem skipelem_elements (path name : list Z) :
  length name = 14%nat →
  match elements path with
  | [] => skipelem path name = None
  | e :: es => ∃ rest name', skipelem path name = Some (rest, name') ∧ elements rest = es
      ∧ length name' = 14%nat ∧ cname name' = take (Z.to_nat DIRSIZ) e ∧ (byte0 rest = 0 ↔ es = [])
  end.
Proof.
  intros Hn. rewrite <-(elements_skip path). unfold skipelem. set (q := skip_slashes path).
  assert (byte0 q ≠ ch "/") as Hq by apply skip_slashes_head. clearbody q. destruct (Z.eqb_spec (byte0 q) 0) as [E0|E0]; [by rewrite elements_end|].
  assert ((span_elem q).1 ≠ []) as Hne.
  { destruct q as [|c q]; [done|]. cbn in *. destruct (Z.eqb_spec c (ch "/")); [done|]. destruct (Z.eqb_spec c 0); [done|]. by destruct (span_elem q). }
  rewrite elements_span by done. destruct (span_elem_spec q) as (_ & Hs & Hr). destruct (span_elem q) as [s r]. cbn [fst snd] in *.
  eexists _, _. split; [reflexivity|]. split; [apply elements_skip|]. split; [|split].
  - change DIRSIZ with 14. destruct (Z.leb_spec 14 (Z.of_nat (length s))); (rewrite length_splice; [done|]); rewrite ?length_app, ?length_take; cbn [length]; lia.
  - apply name_buffer; done.
  - rewrite <-(elements_skip r). pose proof (skip_slashes_head r) as Hh. split; [apply elements_end|]. intros He.
    destruct (skip_slashes r) as [|c t]; [done|]. cbn in Hh |- *. destruct (decide (c = 0)) as [|Hc]; [done|]. exfalso.
    assert ((span_elem (c :: t)).1 ≠ []) as Hne2.
    { cbn. destruct (Z.eqb_spec c (ch "/")); [done|]. destruct (Z.eqb_spec c 0); [done|]. by destruct (span_elem t). }
    by rewrite elements_span in He.
Qed.

(** ** Witnesses: a directory with one entry, the name "llo" of inode 25960, in block 46 *)

Definition demo_dir : inode := demo_file <| i_type := T_DIR |> <| i_size := 16 |>.
Definition dir_demo0 : world :=
  MkWorld (boot_kstate <| k_disk := MkDisk file_blocks [] |> <| k_sb := demo_fs_sb |> <| k_itable ::= <[0%nat := demo_dir]> |>
             <| k_log := MkLog 2 30 1 0 1 0 (replicate 30 0) |>) ∅ (Some 0%nat) [].
Definition dir_demo : world := after binit dir_demo0.
Definition dir_demo_F : kstate := frame (ks dir_demo0).

Lemma dir_demo_ok m : @ftxn sync_rw sync_spec 0 0 30 dir_demo_F 0 file_demo_t demo_dir m dir_demo.
Proof.
  destruct (binit_rep 0 dir_demo0) as (c & E & HR).
  { reflexivity. }
  { exact boot_bufs_unused. }
  { intros n. cbn. unfold file_blocks. by destruct (n =? 45), (n =? 46). }
  unfold dir_demo, after. rewrite E. split; [|done|].
  - exists (fresh file_blocks []). split; [|by split].
    split; [|done|done|exact HR]. split; [done|done|done|by vm_compute; lia|done].
  - split; try done. cbn. constructor.
Qed.

Lemma demo_dir_file_ok : file_ok file_blocks demo_fs_sb demo_dir.
Proof. destruct demo_file_ok. by split. Qed.

Lemma demo_dir_mapped : mapped file_blocks demo_dir.
Proof. intros bn Hb Hs. cbn in Hs. unfold BSIZE in Hs. assert (bn = 0) as -> by lia. by vm_compute. Qed.

Lemma demo_dir_finv : finv 30 demo_fs_sb 2 7 9 file_demo_t demo_dir.
Proof.
  pose proof (demo_finv 2 ltac:(lia)) as HI. apply (finv_le _ _ _ _ _ 2 7 9) in HI; [|lia..].
  destruct HI. split; try done. exact demo_dir_file_ok.
Qed.

Lemma demo_is_dir : is_dir demo_dir.
Proof. by split; vm_compute. Qed.

Lemma demo_dir_dinode_ok : dinode_ok (dinode_of demo_dir).
Proof. pose proof demo_dinode_ok as [H1 H2 H3 H4 H5 H6 H7]. split; try done; by vm_compute. Qed.

Lemma dir_demo_room y : table_has_room ROOTDEV 7 (<[0%nat := y]> (k_itable dir_demo_F)).
Proof. apply list.Exists_exists. exists (k_itable dir_demo_F !!! 1%nat). split; [|right; reflexivity]. apply list_elem_of_lookup. exists 1%nat. reflexivity. Qed.

Lemma dirlookup_correct_witness :
  ∃ i t' w', @dirlookup sync_rw 0 (str "llo") dir_demo = Ok (Some (i, 0)) w' ∧ igot (k_itable (set_inode dir_demo_F 0 demo_dir)) ROOTDEV 25960 i t'.
Proof.
  pose proof (@dirlookup_correct sync_rw sync_spec 0 0 30 dir_demo_F 0 demo_fs_sb ltac:(vm_compute; lia) eq_refl demo_fs_sb_ok
    file_demo_t demo_dir 0 (str "llo") dir_demo) as H.
  assert (list_find (named (str "llo")) (entries (t_view file_demo_t) demo_dir) = Some (0%nat, hello ++ replicate 11 0)) as E by (by vm_compute).
  rewrite E in H. destruct H as (i & t' & w' & E1 & Hg & _).
  - apply dir_demo_ok.
  - reflexivity.
  - reflexivity.
  - exact demo_dir_file_ok.
  - exact demo_dir_mapped.
  - vm_compute. lia.
  - exact demo_is_dir.
  - apply list.Exists_exists. exists (k_itable dir_demo_F !!! 1%nat). split; [|right; reflexivity]. apply list_elem_of_lookup. exists 1%nat. reflexivity.
  - exists i, t', w'. split; [exact E1|exact Hg].
Defined.

Lemma dirlink_correct_witness :
  ∃ T' x' w', @dirlink sync_rw 0 (str "abc") 7 dir_demo = Ok 0 w' ∧ entries (t_view T') x' = [hello ++ replicate 11 0; [7; 0] ++ str "abc" ++ replicate 11 0].
Proof.
  destruct (@dirlink_correct sync_rw sync_spec 0 0 30 dir_demo_F 0 demo_fs_sb ltac:(vm_compute; lia) eq_refl demo_fs_sb_ok
    file_demo_t demo_dir 0 (str "abc") 7 dir_demo) as (T' & x' & w' & E & _ & _ & HL).
  - eapply finv_le; [| | |exact demo_dir_finv]; lia.
  - apply dir_demo_ok.
  - exact demo_is_dir.
  - exact demo_dir_mapped.
  - split; vm_compute; congruence.
  - exact demo_dir_dinode_ok.
  - lia.
  - by vm_compute.
  - by vm_compute.
  - exists T', x', w'. split; [exact E|]. rewrite (ln_entries _ _ _ _ _ _ _ HL). by vm_compute.
Defined.

Lemma dirlink_dirlookup_witness :
  ∃ i w', (r ← @dirlink sync_rw 0 (str "abc") 7; q ← @dirlookup sync_rw 0 (str "abc"); mret (r, q)) dir_demo = Ok (0, Some (i, 16)) w'.
Proof.
  destruct (@dirlink_dirlookup sync_rw sync_spec 0 0 30 dir_demo_F 0 demo_fs_sb ltac:(vm_compute; lia) eq_refl demo_fs_sb_ok
    file_demo_t demo_dir 0 (str "abc") 7 dir_demo) as (i & y & t' & w' & E & _).
  - exact demo_dir_finv.
  - apply dir_demo_ok.
  - exact demo_is_dir.
  - exact demo_dir_mapped.
  - split; vm_compute; congruence.
  - exact demo_dir_dinode_ok.
  - lia.
  - by vm_compute.
  - by vm_compute.
  - exact dir_demo_room.
  - exists i, w'. exact E.
Defined.

Lemma skipelem_elements_witness :
  ∃ rest name', skipelem (str "///usr//local-binaries-dir/x") (replicate 14 7) = Some (rest, name') ∧ elements rest = [str "local-binaries-dir"; str "x"].
Proof.
  pose proof (skipelem_elements (str "///usr//local-binaries-dir/x") (replicate 14 7) eq_refl) as H.
  assert (elements (str "///usr//local-binaries-dir/x") = [str "usr"; str "local-binaries-dir"; str "x"]) as E by (by vm_compute).
  rewrite E in H. destruct H as (rest & name' & E1 & E2 & _). exists rest, name'. split; [exact E1|exact E2].
Defined.
