(* ===== verification/File.v ===== *)
(** * kernel/file.c and pipealloc of kernel/pipe.c

    Open files.  A file pointer is an index of the file table. *)

From S2P Require Import Prelude Memory Kernel Kalloc Vm Sched Sleeplock Bio Log Uart Copy Console Pipe Fs.

Definition get_file (f : nat) (k : kstate) : file := k_ftable k !!! f.
Definition upd_file (f : nat) (g : file → file) : K unit :=
  modify (λ k, k <| k_ftable ::= alter g f |>).

(** The pointer stored in a file that the code dereferences. *)
Definition deref {A} (o : option A) : K A :=
  match o with Some a => mret a | None => panic "null pointer" end.

Definition fileinit : K unit := initlock LFtable.

Fixpoint filealloc_loop (l : list nat) : K (option nat) :=
  match l with
  | [] => release LFtable;; mret None
  | f :: l =>
    x ← gets (get_file f);
    if f_ref x =? 0 then
      upd_file f (λ x, x <| f_ref := 1 |>);;
      release LFtable;;
      mret (Some f)
    else filealloc_loop l
  end.

Definition filealloc : K (option nat) :=
  acquire LFtable;;
  filealloc_loop (seq 0 (Z.to_nat NFILE)).

Definition filedup (f : nat) : K nat :=
  acquire LFtable;;
  x ← gets (get_file f);
  panic_if (f_ref x <? 1) "filedup";;
  upd_file f (λ x, x <| f_ref ::= λ r, r + 1 |>);;
  release LFtable;;
  mret f.

Section file.
Context `{Image, DiskDriver}.

Definition fileclose (f : nat) : K unit :=
  acquire LFtable;;
  x ← gets (get_file f);
  panic_if (f_ref x <? 1) "fileclose";;
  upd_file f (λ x, x <| f_ref ::= λ r, r - 1 |>);;
  ff ← gets (get_file f);
  if 0 <? f_ref ff then release LFtable
  else
    upd_file f (λ x, x <| f_ref := 0 |>);;
    upd_file f (λ x, x <| f_type := FD_NONE |>);;
    release LFtable;;
    match f_type ff with
    | FD_PIPE => pipeclose (f_pipe ff) (negb (f_writable ff =? 0))
    | FD_INODE | FD_DEVICE =>
      begin_op;;
      ip ← deref (f_ip ff);
      iput ip;;
      end_op
    | FD_NONE => mret ()
    end.

(** [pad] is the indeterminate padding inside the local struct stat. *)
Definition filestat (pad : list Z) (f : nat) (addr : Z) : K Z :=
  p ← curproc;
  x ← gets (get_file f);
  match f_type x with
  | FD_INODE | FD_DEVICE =>
    ip ← deref (f_ip x);
    ilock ip;;
    st ← stati pad ip;
    iunlock ip;;
    pt ← gets (λ k, p_pagetable (get_proc p k));
    r ← copyout pt addr st 24;
    if r <? 0 then mret (-1) else mret 0
  | _ => mret (-1)
  end.

(** [devsw[f->major].read] and [.write]: the console's, or none. *)
Definition dev_ok (major : Z) (k : kstate) : bool :=
  negb ((major <? 0) || (NDEV <=? major)) && (k_devsw k !!! Z.to_nat major).

Definition fileread (f : nat) (addr n : Z) : K Z :=
  x ← gets (get_file f);
  if f_readable x =? 0 then mret (-1)
  else
    match f_type x with
    | FD_PIPE => piperead (f_pipe x) addr n
    | FD_DEVICE =>
      ok ← gets (dev_ok (f_major x));
      if negb ok then mret (-1) else consoleread (DUser addr) n
    | FD_INODE =>
      ip ← deref (f_ip x);
      ilock ip;;
      x ← gets (get_file f);
      r ← readi ip (DUser addr) (f_off x) (u32 n);
      when (0 <? r.1) (upd_file f (λ x, x <| f_off ::= λ o, u32 (o + r.1) |>));;
      iunlock ip;;
      mret r.1
    | FD_NONE => panic "fileread"
    end.

Definition filewrite_max : Z := ((MAXOPBLOCKS - 1 - 1 - 2) / 2) * BSIZE.

(** Each iteration but the last writes [filewrite_max] bytes. *)
Fixpoint filewrite_loop (fuel : nat) (f ip : nat) (addr n i : Z) : K Z :=
  match fuel with
  | O => diverge
  | S fuel =>
    if i <? n then
      let n1 := if filewrite_max <? n - i then filewrite_max else n - i in
      begin_op;;
      ilock ip;;
      x ← gets (get_file f);
      r ← writei ip (SUser (u64 (addr + i))) (f_off x) n1;
      when (0 <? r) (upd_file f (λ x, x <| f_off ::= λ o, u32 (o + r) |>));;
      iunlock ip;;
      end_op;;
      if negb (r =? n1) then mret i else filewrite_loop fuel f ip addr n (i + r)
    else mret i
  end.

Definition filewrite (f : nat) (addr n : Z) : K Z :=
  x ← gets (get_file f);
  if f_writable x =? 0 then mret (-1)
  else
    match f_type x with
    | FD_PIPE => pipewrite (f_pipe x) addr n
    | FD_DEVICE =>
      ok ← gets (dev_ok (f_major x));
      if negb ok then mret (-1) else consolewrite (SUser addr) n
    | FD_INODE =>
      ip ← deref (f_ip x);
      i ← filewrite_loop (S (S (Z.to_nat (n / filewrite_max)))) f ip addr n 0;
      mret (if i =? n then n else -1)
    | FD_NONE => panic "filewrite"
    end.

(** pipe.c.  The fresh page holds the junk that [kalloc] left. *)
Definition pipealloc : K (Z * option nat * option nat) :=
  f0 ← filealloc;
  match f0 with
  | None => mret (-1, None, None)
  | Some a =>
    f1 ← filealloc;
    match f1 with
    | None => fileclose a;; mret (-1, f0, None)
    | Some b =>
      pi ← kalloc;
      if pi =? 0 then fileclose a;; fileclose b;; mret (-1, f0, f1)
      else
        modify (λ k, k <| k_pipes ::= <[pi := MkPipe (replicate (Z.to_nat PIPESIZE) 5) 0 0 1 1]> |>);;
        initlock (LPipe pi);;
        upd_file a (λ x, x <| f_type := FD_PIPE |> <| f_readable := 1 |> <| f_writable := 0 |> <| f_pipe := pi |>);;
        upd_file b (λ x, x <| f_type := FD_PIPE |> <| f_readable := 0 |> <| f_writable := 1 |> <| f_pipe := pi |>);;
        mret (0, f0, f1)
    end
  end.

End file.
