(* ===== verification/Proc.v ===== *)
(** * kernel/proc.c: the life of a process

    Allocation, growth, fork, exit and wait.  A process is an index of the
    process table.  The addresses of kernel routines that the code stores in
    saved registers are parameters ([Symbols]). *)

From S2P Require Import Prelude Memory CString Kernel Kalloc Vm Sched Sleeplock Bio Log Fs File.

Class Symbols := {
  sym_forkret : Z;
  sym_usertrap : Z;
  sym_kernelvec : Z;
  sym_uservec : Z;    (** uservec - trampoline *)
  sym_userret : Z     (** userret - trampoline *)
}.

Definition allocpid : K Z :=
  acquire LPid;;
  pid ← gets k_nextpid;
  modify (λ k, k <| k_nextpid ::= λ n, i32 (n + 1) |>);;
  release LPid;;
  mret pid.

Definition initcode : list Z := [
  0x17; 0x05; 0x00; 0x00; 0x13; 0x05; 0x45; 0x02;
  0x97; 0x05; 0x00; 0x00; 0x93; 0x85; 0x35; 0x02;
  0x93; 0x08; 0x70; 0x00; 0x73; 0x00; 0x00; 0x00;
  0x93; 0x08; 0x20; 0x00; 0x73; 0x00; 0x00; 0x00;
  0xef; 0xf0; 0x9f; 0xff; 0x2f; 0x69; 0x6e; 0x69;
  0x74; 0x00; 0x00; 0x24; 0x00; 0x00; 0x00; 0x00;
  0x00; 0x00; 0x00; 0x00].

Section proc.
Context `{Image, Symbols, DiskDriver}.

Definition proc_pagetable (p : nat) : K Z :=
  pagetable ← uvmcreate;
  if pagetable =? 0 then mret 0
  else
    r ← mappages pagetable TRAMPOLINE PGSIZE ktrampoline (Z.lor PTE_R PTE_X);
    if r <? 0 then uvmfree pagetable 0;; mret 0
    else
      tf ← gets (λ k, p_trapframe (get_proc p k));
      r ← mappages pagetable TRAPFRAME PGSIZE tf (Z.lor PTE_R PTE_W);
      if r <? 0 then
        uvmunmap pagetable TRAMPOLINE 1 false;;
        uvmfree pagetable 0;;
        mret 0
      else mret pagetable.

Definition proc_freepagetable (pagetable sz : Z) : K unit :=
  uvmunmap pagetable TRAMPOLINE 1 false;;
  uvmunmap pagetable TRAPFRAME 1 false;;
  uvmfree pagetable sz.

Definition freeproc (p : nat) : K unit :=
  x ← gets (get_proc p);
  when (negb (p_trapframe x =? 0))
    (modify (λ k, k <| k_tf ::= delete (p_trapframe x) |>);;
     kfree (p_trapframe x));;
  modify (upd_proc p (λ q, q <| p_trapframe := 0 |>));;
  when (negb (p_pagetable x =? 0)) (proc_freepagetable (p_pagetable x) (p_sz x));;
  modify (upd_proc p (λ q, q <| p_pagetable := 0 |> <| p_sz := 0 |> <| p_pid := 0 |>
    <| p_parent := None |> <| p_name ::= <[0%nat := 0]> |> <| p_chan := ChNull |>
    <| p_killed := 0 |> <| p_xstate := 0 |> <| p_state := UNUSED |>)).

(** The scan of [allocproc]: an UNUSED process, its lock held. *)
Fixpoint allocproc_scan (l : list nat) : K (option nat) :=
  match l with
  | [] => mret None
  | p :: l =>
    acquire (LProc p);;
    x ← gets (get_proc p);
    if decide (p_state x = UNUSED) then mret (Some p)
    else release (LProc p);; allocproc_scan l
  end.

Definition allocproc : K (option nat) :=
  r ← allocproc_scan all_procs;
  match r with
  | None => mret None
  | Some p =>
    pid ← allocpid;
    modify (upd_proc p (λ q, q <| p_pid := pid |> <| p_state := USED |>));;
    tf ← kalloc;
    modify (upd_proc p (λ q, q <| p_trapframe := tf |>));;
    if tf =? 0 then
      freeproc p;; release (LProc p);; mret None
    else
      pt ← proc_pagetable p;
      modify (upd_proc p (λ q, q <| p_pagetable := pt |>));;
      if pt =? 0 then
        freeproc p;; release (LProc p);; mret None
      else
        modify (upd_proc p (λ q, q <| p_context := zero_context |>));;
        modify (upd_proc p (λ q, q <| p_context ::= λ c, c <| c_ra := sym_forkret |> |>));;
        modify (upd_proc p (λ q, q <| p_context ::= λ c, c <| c_sp := p_kstack q + PGSIZE |> |>));;
        mret (Some p)
  end.

(** [p->trapframe->f = v;] *)
Definition upd_tf (p : nat) (f : trapframe → trapframe) : K unit :=
  modify (λ k, k <| k_tf ::= <[p_trapframe (get_proc p k) :=
                       f (k_tf k !!! p_trapframe (get_proc p k))]> |>).

Definition userinit : K unit :=
  r ← allocproc;
  p ← deref r;
  modify (λ k, k <| k_initproc := Some p |>);;
  pt ← gets (λ k, p_pagetable (get_proc p k));
  uvmfirst pt initcode (Z.of_nat (length initcode));;
  modify (upd_proc p (λ q, q <| p_sz := PGSIZE |>));;
  upd_tf p (λ t, t <| tf_epc := 0 |>);;
  upd_tf p (λ t, t <| tf_sp := PGSIZE |>);;
  modify (upd_proc p (λ q, q <| p_name ::= λ n, safestrcpy n (str "initcode") 16 |>));;
  cwd ← namei (str "/");
  modify (upd_proc p (λ q, q <| p_cwd := cwd |>));;
  modify (upd_proc p (λ q, q <| p_state := RUNNABLE |>));;
  modify (upd_proc p (λ q, q <| p_trace_mask := 0 |>));;
  release (LProc p).

Definition growproc (n : Z) : K Z :=
  p ← curproc;
  x ← gets (get_proc p);
  let sz := p_sz x in
  if 0 <? n then
    sz ← uvmalloc (p_pagetable x) sz (u64 (sz + n)) PTE_W;
    if sz =? 0 then mret (-1)
    else modify (upd_proc p (λ q, q <| p_sz := sz |>));; mret 0
  else if n <? 0 then
    sz ← uvmdealloc (p_pagetable x) sz (u64 (sz + n));
    modify (upd_proc p (λ q, q <| p_sz := sz |>));; mret 0
  else modify (upd_proc p (λ q, q <| p_sz := sz |>));; mret 0.

Definition fork : K Z :=
  p ← curproc;
  r ← allocproc;
  match r with
  | None => mret (-1)
  | Some np =>
    x ← gets (get_proc p);
    nx ← gets (get_proc np);
    r ← uvmcopy (p_pagetable x) (p_pagetable nx) (p_sz x);
    if r <? 0 then
      freeproc np;; release (LProc np);; mret (-1)
    else
      modify (upd_proc np (λ q, q <| p_sz := p_sz x |>));;
      modify (λ k, k <| k_tf ::= <[p_trapframe nx := k_tf k !!! p_trapframe x]> |>);;
      upd_tf np (λ t, t <| tf_a0 := 0 |>);;
      mfor (seq 0 (Z.to_nat NOFILE)) (λ i,
        o ← gets (λ k, p_ofile (get_proc p k) !!! i);
        match o with
        | Some f =>
          f ← filedup f;
          modify (upd_proc np (λ q, q <| p_ofile ::= <[i := Some f]> |>))
        | None => mret ()
        end);;
      cwd ← deref (p_cwd x);
      cwd ← idup cwd;
      modify (upd_proc np (λ q, q <| p_cwd := Some cwd |>));;
      modify (upd_proc np (λ q, q <| p_name ::= λ n, safestrcpy n (p_name x) 16 |>));;
      pid ← gets (λ k, p_pid (get_proc np k));
      release (LProc np);;
      acquire LWait;;
      modify (upd_proc np (λ q, q <| p_parent := Some p |>));;
      release LWait;;
      acquire (LProc np);;
      modify (upd_proc np (λ q, q <| p_state := RUNNABLE |>));;
      release (LProc np);;
      modify (λ k, upd_proc np (λ q, q <| p_trace_mask := p_trace_mask (get_proc p k) |>) k);;
      mret pid
  end.

Definition reparent (p : nat) : K unit :=
  mfor all_procs (λ pp,
    x ← gets (get_proc pp);
    when (bool_decide (p_parent x = Some p))
      (init ← gets k_initproc;
       modify (upd_proc pp (λ q, q <| p_parent := init |>));;
       wakeup (chan_of_proc init))).

Definition exit (status : Z) : K unit :=
  p ← curproc;
  init ← gets k_initproc;
  panic_if (bool_decide (init = Some p)) "init exiting";;
  mfor (seq 0 (Z.to_nat NOFILE)) (λ fd,
    o ← gets (λ k, p_ofile (get_proc p k) !!! fd);
    match o with
    | Some f => fileclose f;; modify (upd_proc p (λ q, q <| p_ofile ::= <[fd := None]> |>))
    | None => mret ()
    end);;
  begin_op;;
  cwd ← gets (λ k, p_cwd (get_proc p k));
  cwd ← deref cwd;
  iput cwd;;
  end_op;;
  modify (upd_proc p (λ q, q <| p_cwd := None |>));;
  acquire LWait;;
  reparent p;;
  parent ← gets (λ k, p_parent (get_proc p k));
  wakeup (chan_of_proc parent);;
  acquire (LProc p);;
  modify (upd_proc p (λ q, q <| p_xstate := status |> <| p_state := ZOMBIE |>));;
  release LWait;;
  sched;;
  panic "zombie exit".

(** The scan of [wait]: [inl r] if the call returns [r], the locks released,
    [inr havekids] if no child has exited. *)
Fixpoint wait_scan (l : list nat) (p : nat) (addr : Z) (havekids : bool) : K (Z + bool) :=
  match l with
  | [] => mret (inr havekids)
  | pp :: l =>
    x ← gets (get_proc pp);
    if decide (p_parent x = Some p) then
      acquire (LProc pp);;
      x ← gets (get_proc pp);
      if decide (p_state x = ZOMBIE) then
        r ← (if addr =? 0 then mret 0
             else pt ← gets (λ k, p_pagetable (get_proc p k)); copyout pt addr (le_enc 4 (p_xstate x)) 4);
        if r <? 0 then
          release (LProc pp);; release LWait;; mret (inl (-1))
        else
          freeproc pp;; release (LProc pp);; release LWait;; mret (inl (p_pid x))
      else release (LProc pp);; wait_scan l p addr true
    else wait_scan l p addr havekids
  end.

Fixpoint wait_loop (fuel : nat) (p : nat) (addr : Z) : K Z :=
  match fuel with
  | O => diverge
  | S fuel =>
    r ← wait_scan all_procs p addr false;
    match r with
    | inl r => mret r
    | inr havekids =>
      quit ← (if negb havekids then mret true else k ← killed p; mret (negb (k =? 0)));
      if quit : bool then release LWait;; mret (-1)
      else sleep (ChProc p) LWait;; wait_loop fuel p addr
    end
  end.

Definition wait (addr : Z) : K Z :=
  p ← curproc;
  acquire LWait;;
  env_fuel (λ fuel, wait_loop fuel p addr).

End proc.
