(* ===== verification/Exec.v ===== *)
(** * kernel/exec.c

    Replacing the user image.  [bad] is the code at the label of that name. *)

From S2P Require Import Prelude Memory CString Kernel Kalloc Vm Sched Sleeplock Bio Log Copy Fs File Proc.

(** elf.h *)
Definition ELF_MAGIC : Z := 0x464C457F.
Definition ELF_PROG_LOAD : Z := 1.
Definition ELFHDR_SIZE : Z := 64.
Definition PROGHDR_SIZE : Z := 56.

Definition get64 (l : list Z) (off : nat) : Z := le_dec (take 8 (drop off l)).

Definition elf_magic (e : list Z) : Z := get32 e 0.
Definition elf_entry (e : list Z) : Z := get64 e 24.
Definition elf_phoff (e : list Z) : Z := get64 e 32.
Definition elf_phnum (e : list Z) : Z := get16 e 56.

Definition ph_type (p : list Z) : Z := get32 p 0.
Definition ph_flags (p : list Z) : Z := get32 p 4.
Definition ph_off (p : list Z) : Z := get64 p 8.
Definition ph_vaddr (p : list Z) : Z := get64 p 16.
Definition ph_filesz (p : list Z) : Z := get64 p 32.
Definition ph_memsz (p : list Z) : Z := get64 p 40.

Definition flags2perm (flags : Z) : Z :=
  let perm := if negb (Z.land flags 0x1 =? 0) then PTE_X else 0 in
  if negb (Z.land flags 0x2 =? 0) then Z.lor perm PTE_W else perm.

(** [for(last=s=path; *s; s++) if( *s == '/') last = s+1;] *)
Fixpoint last_elem (s last : list Z) : list Z :=
  match s with
  | [] => last
  | c :: s' => if c =? 0 then last else last_elem s' (if c =? ch "/" then s' else last)
  end.

Section exec.
Context `{Image, Symbols, DiskDriver}.

(** One iteration per page of the segment. *)
Fixpoint loadseg_loop (fuel : nat) (pagetable va : Z) (ip : nat) (offset sz i : Z) : K Z :=
  match fuel with
  | O => diverge
  | S fuel =>
    if i <? sz then
      pa ← walkaddr pagetable (u64 (va + i));
      panic_if (pa =? 0) "loadseg: address should exist";;
      let n := if sz - i <? PGSIZE then sz - i else PGSIZE in
      r ← readi ip (DKern pa) (u32 (offset + i)) n;
      if negb (r.1 =? n) then mret (-1)
      else loadseg_loop fuel pagetable va ip offset sz (u32 (i + PGSIZE))
    else mret 0
  end.

(** [offset] and [sz] are passed as [uint]. *)
Definition loadseg (pagetable va : Z) (ip : nat) (offset sz : Z) : K Z :=
  loadseg_loop (S (S (Z.to_nat (u32 sz / PGSIZE)))) pagetable va ip (u32 offset) (u32 sz) 0.

(** The [n] program headers from offset [off] on: whether all went well (not
    [goto bad]) and the size of the image so far. *)
Fixpoint exec_load (n : nat) (ip : nat) (pagetable off sz : Z) : K (bool * Z) :=
  match n with
  | O => mret (true, sz)
  | S n =>
    r ← readi ip DLocal (u32 off) PROGHDR_SIZE;
    let ph := r.2 in
    if negb (r.1 =? PROGHDR_SIZE) then mret (false, sz)
    else if negb (ph_type ph =? ELF_PROG_LOAD) then exec_load n ip pagetable (i32 (off + PROGHDR_SIZE)) sz
    else if ph_memsz ph <? ph_filesz ph then mret (false, sz)
    else if u64 (ph_vaddr ph + ph_memsz ph) <? ph_vaddr ph then mret (false, sz)
    else if negb (ph_vaddr ph mod PGSIZE =? 0) then mret (false, sz)
    else
      sz1 ← uvmalloc pagetable sz (u64 (ph_vaddr ph + ph_memsz ph)) (flags2perm (ph_flags ph));
      if sz1 =? 0 then mret (false, sz)
      else
        r ← loadseg pagetable (ph_vaddr ph) ip (ph_off ph) (ph_filesz ph);
        if r <? 0 then mret (false, sz1)
        else exec_load n ip pagetable (i32 (off + PROGHDR_SIZE)) sz1
  end.

(** Push the argument strings: the new stack pointer and [ustack], or [None]. *)
Fixpoint exec_args (pagetable stackbase sp : Z) (argv : list (list Z)) (ustack : list Z)
    : K (option (Z * list Z)) :=
  match argv with
  | [] => mret (Some (sp, ustack))
  | a :: argv =>
    if MAXARG <=? Z.of_nat (length ustack) then mret None
    else
      let sp := u64 (sp - (strlen a + 1)) in
      let sp := sp - sp mod 16 in
      if sp <? stackbase then mret None
      else
        r ← copyout pagetable sp (cstr a ++ [0]) (strlen a + 1);
        if r <? 0 then mret None
        else exec_args pagetable stackbase sp argv (ustack ++ [sp])
  end.

(** [bad:] with the inode [ip] locked or already released ([None]). *)
Definition exec_bad (pagetable sz : Z) (ip : option nat) : K Z :=
  when (negb (pagetable =? 0)) (proc_freepagetable pagetable sz);;
  match ip with
  | Some ip => iunlockput ip;; end_op
  | None => mret ()
  end;;
  mret (-1).

(** The stack and the switch to the new image, once the segments are loaded. *)
Definition exec_finish (p : nat) (path : list Z) (argv : list (list Z)) (elf : list Z)
    (pagetable sz : Z) : K Z :=
  oldsz ← gets (λ k, p_sz (get_proc p k));
  let sz := PGROUNDUP sz in
  sz1 ← uvmalloc pagetable sz (u64 (sz + 2 * PGSIZE)) PTE_W;
  if sz1 =? 0 then exec_bad pagetable sz None
  else
    let sz := sz1 in
    uvmclear pagetable (u64 (sz - 2 * PGSIZE));;
    let stackbase := u64 (sz - PGSIZE) in
    r ← exec_args pagetable stackbase sz argv [];
    match r with
    | None => exec_bad pagetable sz None
    | Some (sp, ustack) =>
      let argc := Z.of_nat (length ustack) in
      let sp := u64 (sp - (argc + 1) * 8) in
      let sp := sp - sp mod 16 in
      if sp <? stackbase then exec_bad pagetable sz None
      else
        r ← copyout pagetable sp ((ustack ++ [0]) ≫= le_enc 8) ((argc + 1) * 8);
        if r <? 0 then exec_bad pagetable sz None
        else
          upd_tf p (λ t, t <| tf_a1 := sp |>);;
          modify (upd_proc p (λ q, q <| p_name ::= λ n, safestrcpy n (last_elem path path) 16 |>));;
          oldpagetable ← gets (λ k, p_pagetable (get_proc p k));
          modify (upd_proc p (λ q, q <| p_pagetable := pagetable |> <| p_sz := sz |>));;
          upd_tf p (λ t, t <| tf_epc := elf_entry elf |>);;
          upd_tf p (λ t, t <| tf_sp := sp |>);;
          proc_freepagetable oldpagetable oldsz;;
          mret argc
    end.

(** [argv] lists the argument strings before the null pointer. *)
Definition exec (path : list Z) (argv : list (list Z)) : K Z :=
  p ← curproc;
  begin_op;;
  r ← namei path;
  match r with
  | None => end_op;; mret (-1)
  | Some ip =>
    ilock ip;;
    r ← readi ip DLocal 0 ELFHDR_SIZE;
    let elf := r.2 in
    if negb (r.1 =? ELFHDR_SIZE) then exec_bad 0 0 (Some ip)
    else if negb (elf_magic elf =? ELF_MAGIC) then exec_bad 0 0 (Some ip)
    else
      pagetable ← proc_pagetable p;
      if pagetable =? 0 then exec_bad 0 0 (Some ip)
      else
        l ← exec_load (Z.to_nat (elf_phnum elf)) ip pagetable (i32 (elf_phoff elf)) 0;
        if negb (l.1 : bool) then exec_bad pagetable l.2 (Some ip)
        else
          iunlockput ip;;
          end_op;;
          exec_finish p path argv elf pagetable l.2
  end.

End exec.
