(* ===== verification/Sysarg.v ===== *)
(** * kernel/syscall.c: system call arguments *)

From S2P Require Import Prelude Memory CString Kernel Kalloc Vm Sched.

(** The value fetched comes with the result. *)
Definition fetchaddr (addr : Z) : K (Z * Z) :=
  p ← curproc;
  x ← gets (get_proc p);
  if (p_sz x <=? addr) || (p_sz x <? u64 (addr + 8)) then mret (-1, 0)
  else
    r ← copyin (p_pagetable x) addr 8;
    if negb (r.1 =? 0) then mret (-1, 0) else mret (0, le_dec r.2).

(** The bytes stored in [buf] come with the result. *)
Definition fetchstr (addr max : Z) : K (Z * list Z) :=
  p ← curproc;
  pt ← gets (λ k, p_pagetable (get_proc p k));
  r ← copyinstr pt addr max;
  if r.1 <? 0 then mret (-1, r.2) else mret (strlen r.2, r.2).

Definition argraw (n : Z) : K Z :=
  p ← curproc;
  t ← gets (λ k, k_tf k !!! p_trapframe (get_proc p k));
  match n with
  | 0 => mret (tf_a0 t)
  | 1 => mret (tf_a1 t)
  | 2 => mret (tf_a2 t)
  | 3 => mret (tf_a3 t)
  | 4 => mret (tf_a4 t)
  | 5 => mret (tf_a5 t)
  | _ => panic "argraw"
  end.

Definition argint (n : Z) : K Z := x ← argraw n; mret (i32 x).
Definition argaddr (n : Z) : K Z := argraw n.
Definition argstr (n max : Z) : K (Z * list Z) := addr ← argaddr n; fetchstr addr max.
