(* ===== verification/Sysfile.v ===== *)
(** * kernel/sysfile.c

    The file-system calls.  [bad] and [fail] are the code at those labels.
    Results are C values; -1 stands for (uint64)-1. *)

From S2P Require Import Prelude Memory CString Kernel Kalloc Vm Sched Sleeplock Bio Log Copy Console Pipe Fs File Proc Exec Sysarg.

Section sysfile.
Context `{Image, Symbols, DiskDriver}.

(** The descriptor and the file, or [None] for -1. *)
Definition argfd (n : Z) : K (option (Z * nat)) :=
  fd ← argint n;
  if (fd <? 0) || (NOFILE <=? fd) then mret None
  else
    p ← curproc;
    o ← gets (λ k, p_ofile (get_proc p k) !!! Z.to_nat fd);
    match o with
    | None => mret None
    | Some f => mret (Some (fd, f))
    end.

Fixpoint fdalloc_loop (l : list nat) (p f : nat) : K Z :=
  match l with
  | [] => mret (-1)
  | fd :: l =>
    o ← gets (λ k, p_ofile (get_proc p k) !!! fd);
    match o with
    | None => modify (upd_proc p (λ q, q <| p_ofile ::= <[fd := Some f]> |>));; mret (Z.of_nat fd)
    | Some _ => fdalloc_loop l p f
    end
  end.

Definition fdalloc (f : nat) : K Z :=
  p ← curproc;
  fdalloc_loop (seq 0 (Z.to_nat NOFILE)) p f.

Definition sys_dup : K Z :=
  r ← argfd 0;
  match r with
  | None => mret (-1)
  | Some (_, f) =>
    fd ← fdalloc f;
    if fd <? 0 then mret (-1) else filedup f;; mret fd
  end.

Definition sys_read : K Z :=
  p ← argaddr 1;
  n ← argint 2;
  r ← argfd 0;
  match r with
  | None => mret (-1)
  | Some (_, f) => fileread f p n
  end.

Definition sys_write : K Z :=
  p ← argaddr 1;
  n ← argint 2;
  r ← argfd 0;
  match r with
  | None => mret (-1)
  | Some (_, f) => filewrite f p n
  end.

Definition sys_close : K Z :=
  r ← argfd 0;
  match r with
  | None => mret (-1)
  | Some (fd, f) =>
    p ← curproc;
    modify (upd_proc p (λ q, q <| p_ofile ::= <[Z.to_nat fd := None]> |>));;
    fileclose f;;
    mret 0
  end.

Definition sys_fstat (pad : list Z) : K Z :=
  st ← argaddr 1;
  r ← argfd 0;
  match r with
  | None => mret (-1)
  | Some (_, f) => filestat pad f st
  end.

Definition name_buf : list Z := replicate (Z.to_nat DIRSIZ) 0.

(** [ip->nlink += d; iupdate(ip);] with [nlink] a short *)
Definition add_nlink (ip : nat) (d : Z) : K unit :=
  modify (upd_inode ip (λ x, x <| i_nlink ::= λ n, i16 (n + d) |>));;
  iupdate ip.

Definition sys_link : K Z :=
  old ← argstr 0 MAXPATH;
  if old.1 <? 0 then mret (-1)
  else
    new ← argstr 1 MAXPATH;
    if new.1 <? 0 then mret (-1)
    else
      begin_op;;
      r ← namei old.2;
      match r with
      | None => end_op;; mret (-1)
      | Some ip =>
        ilock ip;;
        x ← gets (get_inode ip);
        if i_type x =? T_DIR then iunlockput ip;; end_op;; mret (-1)
        else
          add_nlink ip 1;;
          iunlock ip;;
          let bad := (ilock ip;; add_nlink ip (-1);; iunlockput ip;; end_op;; mret (-1)) : K Z in
          r ← nameiparent new.2 name_buf;
          match r.1 with
          | None => bad
          | Some dp =>
            ilock dp;;
            dx ← gets (get_inode dp);
            x ← gets (get_inode ip);
            failed ← (if negb (i_dev dx =? i_dev x) then mret true
                      else n ← dirlink dp r.2 (i_inum x); mret (n <? 0));
            if failed : bool then iunlockput dp;; bad
            else iunlockput dp;; iput ip;; end_op;; mret 0
          end
      end.

(** One iteration per entry from offset [off] on. *)
Fixpoint isdirempty_loop (fuel : nat) (dp : nat) (off : Z) : K bool :=
  match fuel with
  | O => diverge
  | S fuel =>
    x ← gets (get_inode dp);
    if off <? i_size x then
      r ← readi dp DLocal off DIRENT_SIZE;
      panic_if (negb (r.1 =? DIRENT_SIZE)) "isdirempty: readi";;
      if negb (dirent_inum r.2 =? 0) then mret false
      else isdirempty_loop fuel dp (off + DIRENT_SIZE)
    else mret true
  end.

Definition isdirempty (dp : nat) : K bool :=
  x ← gets (get_inode dp);
  isdirempty_loop (S (S (Z.to_nat (i_size x / DIRENT_SIZE)))) dp (2 * DIRENT_SIZE).

Definition sys_unlink : K Z :=
  path ← argstr 0 MAXPATH;
  if path.1 <? 0 then mret (-1)
  else
    begin_op;;
    r ← nameiparent path.2 name_buf;
    match r.1 with
    | None => end_op;; mret (-1)
    | Some dp =>
      let name := r.2 in
      let bad := (iunlockput dp;; end_op;; mret (-1)) : K Z in
      ilock dp;;
      if (namecmp name (str ".") =? 0) || (namecmp name (str "..") =? 0) then bad
      else
        r ← dirlookup dp name;
        match r with
        | None => bad
        | Some (ip, off) =>
          ilock ip;;
          x ← gets (get_inode ip);
          panic_if (i_nlink x <? 1) "unlink: nlink < 1";;
          empty ← (if i_type x =? T_DIR then isdirempty ip else mret true);
          if negb empty then iunlockput ip;; bad
          else
            n ← writei dp (SKern (replicate (Z.to_nat DIRENT_SIZE) 0)) off DIRENT_SIZE;
            panic_if (negb (n =? DIRENT_SIZE)) "unlink: writei";;
            when (i_type x =? T_DIR) (add_nlink dp (-1));;
            iunlockput dp;;
            add_nlink ip (-1);;
            iunlockput ip;;
            end_op;;
            mret 0
        end
    end.

(** The inode, locked, or [None]. *)
Definition create (path : list Z) (type major minor : Z) : K (option nat) :=
  r ← nameiparent path name_buf;
  match r.1 with
  | None => mret None
  | Some dp =>
    let name := r.2 in
    ilock dp;;
    r ← dirlookup dp name;
    match r with
    | Some (ip, _) =>
      iunlockput dp;;
      ilock ip;;
      x ← gets (get_inode ip);
      if (type =? T_FILE) && ((i_type x =? T_FILE) || (i_type x =? T_DEVICE)) then mret (Some ip)
      else iunlockput ip;; mret None
    | None =>
      dx ← gets (get_inode dp);
      r ← ialloc (i_dev dx) type;
      match r with
      | None => iunlockput dp;; mret None
      | Some ip =>
        let fail := (modify (upd_inode ip (λ x, x <| i_nlink := 0 |>));;
                     iupdate ip;; iunlockput ip;; iunlockput dp;; mret None) : K (option nat) in
        ilock ip;;
        modify (upd_inode ip (λ x, x <| i_major := major |> <| i_minor := minor |> <| i_nlink := 1 |>));;
        iupdate ip;;
        x ← gets (get_inode ip);
        bad ← (if type =? T_DIR then
                 n ← dirlink ip (str ".") (i_inum x);
                 if n <? 0 then mret true
                 else
                   dx ← gets (get_inode dp);
                   n ← dirlink ip (str "..") (i_inum dx);
                   mret (n <? 0)
               else mret false);
        if bad : bool then fail
        else
          n ← dirlink dp name (i_inum x);
          if n <? 0 then fail
          else
            when (type =? T_DIR) (add_nlink dp 1);;
            iunlockput dp;;
            mret (Some ip)
      end
    end
  end.

(** The part of [sys_open] after the inode [ip] was found and locked. *)
Definition open_inode (ip : nat) (omode : Z) : K Z :=
  x ← gets (get_inode ip);
  if (i_type x =? T_DEVICE) && ((i_major x <? 0) || (NDEV <=? i_major x)) then
    iunlockput ip;; end_op;; mret (-1)
  else
    f ← filealloc;
    match f with
    | None => iunlockput ip;; end_op;; mret (-1)
    | Some f =>
      fd ← fdalloc f;
      if fd <? 0 then fileclose f;; iunlockput ip;; end_op;; mret (-1)
      else
        (if i_type x =? T_DEVICE then upd_file f (λ g, g <| f_type := FD_DEVICE |> <| f_major := i_major x |>)
         else upd_file f (λ g, g <| f_type := FD_INODE |> <| f_off := 0 |>));;
        upd_file f (λ g, g <| f_ip := Some ip |>
          <| f_readable := (if Z.land omode O_WRONLY =? 0 then 1 else 0) |>
          <| f_writable := (if (Z.land omode O_WRONLY =? 0) && (Z.land omode O_RDWR =? 0) then 0 else 1) |>);;
        when (negb (Z.land omode O_TRUNC =? 0) && (i_type x =? T_FILE)) (itrunc ip);;
        iunlock ip;;
        end_op;;
        mret fd
    end.

Definition sys_open : K Z :=
  omode ← argint 1;
  path ← argstr 0 MAXPATH;
  if path.1 <? 0 then mret (-1)
  else
    begin_op;;
    if negb (Z.land omode O_CREATE =? 0) then
      r ← create path.2 T_FILE 0 0;
      match r with
      | None => end_op;; mret (-1)
      | Some ip => open_inode ip omode
      end
    else
      r ← namei path.2;
      match r with
      | None => end_op;; mret (-1)
      | Some ip =>
        ilock ip;;
        x ← gets (get_inode ip);
        if (i_type x =? T_DIR) && negb (omode =? O_RDONLY) then iunlockput ip;; end_op;; mret (-1)
        else open_inode ip omode
      end.

Definition sys_mkdir : K Z :=
  begin_op;;
  path ← argstr 0 MAXPATH;
  r ← (if path.1 <? 0 then mret None else create path.2 T_DIR 0 0);
  match r with
  | None => end_op;; mret (-1)
  | Some ip => iunlockput ip;; end_op;; mret 0
  end.

Definition sys_mknod : K Z :=
  begin_op;;
  major ← argint 1;
  minor ← argint 2;
  path ← argstr 0 MAXPATH;
  r ← (if path.1 <? 0 then mret None else create path.2 T_DEVICE (i16 major) (i16 minor));
  match r with
  | None => end_op;; mret (-1)
  | Some ip => iunlockput ip;; end_op;; mret 0
  end.

Definition sys_chdir : K Z :=
  p ← curproc;
  begin_op;;
  path ← argstr 0 MAXPATH;
  r ← (if path.1 <? 0 then mret None else namei path.2);
  match r with
  | None => end_op;; mret (-1)
  | Some ip =>
    ilock ip;;
    x ← gets (get_inode ip);
    if negb (i_type x =? T_DIR) then iunlockput ip;; end_op;; mret (-1)
    else
      iunlock ip;;
      cwd ← gets (λ k, p_cwd (get_proc p k));
      cwd ← deref cwd;
      iput cwd;;
      end_op;;
      modify (upd_proc p (λ q, q <| p_cwd := Some ip |>));;
      mret 0
  end.

(** The pages of the arguments fetched so far, and whether all were ([false] is
    [goto bad]); the strings are read back from the pages. *)
Fixpoint fetch_args (n : nat) (i uargv : Z) (pages : list Z) (args : list (list Z))
    : K (bool * list Z * list (list Z)) :=
  match n with
  | O => mret (false, pages, args)
  | S n =>
    r ← fetchaddr (u64 (uargv + 8 * i));
    if r.1 <? 0 then mret (false, pages, args)
    else if r.2 =? 0 then mret (true, pages, args)
    else
      pg ← kalloc;
      if pg =? 0 then mret (false, pages, args)
      else
        s ← fetchstr r.2 PGSIZE;
        modify (λ k, k <| k_mem ::= λ m, st_bytes m pg s.2 |>);;
        if s.1 <? 0 then mret (false, pages ++ [pg], args)
        else fetch_args n (i + 1) uargv (pages ++ [pg]) (args ++ [s.2])
  end.

Definition sys_exec : K Z :=
  uargv ← argaddr 1;
  path ← argstr 0 MAXPATH;
  if path.1 <? 0 then mret (-1)
  else
    r ← fetch_args (Z.to_nat MAXARG) 0 uargv [] [];
    ret ← (if r.1.1 : bool then exec path.2 r.2 else mret (-1));
    mfor r.1.2 kfree;;
    mret ret.

Definition sys_pipe : K Z :=
  p ← curproc;
  fdarray ← argaddr 0;
  r ← pipealloc;
  match r with
  | (0, Some rf, Some wf) =>
    fd0 ← fdalloc rf;
    if fd0 <? 0 then fileclose rf;; fileclose wf;; mret (-1)
    else
      let clear fd := modify (upd_proc p (λ q, q <| p_ofile ::= <[Z.to_nat fd := None]> |>)) in
      fd1 ← fdalloc wf;
      if fd1 <? 0 then clear fd0;; fileclose rf;; fileclose wf;; mret (-1)
      else
        pt ← gets (λ k, p_pagetable (get_proc p k));
        bad ← (r ← copyout pt fdarray (le_enc 4 fd0) 4;
               if r <? 0 then mret true
               else r ← copyout pt (u64 (fdarray + 4)) (le_enc 4 fd1) 4; mret (r <? 0));
        if bad : bool then clear fd0;; clear fd1;; fileclose rf;; fileclose wf;; mret (-1)
        else mret 0
  | _ => mret (-1)
  end.

End sysfile.
