(* ===== verification/Syscall.v ===== *)
(** * kernel/sysproc.c and the dispatcher of kernel/syscall.c *)

From S2P Require Import Prelude Memory CString Kernel Kalloc Vm Sched Sleeplock Bio Log Uart Printf Copy Console Pipe Fs File Proc Exec Sysarg Sysfile.

(** syscall.h *)
Definition SYS_fork : Z := 1.
Definition SYS_exit : Z := 2.
Definition SYS_wait : Z := 3.
Definition SYS_pipe : Z := 4.
Definition SYS_read : Z := 5.
Definition SYS_kill : Z := 6.
Definition SYS_exec : Z := 7.
Definition SYS_fstat : Z := 8.
Definition SYS_chdir : Z := 9.
Definition SYS_dup : Z := 10.
Definition SYS_getpid : Z := 11.
Definition SYS_sbrk : Z := 12.
Definition SYS_sleep : Z := 13.
Definition SYS_uptime : Z := 14.
Definition SYS_open : Z := 15.
Definition SYS_write : Z := 16.
Definition SYS_mknod : Z := 17.
Definition SYS_unlink : Z := 18.
Definition SYS_link : Z := 19.
Definition SYS_mkdir : Z := 20.
Definition SYS_close : Z := 21.
Definition SYS_trace : Z := 22.
Definition SYS_sysinfo : Z := 23.
Definition NSYSCALLS : Z := 24.

Section sysproc.
Context `{Image, Symbols, DiskDriver}.

Definition sys_exit : K Z := n ← argint 0; exit n;; mret 0.

Definition sys_getpid : K Z := p ← curproc; gets (λ k, p_pid (get_proc p k)).

Definition sys_fork : K Z := fork.

Definition sys_wait : K Z := p ← argaddr 0; wait p.

Definition sys_sbrk : K Z :=
  n ← argint 0;
  p ← curproc;
  addr ← gets (λ k, p_sz (get_proc p k));
  r ← growproc n;
  if r <? 0 then mret (-1) else mret addr.

Fixpoint sys_sleep_loop (fuel : nat) (p : nat) (ticks0 n : Z) : K Z :=
  match fuel with
  | O => diverge
  | S fuel =>
    t ← gets k_ticks;
    if u32 (t - ticks0) <? u32 n then
      k ← killed p;
      if negb (k =? 0) then release LTicks;; mret (-1)
      else sleep ChTicks LTicks;; sys_sleep_loop fuel p ticks0 n
    else release LTicks;; mret 0
  end.

Definition sys_sleep : K Z :=
  n ← argint 0;
  let n := if n <? 0 then 0 else n in
  acquire LTicks;;
  ticks0 ← gets k_ticks;
  p ← curproc;
  env_fuel (λ fuel, sys_sleep_loop fuel p ticks0 n).

Definition sys_kill : K Z := pid ← argint 0; kill pid.

Definition sys_uptime : K Z :=
  acquire LTicks;;
  t ← gets k_ticks;
  release LTicks;;
  mret t.

Definition sys_trace : K Z :=
  mask ← argint 0;
  p ← curproc;
  modify (upd_proc p (λ q, q <| p_trace_mask := u32 mask |>));;
  mret 0.

(** struct sysinfo: freemem, then nproc. *)
Definition sys_sysinfo : K Z :=
  p ← curproc;
  dst ← argaddr 0;
  nproc ← get_nproc;
  freemem ← get_freemem;
  pt ← gets (λ k, p_pagetable (get_proc p k));
  r ← copyout pt dst (le_enc 8 freemem ++ le_enc 8 nproc) 16;
  if r =? -1 then mret (-1) else mret 0.

(** The table [syscalls]; entry 0 is a null pointer. *)
Definition syscalls (pad : list Z) : list (option (K Z)) :=
  [None; Some sys_fork; Some sys_exit; Some sys_wait; Some sys_pipe; Some sys_read; Some sys_kill;
   Some sys_exec; Some (sys_fstat pad); Some sys_chdir; Some sys_dup; Some sys_getpid; Some sys_sbrk;
   Some sys_sleep; Some sys_uptime; Some sys_open; Some sys_write; Some sys_mknod; Some sys_unlink;
   Some sys_link; Some sys_mkdir; Some sys_close; Some sys_trace; Some sys_sysinfo].

Definition syscalls_str : list (list Z) :=
  [[]; str "fork"; str "exit"; str "wait"; str "pipe"; str "read"; str "kill"; str "exec"; str "fstat";
   str "chdir"; str "dup"; str "getpid"; str "sbrk"; str "sleep"; str "uptime"; str "open"; str "write";
   str "mknod"; str "unlink"; str "link"; str "mkdir"; str "close"; str "trace"; str "sysinfo"].

(** The result goes to a0 as a uint64. *)
Definition syscall (pad : list Z) : K unit :=
  p ← curproc;
  t ← gets (λ k, k_tf k !!! p_trapframe (get_proc p k));
  let num := i32 (tf_a7 t) in
  match (if (0 <? num) && (num <? NSYSCALLS) then mjoin (syscalls pad !! Z.to_nat num) else None) with
  | Some f =>
    r ← f;
    upd_tf p (λ t, t <| tf_a0 := u64 r |>);;
    x ← gets (get_proc p);
    when (negb (Z.land (u32 (Z.shiftl 1 num)) (p_trace_mask x) =? 0))
      (a0 ← gets (λ k, tf_a0 (k_tf k !!! p_trapframe (get_proc p k)));
       printf (str "%d: syscall %s -> %d" ++ [10])
         [AInt (p_pid x); AStr (Some (syscalls_str !!! Z.to_nat num)); AInt (i32 a0)])
  | None =>
    x ← gets (get_proc p);
    printf (str "%d %s: unknown sys call %d" ++ [10]) [AInt (p_pid x); AStr (Some (p_name x)); AInt num];;
    upd_tf p (λ t, t <| tf_a0 := u64 (-1) |>)
  end.

End sysproc.
