(* ===== verification/Trap.v ===== *)
(** * kernel/trap.c and kernel/plic.c

    Traps from user space and from the kernel, and device interrupts.  What the
    handler finds in the hart's registers is a record [csrs], an input of each
    trap; the interrupt controller is the record [plicst]. *)

From S2P Require Import Prelude Memory Kernel Kalloc Vm Sched Bio VirtioDisk Log Uart Printf Console Fs Proc Syscall.

Definition SSTATUS_SPP : Z := Z.shiftl 1 8.
Definition SSTATUS_SPIE : Z := Z.shiftl 1 5.
Definition SSTATUS_SIE : Z := Z.shiftl 1 1.
Definition SATP_SV39 : Z := Z.shiftl 8 60.
Definition MAKE_SATP (pagetable : Z) : Z := Z.lor SATP_SV39 (Z.shiftr pagetable 12).
Definition UART0_IRQ : Z := 10.
Definition VIRTIO0_IRQ : Z := 1.
Definition PLIC_SENABLE (hart : Z) : Z := PLIC + 0x2080 + hart * 0x100.
Definition PLIC_SPRIORITY (hart : Z) : Z := PLIC + 0x201000 + hart * 0x2000.
Definition PLIC_SCLAIM (hart : Z) : Z := PLIC + 0x201004 + hart * 0x2000.

(** The registers at the time of the trap: [r_tp] is the hart's number,
    [r_claim] what a read of the claim register of the PLIC returns. *)
Record csrs := {
  r_sstatus : Z; r_scause : Z; r_sepc : Z; r_stval : Z; r_satp : Z; r_tp : Z; r_sip : Z; r_claim : Z
}.

(** Writes to memory-mapped registers of the PLIC, and to control registers. *)
Inductive hwrite := WMmio (a v : Z) | WStvec (v : Z) | WSstatus (v : Z) | WSepc (v : Z) | WSip (v : Z) | WSatp (v : Z).

(** ** plic.c *)

Definition plicinit : list hwrite :=
  [WMmio (PLIC + UART0_IRQ * 4) 1; WMmio (PLIC + VIRTIO0_IRQ * 4) 1].

Definition plicinithart (hart : Z) : list hwrite :=
  [WMmio (PLIC_SENABLE hart) (Z.lor (Z.shiftl 1 UART0_IRQ) (Z.shiftl 1 VIRTIO0_IRQ));
   WMmio (PLIC_SPRIORITY hart) 0].

Definition plic_claim (c : csrs) : Z := i32 (r_claim c).
Definition plic_complete (hart irq : Z) : hwrite := WMmio (PLIC_SCLAIM hart) (u32 irq).

Section trap.
Context `{Image, Symbols, DiskDriver}.
Variable mmio_read : list (Z * Z) → Z → Z.

Definition trapinit : K unit := initlock LTicks.

Definition trapinithart : list hwrite := [WStvec sym_kernelvec].

Definition clockintr : K unit :=
  acquire LTicks;;
  modify (λ k, k <| k_ticks ::= λ t, u32 (t + 1) |>);;
  wakeup ChTicks;;
  release LTicks.

(** The result, and the registers written. *)
Definition devintr (c : csrs) : K (Z * list hwrite) :=
  let scause := r_scause c in
  if negb (Z.land scause 0x8000000000000000 =? 0) && (Z.land scause 0xff =? 9) then
    let irq := plic_claim c in
    (if irq =? UART0_IRQ then uartintr
     else if irq =? VIRTIO0_IRQ then virtio_disk_intr mmio_read
     else when (negb (irq =? 0)) (printf (str "unexpected interrupt irq=%d" ++ [10]) [AInt irq]));;
    mret (1, if negb (irq =? 0) then [plic_complete (r_tp c) irq] else [])
  else if scause =? 0x8000000000000001 then
    when (r_tp c =? 0) clockintr;;
    mret (2, [WSip (Z.land (r_sip c) (Z.lnot 2))])
  else mret (0, []).

(** What [usertrapret] leaves in the trapframe and in the registers; the last
    component is the argument of [userret], the user page table to switch to. *)
Definition usertrapret (c : csrs) : K (list hwrite * Z) :=
  p ← curproc;
  x ← gets (get_proc p);
  upd_tf p (λ t, t <| tf_kernel_satp := r_satp c |> <| tf_kernel_sp := p_kstack x + PGSIZE |>
                   <| tf_kernel_trap := sym_usertrap |> <| tf_kernel_hartid := r_tp c |>);;
  t ← gets (λ k, k_tf k !!! p_trapframe (get_proc p k));
  let sst := Z.lor (Z.land (r_sstatus c) (Z.lnot SSTATUS_SPP)) SSTATUS_SPIE in
  mret ([WStvec (TRAMPOLINE + sym_uservec); WSstatus sst; WSepc (tf_epc t)], MAKE_SATP (p_pagetable x)).

Definition usertrap (pad : list Z) (c : csrs) : K (list hwrite * Z) :=
  panic_if (negb (Z.land (r_sstatus c) SSTATUS_SPP =? 0)) "usertrap: not from user mode";;
  p ← curproc;
  upd_tf p (λ t, t <| tf_epc := r_sepc c |>);;
  r ← (if r_scause c =? 8 then
         k ← killed p;
         when (negb (k =? 0)) (exit (-1));;
         upd_tf p (λ t, t <| tf_epc ::= λ e, u64 (e + 4) |>);;
         syscall pad;;
         mret (0, [])
       else
         r ← devintr c;
         when (r.1 =? 0)
           (pid ← gets (λ k, p_pid (get_proc p k));
            printf (str "usertrap(): unexpected scause %p pid=%d" ++ [10]) [APtr (r_scause c); AInt pid];;
            printf (str "            sepc=%p stval=%p" ++ [10]) [APtr (r_sepc c); APtr (r_stval c)];;
            setkilled p);;
         mret r);
  k ← killed p;
  when (negb (k =? 0)) (exit (-1));;
  when (r.1 =? 2) yield;;
  u ← usertrapret c;
  mret (WStvec sym_kernelvec :: r.2 ++ u.1, u.2).

Definition kerneltrap (c : csrs) : K (list hwrite) :=
  panic_if (Z.land (r_sstatus c) SSTATUS_SPP =? 0) "kerneltrap: not from supervisor mode";;
  panic_if (negb (Z.land (r_sstatus c) SSTATUS_SIE =? 0)) "kerneltrap: interrupts enabled";;
  r ← devintr c;
  (if r.1 =? 0 then
     printf (str "scause %p" ++ [10]) [APtr (r_scause c)];;
     printf (str "sepc=%p stval=%p" ++ [10]) [APtr (r_sepc c); APtr (r_stval c)];;
     panic "kerneltrap"
   else mret ());;
  p ← myproc;
  match p with
  | Some p =>
    x ← gets (get_proc p);
    when ((r.1 =? 2) && bool_decide (p_state x = RUNNING)) yield
  | None => mret ()
  end;;
  mret (r.2 ++ [WSepc (r_sepc c); WSstatus (r_sstatus c)]).

(** proc.c: the first scheduling of a new process ends here. *)
Definition forkret (c : csrs) : K (list hwrite * Z) :=
  p ← curproc;
  release (LProc p);;
  first ← gets k_first;
  when (negb (first =? 0))
    (modify (λ k, k <| k_first := 0 |>);;
     fsinit ROOTDEV);;
  usertrapret c.

End trap.
