(* ===== verification/Riscv.v ===== *)
(** * The RISC-V core

    One hart as the assembly files and the inline assembly of riscv.h see it: the
    integer registers, the control and status registers, the privilege level, the
    program counter and physical memory.  Address translation under a page table
    is the parameter [Mmu]; machine mode and a zero [satp] bypass it.

    The semantics is that of the privileged architecture as far as the kernel uses
    it: [sstatus] is a view of [mstatus], [sie] and [sip] are views of [mie] and
    [mip] through [mideleg], [mret] and [sret] pop the privilege and interrupt
    stacks of [mstatus].  The TLB is not modelled: [sfence.vma] does nothing. *)

From S2P Require Import Prelude Memory Kernel.

(** ** Registers *)

Inductive reg :=
| ZERO | RA | SP | GP | TP | T0 | T1 | T2 | S0 | S1
| A0 | A1 | A2 | A3 | A4 | A5 | A6 | A7
| S2 | S3 | S4 | S5 | S6 | S7 | S8 | S9 | S10 | S11 | T3 | T4 | T5 | T6.

Inductive csr :=
| mhartid | mstatus | mepc | medeleg | mideleg | mie | mip | mtvec | mscratch
| mcounteren | time | pmpcfg0 | pmpaddr0
| sepc | stvec | satp | sscratch | scause | stval
| sstatus | sie | sip.

#[global] Instance reg_eq_dec : EqDecision reg.
Proof. solve_decision. Defined.
#[global] Instance csr_eq_dec : EqDecision csr.
Proof. solve_decision. Defined.

(** The privilege levels, as [mstatus] encodes them. *)
Definition PRIV_U : Z := 0.
Definition PRIV_S : Z := 1.
Definition PRIV_M : Z := 3.

Record core := MkCore {
  regs : reg → Z;
  csrs : csr → Z;
  priv : Z;
  pc : Z;
  pmem : mem
}.
#[global] Instance set_regs : Setter regs := λ g h, MkCore (g (regs h)) (csrs h) (priv h) (pc h) (pmem h).
#[global] Instance set_csrs : Setter csrs := λ g h, MkCore (regs h) (g (csrs h)) (priv h) (pc h) (pmem h).
#[global] Instance set_priv : Setter priv := λ g h, MkCore (regs h) (csrs h) (g (priv h)) (pc h) (pmem h).
#[global] Instance set_pc : Setter pc := λ g h, MkCore (regs h) (csrs h) (priv h) (g (pc h)) (pmem h).
#[global] Instance set_pmem : Setter pmem := λ g h, MkCore (regs h) (csrs h) (priv h) (pc h) (g (pmem h)).

Definition getx (r : reg) (h : core) : Z := if decide (r = ZERO) then 0 else regs h r.
Definition setx (r : reg) (v : Z) (h : core) : core :=
  h <| regs ::= λ f, λ q, if decide (q = r) then u64 v else f q |>.

(** ** Control and status registers *)

Definition setc (c : csr) (v : Z) (h : core) : core :=
  h <| csrs ::= λ f, λ d, if decide (d = c) then u64 v else f d |>.

(** The bits of [mstatus] that [sstatus] shows. *)
Definition SSTATUS_BITS : Z := 0x80000003000DE133.

Definition insert_bits (mask old new : Z) : Z := Z.lor (Z.land old (Z.lnot mask)) (Z.land new mask).

Definition rd_csr (c : csr) (h : core) : Z :=
  match c with
  | sstatus => Z.land (csrs h mstatus) SSTATUS_BITS
  | sie => Z.land (csrs h mie) (csrs h mideleg)
  | sip => Z.land (csrs h mip) (csrs h mideleg)
  | c => csrs h c
  end.

Definition wr_csr (c : csr) (v : Z) (h : core) : core :=
  match c with
  | sstatus => setc mstatus (insert_bits SSTATUS_BITS (csrs h mstatus) v) h
  | sie => setc mie (insert_bits (csrs h mideleg) (csrs h mie) v) h
  | sip => setc mip (insert_bits (csrs h mideleg) (csrs h mip) v) h
  | mhartid | time => h
  | c => setc c v h
  end.

(** Bits of [mstatus]: SIE 1, MIE 3, SPIE 5, MPIE 7, SPP 8, MPP 11 and 12. *)
Definition field (v pos width : Z) : Z := Z.land (Z.shiftr v pos) (Z.ones width).
Definition set_bits (v pos width n : Z) : Z := insert_bits (Z.shiftl (Z.ones width) pos) v (Z.shiftl n pos).

(** Return from a trap in machine mode, and in supervisor mode. *)
Definition mret_ (h : core) : core :=
  let m := csrs h mstatus in
  let m' := set_bits (set_bits (set_bits m 3 1 (field m 7 1)) 7 1 1) 11 2 PRIV_U in
  setc mstatus m' h <| priv := field m 11 2 |> <| pc := csrs h mepc |>.

Definition sret_ (h : core) : core :=
  let m := csrs h mstatus in
  let m' := set_bits (set_bits (set_bits m 1 1 (field m 5 1)) 5 1 1) 8 1 PRIV_U in
  setc mstatus m' h <| priv := field m 8 1 |> <| pc := csrs h sepc |>.

(** A trap into supervisor mode. *)
Definition trap_ (cause tval : Z) (h : core) : core :=
  let m := csrs h mstatus in
  let m' := set_bits (set_bits (set_bits m 5 1 (field m 1 1)) 1 1 0) 8 1 (if priv h =? PRIV_U then 0 else 1) in
  setc mstatus m' (setc sepc (pc h) (setc scause cause (setc stval tval h)))
    <| priv := PRIV_S |> <| pc := csrs h stvec |>.

(** ** Memory *)

(** What the page table that a [satp] value selects makes of a virtual address. *)
Class Mmu := xlate : Z → Z → Z.

Definition translate `{Mmu} (h : core) (va : Z) : Z :=
  if (priv h =? PRIV_M) || (csrs h satp =? 0) then va else xlate (csrs h satp) va.

(** ** Instructions *)

Inductive instr :=
| sd (rs : reg) (off : Z) (rb : reg)
| ld (rd : reg) (off : Z) (rb : reg)
| li (rd : reg) (v : Z)
| mv (rd rs : reg)
| addi (rd rs : reg) (v : Z)
| add (rd rs rt : reg)
| mul (rd rs rt : reg)
| csrr (rd : reg) (c : csr)
| csrw (c : csr) (rs : reg)
| csrrw (rd : reg) (c : csr) (rs : reg)
| sfence_vma_.

Definition step `{Mmu} (h : core) (i : instr) : core :=
  match i with
  | sd rs off rb => h <| pmem ::= λ m, sd64 m (translate h (u64 (getx rb h + off))) (getx rs h) |>
  | ld rd off rb => setx rd (ld64 (pmem h) (translate h (u64 (getx rb h + off)))) h
  | li rd v => setx rd v h
  | mv rd rs => setx rd (getx rs h) h
  | addi rd rs v => setx rd (getx rs h + v) h
  | add rd rs rt => setx rd (getx rs h + getx rt h) h
  | mul rd rs rt => setx rd (getx rs h * getx rt h) h
  | csrr rd c => setx rd (rd_csr c h) h
  | csrw c rs => wr_csr c (getx rs h) h
  | csrrw rd c rs => setx rd (rd_csr c h) (wr_csr c (getx rs h) h)
  | sfence_vma_ => h
  end.

Definition run `{Mmu} (l : list instr) (h : core) : core := foldl step h l.

Definition jr (r : reg) (h : core) : core := h <| pc := getx r h |>.
Definition ret (h : core) : core := jr RA h.

(** ** riscv.h

    Each accessor is one instruction. *)

Definition MSTATUS_MPP_MASK : Z := Z.shiftl 3 11.
Definition MSTATUS_MPP_M : Z := Z.shiftl 3 11.
Definition MSTATUS_MPP_S : Z := Z.shiftl 1 11.
Definition MSTATUS_MPP_U : Z := Z.shiftl 0 11.
Definition MSTATUS_MIE : Z := Z.shiftl 1 3.
Definition SSTATUS_UPIE : Z := Z.shiftl 1 4.
Definition SSTATUS_UIE : Z := Z.shiftl 1 0.
Definition SIE_SEIE : Z := Z.shiftl 1 9.
Definition SIE_STIE : Z := Z.shiftl 1 5.
Definition SIE_SSIE : Z := Z.shiftl 1 1.
Definition MIE_MEIE : Z := Z.shiftl 1 11.
Definition MIE_MTIE : Z := Z.shiftl 1 7.
Definition MIE_MSIE : Z := Z.shiftl 1 3.

Definition r_mhartid (h : core) : Z := rd_csr mhartid h.
Definition r_mstatus (h : core) : Z := rd_csr mstatus h.
Definition w_mstatus (x : Z) (h : core) : core := wr_csr mstatus x h.
Definition w_mepc (x : Z) (h : core) : core := wr_csr mepc x h.
Definition r_sstatus (h : core) : Z := rd_csr sstatus h.
Definition w_sstatus (x : Z) (h : core) : core := wr_csr sstatus x h.
Definition r_sip (h : core) : Z := rd_csr sip h.
Definition w_sip (x : Z) (h : core) : core := wr_csr sip x h.
Definition r_sie (h : core) : Z := rd_csr sie h.
Definition w_sie (x : Z) (h : core) : core := wr_csr sie x h.
Definition r_mie (h : core) : Z := rd_csr mie h.
Definition w_mie (x : Z) (h : core) : core := wr_csr mie x h.
Definition r_sepc (h : core) : Z := rd_csr sepc h.
Definition w_sepc (x : Z) (h : core) : core := wr_csr sepc x h.
Definition r_medeleg (h : core) : Z := rd_csr medeleg h.
Definition w_medeleg (x : Z) (h : core) : core := wr_csr medeleg x h.
Definition r_mideleg (h : core) : Z := rd_csr mideleg h.
Definition w_mideleg (x : Z) (h : core) : core := wr_csr mideleg x h.
Definition r_stvec (h : core) : Z := rd_csr stvec h.
Definition w_stvec (x : Z) (h : core) : core := wr_csr stvec x h.
Definition w_mtvec (x : Z) (h : core) : core := wr_csr mtvec x h.
Definition w_pmpcfg0 (x : Z) (h : core) : core := wr_csr pmpcfg0 x h.
Definition w_pmpaddr0 (x : Z) (h : core) : core := wr_csr pmpaddr0 x h.
Definition r_satp (h : core) : Z := rd_csr satp h.
Definition w_satp (x : Z) (h : core) : core := wr_csr satp x h.
Definition w_mscratch (x : Z) (h : core) : core := wr_csr mscratch x h.
Definition r_scause (h : core) : Z := rd_csr scause h.
Definition r_stval (h : core) : Z := rd_csr stval h.
Definition w_mcounteren (x : Z) (h : core) : core := wr_csr mcounteren x h.
Definition r_mcounteren (h : core) : Z := rd_csr mcounteren h.
Definition r_time (h : core) : Z := rd_csr time h.
Definition r_sp (h : core) : Z := getx SP h.
Definition r_tp (h : core) : Z := getx TP h.
Definition w_tp (x : Z) (h : core) : core := setx TP x h.
Definition r_ra (h : core) : Z := getx RA h.
Definition sfence_vma (h : core) : core := h.

(** ** Reading back what was written *)

Lemma getx_setx r q v h : getx q (setx r v h) = if decide (q = ZERO) then 0 else if decide (q = r) then u64 v else getx q h.
Proof. unfold getx, setx. destruct (decide (q = ZERO)); [done|]. by cbn. Qed.

Lemma csrs_setc c d v h : csrs (setc c v h) d = if decide (d = c) then u64 v else csrs h d.
Proof. done. Qed.

Lemma getx_eq r v h : r ≠ ZERO → getx r (setx r v h) = u64 v.
Proof. intros. rewrite getx_setx. by rewrite decide_False, decide_True. Qed.

Lemma getx_ne r q v h : q ≠ r → getx q (setx r v h) = getx q h.
Proof.
  intros. rewrite getx_setx. destruct (decide (q = ZERO)) as [->|]; [unfold getx; by rewrite decide_True|]. by rewrite decide_False.
Qed.

Lemma getx_csrs c v h r : getx r (setc c v h) = getx r h.
Proof. done. Qed.

(** The registers hold 64-bit values. *)
Definition regs_ok (h : core) : Prop := ∀ r, 0 <= getx r h < 2 ^ 64.
