(* ===== verification/Asm.v ===== *)
(** * The assembly files

    kernel/entry.S, swtch.S, trampoline.S and kernelvec.S as lists of instructions
    of Riscv.v, and the layout of [struct context] and [struct trapframe] of
    proc.h in memory.  AsmSpec.v has the theorems. *)

From S2P Require Import Prelude Memory Kernel Riscv.

(** ** swtch.S *)

Definition swtch_code : list instr := [
  sd RA 0 A0;
  sd SP 8 A0;
  sd S0 16 A0;
  sd S1 24 A0;
  sd S2 32 A0;
  sd S3 40 A0;
  sd S4 48 A0;
  sd S5 56 A0;
  sd S6 64 A0;
  sd S7 72 A0;
  sd S8 80 A0;
  sd S9 88 A0;
  sd S10 96 A0;
  sd S11 104 A0;

  ld RA 0 A1;
  ld SP 8 A1;
  ld S0 16 A1;
  ld S1 24 A1;
  ld S2 32 A1;
  ld S3 40 A1;
  ld S4 48 A1;
  ld S5 56 A1;
  ld S6 64 A1;
  ld S7 72 A1;
  ld S8 80 A1;
  ld S9 88 A1;
  ld S10 96 A1;
  ld S11 104 A1
].

(** ** trampoline.S *)

Definition uservec_code : list instr := [
  csrw sscratch A0;
  li A0 TRAPFRAME;
  sd RA 40 A0;
  sd SP 48 A0;
  sd GP 56 A0;
  sd TP 64 A0;
  sd T0 72 A0;
  sd T1 80 A0;
  sd T2 88 A0;
  sd S0 96 A0;
  sd S1 104 A0;
  sd A1 120 A0;
  sd A2 128 A0;
  sd A3 136 A0;
  sd A4 144 A0;
  sd A5 152 A0;
  sd A6 160 A0;
  sd A7 168 A0;
  sd S2 176 A0;
  sd S3 184 A0;
  sd S4 192 A0;
  sd S5 200 A0;
  sd S6 208 A0;
  sd S7 216 A0;
  sd S8 224 A0;
  sd S9 232 A0;
  sd S10 240 A0;
  sd S11 248 A0;
  sd T3 256 A0;
  sd T4 264 A0;
  sd T5 272 A0;
  sd T6 280 A0;
  csrr T0 sscratch;
  sd T0 112 A0;
  ld SP 8 A0;
  ld TP 32 A0;
  ld T0 16 A0;
  ld T1 0 A0;
  sfence_vma_;
  csrw satp T1;
  sfence_vma_
].

Definition userret_code : list instr := [
  sfence_vma_;
  csrw satp A0;
  sfence_vma_;
  li A0 TRAPFRAME;
  ld RA 40 A0;
  ld SP 48 A0;
  ld GP 56 A0;
  ld TP 64 A0;
  ld T0 72 A0;
  ld T1 80 A0;
  ld T2 88 A0;
  ld S0 96 A0;
  ld S1 104 A0;
  ld A1 120 A0;
  ld A2 128 A0;
  ld A3 136 A0;
  ld A4 144 A0;
  ld A5 152 A0;
  ld A6 160 A0;
  ld A7 168 A0;
  ld S2 176 A0;
  ld S3 184 A0;
  ld S4 192 A0;
  ld S5 200 A0;
  ld S6 208 A0;
  ld S7 216 A0;
  ld S8 224 A0;
  ld S9 232 A0;
  ld S10 240 A0;
  ld S11 248 A0;
  ld T3 256 A0;
  ld T4 264 A0;
  ld T5 272 A0;
  ld T6 280 A0;
  ld A0 112 A0
].

(** ** kernelvec.S *)

Definition kernelvec_save : list instr := [
  addi SP SP (-256);
  sd RA 0 SP;
  sd SP 8 SP;
  sd GP 16 SP;
  sd TP 24 SP;
  sd T0 32 SP;
  sd T1 40 SP;
  sd T2 48 SP;
  sd S0 56 SP;
  sd S1 64 SP;
  sd A0 72 SP;
  sd A1 80 SP;
  sd A2 88 SP;
  sd A3 96 SP;
  sd A4 104 SP;
  sd A5 112 SP;
  sd A6 120 SP;
  sd A7 128 SP;
  sd S2 136 SP;
  sd S3 144 SP;
  sd S4 152 SP;
  sd S5 160 SP;
  sd S6 168 SP;
  sd S7 176 SP;
  sd S8 184 SP;
  sd S9 192 SP;
  sd S10 200 SP;
  sd S11 208 SP;
  sd T3 216 SP;
  sd T4 224 SP;
  sd T5 232 SP;
  sd T6 240 SP
].

Definition kernelvec_restore : list instr := [
  ld RA 0 SP;
  ld SP 8 SP;
  ld GP 16 SP;
  ld T0 32 SP;
  ld T1 40 SP;
  ld T2 48 SP;
  ld S0 56 SP;
  ld S1 64 SP;
  ld A0 72 SP;
  ld A1 80 SP;
  ld A2 88 SP;
  ld A3 96 SP;
  ld A4 104 SP;
  ld A5 112 SP;
  ld A6 120 SP;
  ld A7 128 SP;
  ld S2 136 SP;
  ld S3 144 SP;
  ld S4 152 SP;
  ld S5 160 SP;
  ld S6 168 SP;
  ld S7 176 SP;
  ld S8 184 SP;
  ld S9 192 SP;
  ld S10 200 SP;
  ld S11 208 SP;
  ld T3 216 SP;
  ld T4 224 SP;
  ld T5 232 SP;
  ld T6 240 SP;
  addi SP SP 256
].

Definition timervec_code : list instr := [
  csrrw A0 mscratch A0;
  sd A1 0 A0;
  sd A2 8 A0;
  sd A3 16 A0;

  ld A1 24 A0;
  ld A2 32 A0;
  ld A3 0 A1;
  add A3 A3 A2;
  sd A3 0 A1;

  li A1 2;
  csrw sip A1;

  ld A3 16 A0;
  ld A2 8 A0;
  ld A1 0 A0;
  csrrw A0 mscratch A0
].

(** ** entry.S *)

(** [stack0] is the address of the boot stacks. *)
Definition entry_code (stack0 : Z) : list instr := [
  li SP stack0;
  li A0 (1024 * 4);
  csrr A1 mhartid;
  addi A1 A1 1;
  mul A0 A0 A1;
  add SP SP A0
].

(** ** The routines *)

Section routines.
Context `{Mmu}.

Definition swtch (h : core) : core := ret (run swtch_code h).
Definition uservec (h : core) : core := jr T0 (run uservec_code h).
Definition userret (h : core) : core := sret_ (run userret_code h).

(** The handler is the C function [kerneltrap]; [call] leaves the address of the
    next instruction in [ra]. *)
Definition kernelvec (kerneltrap : core → core) (back : Z) (h : core) : core :=
  sret_ (run kernelvec_restore (kerneltrap (setx RA back (run kernelvec_save h)))).

Definition timervec (h : core) : core := mret_ (run timervec_code h).

Definition entry (stack0 start : Z) (h : core) : core := run (entry_code stack0) h <| pc := start |>.

End routines.

(** ** Structures in memory *)

(** The 64-bit words from an address on. *)
Definition words_at (m : mem) (a : Z) (l : list Z) : Prop := ∀ i v, l !! i = Some v → ld64 m (a + 8 * Z.of_nat i) = v.

(** proc.h: the fields of the structs, in order. *)
Definition context_words (c : context) : list Z :=
  [c_ra c; c_sp c; c_s0 c; c_s1 c; c_s2 c; c_s3 c; c_s4 c; c_s5 c; c_s6 c; c_s7 c; c_s8 c; c_s9 c; c_s10 c; c_s11 c].

Definition trapframe_words (t : trapframe) : list Z :=
  [tf_kernel_satp t; tf_kernel_sp t; tf_kernel_trap t; tf_epc t; tf_kernel_hartid t;
   tf_ra t; tf_sp t; tf_gp t; tf_tp t; tf_t0 t; tf_t1 t; tf_t2 t; tf_s0 t; tf_s1 t;
   tf_a0 t; tf_a1 t; tf_a2 t; tf_a3 t; tf_a4 t; tf_a5 t; tf_a6 t; tf_a7 t;
   tf_s2 t; tf_s3 t; tf_s4 t; tf_s5 t; tf_s6 t; tf_s7 t; tf_s8 t; tf_s9 t; tf_s10 t; tf_s11 t;
   tf_t3 t; tf_t4 t; tf_t5 t; tf_t6 t].

(** The context of a running thread, and its trapframe once its registers are in it. *)
Definition context_of (h : core) : context :=
  MkContext (getx RA h) (getx SP h) (getx S0 h) (getx S1 h) (getx S2 h) (getx S3 h) (getx S4 h) (getx S5 h)
    (getx S6 h) (getx S7 h) (getx S8 h) (getx S9 h) (getx S10 h) (getx S11 h).

Definition user_frame (h : core) (t : trapframe) : trapframe :=
  MkTrapframe (tf_kernel_satp t) (tf_kernel_sp t) (tf_kernel_trap t) (tf_epc t) (tf_kernel_hartid t)
    (getx RA h) (getx SP h) (getx GP h) (getx TP h) (getx T0 h) (getx T1 h) (getx T2 h) (getx S0 h) (getx S1 h)
    (getx A0 h) (getx A1 h) (getx A2 h) (getx A3 h) (getx A4 h) (getx A5 h) (getx A6 h) (getx A7 h)
    (getx S2 h) (getx S3 h) (getx S4 h) (getx S5 h) (getx S6 h) (getx S7 h) (getx S8 h) (getx S9 h) (getx S10 h) (getx S11 h)
    (getx T3 h) (getx T4 h) (getx T5 h) (getx T6 h).
