(* ===== verification/AsmSpec.v ===== *)
(** * What the assembly routines save they restore

    A context switch, a trap from user space and the return to it, an interrupt in
    the kernel and a timer interrupt in machine mode, for the code of Asm.v. *)

From S2P Require Import Prelude Memory Kernel Riscv Asm.

(** ** Runs of stores and of loads *)

Definition saves (rb : reg) (L : list (reg * Z)) : list instr := map (λ s, sd s.1 s.2 rb) L.
Definition loads (rb : reg) (L : list (reg * Z)) : list instr := map (λ s, ld s.1 s.2 rb) L.

(** Offsets in increasing order, a word apart. *)
Fixpoint spaced (lo : Z) (L : list (reg * Z)) : bool :=
  match L with
  | [] => true
  | s :: L => (lo <=? s.2) && spaced (s.2 + 8) L
  end.

Lemma spaced_ge lo L s : spaced lo L → s ∈ L → lo <= s.2.
Proof.
  revert lo. induction L as [|t L IH]; intros lo; cbn; [by intros _ ?%elem_of_nil|].
  intros [Ht HL]%andb_True [->|Hs]%elem_of_cons; [apply Is_true_eq_true in Ht; lia|]. apply Is_true_eq_true in Ht. specialize (IH _ HL Hs). lia.
Qed.

(** Memory after the stores of [L] at [b]. *)
Definition stored (f : reg → Z) (b : Z) (L : list (reg * Z)) (m : mem) : mem := foldl (λ m s, sd64 m (b + s.2) (f s.1)) m L.

Lemma stored_ext f g b L m : (∀ s, s ∈ L → f s.1 = g s.1) → stored f b L m = stored g b L m.
Proof.
  revert m. induction L as [|t L IH]; intros m Hx; [done|].
  change (stored f b L (sd64 m (b + t.2) (f t.1)) = stored g b L (sd64 m (b + t.2) (g t.1))).
  rewrite (Hx t) by apply list_elem_of_here. apply IH. intros s Hs. apply Hx. by apply list_elem_of_further.
Qed.

Lemma stored_out f b L m x : (∀ s, s ∈ L → x < b + s.2 ∨ b + s.2 + 8 <= x) → stored f b L m x = m x.
Proof.
  revert m. induction L as [|t L IH]; intros m Hx; [done|]. cbn. change (stored f b L (sd64 m (b + t.2) (f t.1)) x = m x).
  rewrite IH by (intros; apply Hx; set_solver). apply sd64_out. apply Hx. set_solver.
Qed.

Lemma stored_ld_out f b L m a : (∀ s, s ∈ L → a + 8 <= b + s.2 ∨ b + s.2 + 8 <= a) → ld64 (stored f b L m) a = ld64 m a.
Proof. intros Ha. apply ld64_ext. intros x Hx. apply stored_out. intros s Hs. specialize (Ha s Hs). lia. Qed.

Lemma stored_in f b L m lo s : spaced lo L → s ∈ L → ld64 (stored f b L m) (b + s.2) = u64 (f s.1).
Proof.
  revert lo m. induction L as [|t L IH]; intros lo m; cbn [spaced]; [by intros _ ?%elem_of_nil|].
  intros [Ht HL]%andb_True [->|Hs]%elem_of_cons; cbn; fold (stored f b L (sd64 m (b + t.2) (f t.1))); [|by eapply IH].
  rewrite stored_ld_out; [by rewrite ld64_sd64|]. intros s' Hs'. apply (spaced_ge _ _ _ HL) in Hs'. lia.
Qed.

Section runs.
Context `{Mmu}.

(** The words that [L] names, seen through the base register [rb], lie at [b]. *)
Definition window (h : core) (rb : reg) (b : Z) (L : list (reg * Z)) : Prop :=
  ∀ s, s ∈ L → translate h (u64 (getx rb h + s.2)) = b + s.2.

(** Slots below [n], through a base register that shows [n] bytes at [b]. *)
Lemma window_small h rb va b n L :
  getx rb h = va → (∀ o, 0 <= o < n → translate h (u64 (va + o)) = b + o) → forallb (λ s : reg * Z, (0 <=? s.2) && (s.2 <? n)) L → window h rb b L.
Proof.
  intros Hv Hsh HL s Hs. rewrite Hv. apply Hsh. apply Is_true_true in HL. rewrite forallb_forall in HL.
  apply list_elem_of_In in Hs. specialize (HL s Hs). apply andb_true_iff in HL. lia.
Qed.

Lemma run_app l1 l2 h : run (l1 ++ l2) h = run l2 (run l1 h).
Proof. apply foldl_app. Qed.

Lemma run_saves rb b L h : window h rb b L → run (saves rb L) h = h <| pmem ::= stored (λ r, getx r h) b L |>.
Proof.
  revert h. induction L as [|t L IH]; intros h Hw; [by destruct h|].
  change (run (saves rb (t :: L)) h) with (run (saves rb L) (step h (sd t.1 t.2 rb))). cbn [step]. rewrite (Hw t) by set_solver.
  rewrite IH; [done|]. intros s Hs. apply (Hw s). set_solver.
Qed.

Lemma run_loads rb b L h :
  window h rb b L → NoDup L.*1 → ZERO ∉ L.*1 → (∀ o, (rb, o) ∈ L → u64 (ld64 (pmem h) (b + o)) = getx rb h) →
  let h' := run (loads rb L) h in
  (∀ s, s ∈ L → getx s.1 h' = u64 (ld64 (pmem h) (b + s.2))) ∧ (∀ q, q ∉ L.*1 → getx q h' = getx q h)
  ∧ csrs h' = csrs h ∧ priv h' = priv h ∧ pc h' = pc h ∧ pmem h' = pmem h.
Proof.
  revert h. induction L as [|[r o] L IH]; intros h Hw Hnd Hz Hc; cbn zeta.
  - split; [by intros s ?%elem_of_nil|]. done.
  - cbn [loads map]. set (h1 := step h (ld r o rb)).
    assert (E1 : h1 = setx r (ld64 (pmem h) (b + o)) h) by (unfold h1; cbn [step]; do 2 f_equal; apply (Hw (r, o)); set_solver).
    change (run (ld r o rb :: loads rb L) h) with (run (loads rb L) h1).
    cbn [fmap list_fmap fst] in Hnd, Hz. apply list.NoDup_cons in Hnd as [Hr Hnd]. apply not_elem_of_cons in Hz as [Hz0 Hz].
    assert (Erb : getx rb h1 = getx rb h).
    { rewrite E1. destruct (decide (rb = r)) as [->|]; [|by apply getx_ne]. rewrite getx_eq by done. apply Hc. set_solver. }
    destruct (IH h1) as (I1 & I2 & I3 & I4 & I5 & I6).
    + intros s Hs. rewrite Erb. rewrite <-(Hw s) by set_solver. by rewrite E1.
    + done.
    + done.
    + intros o' Ho'. rewrite Erb, <-(Hc o') by set_solver. by rewrite E1.
    + split_and!.
      * intros s [->|Hs]%elem_of_cons; [|rewrite I1 by done; by rewrite E1]. rewrite I2 by done. rewrite E1. by apply getx_eq.
      * intros q [Hq HqL]%not_elem_of_cons. rewrite I2 by done. rewrite E1. by apply getx_ne.
      * etrans; [exact I3|by rewrite E1].
      * etrans; [exact I4|by rewrite E1].
      * etrans; [exact I5|by rewrite E1].
      * etrans; [exact I6|by rewrite E1].
Qed.

(** The usual case: the base register is not among those loaded. *)
Lemma run_loads_other rb va b n L h :
  getx rb h = va → (∀ o, 0 <= o < n → translate h (u64 (va + o)) = b + o) → forallb (λ s : reg * Z, (0 <=? s.2) && (s.2 <? n)) L →
  NoDup L.*1 → ZERO ∉ L.*1 → rb ∉ L.*1 →
  let h' := run (loads rb L) h in
  (∀ s, s ∈ L → getx s.1 h' = u64 (ld64 (pmem h) (b + s.2))) ∧ (∀ q, q ∉ L.*1 → getx q h' = getx q h)
  ∧ csrs h' = csrs h ∧ priv h' = priv h ∧ pc h' = pc h ∧ pmem h' = pmem h.
Proof.
  intros Hv Hsh HL Hnd Hz Hrb. apply run_loads; try done; [by eapply window_small|].
  intros o Ho. exfalso. apply Hrb. by apply (list_elem_of_fmap_2 fst) in Ho.
Qed.

End runs.

(** ** swtch *)

Definition callee_regs : list reg := [RA; SP; S0; S1; S2; S3; S4; S5; S6; S7; S8; S9; S10; S11].
Definition slots_of (o : Z) (rs : list reg) : list (reg * Z) := imap (λ i r, (r, o + 8 * Z.of_nat i)) rs.

Lemma elem_slots_of o rs r v : (r, v) ∈ slots_of o rs ↔ ∃ i, rs !! i = Some r ∧ v = o + 8 * Z.of_nat i.
Proof.
  unfold slots_of. rewrite list_elem_of_lookup. split.
  - intros [i Hi]. rewrite list_lookup_imap in Hi. destruct (rs !! i) as [q|] eqn:E; cbn in Hi; [|done]. injection Hi as -> <-. eauto.
  - intros (i & Hi & ->). exists i. rewrite list_lookup_imap, Hi. done.
Qed.

Lemma slots_of_regs o rs : (slots_of o rs).*1 = rs.
Proof. unfold slots_of. rewrite fmap_imap. apply list_eq. intros i. rewrite list_lookup_imap. by destruct (rs !! i). Qed.

(** The part of the address space at [va] shows the memory at [a]. *)
Definition shows `{Mmu} (h : core) (va a n : Z) : Prop := ∀ o, 0 <= o < n → translate h (u64 (va + o)) = a + o.

Definition words_ok (l : list Z) : Prop := Forall (λ v, 0 <= v < 2 ^ 64) l.

Lemma words_at_u64 m a l i v : words_at m a l → words_ok l → l !! i = Some v → u64 (ld64 m (a + 8 * Z.of_nat i)) = v.
Proof. intros Ha Hl Hi. rewrite (Ha _ _ Hi). apply u64_small. eapply Forall_lookup_1 in Hi; [|exact Hl]. done. Qed.

Lemma words_at_ext m m' a l : words_at m a l → (∀ x, a <= x < a + 8 * Z.of_nat (length l) → m' x = m x) → words_at m' a l.
Proof.
  intros Hw Hx i v Hi. rewrite <-(Hw _ _ Hi). apply ld64_ext. intros x Hr. apply Hx. apply lookup_lt_Some in Hi. lia.
Qed.

Section theorems.
Context `{Mmu}.

Lemma swtch_run h a b :
  shows h (getx A0 h) a 112 → shows h (getx A1 h) b 112 →
  let m' := stored (λ r, getx r h) a (slots_of 0 callee_regs) (pmem h) in
  let h' := run swtch_code h in
  (∀ i r, callee_regs !! i = Some r → getx r h' = u64 (ld64 m' (b + 8 * Z.of_nat i)))
  ∧ (∀ q, q ∉ callee_regs → getx q h' = getx q h) ∧ csrs h' = csrs h ∧ priv h' = priv h ∧ pmem h' = m'.
Proof.
  intros Ha Hb m' h'. unfold h'. change swtch_code with (saves A0 (slots_of 0 callee_regs) ++ loads A1 (slots_of 0 callee_regs)).
  assert (Hsl : ∀ s, s ∈ slots_of 0 callee_regs → 0 <= s.2 < 112).
  { intros [r v] (i & Hi & ->)%elem_slots_of. apply lookup_lt_Some in Hi. change (length callee_regs) with 14%nat in Hi. cbn [snd]. lia. }
  rewrite run_app, (run_saves A0 a) by (intros s Hs; by apply Ha, Hsl).
  destruct (run_loads A1 b (slots_of 0 callee_regs) (h <| pmem ::= stored (λ r, getx r h) a (slots_of 0 callee_regs) |>)) as (R1 & R2 & R3 & R4 & R5 & R6).
  - intros s Hs. by apply (Hb s.2), Hsl.
  - rewrite slots_of_regs. compute_done.
  - rewrite slots_of_regs. compute_done.
  - intros o (i & Hi & _)%elem_slots_of. exfalso. assert (Hn : A1 ∉ callee_regs) by compute_done.
    apply Hn. by eapply list_elem_of_lookup_2.
  - split_and!; [|rewrite slots_of_regs in R2; exact R2|exact R3|exact R4|exact R6].
    intros i r Hi. apply (R1 (r, 0 + 8 * Z.of_nat i)). apply elem_slots_of. eauto.
Qed.

Lemma swtch_eq h : swtch h = ret (run swtch_code h).
Proof. reflexivity. Qed.

(** [swtch(old, new)] leaves the callee-saved registers of the running
    thread in [*old] in the layout of [struct context], continues the thread
    whose registers are in [*new] at its saved return address, and changes no
    other register and no other memory. *)
Theorem swtch_switches h a b c :
  regs_ok h → shows h (getx A0 h) a 112 → shows h (getx A1 h) b 112 → a + 112 <= b ∨ b + 112 <= a →
  words_at (pmem h) b (context_words c) → words_ok (context_words c) →
  let h' := swtch h in
  words_at (pmem h') a (context_words (context_of h)) ∧ context_of h' = c ∧ pc h' = c_ra c
  ∧ (∀ q, q ∉ callee_regs → getx q h' = getx q h) ∧ csrs h' = csrs h ∧ priv h' = priv h
  ∧ ∀ x, x < a ∨ a + 112 <= x → pmem h' x = pmem h x.
Proof.
  intros Hr Ha Hb Hab Hc Hok. cbn zeta. rewrite swtch_eq. generalize (swtch_run h a b Ha Hb). cbn zeta. generalize (run swtch_code h).
  intros h' (R1 & R2 & R3 & R4 & R5). set (m' := stored _ a _ (pmem h)) in *.
  assert (Hout : ∀ x, x < a ∨ a + 112 <= x → m' x = pmem h x).
  { intros x Hx. apply stored_out. intros [r v] (i & Hi & ->)%elem_slots_of. apply lookup_lt_Some in Hi. change (length callee_regs) with 14%nat in Hi. cbn [snd]. lia. }
  assert (Hc' : words_at m' b (context_words c)) by (apply (words_at_ext (pmem h)); [done|]; intros x Hx; apply Hout; change (length (context_words c)) with 14%nat in Hx; lia).
  assert (Hreg : ∀ i r v, callee_regs !! i = Some r → context_words c !! i = Some v → getx r h' = v).
  { intros i r v Hi Hv. rewrite (R1 _ _ Hi). by apply (words_at_u64 _ _ (context_words c)). }
  assert (Hra : getx RA h' = c_ra c) by exact (Hreg 0%nat _ _ eq_refl eq_refl).
  split; [|split; [|split; [exact Hra|split; [exact R2|split; [exact R3|split; [exact R4|]]]]]].
  - cbn. rewrite R5. intros i v Hi.
    assert (Hi' : ∃ r, callee_regs !! i = Some r ∧ v = getx r h) by (do 14 (destruct i as [|i]; [injection Hi as <-; by eexists|]); done).
    destruct Hi' as (r & Hir & ->). rewrite <-(u64_small (getx r h)) by apply Hr.
    apply (stored_in (λ r, getx r h) a (slots_of 0 callee_regs) (pmem h) 0 (r, 0 + 8 * Z.of_nat i)); [by vm_compute|]. apply elem_slots_of. eauto.
  - destruct c. unfold context_of. f_equal; first [exact Hra | exact (Hreg 1%nat _ _ eq_refl eq_refl) | exact (Hreg 2%nat _ _ eq_refl eq_refl)
      | exact (Hreg 3%nat _ _ eq_refl eq_refl) | exact (Hreg 4%nat _ _ eq_refl eq_refl) | exact (Hreg 5%nat _ _ eq_refl eq_refl) | exact (Hreg 6%nat _ _ eq_refl eq_refl)
      | exact (Hreg 7%nat _ _ eq_refl eq_refl) | exact (Hreg 8%nat _ _ eq_refl eq_refl) | exact (Hreg 9%nat _ _ eq_refl eq_refl) | exact (Hreg 10%nat _ _ eq_refl eq_refl)
      | exact (Hreg 11%nat _ _ eq_refl eq_refl) | exact (Hreg 12%nat _ _ eq_refl eq_refl) | exact (Hreg 13%nat _ _ eq_refl eq_refl)].
  - intros x Hx. cbn. rewrite R5. by apply Hout.
Qed.

(** ** uservec and userret *)

(** The registers in the order of [struct trapframe], from offset 40 on. *)
Definition frame_regs : list reg :=
  [RA; SP; GP; TP; T0; T1; T2; S0; S1; A0; A1; A2; A3; A4; A5; A6; A7; S2; S3; S4; S5; S6; S7; S8; S9; S10; S11; T3; T4; T5; T6].
Definition frame_slots : list (reg * Z) := filter (λ s, s.1 ≠ A0) (slots_of 40 frame_regs).

Lemma frame_words h t : trapframe_words (user_frame h t) = take 5 (trapframe_words t) ++ map (λ r, getx r h) frame_regs.
Proof. reflexivity. Qed.

Lemma frame_slot r v : (r, v) ∈ frame_slots ↔ r ≠ A0 ∧ ∃ i, frame_regs !! i = Some r ∧ v = 40 + 8 * Z.of_nat i.
Proof. unfold frame_slots. rewrite list_elem_of_filter, elem_slots_of. done. Qed.

Lemma frame_slot_range s : s ∈ frame_slots → 40 <= s.2 <= 280 ∧ (s.2 + 8 <= 112 ∨ 120 <= s.2).
Proof.
  destruct s as [r v]. rewrite frame_slot. intros (Hr & i & Hi & ->). cbn [snd].
  assert (i ≠ 9%nat) by (intros ->; injection Hi as <-; done). apply lookup_lt_Some in Hi. change (length frame_regs) with 31%nat in Hi. lia.
Qed.

Lemma uservec_head h :
  let h1 := run [csrw sscratch A0; li A0 TRAPFRAME] h in
  getx A0 h1 = TRAPFRAME ∧ (∀ r, r ≠ A0 → getx r h1 = getx r h) ∧ csrs h1 sscratch = u64 (getx A0 h)
  ∧ csrs h1 satp = csrs h satp ∧ priv h1 = priv h ∧ pmem h1 = pmem h.
Proof. cbn zeta. split_and!; try done. intros r Hr. destruct r; done. Qed.

Lemma uservec_mid h va :
  getx A0 h = va → 
  let h1 := run [csrr T0 sscratch; sd T0 112 A0] h in
  getx A0 h1 = va ∧ pmem h1 = sd64 (pmem h) (translate h (u64 (va + 112))) (u64 (csrs h sscratch))
  ∧ csrs h1 satp = csrs h satp ∧ priv h1 = priv h.
Proof. intros <-. done. Qed.

Lemma uservec_tail h :
  let h1 := run [sfence_vma_; csrw satp T1; sfence_vma_] h in
  (∀ r, getx r h1 = getx r h) ∧ csrs h1 satp = u64 (getx T1 h) ∧ priv h1 = priv h ∧ pmem h1 = pmem h.
Proof. done. Qed.

Lemma uservec_split : uservec_code =
  [csrw sscratch A0; li A0 TRAPFRAME] ++ saves A0 frame_slots ++ [csrr T0 sscratch; sd T0 112 A0]
  ++ loads A0 [(SP, 8); (TP, 32); (T0, 16); (T1, 0)] ++ [sfence_vma_; csrw satp T1; sfence_vma_].
Proof. reflexivity. Qed.

Lemma translate_eq h h' va : csrs h' satp = csrs h satp → priv h' = priv h → translate h' va = translate h va.
Proof. intros E1 E2. unfold translate. by rewrite E1, E2. Qed.

Lemma uservec_run h tf :
  shows h TRAPFRAME tf 288 →
  let f := λ r, if decide (r = A0) then TRAPFRAME else getx r h in
  let m' := sd64 (stored f tf frame_slots (pmem h)) (tf + 112) (u64 (u64 (getx A0 h))) in
  let h' := run uservec_code h in
  pmem h' = m' ∧ getx SP h' = u64 (ld64 m' (tf + 8)) ∧ getx TP h' = u64 (ld64 m' (tf + 32)) ∧ getx T0 h' = u64 (ld64 m' (tf + 16))
  ∧ csrs h' satp = u64 (u64 (ld64 m' (tf + 0))) ∧ priv h' = priv h.
Proof.
  intros Hsh f m'. cbn zeta. rewrite uservec_split, !run_app.
  generalize (uservec_head h). cbn zeta. generalize (run [csrw sscratch A0; li A0 TRAPFRAME] h). intros h1 (A1_ & A2_ & A3_ & A4_ & A5_ & A6_).
  assert (Htr : ∀ o, 0 <= o < 288 → translate h1 (u64 (TRAPFRAME + o)) = tf + o).
  { intros o Ho. rewrite (translate_eq h h1) by done. by apply Hsh. }
  rewrite (run_saves A0 tf) by (intros s Hs; rewrite A1_; apply Htr; apply frame_slot_range in Hs; lia).
  set (h2 := h1 <| pmem ::= stored (λ r, getx r h1) tf frame_slots |>).
  generalize (uservec_mid h2 TRAPFRAME A1_). cbn zeta. generalize (run [csrr T0 sscratch; sd T0 112 A0] h2). intros h3 (B1 & B2 & B3 & B4).
  assert (E2 : pmem h3 = m').
  { rewrite B2. change (translate h2 (u64 (TRAPFRAME + 112))) with (translate h1 (u64 (TRAPFRAME + 112))). rewrite Htr by lia.
    change (csrs h2 sscratch) with (csrs h1 sscratch). rewrite A3_.
    change (pmem h2) with (stored (λ r, getx r h1) tf frame_slots (pmem h1)). rewrite A6_, (stored_ext _ f); [reflexivity|].
    intros s _. unfold f. destruct (decide (s.1 = A0)) as [->|]; [exact A1_|by apply A2_]. }
  destruct (run_loads_other A0 TRAPFRAME tf 288 [(SP, 8); (TP, 32); (T0, 16); (T1, 0)] h3) as (R1 & R2 & R3 & R4 & R5 & R6);
    [done|intros o Ho; rewrite (translate_eq h1 h3) by (by rewrite ?B3, ?B4); by apply Htr|done|compute_done..|].
  revert R1 R2 R3 R4 R5 R6. generalize (run (loads A0 [(SP, 8); (TP, 32); (T0, 16); (T1, 0)]) h3). intros h4 R1 R2 R3 R4 R5 R6.
  destruct (uservec_tail h4) as (T1_ & T2_ & T3_ & T4_). rewrite E2 in *.
  split_and!.
  - by rewrite T4_, R6.
  - rewrite T1_. by apply (R1 (SP, 8)), list_elem_of_here.
  - rewrite T1_. apply (R1 (TP, 32)). do 1 apply list_elem_of_further. apply list_elem_of_here.
  - rewrite T1_. apply (R1 (T0, 16)). do 2 apply list_elem_of_further. apply list_elem_of_here.
  - rewrite T2_. f_equal. apply (R1 (T1, 0)). do 3 apply list_elem_of_further. apply list_elem_of_here.
  - rewrite T3_, R4, B4. done.
Qed.

Lemma uservec_eq h : uservec h = jr T0 (run uservec_code h).
Proof. reflexivity. Qed.

(** The memory [uservec] leaves: the trapframe with the user's registers. *)
Lemma uservec_memory h tf t :
  let f := λ r, if decide (r = A0) then TRAPFRAME else getx r h in
  let m' := sd64 (stored f tf frame_slots (pmem h)) (tf + 112) (u64 (u64 (getx A0 h))) in
  regs_ok h → words_at (pmem h) tf (trapframe_words t) →
  words_at m' tf (trapframe_words (user_frame h t)) ∧ ∀ x, x < tf + 40 ∨ tf + 288 <= x → m' x = pmem h x.
Proof.
  intros f m' Hr Ht.
  assert (Hout : ∀ x, x < tf + 40 ∨ tf + 288 <= x → m' x = pmem h x).
  { intros x Hx. unfold m'. rewrite sd64_out by lia. apply stored_out. intros s Hs. apply frame_slot_range in Hs. lia. }
  split; [|done]. intros i v Hi. rewrite frame_words in Hi. apply lookup_app_Some in Hi as [Hi|[Hge Hi]].
  - pose proof (lookup_lt_Some _ _ _ Hi) as Hlt. change (length (take 5 (trapframe_words t))) with 5%nat in Hlt.
    rewrite lookup_take_lt in Hi by lia. rewrite <-(Ht _ _ Hi). apply ld64_ext. intros x Hx. apply Hout. lia.
  - change (length (take 5 (trapframe_words t))) with 5%nat in *. rewrite list_lookup_fmap in Hi. fold frame_regs in Hi.
    destruct (frame_regs !! (i - 5)%nat) as [r|] eqn:Er; cbn in Hi; [|done]. injection Hi as <-.
    replace (tf + 8 * Z.of_nat i) with (tf + (40 + 8 * Z.of_nat (i - 5))) by lia. set (j := (i - 5)%nat) in *.
    destruct (decide (r = A0)) as [->|Hne].
    + assert (j = 9%nat) as ->. { apply (list.NoDup_lookup frame_regs j 9 A0); [compute_done|done|done]. }
      change (tf + (40 + 8 * Z.of_nat 9)) with (tf + 112). unfold m'. rewrite ld64_sd64.
      rewrite !u64_small; [done|apply Hr|rewrite u64_small; apply Hr|rewrite !u64_small; try apply Hr; rewrite u64_small; apply Hr].
    + assert (Hs : (r, 40 + 8 * Z.of_nat j) ∈ frame_slots) by (apply frame_slot; eauto).
      unfold m'. rewrite ld64_sd64_disj by (apply frame_slot_range in Hs; cbn [snd] in Hs; lia).
      etrans; [apply (stored_in f tf frame_slots (pmem h) 40 (r, 40 + 8 * Z.of_nat j)); [by vm_compute|done]|]. unfold f. cbn [fst].
      rewrite decide_False by done. apply u64_small, Hr.
Qed.

(** a trap from user space: [uservec] puts the 31 user registers into the
    trapframe, in the layout of [struct trapframe], leaves its other fields as
    they are, and enters [usertrap] on the kernel stack of the process with the
    kernel page table and the hart's number in [tp]. *)
Theorem uservec_saves h tf t :
  regs_ok h → priv h = PRIV_S → shows h TRAPFRAME tf 288 → words_at (pmem h) tf (trapframe_words t) → words_ok (trapframe_words t) →
  let h' := uservec h in
  words_at (pmem h') tf (trapframe_words (user_frame h t))
  ∧ pc h' = tf_kernel_trap t ∧ getx SP h' = tf_kernel_sp t ∧ getx TP h' = tf_kernel_hartid t ∧ csrs h' satp = tf_kernel_satp t ∧ priv h' = PRIV_S
  ∧ ∀ x, x < tf + 40 ∨ tf + 288 <= x → pmem h' x = pmem h x.
Proof.
  intros Hr Hp Hsh Ht Hok. cbn zeta. rewrite uservec_eq. destruct (uservec_memory h tf t Hr Ht) as [M1 M2].
  generalize (uservec_run h tf Hsh). cbn zeta. generalize (run uservec_code h). intros h' (R1 & R2 & R3 & R4 & R5 & R6).
  set (m' := sd64 _ (tf + 112) _) in *.
  assert (Hk : ∀ i v, (i < 5)%nat → trapframe_words t !! i = Some v → u64 (ld64 m' (tf + 8 * Z.of_nat i)) = v).
  { intros i v Hi Hv. rewrite (M1 i v); [apply u64_small; by apply (Forall_lookup_1 _ _ _ _ Hok Hv)|].
    rewrite frame_words. rewrite lookup_app_l by (change (length (take 5 (trapframe_words t))) with 5%nat; lia). by rewrite lookup_take_lt. }
  assert (K0 : u64 (ld64 m' (tf + 0)) = tf_kernel_satp t) by exact (Hk 0%nat _ ltac:(lia) eq_refl).
  assert (K1 : u64 (ld64 m' (tf + 8)) = tf_kernel_sp t) by exact (Hk 1%nat _ ltac:(lia) eq_refl).
  assert (K2 : u64 (ld64 m' (tf + 16)) = tf_kernel_trap t) by exact (Hk 2%nat _ ltac:(lia) eq_refl).
  assert (K4 : u64 (ld64 m' (tf + 32)) = tf_kernel_hartid t) by exact (Hk 4%nat _ ltac:(lia) eq_refl).
  rewrite K0, u64_small in R5 by (by apply (Forall_lookup_1 _ _ 0%nat _ Hok)).
  rewrite K1 in R2. rewrite K4 in R3. rewrite K2 in R4. cbn. rewrite R1.
  split; [done|]. split; [exact R4|]. split; [exact R2|]. split; [exact R3|]. split; [done|]. split; [by rewrite R6|done].
Qed.

(** ** userret *)

Lemma userret_split : userret_code =
  [sfence_vma_; csrw satp A0; sfence_vma_; li A0 TRAPFRAME] ++ loads A0 frame_slots ++ [ld A0 112 A0].
Proof. reflexivity. Qed.

Lemma userret_head h :
  let h1 := run [sfence_vma_; csrw satp A0; sfence_vma_; li A0 TRAPFRAME] h in
  getx A0 h1 = TRAPFRAME ∧ (∀ c, c ≠ satp → csrs h1 c = csrs h c) ∧ csrs h1 satp = u64 (getx A0 h) ∧ priv h1 = priv h ∧ pmem h1 = pmem h.
Proof. cbn zeta. split_and!; try done. intros c Hc. destruct c; done. Qed.

Lemma userret_last h va :
  getx A0 h = va →
  let h1 := run [ld A0 112 A0] h in
  getx A0 h1 = u64 (ld64 (pmem h) (translate h (u64 (va + 112)))) ∧ (∀ r, r ≠ A0 → getx r h1 = getx r h)
  ∧ csrs h1 = csrs h ∧ priv h1 = priv h ∧ pmem h1 = pmem h.
Proof. intros <-. cbn zeta. split_and!; try done. intros r Hr. destruct r; done. Qed.

Lemma userret_eq h : userret h = sret_ (run userret_code h).
Proof. reflexivity. Qed.

Lemma userret_run h tf :
  (∀ o, 0 <= o < 288 → translate (setc satp (getx A0 h) h) (u64 (TRAPFRAME + o)) = tf + o) →
  let h' := run userret_code h in
  (∀ i r, frame_regs !! i = Some r → getx r h' = u64 (ld64 (pmem h) (tf + (40 + 8 * Z.of_nat i))))
  ∧ (∀ c, c ≠ satp → csrs h' c = csrs h c) ∧ csrs h' satp = u64 (getx A0 h) ∧ priv h' = priv h ∧ pmem h' = pmem h.
Proof.
  intros Hsh. cbn zeta. rewrite userret_split, !run_app.
  generalize (userret_head h). cbn zeta. generalize (run [sfence_vma_; csrw satp A0; sfence_vma_; li A0 TRAPFRAME] h). intros h1 (E1 & E2 & E3 & E4 & E5).
  assert (Htr : ∀ o, 0 <= o < 288 → translate h1 (u64 (TRAPFRAME + o)) = tf + o).
  { intros o Ho. rewrite <-(Hsh o Ho). by apply translate_eq. }
  destruct (run_loads A0 tf frame_slots h1) as (R1 & R2 & R3 & R4 & R5 & R6).
  { intros s Hs. rewrite E1. apply Htr. apply frame_slot_range in Hs. lia. }
  { compute_done. } { compute_done. } { intros o Ho. by apply frame_slot in Ho as [? _]. }
  revert R1 R2 R3 R4 R5 R6. generalize (run (loads A0 frame_slots) h1). intros h2 R1 R2 R3 R4 R5 R6.
  assert (EA : getx A0 h2 = TRAPFRAME) by (rewrite R2; [done|compute_done]).
  destruct (userret_last h2 TRAPFRAME EA) as (L1 & L2 & L3 & L4 & L5). revert L1 L2 L3 L4 L5. cbn zeta. generalize (run [ld A0 112 A0] h2).
  intros h3 L1 L2 L3 L4 L5. rewrite (translate_eq h1 h2), Htr, R6, E5 in L1 by (rewrite ?R3, ?R4; done || lia).
  split_and!.
  - intros i r Hi. destruct (decide (r = A0)) as [->|Hne].
    + assert (i = 9%nat) as ->. { apply (list.NoDup_lookup frame_regs i 9 A0); [compute_done|done|done]. } exact L1.
    + rewrite L2 by done. rewrite <-E5. apply (R1 (r, 40 + 8 * Z.of_nat i)). apply frame_slot. eauto.
  - intros c Hc. rewrite L3, R3. by apply E2.
  - by rewrite L3, R3.
  - by rewrite L4, R4.
  - by rewrite L5, R6.
Qed.

Lemma pmem_jr r h : pmem (jr r h) = pmem h.
Proof. reflexivity. Qed.

Lemma frame_regs_all r : r ≠ ZERO → ∃ i, frame_regs !! i = Some r.
Proof. intros Hr. apply list_elem_of_lookup. destruct r; first [done|compute_done]. Qed.

(** C23: a trap is transparent to the user program: whatever the kernel does
    between [uservec] and [userret], as long as it leaves the saved registers in
    the trapframe alone and passes the user page table, the program continues
    with the same registers and the same page table, at the address in [sepc]
    and in the mode that SPP says. *)
Theorem user_trap_transparent h hk tf t :
  regs_ok h → priv h = PRIV_S → 0 <= csrs h satp < 2 ^ 64 → shows h TRAPFRAME tf 288 → words_at (pmem h) tf (trapframe_words t) →
  priv hk = PRIV_S → getx A0 hk = csrs h satp → (∀ x, tf + 40 <= x < tf + 288 → pmem hk x = pmem (uservec h) x) →
  let h' := userret hk in
  (∀ r, getx r h' = getx r h) ∧ csrs h' satp = csrs h satp ∧ pc h' = csrs hk sepc ∧ priv h' = field (csrs hk mstatus) 8 1.
Proof.
  intros Hr Hp Hs Hsh Ht Hpk HA Hm. cbn zeta. rewrite uservec_eq, pmem_jr in Hm.
  destruct (uservec_memory h tf t Hr Ht) as [M1 _].
  destruct (uservec_run h tf Hsh) as (E & _). rewrite E in Hm. clear E. set (m' := sd64 _ (tf + 112) _) in *.
  assert (Hsh' : ∀ o, 0 <= o < 288 → translate (setc satp (getx A0 hk) hk) (u64 (TRAPFRAME + o)) = tf + o).
  { intros o Ho. rewrite <-(Hsh o Ho). apply translate_eq; [|cbn; by rewrite Hp]. rewrite csrs_setc, decide_True, HA by done. by apply u64_small. }
  rewrite userret_eq. generalize (userret_run hk tf Hsh'). cbn zeta. generalize (run userret_code hk). intros h' (R1 & R2 & R3 & R4 & R5).
  split_and!.
  - intros r. destruct (decide (r = ZERO)) as [->|Hz]; [done|]. change (getx r (sret_ h')) with (getx r h').
    destruct (frame_regs_all r Hz) as [i Hi]. rewrite (R1 _ _ Hi).
    pose proof (lookup_lt_Some _ _ _ Hi) as Hlt. change (length frame_regs) with 31%nat in Hlt.
    rewrite (ld64_ext _ m') by (intros x Hx; apply Hm; lia).
    replace (tf + (40 + 8 * Z.of_nat i)) with (tf + 8 * Z.of_nat (5 + i)) by lia. rewrite (M1 (5 + i)%nat (getx r h)); [apply u64_small, Hr|].
    rewrite frame_words, lookup_app_r by (change (length (take 5 (trapframe_words t))) with 5%nat; lia).
    change (length (take 5 (trapframe_words t))) with 5%nat. replace (5 + i - 5)%nat with i by lia. by rewrite list_lookup_fmap, Hi.
  - cbn. rewrite R3, HA. by apply u64_small.
  - cbn. by rewrite R2.
  - cbn. by rewrite R2.
Qed.

(** ** kernelvec *)

Definition kernel_slots : list (reg * Z) := slots_of 0 frame_regs.
Definition kernel_loads : list (reg * Z) := filter (λ s, s.1 ≠ TP) kernel_slots.

Lemma kernelvec_split :
  kernelvec_save = [addi SP SP (-256)] ++ saves SP kernel_slots ∧ kernelvec_restore = loads SP kernel_loads ++ [addi SP SP 256].
Proof. split; reflexivity. Qed.

Lemma addi_sp h n :
  let h1 := run [addi SP SP n] h in
  getx SP h1 = u64 (getx SP h + n) ∧ (∀ r, r ≠ SP → getx r h1 = getx r h) ∧ csrs h1 = csrs h ∧ priv h1 = priv h ∧ pmem h1 = pmem h.
Proof. cbn zeta. split_and!; try done. intros r Hr. destruct r; done. Qed.

Lemma u64_idem a : u64 (u64 a) = u64 a.
Proof. unfold u64. by apply Z.mod_mod. Qed.

Lemma u64_sub_add a n : 0 <= a < 2 ^ 64 → u64 (u64 (a - n) + n) = a.
Proof. intros Ha. unfold u64. rewrite Zplus_mod_idemp_l. replace (a - n + n) with a by lia. by apply Z.mod_small. Qed.

Lemma kernelvec_saves h b :
  (∀ o, 0 <= o < 256 → translate h (u64 (u64 (getx SP h - 256) + o)) = b + o) →
  let h1 := run kernelvec_save h in
  getx SP h1 = u64 (getx SP h - 256) ∧ (∀ r, r ≠ SP → getx r h1 = getx r h) ∧ csrs h1 = csrs h ∧ priv h1 = priv h
  ∧ ∀ s, s ∈ kernel_slots → ld64 (pmem h1) (b + s.2) = u64 (getx s.1 h1).
Proof.
  intros Hsh. cbn zeta. rewrite (proj1 kernelvec_split), run_app.
  generalize (addi_sp h (-256)). cbn zeta. generalize (run [addi SP SP (-256)] h). intros h0 (E1 & E2 & E3 & E4 & E5).
  change (getx SP h + -256) with (getx SP h - 256) in E1. rewrite (run_saves SP b).
  - split_and!; try done. intros s Hs. apply (stored_in (λ r, getx r h0) b kernel_slots (pmem h0) 0); [by vm_compute|done].
  - intros [r v] Hs. rewrite E1, (translate_eq h h0) by (by rewrite ?E3, ?E4). apply Hsh. apply elem_slots_of in Hs as (i & Hi & ->).
    apply lookup_lt_Some in Hi. change (length frame_regs) with 31%nat in Hi. cbn [snd]. lia.
Qed.

Lemma kernelvec_eq kt back h : kernelvec kt back h = sret_ (run kernelvec_restore (kt (setx RA back (run kernelvec_save h)))).
Proof. reflexivity. Qed.

(** C25: an interrupt in the kernel is transparent to the interrupted code:
    [kernelvec] gives every register back except [tp], provided [kerneltrap]
    respects the calling convention: it returns with the same stack pointer and
    page table, and leaves the 256 bytes above the stack pointer alone. *)
Theorem kernelvec_transparent kerneltrap back h b :
  regs_ok h → (∀ o, 0 <= o < 256 → translate h (u64 (u64 (getx SP h - 256) + o)) = b + o) →
  let h1 := setx RA back (run kernelvec_save h) in
  let h2 := kerneltrap h1 in
  getx SP h2 = getx SP h1 → csrs h2 satp = csrs h1 satp → priv h2 = priv h1 → (∀ x, b <= x < b + 256 → pmem h2 x = pmem h1 x) →
  let h' := kernelvec kerneltrap back h in
  (∀ r, r ≠ TP → getx r h' = getx r h) ∧ getx TP h' = getx TP h2 ∧ pmem h' = pmem h2 ∧ pc h' = csrs h2 sepc.
Proof.
  intros Hr Hsh. cbn zeta. rewrite kernelvec_eq. generalize (kernelvec_saves h b Hsh). cbn zeta. generalize (run kernelvec_save h).
  intros h0 (S1_ & S2_ & S3_ & S4_ & S5_). generalize (kerneltrap (setx RA back h0)). intros h2 Hsp Hsa Hpr Hpm.
  rewrite (getx_ne RA SP) in Hsp by done. rewrite S1_ in Hsp. change (csrs (setx RA back h0) satp) with (csrs h0 satp) in Hsa.
  change (priv (setx RA back h0)) with (priv h0) in Hpr. change (pmem (setx RA back h0)) with (pmem h0) in Hpm.
  assert (Hk : ∀ s, s ∈ kernel_slots → 0 <= s.2 ∧ s.2 + 8 <= 256).
  { intros [r v] (i & Hi & ->)%elem_slots_of. apply lookup_lt_Some in Hi. change (length frame_regs) with 31%nat in Hi. cbn [snd]. lia. }
  assert (Hl : ∀ s, s ∈ kernel_loads → s.1 ≠ TP ∧ s ∈ kernel_slots) by (intros s; unfold kernel_loads; by rewrite list_elem_of_filter).
  assert (Hld : ∀ s, s ∈ kernel_slots → u64 (ld64 (pmem h2) (b + s.2)) = if decide (s.1 = SP) then u64 (getx SP h - 256) else getx s.1 h).
  { intros s Hs. rewrite (ld64_ext _ (pmem h0)) by (intros x Hx; apply Hpm; specialize (Hk s Hs); lia). rewrite S5_ by done.
    destruct (decide (s.1 = SP)) as [->|Hne]; [by rewrite S1_, !u64_idem|].
    rewrite S2_ by done. rewrite u64_idem. apply u64_small, Hr. }
  rewrite (proj2 kernelvec_split), run_app.
  destruct (run_loads SP b kernel_loads h2) as (R1 & R2 & R3 & R4 & R5 & R6).
  { intros s Hs. rewrite Hsp, (translate_eq h h2) by (by rewrite ?Hsa, ?Hpr, ?S3_, ?S4_). apply Hsh. destruct (Hk s); [by apply Hl|lia]. }
  { compute_done. } { compute_done. }
  { intros o Ho. pose proof (Hld (SP, o) (proj2 (Hl _ Ho))) as E. cbn [fst snd] in E. rewrite decide_True in E by done. by rewrite E. }
  revert R1 R2 R3 R4 R5 R6. generalize (run (loads SP kernel_loads) h2). intros h3 R1 R2 R3 R4 R5 R6.
  generalize (addi_sp h3 256). cbn zeta. generalize (run [addi SP SP 256] h3). intros h4 (F1 & F2 & F3 & F4 & F5).
  assert (Hin : ∀ r, r ≠ ZERO → r ≠ TP → ∃ o, (r, o) ∈ kernel_loads).
  { intros r Hz Ht. destruct (frame_regs_all r Hz) as [i Hi]. exists (0 + 8 * Z.of_nat i). unfold kernel_loads. rewrite list_elem_of_filter. split; [done|]. apply elem_slots_of. eauto. }
  split_and!.
  - intros r Ht. change (getx r (sret_ h4)) with (getx r h4). destruct (decide (r = ZERO)) as [->|Hz]; [done|].
    destruct (Hin r Hz Ht) as [o Ho]. pose proof (R1 (r, o) Ho) as E. cbn [fst snd] in E. pose proof (Hld (r, o) (proj2 (Hl _ Ho))) as E'. cbn [fst snd] in E'. rewrite E' in E.
    destruct (decide (r = SP)) as [->|Hne]; [rewrite F1, E; apply u64_sub_add, Hr|by rewrite F2].
  - change (getx TP (sret_ h4)) with (getx TP h4). rewrite F2 by done. apply R2. compute_done.
  - cbn. by rewrite F5, R6.
  - cbn. by rewrite F3, R3.
Qed.

(** ** timervec *)

(** What start.c prepares for the timer interrupts of a hart: [mscratch] holds
    the address of its scratch area, with the address of the comparison register
    of the CLINT and the interval. *)
Record timer_ready (scr cmp interval : Z) (h : core) : Prop := {
  tr_scratch : csrs h mscratch = scr;
  tr_cmp : ld64 (pmem h) (scr + 24) = cmp;
  tr_interval : ld64 (pmem h) (scr + 32) = interval;
  tr_range : 0 <= scr < 2 ^ 64 - 40 ∧ 0 <= cmp < 2 ^ 64 - 8 ∧ 0 <= interval < 2 ^ 64;
  tr_apart : cmp + 8 <= scr ∨ scr + 40 <= cmp
}.

Lemma timervec_split : timervec_code =
  [csrrw A0 mscratch A0] ++ saves A0 [(A1, 0); (A2, 8); (A3, 16)] ++ loads A0 [(A1, 24); (A2, 32)]
  ++ [ld A3 0 A1; add A3 A3 A2; sd A3 0 A1] ++ [li A1 2; csrw sip A1] ++ loads A0 [(A3, 16); (A2, 8); (A1, 0)] ++ [csrrw A0 mscratch A0].
Proof. reflexivity. Qed.

Lemma swap_scratch h :
  let h1 := run [csrrw A0 mscratch A0] h in
  getx A0 h1 = u64 (csrs h mscratch) ∧ (∀ r, r ≠ A0 → getx r h1 = getx r h) ∧ csrs h1 mscratch = u64 (getx A0 h)
  ∧ (∀ c, c ≠ mscratch → csrs h1 c = csrs h c) ∧ priv h1 = priv h ∧ pmem h1 = pmem h.
Proof. cbn zeta. split_and!; try done; [intros r Hr; destruct r; done|intros c Hc; destruct c; done]. Qed.

Lemma translate_M h va : priv h = PRIV_M → translate h va = va.
Proof. intros E. unfold translate. by rewrite E. Qed.

Lemma bump_timer h cmp iv :
  getx A1 h = cmp → getx A2 h = iv → priv h = PRIV_M → 0 <= cmp < 2 ^ 64 →
  let h1 := run [ld A3 0 A1; add A3 A3 A2; sd A3 0 A1] h in
  pmem h1 = sd64 (pmem h) cmp (u64 (u64 (ld64 (pmem h) cmp) + iv)) ∧ (∀ r, r ≠ A3 → getx r h1 = getx r h) ∧ csrs h1 = csrs h ∧ priv h1 = priv h.
Proof.
  intros H1 H2 Hp Hc. cbn zeta. set (i1 := ld A3 0 A1). change (run [i1; add A3 A3 A2; sd A3 0 A1] h) with (run [add A3 A3 A2; sd A3 0 A1] (step h i1)).
  assert (E1 : step h i1 = setx A3 (ld64 (pmem h) cmp) h).
  { unfold i1. cbn [step]. by rewrite translate_M, H1, Z.add_0_r, u64_small. }
  rewrite E1. change (run [add A3 A3 A2; sd A3 0 A1] (setx A3 (ld64 (pmem h) cmp) h)) with
    (step (setx A3 (u64 (ld64 (pmem h) cmp) + getx A2 h) (setx A3 (ld64 (pmem h) cmp) h)) (sd A3 0 A1)).
  rewrite H2. set (h1 := setx A3 (u64 _ + iv) _).
  assert (E2 : step h1 (sd A3 0 A1) = h1 <| pmem ::= λ m, sd64 m cmp (u64 (u64 (ld64 (pmem h) cmp) + iv)) |>).
  { cbn [step]. rewrite translate_M by exact Hp. assert (EA : getx A1 h1 = cmp) by exact H1. assert (EB : getx A3 h1 = u64 (u64 (ld64 (pmem h) cmp) + iv)) by reflexivity.
    by rewrite EA, EB, Z.add_0_r, u64_small. }
  rewrite E2. split_and!; try done. intros r Hr. destruct r; done.
Qed.

Lemma raise_ssip h :
  let h1 := run [li A1 2; csrw sip A1] h in
  (∀ r, r ≠ A1 → getx r h1 = getx r h) ∧ csrs h1 mip = u64 (insert_bits (csrs h mideleg) (csrs h mip) 2)
  ∧ (∀ c, c ≠ mip → csrs h1 c = csrs h c) ∧ priv h1 = priv h ∧ pmem h1 = pmem h.
Proof. cbn zeta. split_and!; try done; [intros r Hr; destruct r; done|intros c Hc; destruct c; done]. Qed.

Lemma timervec_eq h : timervec h = mret_ (run timervec_code h).
Proof. reflexivity. Qed.

Lemma insert_bits_testbit mask old new i : 0 <= i → Z.testbit (insert_bits mask old new) i = if Z.testbit mask i then Z.testbit new i else Z.testbit old i.
Proof.
  intros Hi. unfold insert_bits. rewrite Z.lor_spec, !Z.land_spec, Z.lnot_spec by done. destruct (Z.testbit mask i), (Z.testbit old i), (Z.testbit new i); done.
Qed.

(** The memory [timervec] leaves. *)
Lemma timer_memory f m scr cmp v :
  cmp + 8 <= scr ∨ scr + 40 <= cmp →
  let m2 := sd64 (stored f scr [(A1, 0); (A2, 8); (A3, 16)] m) cmp v in
  (∀ r o, (r, o) ∈ [(A1, 0); (A2, 8); (A3, 16)] → ld64 m2 (scr + o) = u64 (f r)) ∧ ld64 m2 cmp = u64 v
  ∧ ld64 (stored f scr [(A1, 0); (A2, 8); (A3, 16)] m) cmp = ld64 m cmp
  ∧ (∀ x, x < scr ∨ scr + 24 <= x → x < cmp ∨ cmp + 8 <= x → m2 x = m x).
Proof.
  intros Hap m2. assert (Hin : ∀ s, s ∈ [(A1, 0); (A2, 8); (A3, 16)] → 0 <= s.2 <= 16).
  { intros s Hs. repeat (apply elem_of_cons in Hs as [->|Hs]; [cbn; lia|]). by apply elem_of_nil in Hs. }
  split_and!.
  - intros r o Hs. unfold m2. specialize (Hin _ Hs). cbn [snd] in Hin. rewrite ld64_sd64_disj by lia. by apply (stored_in f scr _ m 0 (r, o)).
  - apply ld64_sd64.
  - apply stored_ld_out. intros s Hs. specialize (Hin s Hs). lia.
  - intros x H1 H2. unfold m2. rewrite sd64_out by done. apply stored_out. intros s Hs. specialize (Hin s Hs). lia.
Qed.

Lemma timervec_run h scr cmp iv :
  regs_ok h → priv h = PRIV_M → timer_ready scr cmp iv h →
  let h' := run timervec_code h in
  (∀ r, getx r h' = getx r h) ∧ csrs h' mscratch = scr ∧ csrs h' mip = u64 (insert_bits (csrs h mideleg) (csrs h mip) 2)
  ∧ (∀ c, c ≠ mscratch → c ≠ mip → csrs h' c = csrs h c)
  ∧ ∃ f, pmem h' = sd64 (stored f scr [(A1, 0); (A2, 8); (A3, 16)] (pmem h)) cmp (u64 (u64 (ld64 (pmem h) cmp) + iv)).
Proof.
  intros Hr Hp [T1_ T2_ T3_ (T4_ & T5_ & T6_) T7_]. cbn zeta. rewrite timervec_split, !run_app.
  generalize (swap_scratch h). cbn zeta. generalize (run [csrrw A0 mscratch A0] h). intros h1 (B1 & B2 & B3 & B4 & B5 & B6).
  rewrite T1_, u64_small in B1 by lia. rewrite u64_small in B3 by apply Hr.
  assert (Htr : ∀ h2 o, priv h2 = PRIV_M → 0 <= o < 40 → translate h2 (u64 (scr + o)) = scr + o).
  { intros h2 o E Ho. rewrite translate_M by done. apply u64_small. lia. }
  rewrite (run_saves A0 scr) by (apply (window_small h1 A0 scr scr 40); [done|intros o Ho; apply Htr; [by rewrite B5|done]|done]).
  set (f := λ r, getx r h1). set (m1 := stored f scr [(A1, 0); (A2, 8); (A3, 16)] (pmem h)).
  set (h2 := h1 <| pmem ::= _ |>). assert (E2 : pmem h2 = m1) by (unfold m1; by rewrite <-B6).
  destruct (timer_memory f (pmem h) scr cmp (u64 (u64 (ld64 (pmem h) cmp) + iv)) T7_) as (M1 & _ & M2 & M3). fold m1 in M1, M2, M3.
  assert (M4 : ∀ o, 24 <= o <= 32 → ld64 m1 (scr + o) = ld64 (pmem h) (scr + o)).
  { intros o Ho. apply stored_ld_out. intros s Hs. assert (0 <= s.2 <= 16) by (clear - Hs; repeat (apply elem_of_cons in Hs as [->|Hs]; [cbn; lia|]); by apply elem_of_nil in Hs). lia. }
  destruct (run_loads_other A0 scr scr 40 [(A1, 24); (A2, 32)] h2) as (R1 & R2 & R3 & R4 & R5 & R6);
    [done|intros o Ho; apply Htr; [change (priv h2) with (priv h1); by rewrite B5|done]|done|compute_done..|].
  revert R1 R2 R3 R4 R5 R6. generalize (run (loads A0 [(A1, 24); (A2, 32)]) h2). intros h3 R1 R2 R3 R4 R5 R6. rewrite E2 in R1, R6.
  assert (P3 : priv h3 = PRIV_M) by (rewrite R4; change (priv h2) with (priv h1); by rewrite B5).
  pose proof (R1 (A1, 24) (list_elem_of_here _ _)) as X1. pose proof (R1 (A2, 32) (list_elem_of_further _ _ _ (list_elem_of_here _ _))) as X2.
  cbn [fst snd] in X1, X2. rewrite M4, T2_, u64_small in X1 by lia. rewrite M4, T3_, u64_small in X2 by lia.
  generalize (bump_timer h3 cmp iv X1 X2 P3 ltac:(lia)). cbn zeta. generalize (run [ld A3 0 A1; add A3 A3 A2; sd A3 0 A1] h3). intros h4 (C1 & C2 & C3 & C4).
  generalize (raise_ssip h4). cbn zeta. generalize (run [li A1 2; csrw sip A1] h4). intros h5 (D1 & D2 & D3 & D4 & D5).
  rewrite C1, R6, M2 in D5.
  assert (A05 : getx A0 h5 = scr) by (rewrite D1, C2 by discriminate; rewrite R2 by compute_done; exact B1).
  destruct (run_loads_other A0 scr scr 40 [(A3, 16); (A2, 8); (A1, 0)] h5) as (Q1 & Q2 & Q3 & Q4 & Q5 & Q6);
    [done|intros o Ho; apply Htr; [by rewrite D4, C4|done]|done|compute_done..|].
  revert Q1 Q2 Q3 Q4 Q5 Q6. generalize (run (loads A0 [(A3, 16); (A2, 8); (A1, 0)]) h5). intros h6 Q1 Q2 Q3 Q4 Q5 Q6. rewrite D5 in Q1, Q6.
  generalize (swap_scratch h6). cbn zeta. generalize (run [csrrw A0 mscratch A0] h6). intros h7 (W1 & W2 & W3 & W4 & W5 & W6).
  assert (Hc : ∀ c, c ≠ mip → csrs h6 c = csrs h1 c) by (intros c Hc; rewrite Q3, D3, C3, R3 by done; done).
  split_and!.
  - intros r. destruct (decide (r = A0)) as [->|H0]; [rewrite W1, Hc, B3 by done; apply u64_small, Hr|]. rewrite W2 by done.
    destruct (decide (r ∈ [A1; A2; A3])) as [Hin|Hout].
    + assert (Hs : ∃ o, (r, o) ∈ [(A1, 0); (A2, 8); (A3, 16)] ∧ (r, o) ∈ [(A3, 16); (A2, 8); (A1, 0)]).
      { clear - Hin. apply elem_of_cons in Hin as [->|Hin]; [exists 0; split; compute_done|]. apply elem_of_cons in Hin as [->|Hin]; [exists 8; split; compute_done|].
        apply list_elem_of_singleton in Hin as ->. exists 16; split; compute_done. }
      destruct Hs as (o & Ho1 & Ho2). pose proof (Q1 _ Ho2) as E. cbn [fst snd] in E. rewrite E, (M1 _ _ Ho1), u64_idem. unfold f. rewrite B2 by done. apply u64_small, Hr.
    + apply not_elem_of_cons in Hout as [? [? [? _]%not_elem_of_cons]%not_elem_of_cons].
      rewrite Q2 by (cbn; rewrite !not_elem_of_cons; split_and!; assumption || apply not_elem_of_nil). rewrite D1, C2 by assumption.
      rewrite R2 by (cbn; rewrite !not_elem_of_cons; split_and!; assumption || apply not_elem_of_nil). by apply B2.
  - rewrite W3, Q2, A05 by compute_done. apply u64_small. lia.
  - rewrite W4, Q3, D2, C3, R3 by done. change (csrs h2) with (csrs h1). by rewrite !B4.
  - intros c Hc1 Hc2. by rewrite W4, Hc, B4.
  - exists f. by rewrite W6, Q6.
Qed.

(** a machine-mode timer interrupt is invisible to the code it interrupts:
    [timervec] gives every register back and leaves the scratch area ready for the
    next one; it advances the comparison register of the CLINT by one interval and,
    software interrupts being delegated, makes a supervisor software interrupt
    pending.  No other memory changes. *)
Theorem timervec_transparent h scr cmp iv :
  regs_ok h → priv h = PRIV_M → timer_ready scr cmp iv h → Z.testbit (csrs h mideleg) 1 = true →
  let h' := timervec h in
  (∀ r, getx r h' = getx r h) ∧ timer_ready scr cmp iv h' ∧ Z.testbit (csrs h' mip) 1 = true
  ∧ ld64 (pmem h') cmp = u64 (u64 (ld64 (pmem h) cmp) + iv) ∧ pc h' = csrs h mepc ∧ priv h' = field (csrs h mstatus) 11 2
  ∧ ∀ x, x < scr ∨ scr + 24 <= x → x < cmp ∨ cmp + 8 <= x → pmem h' x = pmem h x.
Proof.
  intros Hr Hp Ht Hd. cbn zeta. rewrite timervec_eq. generalize (timervec_run h scr cmp iv Hr Hp Ht). cbn zeta. generalize (run timervec_code h).
  intros h' (R1 & R2 & R3 & R4 & f & R5). pose proof Ht as [_ T2_ T3_ (T4_ & T5_ & T6_) T7_].
  destruct (timer_memory f (pmem h) scr cmp (u64 (u64 (ld64 (pmem h) cmp) + iv)) T7_) as (_ & M1 & _ & M2). rewrite <-R5 in M1, M2.
  split_and!.
  - exact R1.
  - split; [exact R2| | |done|done]; cbn [mret_ pmem set_field set_pc set_priv setc set_csrs].
    + rewrite (ld64_ext _ (pmem h)); [done|]. intros x Hx. apply M2; lia.
    + rewrite (ld64_ext _ (pmem h)); [done|]. intros x Hx. apply M2; lia.
  - change (csrs (mret_ h') mip) with (csrs h' mip). rewrite R3. unfold u64. rewrite Z.mod_pow2_bits_low by lia. by rewrite insert_bits_testbit, Hd.
  - cbn. by rewrite M1, u64_idem.
  - cbn. by rewrite R4.
  - cbn. by rewrite R4.
  - exact M2.
Qed.

(** ** entry *)

Lemma entry_sp stack0 start h :
  0 <= csrs h mhartid < 2 ^ 32 → 0 <= stack0 < 2 ^ 62 →
  getx SP (entry stack0 start h) = stack0 + 4096 * (csrs h mhartid + 1) ∧ pc (entry stack0 start h) = start.
Proof.
  intros Hh Hs. split; [|done].
  change (getx SP (entry stack0 start h)) with (u64 (u64 stack0 + u64 (u64 4096 * u64 (u64 (csrs h mhartid) + 1)))).
  rewrite (u64_small (csrs h mhartid)), (u64_small stack0), (u64_small 4096), (u64_small (csrs h mhartid + 1)) by lia.
  rewrite (u64_small (4096 * (csrs h mhartid + 1))) by lia. rewrite u64_small; lia.
Qed.

(** the boot stacks: hart [i] of the [NCPU] harts enters [start] with its
    stack pointer at the top of the [i]-th page of [stack0], so that the stacks
    lie inside the array and no two harts share one. *)
Theorem boot_stacks stack0 start h1 h2 :
  0 <= stack0 < 2 ^ 62 → 0 <= csrs h1 mhartid < NCPU → 0 <= csrs h2 mhartid < NCPU → csrs h1 mhartid ≠ csrs h2 mhartid →
  let sp1 := getx SP (entry stack0 start h1) in
  let sp2 := getx SP (entry stack0 start h2) in
  (stack0 + 4096 <= sp1 <= stack0 + 4096 * NCPU) ∧ (sp1 <= sp2 - 4096 ∨ sp2 <= sp1 - 4096) ∧ pc (entry stack0 start h1) = start.
Proof.
  intros Hs H1 H2 Hne. unfold NCPU in *. cbn zeta.
  destruct (entry_sp stack0 start h1) as [-> ->]; [lia|done|]. destruct (entry_sp stack0 start h2) as [-> _]; [lia|done|]. lia.
Qed.

End theorems.

(** ** Examples *)

(** A hart without paging, all registers 0 but the pointers. *)
Definition ex_mmu : Mmu := λ _ va, va.
Definition ex_core (p : Z) (rs : list (reg * Z)) (cs : list (csr * Z)) (m : mem) : core :=
  MkCore (λ r, default 0 (snd <$> find (λ s, bool_decide (s.1 = r)) rs)) (λ c, default 0 (snd <$> find (λ s, bool_decide (s.1 = c)) cs)) p 0 m.

Definition ex_swtch : core := ex_core PRIV_S [(A0, 4096); (A1, 8192); (RA, 77); (S3, 5)] [] (sd64 (λ _, 0) 8192 99).

Lemma swtch_switches_witness :
  words_at (pmem (@swtch ex_mmu ex_swtch)) 4096 (context_words (MkContext 77 0 0 0 0 5 0 0 0 0 0 0 0 0)) ∧ pc (@swtch ex_mmu ex_swtch) = 99.
Proof.
  destruct (@swtch_switches ex_mmu ex_swtch 4096 8192 (MkContext 99 0 0 0 0 0 0 0 0 0 0 0 0 0)) as (W1 & _ & W3 & _).
  - intros r. destruct r; by vm_compute.
  - intros o Ho. apply u64_small. cbn. lia.
  - intros o Ho. apply u64_small. cbn. lia.
  - lia.
  - intros i v Hi. do 14 (destruct i as [|i]; [injection Hi as <-; by vm_compute|]). done.
  - repeat constructor; done.
  - exact (conj W1 W3).
Defined.

Definition ex_user : core := ex_core PRIV_S [(RA, 3); (A0, 4); (A7, 7)] [(satp, 1)] (sd64 (sd64 (λ _, 0) (TRAPFRAME + 8) 1000) (TRAPFRAME + 16) 2000).
Definition ex_frame : trapframe :=
  MkTrapframe 0 1000 2000 0 0 0 0 0 0 0 0 0 0 0 0 0 0 0 0 0 0 0 0 0 0 0 0 0 0 0 0 0 0 0 0 0.

Lemma ex_user_frame : words_at (pmem ex_user) TRAPFRAME (trapframe_words ex_frame).
Proof. intros i v Hi. do 36 (destruct i as [|i]; [injection Hi as <-; by vm_compute|]). done. Qed.

Lemma ex_user_shows : @shows ex_mmu ex_user TRAPFRAME TRAPFRAME 288.
Proof. intros o Ho. apply u64_small. change TRAPFRAME with 274877898752. lia. Qed.

Lemma uservec_saves_witness :
  ld64 (pmem (@uservec ex_mmu ex_user)) (TRAPFRAME + 112) = 4 ∧ pc (@uservec ex_mmu ex_user) = 2000 ∧ getx SP (@uservec ex_mmu ex_user) = 1000.
Proof.
  destruct (@uservec_saves ex_mmu ex_user TRAPFRAME ex_frame) as (W1 & W2 & W3 & _).
  - intros r. destruct r; by vm_compute.
  - reflexivity.
  - exact ex_user_shows.
  - exact ex_user_frame.
  - repeat constructor; done.
  - split; [exact (W1 14%nat 4 eq_refl)|]. exact (conj W2 W3).
Defined.

(** The kernel sets [a0] and [sepc] and changes nothing else. *)
Definition ex_kernel : core := setc sepc 400 (setx A0 1 (@uservec ex_mmu ex_user)) <| priv := PRIV_S |>.

Lemma ex_kernel_pmem h : pmem (setc sepc 400 (setx A0 1 h) <| priv := PRIV_S |>) = pmem h.
Proof. reflexivity. Qed.

Lemma user_trap_transparent_witness :
  (∀ r, getx r (@userret ex_mmu ex_kernel) = getx r ex_user) ∧ pc (@userret ex_mmu ex_kernel) = 400.
Proof.
  destruct (@user_trap_transparent ex_mmu ex_user ex_kernel TRAPFRAME ex_frame) as (W1 & _ & W3 & _).
  - intros r. destruct r; by vm_compute.
  - reflexivity.
  - by vm_compute.
  - exact ex_user_shows.
  - exact ex_user_frame.
  - reflexivity.
  - reflexivity.
  - intros x _. unfold ex_kernel. by rewrite ex_kernel_pmem.
  - exact (conj W1 W3).
Defined.

Definition ex_intr : core := ex_core PRIV_S [(SP, 8192); (A5, 6); (TP, 1)] [] (λ _, 0).

Lemma ex_handler h : getx SP (setx A5 0 h) = getx SP h ∧ csrs (setx A5 0 h) = csrs h ∧ priv (setx A5 0 h) = priv h ∧ pmem (setx A5 0 h) = pmem h.
Proof. done. Qed.

Lemma kernelvec_transparent_witness :
  getx A5 (@kernelvec ex_mmu (λ h, setx A5 0 h) 50 ex_intr) = getx A5 ex_intr ∧ getx RA (@kernelvec ex_mmu (λ h, setx A5 0 h) 50 ex_intr) = getx RA ex_intr.
Proof.
  destruct (@kernelvec_transparent ex_mmu (λ h, setx A5 0 h) 50 ex_intr 7936) as (W & _).
  - intros r. destruct r; by vm_compute.
  - intros o Ho. change (u64 (getx SP ex_intr - 256)) with 7936. apply u64_small. lia.
  - apply ex_handler.
  - by rewrite (proj1 (proj2 (ex_handler _))).
  - apply ex_handler.
  - intros x _. by rewrite (proj2 (proj2 (proj2 (ex_handler _)))).
  - split; apply W; discriminate.
Defined.

Definition ex_timer : core :=
  ex_core PRIV_M [(A0, 11); (A1, 12); (A2, 13)] [(mscratch, 4096); (mideleg, 65535); (mepc, 44)] (sd64 (sd64 (sd64 (λ _, 0) 4120 8192) 4128 100) 8192 1000).

Lemma timervec_transparent_witness :
  (∀ r, getx r (@timervec ex_mmu ex_timer) = getx r ex_timer) ∧ ld64 (pmem (@timervec ex_mmu ex_timer)) 8192 = 1100.
Proof.
  destruct (@timervec_transparent ex_mmu ex_timer 4096 8192 100) as (W1 & _ & _ & W4 & _).
  - intros r. destruct r; by vm_compute.
  - reflexivity.
  - split; [done|by vm_compute|by vm_compute|lia|lia].
  - reflexivity.
  - split; [exact W1|]. rewrite W4. by vm_compute.
Defined.

Lemma boot_stacks_witness :
  getx SP (@entry ex_mmu 65536 8 (ex_core PRIV_M [] [(mhartid, 0)] (λ _, 0))) <= getx SP (@entry ex_mmu 65536 8 (ex_core PRIV_M [] [(mhartid, 1)] (λ _, 0))) - 4096.
Proof.
  destruct (@boot_stacks ex_mmu 65536 8 (ex_core PRIV_M [] [(mhartid, 0)] (λ _, 0)) (ex_core PRIV_M [] [(mhartid, 1)] (λ _, 0))) as (_ & [W|W] & _).
  - lia.
  - by vm_compute.
  - by vm_compute.
  - by vm_compute.
  - exact W.
  - exfalso. vm_compute in W. by apply W.
Defined.
