(* ===== verification/Boot.v ===== *)
(** * kernel/start.c and kernel/main.c

    The way of a hart from reset to the scheduler: [start] in machine mode on the
    core of Riscv.v, and [main] in supervisor mode as a kernel thread that calls the
    init functions of the components.  The theorems show that [start] enters [main]
    in supervisor mode with traps delegated and the timer armed, and that what
    [usertrapret] of trap.c prepares makes [userret] of trampoline.S continue the
    user program. *)

From S2P Require Import Prelude Memory Kernel Kalloc Vm Sched Bio VirtioDisk Log Uart Printf Console Fs File Proc Trap.
From S2P Require Import Riscv Asm AsmSpec.

(** memlayout.h *)
Definition CLINT : Z := 0x2000000.
Definition CLINT_MTIMECMP (hartid : Z) : Z := CLINT + 0x4000 + 8 * hartid.
Definition CLINT_MTIME : Z := CLINT + 0xBFF8.

(** ** start.c *)

(** The addresses of the functions and of the array that start.c names. *)
Class BootSymbols := {
  sym_main : Z;
  sym_timervec : Z;
  sym_timer_scratch : Z
}.

Section start.
Context `{Mmu, BootSymbols}.

(** [*(uint64* )a] *)
Definition load64 (a : Z) (h : core) : Z := ld64 (pmem h) (translate h a).
Definition store64 (a v : Z) (h : core) : core := h <| pmem ::= λ m, sd64 m (translate h a) v |>.

Definition timer_interval : Z := 1000000.
(** [&timer_scratch[id][0]] *)
Definition scratch_of (id : Z) : Z := sym_timer_scratch + 40 * id.

Definition timerinit (h : core) : core :=
  let id := i32 (r_mhartid h) in
  let interval := timer_interval in
  let h := store64 (CLINT_MTIMECMP id) (u64 (load64 CLINT_MTIME h + interval)) h in
  let scratch := scratch_of id in
  let h := store64 (scratch + 8 * 3) (CLINT_MTIMECMP id) h in
  let h := store64 (scratch + 8 * 4) interval h in
  let h := w_mscratch scratch h in
  let h := w_mtvec sym_timervec h in
  let h := w_mstatus (Z.lor (r_mstatus h) MSTATUS_MIE) h in
  w_mie (Z.lor (r_mie h) MIE_MTIE) h.

Definition start (h : core) : core :=
  let x := r_mstatus h in
  let x := Z.land x (Z.lnot MSTATUS_MPP_MASK) in
  let x := Z.lor x MSTATUS_MPP_S in
  let h := w_mstatus x h in
  let h := w_mepc sym_main h in
  let h := w_satp 0 h in
  let h := w_medeleg 0xffff h in
  let h := w_mideleg 0xffff h in
  let h := w_sie (Z.lor (Z.lor (Z.lor (r_sie h) SIE_SEIE) SIE_STIE) SIE_SSIE) h in
  let h := w_pmpaddr0 0x3fffffffffffff h in
  let h := w_pmpcfg0 0xf h in
  let h := timerinit h in
  let id := i32 (r_mhartid h) in
  let h := w_tp id h in
  mret_ h.

End start.

(** ** main.c *)

Section main.
Context `{Image, Symbols, DiskDriver}.
Variable mmio_read : list (Z * Z) → Z → Z.

(** vm.c: the kernel page table goes into [satp]. *)
Definition kvminithart : K (list hwrite) :=
  pt ← gets k_pagetable;
  mret [WSatp (MAKE_SATP pt)].

(** Up to the call of [scheduler]: the writes to the registers of the hart and of
    the PLIC, and the value [started] is left with.  A hart other than 0 spins
    while the [started] it reads is 0. *)
Definition main (cpuid started : Z) : K (list hwrite * Z) :=
  if cpuid =? 0 then
    consoleinit;;
    printfinit;;
    printf [10] [];;
    printf (str "xv6 kernel is booting" ++ [10]) [];;
    printf [10] [];;
    kinit;;
    kvminit;;
    satp ← kvminithart;
    procinit;;
    trapinit;;
    binit;;
    iinit;;
    fileinit;;
    virtio_disk_init mmio_read;;
    userinit;;
    mret (satp ++ trapinithart ++ plicinit ++ plicinithart cpuid, 1)
  else if started =? 0 then diverge
  else
    printf (str "hart %d starting" ++ [10]) [AInt cpuid];;
    satp ← kvminithart;
    mret (satp ++ trapinithart ++ plicinithart cpuid, started).

End main.

(** ** start enters main *)

(** Register writes that trap.c, plic.c and vm.c ask for, on a core. *)
Definition do_hwrite (h : core) (w : hwrite) : core :=
  match w with
  | WMmio a v => h <| pmem ::= λ m, sd32 m a v |>
  | WStvec v => w_stvec v h
  | WSstatus v => w_sstatus v h
  | WSepc v => w_sepc v h
  | WSip v => w_sip v h
  | WSatp v => sfence_vma (w_satp v (sfence_vma h))
  end.
Definition do_hwrites (ws : list hwrite) (h : core) : core := foldl do_hwrite h ws.

Section enter.
Context `{Mmu, BootSymbols}.


Lemma field1 v pos : 0 <= pos → field v pos 1 = Z.b2z (Z.testbit v pos).
Proof. intros Hp. unfold field. change (Z.ones 1) with (Z.ones 1). rewrite Z.land_ones by lia. rewrite Z.testbit_spec' by done. by rewrite Z.shiftr_div_pow2. Qed.

Lemma field2 v pos : 0 <= pos → field v pos 2 = Z.b2z (Z.testbit v pos) + 2 * Z.b2z (Z.testbit v (pos + 1)).
Proof.
  intros Hp. unfold field. rewrite Z.land_ones by lia. rewrite !Z.testbit_spec', Z.shiftr_div_pow2 by lia.
  rewrite Z.pow_add_r by lia. rewrite <-Z.div_div by lia. set (a := v / 2 ^ pos). change (2 ^ 1) with 2. change (2 ^ 2) with (2 * 2).
  rewrite Z.rem_mul_r by lia. done.
Qed.

Lemma start_csrs h :
  priv h = PRIV_M →
  let h' := start h in
  let m := Z.lor (u64 (Z.lor (Z.land (csrs h mstatus) (Z.lnot MSTATUS_MPP_MASK)) MSTATUS_MPP_S)) MSTATUS_MIE in
  csrs h' satp = 0 ∧ csrs h' medeleg = 65535 ∧ csrs h' mideleg = 65535 ∧ csrs h' mtvec = u64 sym_timervec
  ∧ csrs h' mscratch = u64 (scratch_of (i32 (csrs h mhartid)))
  ∧ csrs h' mie = u64 (Z.lor (u64 (insert_bits 65535 (csrs h mie) (Z.lor (Z.lor (Z.lor (Z.land (csrs h mie) 65535) SIE_SEIE) SIE_STIE) SIE_SSIE))) MIE_MTIE)
  ∧ priv h' = field (u64 m) 11 2 ∧ pc h' = u64 sym_main ∧ getx TP h' = u64 (i32 (csrs h mhartid)).
Proof.
  destruct h as [rg cs p q mm]. cbn [priv]. intros ->. cbn zeta. split_and!; reflexivity.
Qed.

Lemma start_pmem h :
  priv h = PRIV_M →
  let id := i32 (csrs h mhartid) in
  pmem (start h) =
    sd64 (sd64 (sd64 (pmem h) (CLINT_MTIMECMP id) (u64 (ld64 (pmem h) CLINT_MTIME + timer_interval)))
      (scratch_of id + 8 * 3) (CLINT_MTIMECMP id)) (scratch_of id + 8 * 4) timer_interval.
Proof. destruct h as [rg cs p q mm]. cbn [priv]. intros ->. reflexivity. Qed.

Lemma u64_testbit v i : 0 <= i < 64 → Z.testbit (u64 v) i = Z.testbit v i.
Proof. intros Hi. unfold u64. apply Z.mod_pow2_bits_low. lia. Qed.

(** [start] on hart [id] jumps to [main] in supervisor mode, without paging,
    with every interrupt and exception delegated and enabled, the hart's number in
    [tp], and the timer armed: the trap vector of machine mode is [timervec] and the
    scratch area of this hart is what [timervec] needs. *)
Theorem start_enters_main h :
  priv h = PRIV_M → 0 <= csrs h mhartid < NCPU →
  0 <= sym_main < 2 ^ 64 → 0 <= sym_timervec < 2 ^ 64 → KERNBASE <= sym_timer_scratch < PHYSTOP →
  let h' := start h in
  let id := csrs h mhartid in
  priv h' = PRIV_S ∧ pc h' = sym_main ∧ csrs h' satp = 0 ∧ getx TP h' = id
  ∧ csrs h' medeleg = 0xffff ∧ csrs h' mideleg = 0xffff
  ∧ Z.testbit (csrs h' mie) 1 = true ∧ Z.testbit (csrs h' mie) 5 = true ∧ Z.testbit (csrs h' mie) 9 = true ∧ Z.testbit (csrs h' mie) 7 = true
  ∧ csrs h' mtvec = sym_timervec ∧ timer_ready (scratch_of id) (CLINT_MTIMECMP id) timer_interval h'.
Proof.
  intros Hp Hid Hm Ht Hs. cbn zeta.
  assert (Ei : i32 (csrs h mhartid) = csrs h mhartid) by (apply i32_small; unfold NCPU in Hid; lia).
  generalize (start_pmem h Hp) (start_csrs h Hp). cbn zeta. generalize (start h). rewrite Ei. set (id := csrs h mhartid) in *.
  intros h' Em (E1 & E2 & E3 & E4 & E5 & E6 & E7 & E8 & E9). unfold NCPU in Hid.
  assert (Hsc : 0 <= scratch_of id < 2 ^ 63) by (unfold scratch_of; change KERNBASE with 2147483648 in *; change PHYSTOP with 2281701376 in *; lia).
  assert (Hcl : 0 <= CLINT_MTIMECMP id ∧ CLINT_MTIMECMP id + 8 <= scratch_of id).
  { unfold scratch_of, CLINT_MTIMECMP, CLINT. change KERNBASE with 2147483648 in *. lia. }
  assert (Hb : ∀ i, 0 <= i < 64 → Z.testbit (csrs h' mie) i = Z.testbit (Z.lor (insert_bits 65535 (csrs h mie) (Z.lor (Z.lor (Z.lor (Z.land (csrs h mie) 65535) SIE_SEIE) SIE_STIE) SIE_SSIE)) MIE_MTIE) i).
  { intros i Hi. rewrite E6, u64_testbit, !Z.lor_spec, u64_testbit by done. done. }
  split_and!.
  - rewrite E7, field2 by lia. change (11 + 1) with 12. rewrite !u64_testbit, !Z.lor_spec, !u64_testbit, !Z.lor_spec, !Z.land_spec, !Z.lnot_spec by lia.
    change (Z.testbit MSTATUS_MPP_MASK 11) with true. change (Z.testbit MSTATUS_MPP_MASK 12) with true. cbn [negb]. rewrite !andb_false_r. done.
  - rewrite E8. by apply u64_small.
  - done.
  - rewrite E9. apply u64_small. lia.
  - done.
  - done.
  - rewrite Hb by lia. rewrite Z.lor_spec, insert_bits_testbit, !Z.lor_spec by lia. change (Z.testbit 65535 1) with true. cbn. by rewrite !orb_true_r.
  - rewrite Hb by lia. rewrite Z.lor_spec, insert_bits_testbit, !Z.lor_spec by lia. change (Z.testbit 65535 5) with true. cbn. by rewrite !orb_true_r.
  - rewrite Hb by lia. rewrite Z.lor_spec, insert_bits_testbit, !Z.lor_spec by lia. change (Z.testbit 65535 9) with true. cbn. by rewrite !orb_true_r.
  - rewrite Hb by lia. rewrite Z.lor_spec. change (Z.testbit MIE_MTIE 7) with true. by rewrite orb_true_r.
  - rewrite E4. by apply u64_small.
  - split; [rewrite E5; apply u64_small; lia| | |unfold timer_interval; lia|lia]; rewrite Em.
    + change (scratch_of id + 24) with (scratch_of id + 8 * 3). rewrite ld64_sd64_disj, ld64_sd64 by lia. apply u64_small. lia.
    + change (scratch_of id + 32) with (scratch_of id + 8 * 4). rewrite ld64_sd64. done.
Qed.

End enter.

(** ** usertrapret and userret *)

Section to_user.
Context `{Image, Symbols, Mmu}.

(** The trapframe as [usertrapret] leaves it. *)
Definition returning (c : Trap.csrs) (x : proc) (t : trapframe) : trapframe :=
  t <| tf_kernel_satp := Trap.r_satp c |> <| tf_kernel_sp := p_kstack x + PGSIZE |>
    <| tf_kernel_trap := sym_usertrap |> <| tf_kernel_hartid := Trap.r_tp c |>.

Lemma upd_tf_eq p f w :
  ∃ w', upd_tf p f w = Ok () w' ∧ get_proc p (ks w') = get_proc p (ks w)
    ∧ k_tf (ks w') !!! p_trapframe (get_proc p (ks w)) = f (k_tf (ks w) !!! p_trapframe (get_proc p (ks w))).
Proof. eexists. split; [reflexivity|]. split; [reflexivity|]. apply lookup_total_insert_eq. Qed.

Lemma usertrapret_eq c w p :
  me w = Some p →
  let x := get_proc p (ks w) in
  let t := returning c x (k_tf (ks w) !!! p_trapframe x) in
  ∃ w', usertrapret c w = Ok ([WStvec (TRAMPOLINE + sym_uservec);
                         WSstatus (Z.lor (Z.land (Trap.r_sstatus c) (Z.lnot SSTATUS_SPP)) SSTATUS_SPIE);
                         WSepc (tf_epc t)], MAKE_SATP (p_pagetable x)) w'
    ∧ k_tf (ks w') !!! p_trapframe x = t.
Proof.
  intros Hme. cbn zeta. destruct (upd_tf_eq p (returning c (get_proc p (ks w))) w) as (w' & E & E1 & E2).
  exists w'. split; [|exact E2]. rewrite <-E2, <-E1. rewrite <-E1 in E. unfold usertrapret. 
  erewrite bind_ok by (unfold curproc, mbind, K_bind, myproc; rewrite Hme; reflexivity). erewrite bind_ok by reflexivity.
  rewrite <-E1. unfold returning in E. erewrite bind_ok by exact E. reflexivity.
Qed.

(** The core after the register writes of [usertrapret]. *)
Lemma before_userret h v s e :
  let h1 := do_hwrites [WStvec v; WSstatus s; WSepc e] h in
  (∀ r, getx r h1 = getx r h) ∧ csrs h1 stvec = u64 v ∧ csrs h1 sepc = u64 e ∧ csrs h1 mstatus = u64 (insert_bits SSTATUS_BITS (csrs h mstatus) s)
  ∧ priv h1 = priv h ∧ pmem h1 = pmem h ∧ csrs h1 satp = csrs h satp.
Proof. done. Qed.

Lemma set_bits_testbit v pos n i : 0 <= pos → 0 <= i → 0 <= n <= 1 →
  Z.testbit (set_bits v pos 1 n) i = if i =? pos then n =? 1 else Z.testbit v i.
Proof.
  intros Hp Hi Hn. unfold set_bits. rewrite insert_bits_testbit by done. rewrite !Z.shiftl_spec by done. change (Z.ones 1) with 1.
  destruct (Z.eqb_spec i pos) as [->|Hne].
  - rewrite Z.sub_diag. cbn. assert (n = 0 ∨ n = 1) as [->| ->] by lia; done.
  - assert (E : Z.testbit 1 (i - pos) = false) by (destruct (Z.ltb_spec i pos); [apply Z.testbit_neg_r; lia|apply Z.bits_above_log2; cbn; lia]). by rewrite E.
Qed.

(** The mode and the interrupt enable that [sret] takes from [sstatus]. *)
Lemma sret_user h :
  Z.testbit (csrs h mstatus) 8 = false → Z.testbit (csrs h mstatus) 5 = true →
  priv (sret_ h) = PRIV_U ∧ Z.testbit (csrs (sret_ h) mstatus) 1 = true.
Proof.
  intros H8 H5. split.
  - cbn. rewrite field1 by lia. by rewrite H8.
  - change (csrs (sret_ h) mstatus) with (u64 (set_bits (set_bits (set_bits (csrs h mstatus) 1 1 (field (csrs h mstatus) 5 1)) 5 1 1) 8 1 PRIV_U)).
    rewrite u64_testbit by lia. rewrite !set_bits_testbit by (try lia; try done; rewrite ?field1 by lia; destruct (Z.testbit _ 5); cbn; lia).
    cbn. rewrite field1 by lia. by rewrite H5.
Qed.

Lemma user_frame_words h tf t :
  words_at (pmem h) tf (trapframe_words t) → words_ok (trapframe_words t) → ∀ h',
  (∀ i r, frame_regs !! i = Some r → getx r h' = u64 (ld64 (pmem h) (tf + (40 + 8 * Z.of_nat i)))) → user_frame h' t = t.
Proof.
  intros Ht Hok h' Hr.
  assert (Hg : ∀ i r v, frame_regs !! i = Some r → trapframe_words t !! (5 + i)%nat = Some v → getx r h' = v).
  { intros i r v Hi Hv. rewrite (Hr _ _ Hi). replace (tf + (40 + 8 * Z.of_nat i)) with (tf + 8 * Z.of_nat (5 + i)) by lia. by apply (words_at_u64 _ _ _ _ _ Ht Hok). }
  clear Hr Ht Hok. destruct t. unfold user_frame.
  f_equal; try reflexivity; match goal with |- getx ?r _ = ?v => let i := eval vm_compute in (List.find (λ i, bool_decide (frame_regs !! i = Some r)) (seq 0 31)) in
    match i with Some ?i => exact (Hg i r v eq_refl eq_refl) end end.
Qed.

(** [userret] after the register writes for the trapframe [t]. *)
Lemma userret_resumes h tf t v s us :
  words_at (pmem h) tf (trapframe_words t) → words_ok (trapframe_words t) → 0 <= v < 2 ^ 64 → 0 <= us < 2 ^ 64 → getx A0 h = us →
  Z.testbit s 8 = false → Z.testbit s 5 = true →
  (∀ o, 0 <= o < 288 → translate (setc satp us h) (u64 (TRAPFRAME + o)) = tf + o) →
  let h' := userret (do_hwrites [WStvec v; WSstatus s; WSepc (tf_epc t)] h) in
  user_frame h' t = t ∧ priv h' = PRIV_U ∧ pc h' = tf_epc t ∧ Z.testbit (csrs h' mstatus) 1 = true ∧ csrs h' stvec = v ∧ csrs h' satp = us.
Proof.
  intros Ht Hok Hv Hus HA H8 H5 Hsh. cbn zeta. rewrite userret_eq.
  generalize (before_userret h v s (tf_epc t)). cbn zeta. generalize (do_hwrites [WStvec v; WSstatus s; WSepc (tf_epc t)] h).
  intros h1 (B1 & B2 & B3 & B4 & B5 & B6 & B7).
  assert (Hsh1 : ∀ o, 0 <= o < 288 → translate (setc satp (getx A0 h1) h1) (u64 (TRAPFRAME + o)) = tf + o).
  { intros o Ho. rewrite <-(Hsh o Ho), B1, HA. apply translate_eq; [by rewrite !csrs_setc, !decide_True|exact B5]. }
  generalize (userret_run h1 tf Hsh1). cbn zeta. generalize (run userret_code h1). intros h2 (R1 & R2 & R3 & R4 & R5).
  rewrite B6 in R1. rewrite B1, HA in R3.
  assert (He : 0 <= tf_epc t < 2 ^ 64) by exact (proj1 (Forall_lookup _ _) Hok 3%nat _ eq_refl).
  destruct (sret_user h2) as [S1 S2].
  { rewrite R2, B4, u64_testbit, insert_bits_testbit by done || lia. exact H8. }
  { rewrite R2, B4, u64_testbit, insert_bits_testbit by done || lia. exact H5. }
  split_and!; [|done| |done| |].
  - apply (user_frame_words h tf t Ht Hok (sret_ h2)). exact R1.
  - cbn. rewrite R2, B3 by done. by apply u64_small.
  - change (csrs (sret_ h2) stvec) with (csrs h2 stvec). rewrite R2, B2 by done. by apply u64_small.
  - change (csrs (sret_ h2) satp) with (csrs h2 satp). rewrite R3. by apply u64_small.
Qed.

(** C24: the way back to user space: [usertrapret] never fails, and whatever
    core executes the register writes it asks for and then [userret] with the page
    table it passes continues the process in user mode, at the saved program
    counter, with the saved registers, with interrupts enabled and the next trap
    going to [uservec]. *)
Theorem return_to_user c w p :
  me w = Some p →
  ∃ ws us w', usertrapret c w = Ok (ws, us) w' ∧
  let t := k_tf (ks w') !!! p_trapframe (get_proc p (ks w)) in
  ∀ h tf, regs_ok h → words_ok (trapframe_words t) → 0 <= TRAMPOLINE + sym_uservec < 2 ^ 64 → getx A0 h = us → words_at (pmem h) tf (trapframe_words t) →
    (∀ o, 0 <= o < 288 → translate (setc satp us h) (u64 (TRAPFRAME + o)) = tf + o) →
    let h' := userret (do_hwrites ws h) in
    user_frame h' t = t ∧ priv h' = PRIV_U ∧ pc h' = tf_epc t ∧ Z.testbit (csrs h' mstatus) 1 = true
    ∧ csrs h' stvec = TRAMPOLINE + sym_uservec ∧ csrs h' satp = us.
Proof.
  intros Hme. destruct (usertrapret_eq c w p Hme) as (w' & E & Et). cbn zeta in E, Et. eexists _, _, w'. split; [exact E|]. rewrite Et. clear E Et.
  generalize (p_pagetable (get_proc p (ks w))), (returning c (get_proc p (ks w)) (k_tf (ks w) !!! p_trapframe (get_proc p (ks w)))).
  intros pt t. cbn zeta. intros h tf Hr Hok Hv HA Ht Hsh.
  apply userret_resumes with (tf := tf) (s := Z.lor (Z.land (Trap.r_sstatus c) (Z.lnot SSTATUS_SPP)) SSTATUS_SPIE); try done.
  - rewrite <-HA. apply Hr.
  - rewrite Z.lor_spec, Z.land_spec, Z.lnot_spec by lia. rewrite andb_false_r. reflexivity.
  - rewrite Z.lor_spec. apply orb_true_r.
Qed.
End to_user.

(** ** Examples *)

Definition ex_syms : BootSymbols := {| sym_main := 0x80001000; sym_timervec := 0x80002000; sym_timer_scratch := 0x80009000 |}.
Definition ex_reset : core := ex_core PRIV_M [] [(mhartid, 2)] (λ _, 0).

Lemma start_enters_main_witness :
  priv (@start ex_mmu ex_syms ex_reset) = PRIV_S ∧ pc (@start ex_mmu ex_syms ex_reset) = 0x80001000 ∧ getx TP (@start ex_mmu ex_syms ex_reset) = 2.
Proof.
  destruct (@start_enters_main ex_mmu ex_syms ex_reset) as (W1 & W2 & _ & W3 & _); [reflexivity|by vm_compute..|].
  exact (conj W1 (conj W2 W3)).
Defined.

(** A process with the program counter 400 in its trapframe and the rest 0. *)
Definition ex_ksyms : Symbols :=
  {| sym_forkret := 0; sym_usertrap := 2000; sym_kernelvec := 3000; sym_uservec := 0; sym_userret := 160 |}.
Definition ex_csrs : Trap.csrs :=
  {| Trap.r_sstatus := SSTATUS_SPP; Trap.r_scause := 0; Trap.r_sepc := 0; Trap.r_stval := 0; Trap.r_satp := 0; Trap.r_tp := 0; Trap.r_sip := 0; Trap.r_claim := 0 |}.
Definition ex_returning : trapframe :=
  MkTrapframe 0 4096 2000 400 0 7 0 0 0 0 0 0 0 0 0 0 0 0 0 0 0 0 0 0 0 0 0 0 0 0 0 0 0 0 0 0.
Definition ex_proc : world := boot_world <| me := Some 0%nat |>
  <| ks ::= λ k, k <| k_procs ::= <[0%nat := inhabitant <| p_kstack := 0 |> <| p_trapframe := 8192 |> <| p_pagetable := 0x87fff000 |>]> |>
                   <| k_tf := {[8192 := ex_returning <| tf_kernel_sp := 0 |> <| tf_kernel_trap := 0 |>]} |> |>.
Definition ex_us : Z := MAKE_SATP 0x87fff000.
Definition ex_back : core :=
  ex_core PRIV_S [(A0, ex_us)] [] (sd64 (sd64 (sd64 (sd64 (λ _, 0) (TRAPFRAME + 8) 4096) (TRAPFRAME + 16) 2000) (TRAPFRAME + 24) 400) (TRAPFRAME + 40) 7).

Definition ex_ret : option (Z * trapframe) :=
  match @usertrapret ex_ksyms ex_csrs ex_proc with
  | Ok (_, us) w' => Some (us, k_tf (ks w') !!! p_trapframe (get_proc 0 (ks ex_proc)))
  | _ => None
  end.

Lemma ex_ret_eq : ex_ret = Some (ex_us, ex_returning).
Proof. vm_compute. reflexivity. Qed.

Lemma return_to_user_witness :
  match @usertrapret ex_ksyms ex_csrs ex_proc with
  | Ok (ws, _) _ => let h := @userret ex_mmu (do_hwrites ws ex_back) in getx RA h = 7 ∧ pc h = 400 ∧ priv h = PRIV_U
  | _ => False
  end.
Proof.
  destruct (@return_to_user ex_ksyms ex_mmu ex_csrs ex_proc 0 eq_refl) as (ws & us & w' & E & W).
  pose proof ex_ret_eq as Er. unfold ex_ret in Er. rewrite E in Er |- *. apply Some_inj, pair_equal_spec in Er as [-> Et]. cbn zeta in W. rewrite Et in W.
  destruct (W ex_back TRAPFRAME) as (W1 & W2 & W3 & _).
  - intros r. destruct r; by vm_compute.
  - repeat constructor; done.
  - by vm_compute.
  - reflexivity.
  - intros i v Hi. do 36 (destruct i as [|i]; [injection Hi as <-; by vm_compute|]). done.
  - intros o Ho. apply u64_small. change TRAPFRAME with 274877898752. lia.
  - split; [exact (f_equal tf_ra W1)|]. exact (conj W3 W2).
Defined.
