(* ===== verification/User.v ===== *)
(** * User programs

    A user program is a computation over its memory and the system, which it
    sees only through system calls.  What the kernel does with a call is the
    parameter [OS]: it maps a call, whose pointer arguments are given by the
    bytes or strings they point to, to the value the call returns and the bytes
    it stores through its result pointer.  The prototypes are those of user.h;
    the stubs that load the call number and trap are generated by the build.

    [exit] and a successful [exec] do not return; a loop that runs out of fuel
    is [UHang], and the theorems show which fuel is enough. *)

From S2P Require Import Prelude Memory.

(** ** System calls *)

(** An argument register of a call that may be given a wild pointer: a number, a
    pointer to a string of the program, or one to an array of pointers. *)
Inductive rarg :=
| RReg (x : Z)
| RStr (s : list Z)
| RArgv (l : list rarg).

(** [SRaw] is the call of a number with the registers as they are, and the memory
    of the program. *)
Inductive syscall :=
| SFork
| SWait
| SPipe
| SWrite (fd : Z) (bytes : list Z)
| SRead (fd n : Z)
| SClose (fd : Z)
| SKill (pid : Z)
| SExec (path : list Z) (argv : list (list Z))
| SOpen (path : list Z) (omode : Z)
| SMknod (path : list Z) (major minor : Z)
| SUnlink (path : list Z)
| SFstat (fd : Z)
| SLink (old new : list Z)
| SMkdir (path : list Z)
| SChdir (path : list Z)
| SDup (fd : Z)
| SGetpid
| SSbrk (n : Z)
| SSleep (n : Z)
| SUptime
| STrace (mask : Z)
| SSysinfo
| SRaw (num : Z) (args : list rarg) (m : mem).

(** The value in a0 and the bytes stored through the result pointer. *)
Record sysret := MkRet { r_val : Z; r_out : list Z }.

Class OS (σ : Type) := os_call : syscall → σ → sysret * σ.

(** ** The monad *)

Record uworld (σ : Type) := MkU { um : mem; us : σ }.
Arguments MkU {σ}.
Arguments um {σ}.
Arguments us {σ}.

Inductive uout (σ A : Type) :=
| UOk (a : A) (w : uworld σ)
| UExit (status : Z) (w : uworld σ)
| UExec (path : list Z) (argv : list (list Z)) (w : uworld σ)
| UHang.
Arguments UOk {σ A}.
Arguments UExit {σ A}.
Arguments UExec {σ A}.
Arguments UHang {σ A}.

Definition U (σ A : Type) : Type := uworld σ → uout σ A.

#[global] Instance U_ret σ : MRet (U σ) := λ A a w, UOk a w.
#[global] Instance U_bind σ : MBind (U σ) := λ A B f c w,
  match c w with
  | UOk a w => f a w
  | UExit n w => UExit n w
  | UExec p v w => UExec p v w
  | UHang => UHang
  end.

Lemma ubind_ok {σ A B} (c : U σ A) (f : A → U σ B) a w w' : c w = UOk a w' → (c ≫= f) w = f a w'.
Proof. intros E. unfold mbind, U_bind. by rewrite E. Qed.

Definition hang {σ A} : U σ A := λ _, UHang.
Definition exit {σ A} (status : Z) : U σ A := λ w, UExit status w.
Definition uwhen {σ} (b : bool) (c : U σ unit) : U σ unit := if b then c else mret ().

Definition load {σ} (a : Z) : U σ Z := λ w, UOk (um w a) w.
Definition getm {σ} : U σ mem := λ w, UOk (um w) w.
Definition putm {σ} (f : mem → mem) : U σ unit := λ w, UOk () (MkU (f (um w)) (us w)).
Definition store {σ} (a v : Z) : U σ unit := putm (λ m, upd m a (u8 v)).

Fixpoint ufor {σ A} (l : list A) (f : A → U σ unit) : U σ unit :=
  match l with
  | [] => mret ()
  | x :: l => _ ← f x; ufor l f
  end.

(** A loop with state [A] that ends with a [B]. *)
Fixpoint uiter {σ A B} (fuel : nat) (body : A → U σ (A + B)) (a : A) : U σ B :=
  match fuel with
  | O => hang
  | S fuel =>
    r ← body a;
    match r with
    | inl a => uiter fuel body a
    | inr b => mret b
    end
  end.

(** The C string at an address. *)
Fixpoint cstring_at (fuel : nat) (m : mem) (a : Z) : option (list Z) :=
  match fuel with
  | O => None
  | S fuel => if m a =? 0 then Some [] else (λ l, m a :: l) <$> cstring_at fuel m (a + 1)
  end.

Definition cstring {σ} (fuel : nat) (a : Z) : U σ (list Z) := λ w,
  match cstring_at fuel (um w) a with
  | Some l => UOk l w
  | None => UHang
  end.

(** ** The calls of user.h *)

Section calls.
Context `{OS σ}.

Definition ecall (c : syscall) : U σ sysret := λ w,
  UOk (os_call c (us w)).1 (MkU (um w) (os_call c (us w)).2).

Definition ecall_v (c : syscall) : U σ Z := r ← ecall c; mret (r_val r).

Definition fork : U σ Z := ecall_v SFork.
(** The pid and the exit status stored through the pointer, 0 if there is none. *)
Definition wait : U σ (Z * Z) := r ← ecall SWait; mret (r_val r, i32 (le_dec (r_out r))).
Definition pipe : U σ (Z * (Z * Z)) :=
  r ← ecall SPipe; mret (r_val r, (i32 (le_dec (take 4 (r_out r))), i32 (le_dec (drop 4 (r_out r))))).
(** [write] from memory, and of the bytes of a local variable or constant. *)
Definition write_bytes (fd : Z) (l : list Z) : U σ Z := ecall_v (SWrite fd l).
Definition write (fd p n : Z) : U σ Z := m ← getm; write_bytes fd (bytes_at m p (Z.to_nat n)).
(** [read] into memory, and into a local variable. *)
Definition read_bytes (fd n : Z) : U σ sysret := ecall (SRead fd n).
Definition read (fd p n : Z) : U σ Z :=
  r ← read_bytes fd n;
  _ ← putm (λ m, st_bytes m p (r_out r));
  mret (r_val r).
Definition close (fd : Z) : U σ Z := ecall_v (SClose fd).
Definition kill (pid : Z) : U σ Z := ecall_v (SKill pid).
(** Success replaces the program. *)
Definition exec (path : list Z) (argv : list (list Z)) : U σ Z := λ w,
  let r := r_val (os_call (SExec path argv) (us w)).1 in
  let w' := MkU (um w) (os_call (SExec path argv) (us w)).2 in
  if r <? 0 then UOk r w' else UExec path argv w'.
Definition open (path : list Z) (omode : Z) : U σ Z := ecall_v (SOpen path omode).
Definition mknod (path : list Z) (major minor : Z) : U σ Z := ecall_v (SMknod path major minor).
Definition unlink (path : list Z) : U σ Z := ecall_v (SUnlink path).
Definition fstat (fd : Z) : U σ (Z * list Z) := r ← ecall (SFstat fd); mret (r_val r, r_out r).
Definition link (old new : list Z) : U σ Z := ecall_v (SLink old new).
Definition mkdir (path : list Z) : U σ Z := ecall_v (SMkdir path).
Definition chdir (path : list Z) : U σ Z := ecall_v (SChdir path).
Definition dup (fd : Z) : U σ Z := ecall_v (SDup fd).
Definition getpid : U σ Z := ecall_v SGetpid.
Definition sbrk (n : Z) : U σ Z := ecall_v (SSbrk n).
Definition sleep (n : Z) : U σ Z := ecall_v (SSleep n).
Definition uptime : U σ Z := ecall_v SUptime.
Definition trace (mask : Z) : U σ Z := ecall_v (STrace mask).
Definition sysinfo : U σ (Z * list Z) := r ← ecall SSysinfo; mret (r_val r, r_out r).

(** A call with the registers as they are; what it stores is not looked at. *)
Definition raw (num : Z) (args : list rarg) : U σ Z := m ← getm; ecall_v (SRaw num args m).
(** [exec] of a wild pointer; if it succeeds, the path is what the kernel read. *)
Definition raw_exec (num : Z) (args : list rarg) : U σ Z := λ w,
  let r := os_call (SRaw num args (um w)) (us w) in
  if r_val r.1 <? 0 then UOk (r_val r.1) (MkU (um w) r.2) else UExec (r_out r.1) [] (MkU (um w) r.2).

End calls.

(** ** What a program may rely on *)

(** Writing to a descriptor appends to its stream and leaves the others alone. *)
Class Output (σ : Type) `{OS σ} := {
  out : Z → σ → list Z;
  out_write fd l s : out fd (os_call (SWrite fd l) s).2 = out fd s ++ l;
  out_write_ne fd fd' l s : fd' ≠ fd → out fd' (os_call (SWrite fd l) s).2 = out fd' s;
  write_all fd l s : r_val (os_call (SWrite fd l) s).1 = Z.of_nat (length l)
}.

(** Reading descriptor [fd] delivers its stream in pieces: any non-empty part
    that fits, nothing only when the stream is at its end or nothing is asked
    for.  Reads do not disturb the output. *)
Class Input (σ : Type) `{Output σ} := {
  inp : Z → σ → list Z;
  inp_read fd n s : 0 <= n → ∃ l,
    os_call (SRead fd n) s = (MkRet (Z.of_nat (length l)) l, (os_call (SRead fd n) s).2)
    ∧ Z.of_nat (length l) <= n
    ∧ inp fd s = l ++ inp fd (os_call (SRead fd n) s).2
    ∧ (l = [] → n = 0 ∨ inp fd s = []);
  inp_read_out fd n fd' s : out fd' (os_call (SRead fd n) s).2 = out fd' s;
  inp_write fd fd' l s : inp fd (os_call (SWrite fd' l) s).2 = inp fd s
}.

(** ** A system for examples: every descriptor has a stream in and one out;
    reads deliver at most [k] bytes. *)

Record streams := MkStreams { st_in : gmap Z (list Z); st_out : gmap Z (list Z); st_chunk : nat }.

#[global] Instance streams_os : OS streams := λ c s,
  match c with
  | SWrite fd l => (MkRet (Z.of_nat (length l)) [],
      MkStreams (st_in s) (<[fd := default [] (st_out s !! fd) ++ l]> (st_out s)) (st_chunk s))
  | SRead fd n =>
      let i := default [] (st_in s !! fd) in
      let k := (Z.to_nat n `min` S (st_chunk s))%nat in
      (MkRet (Z.of_nat (length (take k i))) (take k i), MkStreams (<[fd := drop k i]> (st_in s)) (st_out s) (st_chunk s))
  | _ => (MkRet (-1) [], s)
  end.

#[global, refine] Instance streams_output : Output streams := {| out fd s := default [] (st_out s !! fd) |}.
Proof.
  - intros fd l s. cbn. by rewrite lookup_insert_eq.
  - intros fd fd' l s Hne. cbn. by rewrite lookup_insert_ne.
  - done.
Defined.

#[global, refine] Instance streams_input : Input streams := {| inp fd s := default [] (st_in s !! fd) |}.
Proof.
  - intros fd n s Hn. cbn. set (i := default [] (st_in s !! fd)). set (k := (Z.to_nat n `min` S (st_chunk s))%nat).
    exists (take k i). split; [done|]. rewrite lookup_insert_eq. cbn. rewrite take_drop. split; [rewrite length_take; lia|].
    split; [done|]. intros E. apply (f_equal length) in E. rewrite length_take in E. destruct i; [by right|left]. simpl in E. lia.
  - done.
  - done.
Defined.

Definition outcome_out {σ A} `{Output σ} (fd : Z) (r : uout σ A) : list Z :=
  match r with
  | UOk _ w => out fd (us w)
  | UExit _ w => out fd (us w)
  | UExec _ _ w => out fd (us w)
  | UHang => []
  end.
