(* ===== verification/ULib.v ===== *)
(** * user/ulib.c

    The C library of the user programs.  Buffers are addresses of the user
    memory; strings that a routine only reads are the list of the bytes from the
    pointer on, as in CString.v, and a pointer into such a string is an offset. *)

From S2P Require Import Prelude Memory CString User.

(** [while( ( *s++ = *t++ ) != 0);] *)
Fixpoint strcpy_loop (s : Z) (t : list Z) (m : mem) : mem :=
  match t with
  | [] => upd m s 0
  | c :: t => if c =? 0 then upd m s 0 else strcpy_loop (s + 1) t (upd m s c)
  end.
Definition strcpy {σ} (s : Z) (t : list Z) : U σ Z := _ ← putm (strcpy_loop s t); mret s.

Fixpoint strcmp (p q : list Z) : Z :=
  match p with
  | [] => 0 - byte0 q
  | c :: p' => if negb (c =? 0) && (c =? byte0 q) then strcmp p' (tl q) else c - byte0 q
  end.

Fixpoint strlen_loop (s : list Z) (n : Z) : Z :=
  match s with
  | [] => n
  | c :: s => if c =? 0 then n else strlen_loop s (i32 (n + 1))
  end.
Definition strlen (s : list Z) : Z := u32 (strlen_loop s 0).

Definition memset {σ} (dst c n : Z) : U σ Z :=
  _ ← putm (λ m, CString.memset_loop (Z.to_nat (u32 n)) dst c 0 m); mret dst.

(** The offset of the first [c] before the NUL. *)
Fixpoint strchr (s : list Z) (c : Z) : option nat :=
  match s with
  | [] => None
  | b :: s => if b =? 0 then None else if b =? c then Some O else S <$> strchr s c
  end.

Fixpoint atoi_loop (s : list Z) (n : Z) : Z :=
  match s with
  | [] => n
  | c :: s => if (ch "0" <=? c) && (c <=? ch "9") then atoi_loop s (i32 (n * 10 + c - ch "0")) else n
  end.
Definition atoi (s : list Z) : Z := atoi_loop s 0.

Definition memmove {σ} (vdst vsrc n : Z) : U σ Z :=
  _ ← putm (λ m,
    if vdst <? vsrc then copy_up (Z.to_nat n) vdst vsrc m
    else copy_down (Z.to_nat n) (vdst + n) (vsrc + n) m);
  mret vdst.

Fixpoint memcmp_loop (k : nat) (p1 p2 : Z) (m : mem) : Z :=
  match k with
  | O => 0
  | S k => if negb (m p1 =? m p2) then m p1 - m p2 else memcmp_loop k (p1 + 1) (p2 + 1) m
  end.
Definition memcmp {σ} (s1 s2 n : Z) : U σ Z := m ← getm; mret (memcmp_loop (Z.to_nat (u32 n)) s1 s2 m).

Definition memcpy {σ} (dst src n : Z) : U σ Z := memmove dst src (i32 n).

Section ulib.
Context `{OS σ}.

(** [k] more characters fit. *)
Fixpoint gets_loop (k : nat) (buf i : Z) : U σ Z :=
  match k with
  | O => mret i
  | S k =>
    r ← read_bytes 0 1;
    if r_val r <? 1 then mret i
    else
      let c := byte0 (r_out r) in
      _ ← store (buf + i) c;
      if (c =? 10) || (c =? 13) then mret (i + 1) else gets_loop k buf (i + 1)
  end.

Definition gets (buf max : Z) : U σ Z :=
  i ← gets_loop (Z.to_nat (max - 1)) buf 0;
  _ ← store (buf + i) 0;
  mret buf.

(** The result and the struct stat. *)
Definition stat (n : list Z) : U σ (Z * list Z) :=
  fd ← open n 0;
  if fd <? 0 then mret (-1, [])
  else
    r ← fstat fd;
    _ ← close fd;
    mret r.

(** The wrapper around a program's [main]. *)
Definition _main (main : U σ unit) : U σ unit := _ ← main; exit 0.

End ulib.

(** ** Lemmas *)

Lemma memmove_spec {σ} dst src n (w : uworld σ) :
  0 <= n → ∃ m', memmove dst src n w = UOk dst (MkU m' (us w))
    ∧ ∀ x, m' x = if (dst <=? x) && (x <? dst + n) then um w (src + (x - dst)) else um w x.
Proof.
  intros Hn. eexists. split; [reflexivity|]. intros x. destruct (Z.ltb_spec dst src).
  - rewrite CString.copy_up_spec by lia. by rewrite Z2Nat.id by lia.
  - rewrite CString.copy_down_spec by lia. rewrite Z2Nat.id by lia. replace (dst + n - n) with dst by lia.
    by replace (src + n + (x - (dst + n))) with (src + (x - dst)) by lia.
Qed.

Lemma strchr_None s c : Forall (λ b, b ≠ 0) s → strchr s c = None ↔ c ∉ s.
Proof.
  intros Hs. induction s as [|b s IH]; simpl; [split; [set_solver|done]|].
  apply list.Forall_cons in Hs as [Hb Hs]. specialize (IH Hs).
  rewrite (proj2 (Z.eqb_neq b 0)), elem_of_cons by done. destruct (Z.eqb_spec b c) as [->|]; [naive_solver|].
  rewrite fmap_None, IH. naive_solver.
Qed.

Lemma strchr_Some s c i :
  c ≠ 0 → strchr s c = Some i ↔ (s !! i = Some c ∧ ∀ j b, (j < i)%nat → s !! j = Some b → b ≠ c ∧ b ≠ 0).
Proof.
  intros Hc. revert i. induction s as [|b s IH]; intros i; simpl; [by split; [|intros [Hi _]; rewrite lookup_nil in Hi]|].
  destruct (Z.eqb_spec b 0) as [->|Hb0].
  { split; [done|]. intros [Hi Hj]. destruct i as [|i]; [simpl in Hi; congruence|]. destruct (Hj O 0); [lia|done|done]. }
  destruct (Z.eqb_spec b c) as [->|Hbc].
  { split.
    - intros [= <-]. split; [done|lia].
    - intros [Hi Hj]. destruct i as [|i]; [done|]. destruct (Hj O c); [lia|done|done]. }
  destruct i as [|i].
  { split; [by destruct (strchr s c)|]. intros [Hi _]. simpl in Hi. congruence. }
  rewrite fmap_Some. split.
  - intros (i' & Hi & [= <-]). apply IH in Hi as [Hi Hj]. split; [done|]. intros [|j] b' Hlt Hb'; simpl in Hb'; [by injection Hb' as <-|].
    apply (Hj j); [lia|done].
  - intros [Hi Hj]. exists i. split; [|done]. apply IH. split; [done|]. intros j b' Hlt Hb'. apply (Hj (S j)); [lia|done].
Qed.

Lemma cstring_at_spec fuel m a l :
  (length l < fuel)%nat → bytes_at m a (length l) = l → Forall (λ b, b ≠ 0) l → m (a + Z.of_nat (length l)) = 0 →
  cstring_at fuel m a = Some l.
Proof.
  revert a l. induction fuel as [|fuel IH]; intros a l Hf Hb Hn Hz; [lia|]. destruct l as [|c l]; simpl in *.
  { rewrite Z.add_0_r in Hz. by rewrite Hz. }
  injection Hb as Hc Hb. apply list.Forall_cons in Hn as [Hn0 Hn]. rewrite Hc, (proj2 (Z.eqb_neq c 0)) by done.
  rewrite (IH (a + 1) l); [done|lia|done|done|]. rewrite <- Hz. f_equal. lia.
Qed.
