(* ===== verification/UPrintf.v ===== *)
(** * user/printf.c

    Formatted output of the user programs, one [write] per character.  The
    variable arguments are 64-bit slots or strings; taking an argument that is
    not there, or of another kind, is undefined in C and [UHang] here. *)

From S2P Require Import Prelude Memory CString User ULib.

Inductive uarg := AInt (x : Z) | AStr (s : option (list Z)).

(** A string literal that ends in a newline. *)
Definition line (s : string) : list Z := str s ++ [10].

Definition digits : list Z := str "0123456789ABCDEF".

(** The [do ... while] loop: the digits of [x], least significant first.  A
    32-bit number has at most 32 digits in a base of at least 2. *)
Fixpoint printint_digits (fuel : nat) (x base : Z) : list Z :=
  match fuel with
  | O => []
  | S fuel =>
    digits !!! Z.to_nat (x mod base) ::
    (if negb (x / base =? 0) then printint_digits fuel (x / base) base else [])
  end.

(** [buf] after the loop and the sign. *)
Definition printint_buf (xx base : Z) (sgn : bool) : list Z :=
  let neg := sgn && (xx <? 0) in
  let x := if neg then u32 (- xx) else u32 xx in
  let buf := printint_digits 32 x base in
  if neg then buf ++ [ch "-"] else buf.

Section printf.
Context `{OS σ}.

Definition putc (fd c : Z) : U σ unit := _ ← write_bytes fd [u8 c]; mret ().

Definition printint (fd xx base : Z) (sgn : bool) : U σ unit :=
  ufor (reverse (printint_buf xx base sgn)) (putc fd).

Fixpoint printptr_loop (n : nat) (fd x : Z) : U σ unit :=
  match n with
  | O => mret ()
  | S n =>
    _ ← putc fd (digits !!! Z.to_nat (Z.shiftr x 60));
    printptr_loop n fd (u64 (Z.shiftl x 4))
  end.

Definition printptr (fd x : Z) : U σ unit :=
  _ ← putc fd (ch "0");
  _ ← putc fd (ch "x");
  printptr_loop 16 fd x.

(** The loop over the format; [pct] is [state == '%']. *)
Fixpoint vprintf (fd : Z) (fmt : list Z) (pct : bool) (ap : list uarg) : U σ unit :=
  match fmt with
  | [] => mret ()
  | c :: fmt =>
    if c =? 0 then mret ()
    else if negb pct then
      if c =? ch "%" then vprintf fd fmt true ap
      else _ ← putc fd c; vprintf fd fmt false ap
    else if c =? ch "d" then
      match ap with
      | AInt x :: ap => _ ← printint fd (i32 x) 10 true; vprintf fd fmt false ap
      | _ => hang
      end
    else if c =? ch "l" then
      match ap with
      | AInt x :: ap => _ ← printint fd (i32 (u64 x)) 10 false; vprintf fd fmt false ap
      | _ => hang
      end
    else if c =? ch "x" then
      match ap with
      | AInt x :: ap => _ ← printint fd (i32 x) 16 false; vprintf fd fmt false ap
      | _ => hang
      end
    else if c =? ch "p" then
      match ap with
      | AInt x :: ap => _ ← printptr fd (u64 x); vprintf fd fmt false ap
      | _ => hang
      end
    else if c =? ch "s" then
      match ap with
      | AStr s :: ap => _ ← ufor (cstr (default (str "(null)") s)) (putc fd); vprintf fd fmt false ap
      | _ => hang
      end
    else if c =? ch "c" then
      match ap with
      | AInt x :: ap => _ ← putc fd (u32 x); vprintf fd fmt false ap
      | _ => hang
      end
    else if c =? ch "%" then
      _ ← putc fd c; vprintf fd fmt false ap
    else
      _ ← putc fd (ch "%");
      _ ← putc fd c;
      vprintf fd fmt false ap
  end.

Definition fprintf (fd : Z) (fmt : list Z) (ap : list uarg) : U σ unit := vprintf fd fmt false ap.
Definition printf (fmt : list Z) (ap : list uarg) : U σ unit := vprintf 1 fmt false ap.

End printf.

(** ** What is written *)

(** The decimal or hexadecimal notation of a number, most significant digit first. *)
Definition notation (xx base : Z) (sgn : bool) : list Z := reverse (printint_buf xx base sgn).

(** A computation that only writes [l] to descriptor [fd]. *)
Definition emits `{Output σ} (fd : Z) (l : list Z) (c : U σ unit) : Prop :=
  ∀ w, ∃ s, c w = UOk () (MkU (um w) s) ∧ out fd s = out fd (us w) ++ l
    ∧ ∀ fd', fd' ≠ fd → out fd' s = out fd' (us w).

Section emits.
Context `{Output σ}.

Lemma emits_nil fd : emits fd [] (mret ()).
Proof. intros w. exists (us w). rewrite app_nil_r. split; [by destruct w|done]. Qed.

Lemma emits_bind fd l1 l2 c1 c2 : emits fd l1 c1 → emits fd l2 c2 → emits fd (l1 ++ l2) (_ ← c1; c2).
Proof.
  intros H1 H2 w. destruct (H1 w) as (s1 & E1 & O1 & N1). destruct (H2 (MkU (um w) s1)) as (s2 & E2 & O2 & N2).
  exists s2. rewrite (ubind_ok _ _ _ _ _ E1), E2. split; [done|]. split; [rewrite O2; cbn; by rewrite O1, app_assoc|].
  intros fd' Hfd. rewrite N2 by done. by apply N1.
Qed.

Lemma emits_putc fd c : 0 <= c < 256 → emits fd [c] (putc fd c).
Proof.
  intros Hc w. eexists. split; [reflexivity|]. replace (u8 c) with c by (symmetry; by apply Z.mod_small).
  split; [apply out_write|]. intros fd' Hne. by apply out_write_ne.
Qed.

Lemma emits_ufor fd l : Forall (λ c, 0 <= c < 256) l → emits fd l (ufor l (putc fd)).
Proof.
  induction l as [|c l IH]; simpl; intros Hl; [apply emits_nil|]. apply list.Forall_cons in Hl as [Hc Hl].
  apply (emits_bind fd [c] l); [by apply emits_putc|by apply IH].
Qed.

End emits.

(** ** Numbers *)

Lemma digit_byte i : 0 <= i < 16 → 0 <= digits !!! Z.to_nat i < 256.
Proof.
  intros Hi. assert (forallb (λ c, (0 <=? c) && (c <? 256)) digits = true) as E by done.
  rewrite forallb_forall in E. assert (digits !!! Z.to_nat i ∈ digits) as Hin.
  { apply list_elem_of_lookup_2 with (Z.to_nat i). apply list_lookup_lookup_total_lt. change (length digits) with 16%nat. lia. }
  apply list_elem_of_In, E in Hin. lia.
Qed.

Lemma digits_bytes fuel x base : 2 <= base <= 16 → Forall (λ c, 0 <= c < 256) (printint_digits fuel x base).
Proof.
  intros Hb. revert x. induction fuel as [|fuel IH]; intros x; simpl; [constructor|]. apply list.Forall_cons. split.
  - apply digit_byte. pose proof (Z.mod_pos_bound x base). lia.
  - destruct (negb _); [apply IH|constructor].
Qed.

Lemma printint_emits `{Output σ} fd xx base sgn :
  2 <= base <= 16 → emits fd (notation xx base sgn) (printint fd xx base sgn).
Proof.
  intros Hb. apply emits_ufor. unfold notation. apply Forall_reverse. unfold printint_buf.
  destruct (sgn && (xx <? 0)); [apply Forall_app; split; [|repeat constructor; done]|]; by apply digits_bytes.
Qed.

(** The number of digits. *)
Lemma length_digits fuel k x base :
  2 <= base → 0 <= x < base ^ Z.of_nat (S k) → (length (printint_digits fuel x base) <= S k)%nat.
Proof.
  intros Hb. revert k x. induction fuel as [|fuel IH]; intros k x Hx; simpl; [lia|].
  destruct (Z.eqb_spec (x / base) 0) as [|Hne]; simpl; [lia|]. destruct k as [|k].
  - exfalso. apply Hne, Z.div_small. change (Z.of_nat 1) with 1 in Hx. by rewrite Z.pow_1_r in Hx.
  - specialize (IH k (x / base)). rewrite Nat2Z.inj_succ, Z.pow_succ_r in Hx by lia.
    assert (0 <= x / base < base ^ Z.of_nat (S k)); [|lia].
    split; [apply Z.div_pos; lia|]. apply Z.div_lt_upper_bound; lia.
Qed.

(** The value that [atoi] computes from digits, most significant first. *)
Lemma atoi_loop_app l1 l2 n : Forall (λ c, ch "0" <= c <= ch "9") l1 → atoi_loop (l1 ++ l2) n = atoi_loop l2 (atoi_loop l1 n).
Proof.
  revert n. induction l1 as [|c l1 IH]; intros n Hl; [done|]. apply list.Forall_cons in Hl as [Hc Hl]. simpl.
  rewrite (proj2 (Z.leb_le _ _)), (proj2 (Z.leb_le _ (ch "9"))) by lia. cbn [andb]. by rewrite IH.
Qed.

Lemma digit_value i : 0 <= i < 10 → digits !!! Z.to_nat i = ch "0" + i.
Proof.
  intros Hi. assert (forallb (λ i, digits !!! Z.to_nat i =? ch "0" + i) (seqZ 0 10) = true) as E by done.
  rewrite forallb_forall in E. apply Z.eqb_eq, E, list_elem_of_In, elem_of_seqZ. lia.
Qed.

Lemma digits_decimal fuel x : 0 <= x → Forall (λ c, ch "0" <= c <= ch "9") (printint_digits fuel x 10).
Proof.
  revert x. induction fuel as [|fuel IH]; intros x Hx; cbn [printint_digits]; [constructor|].
  pose proof (Z.mod_pos_bound x 10 ltac:(done)) as Hm. apply list.Forall_cons. split.
  - rewrite digit_value by done. change (ch "9") with (ch "0" + 9). lia.
  - destruct (negb _); [apply IH, Z.div_pos; lia|constructor].
Qed.

Lemma atoi_digits fuel k x :
  0 <= x < 10 ^ Z.of_nat (S k) → x < 2 ^ 31 → (k < fuel)%nat → atoi (reverse (printint_digits fuel x 10)) = x.
Proof.
  unfold atoi. revert k x. induction fuel as [|fuel IH]; intros k x Hx Hmax Hk; [lia|]. cbn [printint_digits].
  pose proof (Z.mod_pos_bound x 10 ltac:(done)) as Hm. pose proof (Z.div_mod x 10 ltac:(done)) as Hd.
  pose proof (Z.div_pos x 10 ltac:(lia) ltac:(done)) as Hp.
  assert (∀ n, n = x / 10 → atoi_loop [digits !!! Z.to_nat (x mod 10)] n = x) as Hlast.
  { intros n ->. simpl. rewrite digit_value by done. change (ch "9") with (ch "0" + 9).
    rewrite (proj2 (Z.leb_le _ _)), (proj2 (Z.leb_le _ (ch "0" + 9))) by lia. cbn [andb]. rewrite i32_small by lia. lia. }
  destruct (Z.eqb_spec (x / 10) 0) as [Hz|Hne]; cbn [negb].
  - by apply Hlast.
  - rewrite reverse_cons, atoi_loop_app by (apply Forall_reverse, digits_decimal; done). apply Hlast.
    destruct k as [|k].
    { exfalso. apply Hne, Z.div_small. done. }
    apply (IH k); [|lia|lia]. split; [done|]. rewrite Nat2Z.inj_succ, Z.pow_succ_r in Hx by lia.
    apply Z.div_lt_upper_bound; lia.
Qed.

(** what [printf] writes for [%d] reads back with [atoi]: for every [int] but
    the smallest it emits a minus sign for a negative number and then decimal
    digits from which [atoi] gives the absolute value; the characters stay within
    the 16 bytes of [buf]. *)
Theorem printf_atoi `{Output σ} (fd x : Z) :
  - 2 ^ 31 < x < 2 ^ 31 →
  ∃ ds, emits fd ((if x <? 0 then [ch "-"] else []) ++ ds) (fprintf fd (str "%d") [AInt x])
    ∧ atoi ds = Z.abs x ∧ (length (printint_buf x 10 true) <= 16)%nat.
Proof.
  intros Hx. set (a := Z.abs x). assert (0 <= a < 10 ^ Z.of_nat 10 ∧ a < 2 ^ 31) as [Ha1 Ha2].
  { change (10 ^ Z.of_nat 10) with 10000000000. lia. }
  exists (reverse (printint_digits 32 a 10)).
  assert (printint_buf x 10 true = printint_digits 32 a 10 ++ (if x <? 0 then [ch "-"] else [])) as E.
  { unfold printint_buf. cbn [andb]. destruct (Z.ltb_spec x 0).
    - by rewrite u32_small by lia; replace (- x) with a by lia.
    - rewrite u32_small by lia. replace x with a by lia. by rewrite app_nil_r. }
  split; [|split].
  - assert (fprintf fd (str "%d") [AInt x] = (_ ← printint fd (i32 x) 10 true; mret ())) as -> by done. rewrite i32_small by lia.
    rewrite <- (app_nil_r (_ ++ _)). apply emits_bind; [|apply emits_nil].
    replace (_ ++ _) with (notation x 10 true); [by apply printint_emits|].
    unfold notation. rewrite E, reverse_app. by destruct (x <? 0).
  - by apply (atoi_digits 32 9); [|done|lia].
  - rewrite E, length_app. pose proof (length_digits 32 9 a 10 ltac:(lia) Ha1). destruct (x <? 0); cbn [length]; lia.
Qed.

Lemma printf_atoi_witness :
  ∃ ds, emits (σ := streams) 1 (ch "-" :: ds) (fprintf 1 (str "%d") [AInt (-2147483647)]) ∧ atoi ds = 2147483647.
Proof.
  destruct (@printf_atoi streams _ _ 1 (-2147483647)) as (ds & E & Ha & _); [lia|].
  exists ds. split; [exact E|exact Ha].
Defined.
