(* ===== verification/Umalloc.v ===== *)
(** * user/umalloc.c

    The storage allocator of Kernighan and Ritchie: free blocks form a circular
    list in address order, threaded through the headers of the blocks, and
    adjacent free blocks are merged.

    UmallocSpec.v has the specification and the theorems. *)

From S2P Require Import Prelude Memory User.

(** ** The code *)

(** [sizeof(Header)]: a pointer, an unsigned int, and padding. *)
Definition HSIZE : Z := 16.
Definition ptr (m : mem) (p : Z) : Z := ld64 m p.
Definition size (m : mem) (p : Z) : Z := ld32 m (p + 8).
Definition set_ptr (p v : Z) (m : mem) : mem := sd64 m p v.
Definition set_size (p v : Z) (m : mem) : mem := sd32 m (p + 8) v.
(** Pointer arithmetic on [Header *]. *)
Definition hplus (p n : Z) : Z := u64 (p + HSIZE * n).

Arguments ptr : simpl never.
Arguments size : simpl never.
Arguments set_ptr : simpl never.
Arguments set_size : simpl never.
Arguments hplus : simpl never.
Arguments HSIZE : simpl never.

(** The loop of [free]: the free block after which [bp] belongs. *)
Fixpoint free_find (fuel : nat) (m : mem) (bp p : Z) : option Z :=
  match fuel with
  | O => None
  | S fuel =>
    if (p <? bp) && (bp <? ptr m p) then Some p
    else if (ptr m p <=? p) && ((p <? bp) || (bp <? ptr m p)) then Some p
    else free_find fuel m bp (ptr m p)
  end.

(** Joining to the upper neighbour. *)
Definition free_up (bp p : Z) (m : mem) : mem :=
  if hplus bp (size m bp) =? ptr m p then
    let m := set_size bp (size m bp + size m (ptr m p)) m in
    set_ptr bp (ptr m (ptr m p)) m
  else set_ptr bp (ptr m p) m.

(** Joining to the lower neighbour. *)
Definition free_down (bp p : Z) (m : mem) : mem :=
  if hplus p (size m p) =? bp then
    let m := set_size p (size m p + size m bp) m in
    set_ptr p (ptr m bp) m
  else set_ptr p bp m.

Section umalloc.
Context `{OS σ}.
(** The addresses of the static variables. *)
Context (base freep : Z).

Definition free (fuel : nat) (ap : Z) : U σ unit :=
  m ← getm;
  let bp := hplus ap (-1) in
  match free_find fuel m bp (ld64 m freep) with
  | None => hang
  | Some p =>
    _ ← putm (free_up bp p);
    _ ← putm (free_down bp p);
    putm (λ m, sd64 m freep p)
  end.

Definition morecore (fuel : nat) (nu : Z) : U σ Z :=
  let nu := if nu <? 4096 then 4096 else nu in
  p ← sbrk (i32 (nu * HSIZE));
  if u64 p =? u64 (-1) then mret 0
  else
    _ ← putm (set_size p nu);
    _ ← free fuel (hplus p 1);
    m ← getm; mret (ld64 m freep).

(** Taking [nunits] units from the free block [p], all of it or its tail. *)
Definition take_block (nunits prevp p : Z) : U σ Z :=
  m ← getm;
  p ← (if size m p =? nunits then _ ← putm (set_ptr prevp (ptr m p)); mret p
       else
         let sz := u32 (size m p - nunits) in
         _ ← putm (set_size p sz);
         let p := hplus p sz in
         _ ← putm (set_size p nunits); mret p);
  _ ← putm (λ m, sd64 m freep prevp);
  mret (hplus p 1).

Fixpoint malloc_loop (fuel : nat) (nunits prevp p : Z) : U σ Z :=
  match fuel with
  | O => hang
  | S fuel =>
    m ← getm;
    if nunits <=? size m p then take_block nunits prevp p
    else if p =? ld64 m freep then
      p ← morecore fuel nunits;
      if p =? 0 then mret 0
      else m ← getm; malloc_loop fuel nunits p (ptr m p)
    else malloc_loop fuel nunits p (ptr m p)
  end.

(** [(nbytes + sizeof(Header) - 1)/sizeof(Header) + 1] *)
Definition units_for (nbytes : Z) : Z := u32 (u64 (nbytes + HSIZE - 1) / HSIZE + 1).

Definition malloc (fuel : nat) (nbytes : Z) : U σ Z :=
  let nunits := units_for nbytes in
  m ← getm;
  prevp ← (if ld64 m freep =? 0 then
             _ ← putm (λ m, sd64 m freep base);
             _ ← putm (set_ptr base base);
             _ ← putm (set_size base 0); mret base
           else mret (ld64 m freep));
  m ← getm;
  malloc_loop fuel nunits prevp (ptr m prevp).

End umalloc.
