(* ===== verification/UmallocSpec.v ===== *)
(** * The storage allocator implements a heap of segments

    The specification sees the heap as a sequence of segments, used or free, that
    tile the memory between its start and the program break.  [malloc] turns a
    free segment into a used one, perhaps leaving a smaller free one in front;
    [free] turns a used segment into a free one and merges it with its free
    neighbours.  The theorems show that the list code of Umalloc.v implements
    this, that its loops terminate, and that no byte of another used segment is
    touched. *)

From Stdlib Require Import Sorted.
From S2P Require Import Prelude Memory User Umalloc.

(** ** What the allocator relies on *)

(** The physical memory of the machine, which bounds the memory of a process. *)
Definition RAM : Z := 2 ^ 27.

(** [sbrk] moves the break up by [n] and returns the old one, or fails. *)
Class Heap (σ : Type) `{OS σ} := {
  brk : σ → Z;
  brk_range s : 0 <= brk s <= RAM;
  sbrk_grows n s : 0 <= n →
    (r_val (os_call (SSbrk n) s).1 = brk s ∧ brk (os_call (SSbrk n) s).2 = brk s + n)
    ∨ (r_val (os_call (SSbrk n) s).1 = -1 ∧ brk (os_call (SSbrk n) s).2 = brk s)
}.

(** ** The heap as a sequence of segments *)

Inductive seg := Free (n : Z) | Used (n : Z).

Definition units (s : seg) : Z := match s with Free n | Used n => n end.

(** The number of bytes that segments take. *)
Fixpoint span (B : list seg) : Z :=
  match B with
  | [] => 0
  | s :: B => HSIZE * units s + span B
  end.

(** The addresses of the free segments, in order. *)
Fixpoint frees (a : Z) (B : list seg) : list Z :=
  match B with
  | [] => []
  | Free n :: B => a :: frees (a + HSIZE * n) B
  | Used n :: B => frees (a + HSIZE * n) B
  end.

(** Every segment starts with a header that has its size. *)
Fixpoint sizes (m : mem) (a : Z) (B : list seg) : Prop :=
  match B with
  | [] => True
  | s :: B => size m a = units s ∧ sizes m (a + HSIZE * units s) B
  end.

Fixpoint hdrs (a : Z) (B : list seg) : list Z :=
  match B with
  | [] => []
  | s :: B => a :: hdrs (a + HSIZE * units s) B
  end.

(** No two free segments are neighbours. *)
Definition is_free (s : seg) : bool := match s with Free _ => true | Used _ => false end.
Fixpoint coalesced (B : list seg) : Prop :=
  match B with
  | s :: B => (is_free s → match B with t :: _ => ¬ is_free t | [] => True end) ∧ coalesced B
  | [] => True
  end.

(** The headers of [L] are linked in this order, the last one to [e]. *)
Fixpoint chain (m : mem) (L : list Z) (e : Z) : Prop :=
  match L with
  | [] => True
  | a :: L => ptr m a = hd e L ∧ chain m L e
  end.

(** The bytes of the used segments. *)
Definition in_used (a : Z) (B : list seg) (x : Z) : Prop :=
  ∃ C n D, B = C ++ Used n :: D ∧ a + span C <= x < a + span C + HSIZE * n.

(** ** The operations on segments *)

(** [free]: the segment between [C] and [D] becomes free. *)
Definition join_up (n : Z) (D : list seg) : list seg :=
  match D with
  | Free k :: D => Free (n + k) :: D
  | _ => Free n :: D
  end.
Fixpoint freed (C : list seg) (n : Z) (D : list seg) : list seg :=
  match C with
  | [] => join_up n D
  | [Free j] => match D with Free k :: D => Free (j + (n + k)) :: D | _ => Free (j + n) :: D end
  | s :: C => s :: freed C n D
  end.

(** [malloc]: a free segment gives up its last [k] units. *)
Definition carve (n k : Z) : list seg := if n =? k then [Used k] else [Free (n - k); Used k].
Definition carved (start k : Z) (B : list seg) (a : Z) (B' : list seg) : Prop :=
  ∃ C n D, B = C ++ Free n :: D ∧ k <= n ∧ B' = C ++ carve n k ++ D ∧ a = start + span C + HSIZE * (n - k).

(** [morecore]: at least 4096 units are added at the end. *)
Definition more (k : Z) : Z := if k <? 4096 then 4096 else k.
Definition grown (k : Z) (B : list seg) : list seg := freed B (more k) [].

(** ** Lemmas on segments *)

Lemma span_app B1 B2 : span (B1 ++ B2) = span B1 + span B2.
Proof. induction B1; simpl; lia. Qed.

Lemma frees_app a B1 B2 : frees a (B1 ++ B2) = frees a B1 ++ frees (a + span B1) B2.
Proof.
  revert a. induction B1 as [|[n|n] B1 IH]; intros a; simpl; [by rewrite Z.add_0_r| |]; rewrite IH, Z.add_assoc; done.
Qed.

Lemma hdrs_app a B1 B2 : hdrs a (B1 ++ B2) = hdrs a B1 ++ hdrs (a + span B1) B2.
Proof. revert a. induction B1 as [|s B1 IH]; intros a; simpl; [by rewrite Z.add_0_r|]. rewrite IH, Z.add_assoc. done. Qed.

Lemma sizes_app m a B1 B2 : sizes m a (B1 ++ B2) ↔ sizes m a B1 ∧ sizes m (a + span B1) B2.
Proof. revert a. induction B1 as [|s B1 IH]; intros a; simpl; [rewrite Z.add_0_r; tauto|]. rewrite IH, Z.add_assoc. tauto. Qed.

Lemma sizes_ext m m' a B : sizes m a B → (∀ h, h ∈ hdrs a B → size m' h = size m h) → sizes m' a B.
Proof.
  revert a. induction B as [|s B IH]; intros a; simpl; [done|]. intros [E HB] Hx. split; [rewrite Hx by set_solver; done|].
  apply IH; [done|]. set_solver.
Qed.

Lemma hd_app (L1 L2 : list Z) e : hd e (L1 ++ L2) = hd (hd e L2) L1.
Proof. by destruct L1. Qed.

Lemma chain_app m L1 L2 e : chain m (L1 ++ L2) e ↔ chain m L1 (hd e L2) ∧ chain m L2 e.
Proof. induction L1; simpl; [tauto|]. rewrite IHL1, hd_app. tauto. Qed.

Lemma nodes_ext m m' L e : chain m L e → (∀ h, h ∈ L → ptr m' h = ptr m h) → chain m' L e.
Proof.
  induction L as [|a L IH]; simpl; [done|]. intros [E HL] Hx. split; [rewrite Hx by set_solver; done|].
  apply IH; [done|set_solver].
Qed.

Lemma frees_hdrs a B : ∀ h, h ∈ frees a B → h ∈ hdrs a B.
Proof. revert a. induction B as [|[n|n] B IH]; intros a h; simpl; [done| |]; specialize (IH (a + HSIZE * n) h); set_solver. Qed.

Definition positive (B : list seg) : Prop := Forall (λ s, 1 <= units s) B.

Lemma span_nonneg B : positive B → 0 <= span B.
Proof. induction 1; simpl; unfold HSIZE; lia. Qed.

Lemma hdrs_range a B h : positive B → h ∈ hdrs a B → a <= h ∧ h + HSIZE <= a + span B.
Proof.
  intros HB. revert a. induction HB as [|s B Hs HB IH]; intros a; simpl; [by intros ?%elem_of_nil|].
  pose proof (span_nonneg B HB). unfold HSIZE in *.
  intros [->|Hh]%elem_of_cons; [lia|]. apply IH in Hh. lia.
Qed.

Fixpoint ends_free (C : list seg) : bool :=
  match C with
  | [] => false
  | [s] => is_free s
  | _ :: C => ends_free C
  end.
Definition starts_free (D : list seg) : bool := match D with s :: _ => is_free s | [] => false end.

Lemma ends_free_snoc C s : ends_free (C ++ [s]) = is_free s.
Proof. induction C as [|t C IH]; [done|]. destruct C; done. Qed.

Lemma ends_free_cases C : (∃ C' j, C = C' ++ [Free j]) ∨ ends_free C = false.
Proof.
  destruct C as [|s C _] using rev_ind; [by right|]. rewrite ends_free_snoc. destruct s; [left; by eexists _, _|by right].
Qed.

Lemma coalesced_mid C s D :
  coalesced (C ++ s :: D) ↔ coalesced C ∧ coalesced D ∧ (is_free s → ends_free C = false ∧ starts_free D = false).
Proof.
  induction C as [|t C IH].
  - cbn. destruct D as [|u D]; cbn; [naive_solver|]. destruct s, u; cbn; naive_solver.
  - cbn [app coalesced]. rewrite IH. destruct C as [|u C].
    + cbn. destruct t, s; cbn; naive_solver.
    + cbn [app]. change (ends_free (t :: u :: C)) with (ends_free (u :: C)). cbn [coalesced]. tauto.
Qed.

(** How [freed] merges. *)
Lemma freed_free C j n D :
  freed (C ++ [Free j]) n D = C ++ match join_up n D with Free k :: D => Free (j + k) :: D | D => D end.
Proof. induction C as [|s C IH]; cbn; [by destruct D as [|[]]|]. rewrite IH. destruct s; [|done]. by destruct C. Qed.

Lemma freed_used C n D : ends_free C = false → freed C n D = C ++ join_up n D.
Proof. induction C as [|s C IH]; [done|]. destruct C as [|t C]; [by destruct s|]. intros H.
  change ((s :: t :: C) ++ join_up n D) with (s :: ((t :: C) ++ join_up n D)). rewrite <-IH by done. by destruct s. Qed.

(** ** Headers in memory *)

Definition apart (h q : Z) : Prop := h + HSIZE <= q ∨ q + HSIZE <= h.

Lemma header_frame m m' a h :
  same_outside m m' a (a + HSIZE) → apart h a → ptr m' h = ptr m h ∧ size m' h = size m h.
Proof.
  unfold apart, HSIZE. intros Hs Ha. split; [apply ld64_ext|apply ld32_ext]; intros x Hx; apply Hs; lia.
Qed.

Lemma set_ptr_same m a v : same_outside m (set_ptr a v m) a (a + HSIZE).
Proof. unfold HSIZE. intros x Hx. apply sd64_out. lia. Qed.

Lemma set_size_same m a v : same_outside m (set_size a v m) a (a + HSIZE).
Proof. unfold HSIZE. intros x Hx. apply sd32_out. lia. Qed.

Lemma same_outside_trans m1 m2 m3 a b : same_outside m1 m2 a b → same_outside m2 m3 a b → same_outside m1 m3 a b.
Proof. intros H1 H2 x Hx. rewrite H2, H1; done. Qed.

Lemma ptr_set_ptr m a v : 0 <= v < 2 ^ 64 → ptr (set_ptr a v m) a = v.
Proof. intros. unfold ptr, set_ptr. rewrite ld64_sd64. by apply u64_small. Qed.

Lemma size_set_ptr m a v : size (set_ptr a v m) a = size m a.
Proof. unfold size, set_ptr. apply ld32_ext. intros x Hx. apply sd64_out. lia. Qed.

Lemma size_set_size m a v : 0 <= v < 2 ^ 32 → size (set_size a v m) a = v.
Proof. intros. unfold size, set_size. rewrite ld32_sd32. by apply u32_small. Qed.

Lemma ptr_set_size m a v : ptr (set_size a v m) a = ptr m a.
Proof. unfold ptr, set_size. apply ld64_ext. intros x Hx. apply sd32_out. lia. Qed.

Lemma hplus_small p n : 0 <= p + HSIZE * n < 2 ^ 64 → hplus p n = p + HSIZE * n.
Proof. apply u64_small. Qed.

(** Joining upwards writes the header of [bp] only. *)
Lemma free_up_join m bp p nx :
  ptr m p = nx → hplus bp (size m bp) = nx → apart bp p → apart bp nx →
  0 <= ptr m nx < 2 ^ 64 → 0 <= size m bp + size m nx < 2 ^ 32 →
  same_outside m (free_up bp p m) bp (bp + HSIZE)
  ∧ ptr (free_up bp p m) bp = ptr m nx ∧ size (free_up bp p m) bp = size m bp + size m nx.
Proof.
  intros Hp Hup Hap Han Hpn Hsz. unfold free_up. rewrite Hp, Hup, Z.eqb_refl. cbn zeta.
  set (m1 := set_size bp _ m). assert (S1 : same_outside m m1 bp (bp + HSIZE)) by apply set_size_same.
  destruct (header_frame m m1 bp p S1) as [E1 _]; [unfold apart in *; lia|].
  destruct (header_frame m m1 bp nx S1) as [E2 _]; [unfold apart in *; lia|].
  rewrite E1, Hp, E2. split; [eapply same_outside_trans, set_ptr_same; done|].
  rewrite ptr_set_ptr, size_set_ptr by done. split; [done|]. by apply size_set_size.
Qed.

Lemma free_up_link m bp p nx :
  ptr m p = nx → hplus bp (size m bp) ≠ nx → 0 <= nx < 2 ^ 64 →
  same_outside m (free_up bp p m) bp (bp + HSIZE)
  ∧ ptr (free_up bp p m) bp = nx ∧ size (free_up bp p m) bp = size m bp.
Proof.
  intros Hp Hup Hnx. unfold free_up. rewrite Hp. apply Z.eqb_neq in Hup as ->.
  split; [apply set_ptr_same|]. rewrite ptr_set_ptr, size_set_ptr by done. done.
Qed.

Lemma free_down_spec m bp p :
  apart bp p → 0 <= bp < 2 ^ 64 → 0 <= ptr m bp < 2 ^ 64 → 0 <= size m p + size m bp < 2 ^ 32 →
  let down := hplus p (size m p) =? bp in
  same_outside m (free_down bp p m) p (p + HSIZE)
  ∧ ptr (free_down bp p m) p = (if down then ptr m bp else bp)
  ∧ size (free_down bp p m) p = (if down then size m p + size m bp else size m p).
Proof.
  intros Hap Hbp Hpb Hsz down. unfold free_down. fold down. destruct down; cbn zeta.
  - set (m1 := set_size p _ m). assert (S1 : same_outside m m1 p (p + HSIZE)) by apply set_size_same.
    destruct (header_frame m m1 p bp S1) as [E1 _]; [done|].
    rewrite E1. split; [eapply same_outside_trans, set_ptr_same; done|].
    rewrite ptr_set_ptr, size_set_ptr by done. split; [done|]. by apply size_set_size.
  - split; [apply set_ptr_same|]. rewrite ptr_set_ptr, size_set_ptr by done. done.
Qed.

(** ** The search of [free] *)

Section find.
Context (m : mem) (bp : Z).

(** The loop goes past [q], whose successor is [n]. *)
Definition passes (q n : Z) : Prop := (q < n ∧ (bp <= q ∨ n <= bp)) ∨ (n <= q ∧ bp <= q ∧ n <= bp).

Fixpoint all_pass (L : list Z) (e : Z) : Prop :=
  match L with
  | [] => True
  | q :: L => passes q (hd e L) ∧ all_pass L e
  end.

Lemma free_find_step fuel q : passes q (ptr m q) → free_find (S fuel) m bp q = free_find fuel m bp (ptr m q).
Proof.
  unfold passes. intros H. cbn [free_find].
  destruct (Z.ltb_spec q bp), (Z.ltb_spec bp (ptr m q)), (Z.leb_spec (ptr m q) q); cbn; try done; lia.
Qed.

Lemma free_find_run L e fuel :
  chain m L e → all_pass L e → free_find (length L + fuel) m bp (hd e L) = free_find fuel m bp e.
Proof.
  induction L as [|q L IH]; [done|]. cbn [chain all_pass]. intros [Hq HL] [Hp HLp].
  cbn [hd length]. change (S (length L) + fuel)%nat with (S (length L + fuel)).
  rewrite free_find_step by (by rewrite Hq). rewrite Hq. by apply IH.
Qed.

Lemma free_find_stop fuel q : (q < bp < ptr m q) ∨ (ptr m q <= q < bp) → free_find (S fuel) m bp q = Some q.
Proof.
  intros H. cbn [free_find].
  destruct (Z.ltb_spec q bp), (Z.ltb_spec bp (ptr m q)), (Z.leb_spec (ptr m q) q); cbn; try done; lia.
Qed.

(** The blocks before [bp] are passed, and so are those after it. *)
Lemma all_pass_low L p : StronglySorted Z.lt (L ++ [p]) → p < bp → all_pass L p.
Proof.
  intros HL Hp. induction L as [|q L IH]; [done|]. cbn [app] in HL. apply StronglySorted_inv in HL as [HL Hq].
  split; [|by apply IH]. rewrite Forall_app in Hq. destruct Hq as [Hq1 Hq2].
  assert (hd p L ≤ p). { destruct L as [|r L]; simpl; [lia|]. cbn [app] in HL. apply StronglySorted_inv in HL as [_ HL].
    rewrite Forall_app in HL. destruct HL as [_ HL]. inversion HL; lia. }
  left. split; [|lia]. destruct L as [|r L]; simpl; [by inversion Hq2|]. by inversion Hq1.
Qed.

Lemma all_pass_high L e : StronglySorted Z.lt L → Forall (λ q, bp < q) L → e < bp → all_pass L e.
Proof.
  intros HL Hb He. induction L as [|q L IH]; [done|]. apply StronglySorted_inv in HL as [HL Hq]. inversion Hb; subst.
  split; [|by apply IH]. unfold passes. destruct L as [|r L]; simpl; [lia|]. inversion Hq; subst. lia.
Qed.

Lemma sorted_app_inv (L1 L2 : list Z) : StronglySorted Z.lt (L1 ++ L2) →
  StronglySorted Z.lt L1 ∧ StronglySorted Z.lt L2 ∧ ∀ x y, x ∈ L1 → y ∈ L2 → x < y.
Proof.
  induction L1 as [|a L1 IH]; simpl; [intros; repeat split; [constructor|done|set_solver]|].
  intros [HL Ha]%StronglySorted_inv. destruct (IH HL) as (H1 & H2 & H3). rewrite Forall_app in Ha. destruct Ha as [Ha1 Ha2].
  split; [by constructor|]. split; [done|]. intros x y [->|Hx]%elem_of_cons Hy; [|by apply H3].
  rewrite list.Forall_forall in Ha2. by apply Ha2.
Qed.

(** The search ends at the last block before [bp], wherever it starts. *)
Lemma free_find_spec L1 p L2 e q fuel :
  chain m (L1 ++ p :: L2) e → e = hd p L1 → StronglySorted Z.lt (L1 ++ p :: L2) →
  p < bp → Forall (λ q, bp < q) L2 → q ∈ L1 ++ p :: L2 → (length (L1 ++ p :: L2) <= fuel)%nat →
  free_find fuel m bp q = Some p.
Proof.
  intros Hch He Hso Hp HL2 Hq Hfu. apply chain_app in Hch as [C1 [C2 C3]]. cbn [hd] in C1.
  assert (Hso' : StronglySorted Z.lt ((L1 ++ [p]) ++ L2)) by (by rewrite <-app_assoc).
  apply sorted_app_inv in Hso' as (S1 & S2 & _).
  assert (Elow : e ≤ p). { subst e. destruct L1 as [|r L1]; simpl; [lia|]. cbn [app] in S1.
    apply StronglySorted_inv in S1 as [_ S1]. rewrite Forall_app in S1. destruct S1 as [_ S1]. inversion S1; lia. }
  assert (Hstop : ∀ f, free_find (S f) m bp p = Some p).
  { intros f. apply free_find_stop. rewrite C2. destruct L2 as [|r L2]; simpl; [right; lia|left; inversion HL2; lia]. }
  assert (Hlow : ∀ f, free_find (length L1 + S f) m bp e = Some p).
  { intros f. rewrite He. rewrite free_find_run; [apply Hstop|done|]. by apply all_pass_low. }
  rewrite length_app in Hfu. cbn [length] in Hfu.
  apply elem_of_app in Hq as [Hq|[->|Hq]%elem_of_cons].
  - apply list_elem_of_split in Hq as (A & A' & ->). apply chain_app in C1 as [_ C1].
    rewrite <-app_assoc in S1. apply sorted_app_inv in S1 as (_ & S1 & _).
    rewrite length_app in Hfu. cbn [length] in Hfu.
    replace fuel with (length (q :: A') + S (fuel - length (q :: A') - 1))%nat by (cbn [length]; lia).
    etrans; [apply (free_find_run (q :: A') p)|apply Hstop]; [done|]. by apply all_pass_low.
  - destruct fuel; [lia|]. apply Hstop.
  - apply list_elem_of_split in Hq as (A & A' & ->). apply chain_app in C3 as [_ C3].
    apply sorted_app_inv in S2 as (_ & S2 & _). rewrite Forall_app in HL2. destruct HL2 as [_ HL2].
    rewrite length_app in Hfu. cbn [length] in Hfu.
    replace fuel with (length (q :: A') + (length L1 + S (fuel - length (q :: A') - length L1 - 1)))%nat by (cbn [length]; lia).
    etrans; [apply (free_find_run (q :: A') e)|apply Hlow]; [done|]. apply all_pass_high; [done|done|lia].
Qed.

End find.

(** ** The heap in memory *)

Lemma frees_range a B h : positive B → h ∈ frees a B → a <= h ∧ h + HSIZE <= a + span B.
Proof. intros HB Hh. apply hdrs_range; [done|]. by apply frees_hdrs. Qed.

Lemma frees_sorted a B : positive B → StronglySorted Z.lt (frees a B).
Proof.
  intros HB. revert a. induction HB as [|s B Hs HB IH]; intros a; [constructor|].
  destruct s as [n|n]; cbn [frees]; [|apply IH]. constructor; [apply IH|]. apply list.Forall_forall. intros h Hh.
  apply frees_range in Hh; [|done]. cbn in Hs. unfold HSIZE in *. lia.
Qed.

Section heap.
Context (base freep start : Z).

(** The static variables lie below the heap. *)
Record statics : Prop := {
  st_base : 0 < base;
  st_low : base + HSIZE <= start;
  st_freep : 0 <= freep;
  st_freep_low : freep + 8 <= start;
  st_apart : freep + 8 <= base ∨ base + HSIZE <= freep
}.

Record hmem (B : list seg) (m : mem) : Prop := {
  hm_pos : positive B;
  hm_top : start + span B <= RAM;
  hm_coal : coalesced B;
  hm_base : size m base = 0;
  hm_sizes : sizes m start B;
  hm_chain : chain m (base :: frees start B) base;
  hm_freep : ld64 m freep ∈ base :: frees start B
}.

(** Bytes that are not the allocator's: those of used segments and those
    below the heap that are not its variables. *)
Definition foreign (B : list seg) (x : Z) : Prop :=
  in_used start B x ∨ (x < start ∧ (x < base ∨ base + HSIZE <= x) ∧ (x < freep ∨ freep + 8 <= x)).

Lemma in_used_free C n D x : in_used start (C ++ Free n :: D) x → positive C → positive D → 1 <= n →
  start <= x ∧ (x < start + span C ∨ start + span C + HSIZE * n <= x).
Proof.
  intros (C' & k & D' & E & Hx) HC HD Hn. pose proof (span_nonneg C HC).
  assert (HB : positive (C ++ Free n :: D)) by (apply Forall_app; split; [done|by constructor]).
  rewrite E in HB. apply Forall_app in HB as [HC' HB]. pose proof (span_nonneg C' HC'). split; [lia|].
  apply app_eq_inv in E as [(F & E1 & E2)|(F & E1 & E2)].
  - destruct F as [|s F]; [by simplify_eq/=|]. cbn in E2. injection E2 as <- E2. subst C. left.
    rewrite span_app. cbn. apply Forall_app in HC as [_ HC]. inversion HC; subst. pose proof (span_nonneg F ltac:(done)). lia.
  - destruct F as [|s F]; [by simplify_eq/=|]. cbn in E2. injection E2 as <- E2. subst C'. right. rewrite span_app in Hx. cbn in Hx.
    apply Forall_app in HC' as [_ HC']. inversion HC'; subst. pose proof (span_nonneg F ltac:(done)). lia.
Qed.

Context (ST : statics).

Lemma node_range B m h : hmem B m → h ∈ base :: frees start B → 0 < h ∧ h + HSIZE <= start + span B ∧ (h = base ∨ start <= h).
Proof using ST.
  intros Hm [->|Hh]%elem_of_cons; destruct ST.
  - pose proof (span_nonneg B (hm_pos _ _ Hm)). lia.
  - apply frees_range in Hh; [|apply Hm]. unfold HSIZE in *. lia.
Qed.

(** The heap around a used segment. *)
Record around (C : list seg) (n : Z) (D : list seg) (m : mem) : Prop := {
  ar_C : positive C; ar_D : positive D; ar_n : 1 <= n;
  ar_coal : coalesced C ∧ coalesced D;
  ar_sizes : sizes m start C ∧ size m (start + span C) = n ∧ sizes m (start + span C + HSIZE * n) D;
  ar_low : chain m (base :: frees start C) (hd base (frees (start + span C + HSIZE * n) D));
  ar_high : chain m (frees (start + span C + HSIZE * n) D) base
}.

Lemma hmem_around C n D m : hmem (C ++ Used n :: D) m → around C n D m.
Proof.
  intros [Hp _ Hc _ Hs Hch _]. apply Forall_app in Hp as [HC HD]. inversion HD; subst.
  apply coalesced_mid in Hc as (c1 & c2 & _). apply sizes_app in Hs as [s1 [s2 s3]].
  rewrite frees_app in Hch. cbn [frees] in Hch. rewrite app_comm_cons in Hch. apply chain_app in Hch as [h1 h2].
  by split.
Qed.

Lemma hd_frees_range a D :
  positive D → hd base (frees a D) = base ∨ (a <= hd base (frees a D) ∧ hd base (frees a D) + HSIZE <= a + span D).
Proof.
  intros HD. destruct (frees a D) as [|r L] eqn:EL; [by left|right]. cbn [hd]. apply frees_range; [done|]. rewrite EL. set_solver.
Qed.

(** A free segment that does not come first lies above. *)
Lemma hd_frees_gap a D : positive D → starts_free D = false → hd base (frees a D) = base ∨ a < hd base (frees a D).
Proof.
  destruct D as [|[k|k] D]; intros HD Hs; [by left|done|]. inversion HD; subst. cbn [frees].
  destruct (hd_frees_range (a + HSIZE * k) D ltac:(done)) as [E|E]; [by left|right]. cbn in *. unfold HSIZE in *. lia.
Qed.

Lemma chain_ptr_range m L e h : chain m L e → h ∈ L → ptr m h ∈ L ∨ ptr m h = e.
Proof.
  induction L as [|a L IH]; [by intros _ ?%elem_of_nil|]. cbn [chain]. intros [Ha HL] [->|Hh]%elem_of_cons.
  - rewrite Ha. destruct L; cbn; [by right|left; set_solver].
  - destruct (IH HL Hh); [left; set_solver|by right].
Qed.

(** Joining upwards gives the segments of [join_up]. *)
Lemma join_up_spec C n D m p :
  let bp := start + span C in
  hmem (C ++ Used n :: D) m → p + HSIZE <= bp → ptr m p = hd base (frees (bp + HSIZE * n) D) →
  ∃ N D', join_up n D = Free N :: D' ∧ 1 <= N ∧ positive D' ∧ HSIZE * N + span D' = HSIZE * n + span D
    ∧ coalesced D' ∧ starts_free D' = false
    ∧ same_outside m (free_up bp p m) bp (bp + HSIZE)
    ∧ ptr (free_up bp p m) bp = hd base (frees (bp + HSIZE * N) D') ∧ size (free_up bp p m) bp = N
    ∧ sizes m (bp + HSIZE * N) D' ∧ chain m (frees (bp + HSIZE * N) D') base.
Proof using ST.
  intros bp Hm Hp Hpn. pose proof (hmem_around _ _ _ _ Hm) as [HC HD Hn [c1 c2] (s1 & s2 & s3) h1 h2]. fold bp in s2, s3, h1, h2.
  pose proof (hm_top _ _ Hm) as Htop. rewrite span_app in Htop. cbn [span units] in Htop.
  pose proof (span_nonneg C HC). pose proof (span_nonneg D HD). destruct ST as [b1 b2 b3 b4 _].
  assert (Hbp : bp = start + span C) by done. clearbody bp. unfold RAM, HSIZE in *.
  assert (Eh : hplus bp (size m bp) = bp + HSIZE * n) by (rewrite s2; apply hplus_small; unfold HSIZE; lia).
  destruct (starts_free D) eqn:ED.
  - destruct D as [|[k|k] D']; [done| |done]. cbn [frees hd] in Hpn. inversion HD as [|? ? Hk HD']; subst x l. cbn [units] in Hk.
    destruct s3 as [s3 s4]. destruct h2 as [h2 h3]. cbn [units span] in *. unfold HSIZE in *.
    pose proof (span_nonneg D' HD').
    destruct (free_up_join m bp p (bp + 16 * n)) as (F1 & F2 & F3); unfold apart, HSIZE; try done; try lia.
    { rewrite h2. destruct (hd_frees_range (bp + 16 * n + 16 * k) D' HD') as [->|]; unfold HSIZE in *; lia. }
    exists (n + k), D'. cbn [join_up]. destruct (proj1 (coalesced_mid [] (Free k) D') c2) as (_ & c4 & c3).
    replace (bp + 16 * (n + k)) with (bp + 16 * n + 16 * k) by lia.
    split_and!; try done; [lia|lia|by apply c3|by rewrite F2|lia].
  - assert (EJ : join_up n D = Free n :: D) by (by destruct D as [|[]]).
    destruct (free_up_link m bp p (hd base (frees (bp + 16 * n) D))) as (F1 & F2 & F3); try done.
    { rewrite Eh. destruct (hd_frees_gap (bp + 16 * n) D HD ED) as [->|]; unfold HSIZE; lia. }
    { destruct (hd_frees_range (bp + 16 * n) D HD) as [->|]; unfold HSIZE in *; lia. }
    exists n, D. split_and!; done || lia.
Qed.

(** A free node is the header of a free segment. *)
Lemma frees_split a B h : h ∈ frees a B → ∃ C n D, B = C ++ Free n :: D ∧ h = a + span C.
Proof.
  revert a. induction B as [|[n|n] B IH]; intros a; cbn [frees]; [by intros ?%elem_of_nil| |].
  - intros [->|Hh]%elem_of_cons; [exists [], n, B; cbn; split; [done|lia]|].
    destruct (IH _ Hh) as (C & k & D & -> & ->). exists (Free n :: C), k, D. cbn. split; [done|lia].
  - intros Hh. destruct (IH _ Hh) as (C & k & D & -> & ->). exists (Used n :: C), k, D. cbn. split; [done|lia].
Qed.

Lemma hdrs_apart a B h q : positive B → h ∈ hdrs a B → q ∈ hdrs a B → h = q ∨ apart h q.
Proof.
  intros HB. revert a. induction HB as [|s B Hs HB IH]; intros a; cbn [hdrs]; [by intros ?%elem_of_nil|].
  unfold apart, HSIZE in *.
  intros [->|Hh]%elem_of_cons [->|Hq]%elem_of_cons; [by left| | |by apply (IH _ Hh)].
  - apply hdrs_range in Hq; [|done]. unfold HSIZE in *. lia.
  - apply hdrs_range in Hh; [|done]. unfold HSIZE in *. lia.
Qed.

Lemma foreign_node B x h : positive B → foreign B x → h ∈ base :: frees start B → x < h ∨ h + HSIZE <= x.
Proof using ST.
  intros HB Hx [->|Hh]%elem_of_cons.
  - destruct Hx as [(C & n & D & -> & Hx)|Hx]; [|tauto]. apply Forall_app in HB as [HC _].
    pose proof (span_nonneg C HC). destruct ST. unfold HSIZE in *. lia.
  - destruct (frees_split _ _ _ Hh) as (C & n & D & -> & ->). apply Forall_app in HB as [HC HD]. inversion HD as [|? ? Hn HD']; subst. cbn in Hn.
    destruct Hx as [Hx|Hx].
    + destruct (in_used_free C n D x Hx HC HD' Hn). unfold HSIZE in *. lia.
    + pose proof (span_nonneg C HC). pose proof (span_nonneg D HD'). unfold HSIZE in *. lia.
Qed.

Lemma foreign_freep B x : positive B → foreign B x → x < freep ∨ freep + 8 <= x.
Proof using ST.
  intros HB [(C & n & D & -> & Hx)|Hx]; [|tauto]. apply Forall_app in HB as [HC _].
  pose proof (span_nonneg C HC). destruct ST. unfold HSIZE in *. lia.
Qed.

(** Writing [freep] touches no header. *)
Lemma freep_frame m v h : h = base ∨ start <= h → ptr (sd64 m freep v) h = ptr m h ∧ size (sd64 m freep v) h = size m h.
Proof using ST.
  intros Hh. destruct ST. unfold ptr, size, HSIZE in *. split; [apply ld64_ext|apply ld32_ext]; intros x Hx; apply sd64_out; lia.
Qed.

(** A block joined to its lower neighbour, or linked after the node [p]. *)
Lemma down_test C m p : positive C → sizes m start C → size m base = 0 → start + span C <= RAM →
  p ∈ base :: frees start C → ends_free C = false → hplus p (size m p) ≠ start + span C.
Proof using ST.
  intros HC Hs Hb Ht Hp He. pose proof (span_nonneg C HC). destruct ST as [b1 b2 _ _ _]. unfold RAM in *.
  apply elem_of_cons in Hp as [->|Hp].
  - rewrite Hb, hplus_small; unfold HSIZE in *; lia.
  - destruct (frees_split _ _ _ Hp) as (C1 & j & C2 & -> & ->). apply sizes_app in Hs as [_ [Hj _]]. rewrite Hj. cbn [units].
    apply Forall_app in HC as [HC1 HC2]. inversion HC2 as [|? ? Hj1 HC2']; subst. cbn in Hj1.
    pose proof (span_nonneg C1 HC1). pose proof (span_nonneg C2 HC2'). rewrite span_app in *. cbn [span units] in *.
    assert (0 < span C2).
    { destruct C2 as [|s C2]; [by rewrite ends_free_snoc in He|]. inversion HC2' as [|? ? Hs1 HC2'']; subst. cbn. pose proof (span_nonneg C2 HC2''). unfold HSIZE. lia. }
    rewrite hplus_small; unfold HSIZE in *; lia.
Qed.
Lemma hmem_build C K D m :
  let a := start + span C in
  positive C → 1 <= K → positive D → a + HSIZE * K + span D <= RAM →
  coalesced C → coalesced D → ends_free C = false → starts_free D = false → size m base = 0 →
  sizes m start C → size m a = K → sizes m (a + HSIZE * K) D →
  chain m (base :: frees start C) a → ptr m a = hd base (frees (a + HSIZE * K) D) → chain m (frees (a + HSIZE * K) D) base →
  ld64 m freep ∈ base :: frees start (C ++ Free K :: D) →
  hmem (C ++ Free K :: D) m.
Proof.
  intros a HC HK HD Ht cC cD eC sD Hb sC sK sD' h1 h2 h3 Hf. split; try done.
  - apply Forall_app. split; [done|by constructor].
  - rewrite span_app. cbn. unfold a in Ht. lia.
  - by apply coalesced_mid.
  - apply sizes_app. done.
  - rewrite frees_app. cbn [frees]. rewrite app_comm_cons. apply chain_app. done.
Qed.

Lemma base_apart B h : h ∈ hdrs start B → positive B → apart base h.
Proof using ST. intros Hh HB. apply hdrs_range in Hh; [|done]. left. destruct ST. lia. Qed.

Lemma node_size C m h : positive C → sizes m start C → size m base = 0 → h ∈ base :: frees start C → 0 <= size m h ∧ HSIZE * size m h <= span C.
Proof.
  intros HC Hs Hb [->|Hh]%elem_of_cons; [rewrite Hb; pose proof (span_nonneg C HC); lia|].
  destruct (frees_split _ _ _ Hh) as (C1 & j & C2 & -> & ->). apply sizes_app in Hs as [_ [-> _]]. cbn [units].
  apply Forall_app in HC as [HC1 HC2]. inversion HC2 as [|? ? Hj1 HC2']; subst. cbn in Hj1.
  pose proof (span_nonneg C1 HC1). pose proof (span_nonneg C2 HC2'). rewrite span_app. cbn [span units]. lia.
Qed.

Lemma node_below C h : positive C → h ∈ base :: frees start C → 0 < h ∧ h + HSIZE <= start + span C ∧ (h = base ∨ start <= h).
Proof using ST.
  intros HC Hh. pose proof (span_nonneg C HC). destruct ST. apply elem_of_cons in Hh as [->|Hh]; [lia|].
  apply frees_range in Hh; [|done]. unfold HSIZE in *. lia.
Qed.

(** The memory [m'] after [free], header by header: [p] is the node before the
    block, [N] the size of the block after joining upwards, [D'] the segments above. *)
Record freed_mem (C : list seg) (n : Z) (D : list seg) (m : mem) (p N : Z) (D' : list seg) (m' : mem) : Prop := {
  fm_node : p ∈ base :: frees start C;
  fm_join : join_up n D = Free N :: D';
  fm_pos : 1 <= N ∧ positive D';
  fm_top : start + span C + HSIZE * N + span D' <= RAM;
  fm_coal : coalesced D' ∧ starts_free D' = false;
  fm_above : sizes m (start + span C + HSIZE * N) D' ∧ chain m (frees (start + span C + HSIZE * N) D') base;
  fm_other h : apart h (start + span C) → apart h p → h = base ∨ start <= h → ptr m' h = ptr m h ∧ size m' h = size m h;
  fm_p : ptr m' p = (if hplus p (size m p) =? start + span C then hd base (frees (start + span C + HSIZE * N) D') else start + span C)
       ∧ size m' p = (if hplus p (size m p) =? start + span C then size m p + N else size m p);
  fm_bp : ptr m' (start + span C) = hd base (frees (start + span C + HSIZE * N) D') ∧ size m' (start + span C) = N;
  fm_freep : ld64 m' freep = p;
  fm_bytes x : x < start + span C ∨ start + span C + HSIZE <= x → x < p ∨ p + HSIZE <= x → x < freep ∨ freep + 8 <= x → m' x = m x
}.

Lemma free_mem_facts C n D m p :
  let bp := start + span C in
  hmem (C ++ Used n :: D) m → p ∈ base :: frees start C → ptr m p = hd base (frees (bp + HSIZE * n) D) →
  ∃ N D', freed_mem C n D m p N D' (sd64 (free_down bp p (free_up bp p m)) freep p).
Proof using ST.
  intros bp Hm Np Hpn. pose proof (hmem_around _ _ _ _ Hm) as [HC HD Hn _ (sC & sbp & _) _ _]. fold bp in sbp.
  pose proof (hm_top _ _ Hm) as Htop. rewrite span_app in Htop. cbn [span units] in Htop.
  pose proof (span_nonneg C HC). pose proof (span_nonneg D HD).
  destruct (node_below C p HC Np) as (P1 & P2 & P3). fold bp in P2.
  destruct (node_size C m p HC sC (hm_base _ _ Hm) Np) as [Z1 Z2].
  destruct (join_up_spec C n D m p Hm P2 Hpn) as (N & D' & EJ & HN & HD' & Esp & cD' & fD' & F1 & F2 & F3 & sD' & hD').
  fold bp in F1, F2, F3, sD', hD'. pose proof (span_nonneg D' HD') as HspD'.
  exists N, D'. assert (Hbp : bp = start + span C) by done. clearbody bp.
  assert (Bst : start <= bp ∧ bp + HSIZE * N + span D' <= RAM ∧ 0 < start) by (destruct ST; unfold HSIZE in *; lia).
  set (m1 := free_up bp p m) in *.
  assert (Hb1 : ∀ h, apart h bp → ptr m1 h = ptr m h ∧ size m1 h = size m h) by (intros; by apply (header_frame m m1 bp)).
  destruct (Hb1 p) as [_ Sp1]; [by left|].
  destruct (free_down_spec m1 bp p) as (G1 & G2 & G3).
  { right; done. } { unfold RAM, HSIZE in *. lia. }
  { rewrite F2. destruct (hd_frees_range (bp + HSIZE * N) D' HD') as [->|]; unfold RAM, HSIZE in *; destruct ST; unfold HSIZE in *; lia. }
  { rewrite Sp1, F3. unfold RAM, HSIZE in *. lia. }
  rewrite Sp1 in G2, G3. rewrite F2 in G2. rewrite F3 in G3. set (m2 := free_down bp p m1) in *.
  destruct (header_frame m1 m2 p bp G1) as [Eb1 Eb2]; [by right|].
  destruct (freep_frame m2 p p) as [Ef1 Ef2]; [tauto|]. destruct (freep_frame m2 p bp) as [Ef3 Ef4]; [tauto|].
  split; rewrite <-?Hbp; try done; try tauto; try (split; congruence).
  - intros h Ha Hb Hc. destruct (freep_frame m2 p h Hc) as [-> ->]. destruct (header_frame m1 m2 p h G1 Hb) as [-> ->]. by apply Hb1.
  - rewrite ld64_sd64. apply u64_small. clear - P1 P2 Bst HspD' HN. unfold RAM, HSIZE in *. lia.
  - intros x Hx1 Hx2 Hx3. rewrite sd64_out by done. rewrite G1 by done. by apply F1.
Qed.

Section freed.
Context (C : list seg) (n : Z) (D : list seg) (m : mem) (p N : Z) (D' : list seg) (m' : mem).
Context (Hm : hmem (C ++ Used n :: D) m) (F : freed_mem C n D m p N D' m').

Lemma freed_above h : h ∈ hdrs (start + span C + HSIZE * N) D' → ptr m' h = ptr m h ∧ size m' h = size m h.
Proof using ST Hm F.
  destruct F as [Np _ [HN HD'] _ _ _ Hoth _ _ _ _]. pose proof (hmem_around _ _ _ _ Hm) as [HC _ _ _ _ _ _].
  destruct (node_below C p HC Np) as (P1 & P2 & P3). pose proof (span_nonneg C HC).
  intros Hh. apply hdrs_range in Hh; [|done]. unfold HSIZE in *. apply Hoth; unfold apart, HSIZE; lia.
Qed.

(** A node other than [p] keeps its header. *)
Lemma freed_node h : h ∈ base :: hdrs start C → h ≠ p → ptr m' h = ptr m h ∧ size m' h = size m h.
Proof using ST Hm F.
  destruct F as [Np _ _ _ _ _ Hoth _ _ _ _]. pose proof (hmem_around _ _ _ _ Hm) as [HC _ _ _ _ _ _].
  destruct (node_below C p HC Np) as (P1 & P2 & P3). pose proof (span_nonneg C HC). pose proof ST as [? ? _ _ _].
  intros Hh Hne.
  assert (Hr : h + HSIZE <= start + span C ∧ (h = base ∨ start <= h)).
  { apply elem_of_cons in Hh as [->|Hh]; [lia|]. apply hdrs_range in Hh; [lia|done]. }
  destruct Hr as [Hr1 Hr2]. apply Hoth; [by left| |done]. apply elem_of_cons in Hh as [->|Hh].
  - left. destruct P3 as [->|]; [done|lia].
  - apply elem_of_cons in Np as [->|Np]; [right; apply hdrs_range in Hh; [lia|done]|].
    destruct (hdrs_apart start C h p HC Hh (frees_hdrs _ _ _ Np)); done.
Qed.

(** The lower neighbour is free and takes the block. *)
Lemma freed_join C' j : C = C' ++ [Free j] → p = start + span C' → hmem (freed C n D) m'.
Proof using ST Hm F.
  intros EC Ep. pose proof (hmem_around _ _ _ _ Hm) as [HC _ _ [cC _] (sC & _ & _) hC _]. pose proof freed_above as Hab. pose proof freed_node as Hno.
  destruct F as [_ EJ [HN HD'] Ht [cD' fD'] [sD' hD'] _ [Pp Sp] _ Ef _]. subst C.
  rewrite frees_app in hC. cbn [frees] in hC. rewrite app_comm_cons in hC. apply chain_app in hC as [hC _]. cbn [hd] in hC. rewrite <-Ep in hC.
  rewrite freed_free, EJ. apply sizes_app in sC as [sC' [sj _]]. cbn [units] in sj. rewrite <-Ep in sj.
  apply Forall_app in HC as [HC' Hj]. apply list.Forall_cons in Hj as [Hj _]. cbn in Hj.
  apply coalesced_mid in cC as (cC' & _ & eC'). destruct (eC' I) as [eC'' _].
  pose proof (span_nonneg C' HC'). pose proof (span_nonneg D' HD'). pose proof ST as [? ? _ _ _].
  rewrite span_app in *. cbn [span units] in *. set (bp := start + (span C' + (HSIZE * j + 0))) in *.
  assert (Ebp : bp = p + HSIZE * j) by (unfold bp; lia).
  assert (Ed : hplus p (size m p) =? bp = true) by (rewrite sj, hplus_small; unfold RAM, HSIZE in *; [apply Z.eqb_eq; lia|lia]).
  rewrite Ed in Pp, Sp. assert (Ebp' : bp + HSIZE * N = p + HSIZE * (j + N)) by lia. rewrite Ebp' in *.
  assert (Hlow : ∀ h, h ∈ base :: hdrs start C' → ptr m' h = ptr m h ∧ size m' h = size m h).
  { intros h Hh. apply Hno; [rewrite hdrs_app; set_solver|]. apply elem_of_cons in Hh as [->|Hh]; [unfold HSIZE in *; lia|].
    apply hdrs_range in Hh; [|done]. unfold HSIZE in *. lia. }
  apply hmem_build; rewrite <-?Ep; try done; try lia.
  - rewrite (proj2 (Hlow base ltac:(set_solver))). apply Hm.
  - eapply sizes_ext; [done|]. intros h Hh. apply Hlow. set_solver.
  - eapply sizes_ext; [done|]. intros h Hh. by apply Hab.
  - eapply nodes_ext; [done|]. intros h Hh. apply Hlow. pose proof (frees_hdrs start C' h). set_solver.
  - eapply nodes_ext; [done|]. intros h Hh. apply Hab. by apply frees_hdrs.
  - rewrite Ef, frees_app. cbn [frees]. rewrite <-Ep. set_solver.
Qed.

(** The block becomes a node of its own after [p]. *)
Lemma freed_link L1 : ends_free C = false → base :: frees start C = L1 ++ [p] → hmem (freed C n D) m'.
Proof using ST Hm F.
  intros He HL. pose proof (hmem_around _ _ _ _ Hm) as [HC _ _ [cC _] (sC & _ & _) hC _]. pose proof freed_above as Hab. pose proof freed_node as Hno.
  destruct F as [Np EJ [HN HD'] Ht [cD' fD'] [sD' hD'] _ [Pp Sp] [Pb Sb] Ef _].
  rewrite HL in hC. apply chain_app in hC as [hC _]. cbn [hd] in hC. pose proof (span_nonneg D' HD'). pose proof ST as [? ? _ _ _].
  assert (Ed : hplus p (size m p) =? start + span C = false).
  { apply Z.eqb_neq. apply down_test; try done; [apply Hm|]. unfold HSIZE in *. lia. }
  rewrite Ed in Pp, Sp. rewrite freed_used, EJ by done.
  assert (So : StronglySorted Z.lt (L1 ++ [p])).
  { rewrite <-HL. constructor; [by apply frees_sorted|]. apply list.Forall_forall. intros x Hx. apply frees_range in Hx; [|done]. unfold HSIZE in *. lia. }
  apply sorted_app_inv in So as (_ & _ & So).
  apply hmem_build; try done.
  - destruct (decide (base = p)) as [<-|Hne]; [rewrite Sp|rewrite (proj2 (Hno base ltac:(set_solver) Hne))]; apply Hm.
  - eapply sizes_ext; [done|]. intros h Hh. destruct (decide (h = p)) as [->|Hne]; [done|]. apply Hno; set_solver.
  - eapply sizes_ext; [done|]. intros h Hh. by apply Hab.
  - rewrite HL. apply chain_app. split; [|done]. cbn [hd]. eapply nodes_ext; [done|]. intros h Hh.
    assert (Hh' : h ∈ base :: frees start C) by (rewrite HL; set_solver).
    apply Hno; [pose proof (frees_hdrs start C h); set_solver|]. specialize (So h p Hh ltac:(set_solver)). lia.
  - eapply nodes_ext; [done|]. intros h Hh. apply Hab. by apply frees_hdrs.
  - rewrite Ef, frees_app. set_solver.
Qed.

Lemma freed_bytes x : foreign (C ++ Free n :: D) x → m' x = m x.
Proof using ST Hm F.
  intros Hx. pose proof (hmem_around _ _ _ _ Hm) as [HC HD Hn _ _ _ _].
  assert (HB : positive (C ++ Free n :: D)) by (apply Forall_app; split; [done|by constructor]).
  apply F; [| |by apply (foreign_freep _ _ HB)]; apply (foreign_node _ _ _ HB Hx); rewrite frees_app; cbn [frees];
    pose proof (fm_node _ _ _ _ _ _ _ _ F); set_solver.
Qed.

End freed.

(** [free] in memory is [freed] on the segments. *)
Lemma nodes_snoc C : ∃ L1 p, base :: frees start C = L1 ++ [p].
Proof. destruct (frees start C) as [|x l _] using rev_ind; [by exists [], base|exists (base :: l), x; done]. Qed.

Lemma nodes_sorted B : positive B → StronglySorted Z.lt (base :: frees start B).
Proof using ST.
  intros HB. constructor; [by apply frees_sorted|]. apply list.Forall_forall. intros x Hx. apply frees_range in Hx; [|done].
  destruct ST. unfold HSIZE in *. lia.
Qed.

Lemma free_links C n D m p L1 :
  let bp := start + span C in
  hmem (C ++ Used n :: D) m → base :: frees start C = L1 ++ [p] →
  let m' := sd64 (free_down bp p (free_up bp p m)) freep p in
  hmem (freed C n D) m' ∧ ld64 m' freep = p ∧ ∀ x, foreign (C ++ Free n :: D) x → m' x = m x.
Proof using ST.
  intros bp Hm HL m'. pose proof (hmem_around _ _ _ _ Hm) as [_ _ _ _ _ h1 _]. fold bp in h1.
  assert (Np : p ∈ base :: frees start C) by (rewrite HL; set_solver).
  rewrite HL in h1. apply chain_app in h1 as [_ [hp _]].
  destruct (free_mem_facts C n D m p Hm Np hp) as (N & D' & F). fold bp m' in F.
  split; [|split; [apply F|by apply (freed_bytes _ _ _ _ _ _ _ _ Hm F)]].
  destruct (ends_free_cases C) as [(C' & j & EC)|He].
  - eapply freed_join; [done|done|done|]. subst C. rewrite frees_app in HL. cbn [frees] in HL. rewrite app_comm_cons in HL.
    by apply app_inj_tail in HL as [_ <-].
  - by eapply freed_link.
Qed.

Lemma frees_length a B : (length (frees a B) <= length B)%nat.
Proof. revert a. induction B as [|[n|n] B IH]; intros a; cbn; [lia| |]; specialize (IH (a + HSIZE * n)); lia. Qed.

(** The search of [free] finds the node before the block. *)
Lemma free_search C n D m p L1 fuel :
  hmem (C ++ Used n :: D) m → base :: frees start C = L1 ++ [p] → (S (length (C ++ D)) <= fuel)%nat →
  free_find fuel m (start + span C) (ld64 m freep) = Some p.
Proof using ST.
  intros Hm HL Hfu. pose proof (hm_chain _ _ Hm) as Hch. pose proof (hm_freep _ _ Hm) as Hf.
  pose proof (nodes_sorted _ (hm_pos _ _ Hm)) as Hso. pose proof (hmem_around _ _ _ _ Hm) as [HC HD Hn _ _ _ _].
  rewrite frees_app, app_comm_cons in Hch, Hf, Hso. rewrite HL in Hch, Hf, Hso. cbn [frees] in Hch, Hf, Hso.
  set (E := start + span C + HSIZE * n) in *. rewrite <-app_assoc in Hch, Hf, Hso. cbn [app] in Hch, Hf, Hso.
  assert (Np : p ∈ base :: frees start C) by (rewrite HL; set_solver). destruct (node_below C p HC Np) as (P1 & P2 & P3).
  apply (free_find_spec m (start + span C) L1 p (frees E D) base); try done.
  - destruct L1 as [|x L1]; injection HL; done.
  - unfold HSIZE in *. lia.
  - apply list.Forall_forall. intros h Hh. apply frees_range in Hh; [|done]. unfold E, HSIZE in *. lia.
  - apply (f_equal length) in HL. rewrite length_app in HL. cbn [length] in HL. rewrite !length_app in *. cbn [length].
    pose proof (frees_length start C). pose proof (frees_length E D). lia.
Qed.

(** Taking a whole segment unlinks its node. *)
Lemma take_all C k D m p L1 :
  hmem (C ++ Free k :: D) m → base :: frees start C = L1 ++ [p] →
  let m' := sd64 (set_ptr p (ptr m (start + span C)) m) freep p in
  hmem (C ++ Used k :: D) m' ∧ ∀ x, foreign (C ++ Free k :: D) x → m' x = m x.
Proof using ST.
  intros Hm HL m'. set (a := start + span C) in *. destruct Hm as [Hp Ht Hc Hb Hs Hch Hf].
  pose proof Hp as HB. pose proof Hp as Hp'. apply Forall_app in Hp' as [HC HD]. inversion HD as [|? ? Hk HD']; subst. cbn in Hk.
  assert (Np : p ∈ base :: frees start C) by (rewrite HL; set_solver). destruct (node_below C p HC Np) as (P1 & P2 & P3). fold a in P2.
  apply coalesced_mid in Hc as (cC & cD & _). rewrite frees_app in Hch. cbn [frees] in Hch. fold a in Hch. rewrite app_comm_cons, HL in Hch.
  apply chain_app in Hch as [hL [ha hD]]. apply chain_app in hL as [hL _]. cbn [hd] in hL.
  pose proof (span_nonneg C HC). pose proof (span_nonneg D HD') as HsD. rewrite span_app in Ht. cbn [span units] in Ht. pose proof ST as [? ? _ _ _].
  assert (Pv : 0 <= ptr m a < 2 ^ 64).
  { rewrite ha. destruct (hd_frees_range (a + HSIZE * k) D HD') as [->|]; unfold RAM, a, HSIZE in *; lia. }
  assert (Hsz : ∀ h, h = p ∨ apart h p → h = base ∨ start <= h → size m' h = size m h).
  { intros h Hh Hr. unfold m'. destruct (freep_frame (set_ptr p (ptr m a) m) p h Hr) as [_ ->].
    destruct Hh as [->|Hh]; [apply size_set_ptr|]. by apply (header_frame _ _ p h (set_ptr_same _ _ _)). }
  assert (Hpt : ∀ h, apart h p → h = base ∨ start <= h → ptr m' h = ptr m h).
  { intros h Hh Hr. unfold m'. destruct (freep_frame (set_ptr p (ptr m a) m) p h Hr) as [-> _].
    by apply (header_frame _ _ p h (set_ptr_same _ _ _)). }
  assert (Hap : ∀ h, h ∈ hdrs start (C ++ Used k :: D) → h = p ∨ apart h p).
  { intros h Hh. apply elem_of_cons in Np as [->|Np].
    - right. apply hdrs_range in Hh; [|by apply Forall_app; split; [done|constructor]]. right. lia.
    - apply (hdrs_apart start (C ++ Used k :: D)); [apply Forall_app; split; [done|by constructor]|done|]. rewrite hdrs_app. pose proof (frees_hdrs _ _ _ Np). set_solver. }
  split.
  - split.
    + apply Forall_app. split; [done|by constructor].
    + rewrite span_app. done.
    + apply coalesced_mid. done.
    + rewrite Hsz; [done| |by left]. destruct P3 as [->|]; [by left|right; left; lia].
    + eapply sizes_ext; [apply sizes_app in Hs; by apply sizes_app|]. intros h Hh. apply Hsz; [by apply Hap|right].
      apply hdrs_range in Hh; [lia|]. apply Forall_app; split; [done|by constructor].
    + rewrite frees_app. cbn [frees]. fold a. rewrite app_comm_cons, HL. apply chain_app. split; [apply chain_app; split|].
      * cbn [hd]. eapply nodes_ext; [done|]. intros h Hh. pose proof (nodes_sorted C HC) as So. rewrite HL in So.
        apply sorted_app_inv in So as (_ & _ & So). specialize (So h p Hh ltac:(set_solver)).
        assert (Hh' : h ∈ base :: frees start C) by (rewrite HL; set_solver). destruct (node_below C h HC Hh') as (N1 & N2 & N3).
        apply Hpt; [|done]. apply elem_of_cons in Hh' as [->|Hh'].
        -- destruct P3 as [->|]; [lia|left; lia].
        -- destruct (Hap h); [rewrite hdrs_app; pose proof (frees_hdrs _ _ _ Hh'); set_solver|lia|done].
      * cbn. split; [|done]. unfold m'. destruct (freep_frame (set_ptr p (ptr m a) m) p p P3) as [-> _]. by rewrite ptr_set_ptr.
      * eapply nodes_ext; [done|]. intros h Hh. apply frees_range in Hh; [|done]. apply Hpt; [right|right]; unfold a, HSIZE in *; lia.
    + unfold m'. rewrite ld64_sd64, u64_small by (unfold RAM, a, HSIZE in *; lia). rewrite frees_app. set_solver.
  - intros x Hx. unfold m'. rewrite sd64_out by (by apply (foreign_freep _ _ HB)). apply set_ptr_same. apply (foreign_node _ _ _ HB Hx).
    rewrite frees_app. set_solver.
Qed.

(** Taking the tail of a segment leaves the list alone. *)
Lemma take_tail C n k D m p :
  hmem (C ++ Free n :: D) m → p ∈ base :: frees start C → 1 <= k < n →
  let a := start + span C in
  let m' := sd64 (set_size (a + HSIZE * (n - k)) k (set_size a (n - k) m)) freep p in
  hmem (C ++ Free (n - k) :: Used k :: D) m' ∧ ∀ x, foreign (C ++ Free n :: D) x → m' x = m x.
Proof using ST.
  intros Hm Np Hk a m'. destruct Hm as [HB Ht Hc Hb Hs Hch Hf]. pose proof HB as HB'.
  apply Forall_app in HB' as [HC HD]. inversion HD as [|? ? Hn HD']; subst. cbn in Hn.
  destruct (node_below C p HC Np) as (P1 & P2 & P3). fold a in P2.
  pose proof (span_nonneg C HC). pose proof (span_nonneg D HD'). rewrite span_app in Ht. cbn [span units] in Ht. pose proof ST as [? ? ? ? _].
  set (b := a + HSIZE * (n - k)) in *.
  assert (Hout : ∀ x, x < a ∨ b + HSIZE <= x ∨ (a + HSIZE <= x < b) → x < freep ∨ freep + 8 <= x → m' x = m x).
  { intros x Hx Hx'. unfold m'. rewrite sd64_out by done. unfold b, HSIZE in *. rewrite set_size_same, set_size_same by (unfold HSIZE; lia). done. }
  assert (Hoth : ∀ h, h = base ∨ (start <= h ∧ h + HSIZE <= a) ∨ b + HSIZE <= h → ptr m' h = ptr m h ∧ size m' h = size m h).
  { intros h Hh. unfold m'. destruct (freep_frame (set_size b k (set_size a (n - k) m)) p h) as [-> ->]; [unfold a, b, HSIZE in *; lia|].
    destruct (header_frame (set_size a (n - k) m) (set_size b k (set_size a (n - k) m)) b h (set_size_same _ _ _)) as [-> ->]; [unfold apart, b, a, HSIZE in *; lia|].
    apply (header_frame m (set_size a (n - k) m) a h (set_size_same _ _ _)). unfold apart, b, a, HSIZE in *. lia. }
  destruct (freep_frame (set_size b k (set_size a (n - k) m)) p a) as [Fa Ga]; [unfold a; lia|].
  destruct (freep_frame (set_size b k (set_size a (n - k) m)) p b) as [_ Gb]; [unfold b, a, HSIZE; lia|]. fold m' in Fa, Ga, Gb.
  destruct (header_frame (set_size a (n - k) m) (set_size b k (set_size a (n - k) m)) b a (set_size_same _ _ _)) as [Fa' Ga']; [unfold apart, b, HSIZE; lia|].
  rewrite Fa', ptr_set_size in Fa. rewrite Ga' in Ga. rewrite size_set_size in Ga, Gb by (unfold RAM, HSIZE in *; lia).
  assert (Eb : b + HSIZE * k = a + HSIZE * n) by (unfold b; lia).
  apply coalesced_mid in Hc as (cC & cD & eC). destruct (eC I) as [eC1 eC2].
  split.
  - split.
    + apply Forall_app. split; [done|]. constructor; [cbn; lia|]. constructor; [cbn; lia|done].
    + rewrite span_app. cbn [span units]. lia.
    + apply coalesced_mid. split; [done|]. split; [by split|done].
    + by rewrite (proj2 (Hoth base (or_introl eq_refl))).
    + apply sizes_app in Hs as [s1 [s2 s3]]. apply sizes_app. split; [|split; [done|split; [done|]]].
      * eapply sizes_ext; [done|]. intros h Hh. apply hdrs_range in Hh; [|done]. apply Hoth. unfold a. lia.
      * cbn [units]. fold a b. rewrite Eb. eapply sizes_ext; [done|]. intros h Hh. apply hdrs_range in Hh; [|done]. cbn [units] in Hh. apply Hoth. fold a in Hh. unfold HSIZE in *. lia.
    + rewrite frees_app in *. cbn [frees] in *. fold a b in Hch |- *. rewrite Eb. eapply nodes_ext; [done|].
      intros h [->|[Hh|[->|Hh]%elem_of_cons]%elem_of_app]%elem_of_cons; [by apply Hoth; left| |done|].
      * apply frees_range in Hh; [|done]. apply Hoth. unfold a. lia.
      * apply frees_range in Hh; [|done]. apply Hoth. unfold HSIZE in *. lia.
    + unfold m'. rewrite ld64_sd64, u64_small by (unfold RAM, a, HSIZE in *; lia). rewrite frees_app. set_solver.
  - intros x Hx. apply Hout; [|by apply (foreign_freep _ _ HB)]. destruct Hx as [Hx|Hx].
    + destruct (in_used_free _ _ _ _ Hx HC HD' Hn) as [_ Hx']. fold a in Hx'. unfold HSIZE in *. lia.
    + unfold a. lia.
Qed.

(** Taking [k] units from the segment after [C]. *)
Lemma frees_split_at B' a P q Q : frees a B' = P ++ q :: Q → ∃ C n D, B' = C ++ Free n :: D ∧ q = a + span C ∧ P = frees a C.
Proof.
  revert a P. induction B' as [|[n|n] B' IH]; intros a P; cbn [frees].
  - intros E. by destruct P.
  - destruct P as [|r P]; intros E; injection E as <- E; [exists [], n, B'; cbn; split; [done|split; [lia|done]]|].
    destruct (IH _ _ E) as (C & k & D & -> & -> & ->). exists (Free n :: C), k, D. cbn. split; [done|split; [lia|done]].
  - intros E. destruct (IH _ _ E) as (C & k & D & -> & -> & ->). exists (Used n :: C), k, D. cbn. split; [done|split; [lia|done]].
Qed.

Lemma nodes_split B P p q Q : base :: frees start B = P ++ p :: q :: Q →
  ∃ C n D, B = C ++ Free n :: D ∧ q = start + span C ∧ base :: frees start C = P ++ [p].
Proof.
  destruct P as [|r P]; intros E; injection E as <- E.
  - apply (frees_split_at B start []) in E as (C & n & D & -> & -> & E). exists C, n, D. by rewrite <-E.
  - change (p :: q :: Q) with ([p] ++ q :: Q) in E. rewrite app_assoc in E.
    apply frees_split_at in E as (C & n & D & -> & -> & E). exists C, n, D. by rewrite <-E.
Qed.

(** ** The operations *)

Context `{Heap σ}.

Ltac urun := unfold mbind, U_bind, mret, U_ret, getm, putm; cbn [um us].

Lemma free_run C n D (w : uworld σ) fuel :
  hmem (C ++ Used n :: D) (um w) → (S (length (C ++ D)) <= fuel)%nat →
  ∃ m' L1 p, free freep fuel (start + span C + HSIZE) w = UOk () (MkU m' (us w))
    ∧ base :: frees start C = L1 ++ [p] ∧ ld64 m' freep = p ∧ hmem (freed C n D) m'
    ∧ ∀ x, foreign (C ++ Free n :: D) x → m' x = um w x.
Proof using ST.
  intros Hm Hfu. destruct (nodes_snoc C) as (L1 & p & HL). destruct (free_links C n D (um w) p L1 Hm HL) as (F1 & F2 & F3).
  eexists _, L1, p. split_and!; [|done|done|done|done].
  pose proof (hmem_around _ _ _ _ Hm) as [HC HD _ _ _ _ _]. pose proof (span_nonneg C HC). pose proof (span_nonneg D HD).
  pose proof (hm_top _ _ Hm) as Ht. rewrite span_app in Ht. cbn [span units] in Ht. pose proof ST as [? ? _ _ _].
  assert (E : hplus (start + span C + HSIZE) (-1) = start + span C).
  { pose proof (ar_n _ _ _ _ (hmem_around _ _ _ _ Hm)). rewrite hplus_small; unfold RAM, HSIZE in *; lia. }
  unfold free. urun. rewrite E.
  rewrite (free_search C n D (um w) p L1 fuel Hm HL Hfu). done.
Qed.

Lemma take_run C n k D (w : uworld σ) p L1 :
  hmem (C ++ Free n :: D) (um w) → base :: frees start C = L1 ++ [p] → 1 <= k <= n →
  ∃ m', take_block freep k p (start + span C) w = UOk (start + span C + HSIZE * (n - k) + HSIZE) (MkU m' (us w))
    ∧ hmem (C ++ carve n k ++ D) m' ∧ ∀ x, foreign (C ++ Free n :: D) x → m' x = um w x.
Proof using ST.
  intros Hm HL Hk. pose proof (hm_pos _ _ Hm) as HB. apply Forall_app in HB as [HC HD]. inversion HD as [|? ? Hn HD']; subst.
  pose proof (hm_top _ _ Hm) as Ht. rewrite span_app in Ht. cbn [span units] in Ht. pose proof ST as [? ? _ _ _].
  pose proof (span_nonneg C HC). pose proof (span_nonneg D HD').
  pose proof (hm_sizes _ _ Hm) as Hs. apply sizes_app in Hs as [_ [Hs _]]. cbn [units] in Hs.
  assert (Np : p ∈ base :: frees start C) by (rewrite HL; set_solver).
  unfold take_block, carve. urun. rewrite Hs. destruct (Z.eqb_spec n k) as [->|Hne]; cbn [um us].
  - destruct (take_all C k D (um w) p L1 Hm HL) as [F1 F2]. eexists. split; [|by split].
    rewrite hplus_small by (unfold RAM, HSIZE in *; lia). f_equal. unfold HSIZE. lia.
  - destruct (take_tail C n k D (um w) p Hm Np) as [F1 F2]; [lia|].
    rewrite (u32_small (n - k)) by (unfold RAM, HSIZE in *; lia).
    rewrite (hplus_small (start + span C)) by (unfold RAM, HSIZE in *; lia).
    rewrite hplus_small by (unfold RAM, HSIZE in *; lia). eexists. split; [done|by split].
Qed.

Lemma last_default (x : Z) L d d' : List.last (x :: L) d = List.last (x :: L) d'.
Proof. revert x. induction L as [|y L IH]; intros x; [done|]. exact (IH y). Qed.

Lemma last_snoc (P : list Z) p L : P ++ p :: L = (P ++ removelast (p :: L)) ++ [List.last L p].
Proof.
  destruct L as [|x L]; [by rewrite app_nil_r|]. rewrite (last_default x L p 0). rewrite <-app_assoc. f_equal.
  change (List.last (x :: L) 0) with (List.last (p :: x :: L) 0). by apply app_removelast_last.
Qed.

(** The loop of [malloc] goes past blocks that are too small. *)
Lemma malloc_scan L e fuel k prevp (w : uworld σ) :
  chain (um w) L e → Forall (λ h, size (um w) h < k) L → ld64 (um w) freep ∉ L →
  malloc_loop freep (length L + fuel) k prevp (hd e L) w = malloc_loop freep fuel k (List.last L prevp) e w.
Proof.
  revert prevp. induction L as [|q L IH]; intros prevp; [done|]. cbn [chain]. intros [Hq HL] [Hs HLs]%list.Forall_cons Hf.
  change (length (q :: L) + fuel)%nat with (S (length L + fuel)). cbn [hd malloc_loop]. urun.
  rewrite (proj2 (Z.leb_gt _ _) Hs). rewrite (proj2 (Z.eqb_neq q _)) by set_solver. rewrite Hq.
  rewrite IH by (try done; set_solver). destruct L as [|x L]; [done|]. by rewrite (last_default x L q prevp).
Qed.

Lemma first_big k (m : mem) L :
  Forall (λ h, size m h < k) L ∨ ∃ L1 q L2, L = L1 ++ q :: L2 ∧ Forall (λ h, size m h < k) L1 ∧ k <= size m q.
Proof.
  induction L as [|q L IH]; [by left; constructor|]. destruct (Z.ltb_spec (size m q) k); [|right; by exists [], q, L].
  destruct IH as [|(L1 & r & L2 & -> & ? & ?)]; [left; by constructor|right]. exists (q :: L1), r, L2. split; [done|]. split; [by constructor|done].
Qed.

(** The result of a successful [malloc] on the segments [B]. *)
Definition allocates (k : Z) (B : list seg) (w : uworld σ) (r : uout σ Z) : Prop :=
  ∃ a B' m', r = UOk (a + HSIZE) (MkU m' (us w)) ∧ carved start k B a B' ∧ hmem B' m' ∧ ∀ x, foreign B x → m' x = um w x.

(** The loop at a node that is big enough. *)
Lemma malloc_found B P p q Q k (w : uworld σ) fuel :
  hmem B (um w) → base :: frees start B = P ++ p :: q :: Q → 1 <= k <= size (um w) q →
  allocates k B w (malloc_loop freep (S fuel) k p q w).
Proof using ST.
  intros Hm HL Hk. destruct (nodes_split B P p q Q HL) as (C & n & D & -> & -> & HC).
  pose proof (hm_sizes _ _ Hm) as Hs. apply sizes_app in Hs as [_ [Hs _]]. cbn [units] in Hs. rewrite Hs in Hk.
  destruct (take_run C n k D w p P Hm HC Hk) as (m' & E & F1 & F2).
  exists (start + span C + HSIZE * (n - k)), (C ++ carve n k ++ D), m'. cbn [malloc_loop]. urun. rewrite Hs, (proj2 (Z.leb_le _ _)) by lia.
  split; [exact E|]. split; [exists C, n, D; split_and!; try done; lia|done].
Qed.

Lemma malloc_reach B P p L q Q k (w : uworld σ) fuel :
  hmem B (um w) → base :: frees start B = P ++ p :: L ++ q :: Q →
  Forall (λ h, size (um w) h < k) L → ld64 (um w) freep ∉ L → 1 <= k <= size (um w) q → (length L < fuel)%nat →
  allocates k B w (malloc_loop freep fuel k p (hd q L) w).
Proof using ST.
  intros Hm HL Hs Hf Hk Hfu. pose proof (hm_chain _ _ Hm) as Hch. rewrite HL, app_comm_cons, app_assoc in Hch.
  apply chain_app in Hch as [Hch _]. apply chain_app in Hch as [_ [_ Hch]]. cbn [hd] in Hch.
  replace fuel with (length L + S (fuel - length L - 1))%nat by lia. rewrite malloc_scan by done.
  rewrite app_comm_cons, app_assoc, (last_snoc P p L) in HL. rewrite <-(app_assoc (P ++ removelast (p :: L))) in HL. eapply malloc_found; [done|exact HL|done].
Qed.

(** The loop that starts at [base]. *)
Lemma malloc_from_base B M q Q k (w : uworld σ) fuel p :
  hmem B (um w) → base :: frees start B = M ++ q :: Q →
  Forall (λ h, size (um w) h < k) M → ld64 (um w) freep ∉ M → 1 <= k <= size (um w) q → (length M < fuel)%nat →
  allocates k B w (malloc_loop freep fuel k p base w).
Proof using ST.
  intros Hm HL Hs Hf Hk Hfu. destruct M as [|x M]; cbn [app] in HL; injection HL as <- HL.
  - rewrite (hm_base _ _ Hm) in Hk. lia.
  - pose proof (hm_chain _ _ Hm) as Hch. rewrite HL, app_comm_cons in Hch. apply chain_app in Hch as [Hch _]. cbn [hd] in Hch.
    replace fuel with (length (base :: M) + S (fuel - length (base :: M) - 1))%nat by (cbn [length] in *; lia).
    pose proof (malloc_scan (base :: M) q (S (fuel - length (base :: M) - 1)) k p w Hch Hs Hf) as E. cbn [hd] in E. rewrite E.
    assert (HL' : base :: frees start B = removelast (base :: M) ++ List.last (base :: M) p :: q :: Q).
    { rewrite HL. change (base :: M ++ q :: Q) with ((base :: M) ++ q :: Q). rewrite (app_removelast_last p (l := base :: M)) at 1 by done.
      by rewrite <-app_assoc. }
    by eapply malloc_found.
Qed.

(** The loop after [morecore]: the block it has added is big enough. *)
Lemma malloc_grown B k nu (w : uworld σ) L1 p fuel :
  hmem (freed B nu []) (um w) → base :: frees start B = L1 ++ [p] → ld64 (um w) freep = p → 1 <= k <= nu →
  (length B + 2 < fuel)%nat → positive B →
  allocates k (freed B nu []) w (malloc_loop freep fuel k p (ptr (um w) p) w).
Proof using ST.
  intros Hm HL Hf Hk Hfu HB. destruct (ends_free_cases B) as [(B' & j & EB)|He].
  - subst B. rewrite freed_free in *. cbn [join_up] in *. set (G := B' ++ [Free (j + nu)]) in *.
    rewrite frees_app in HL. cbn [frees] in HL. rewrite app_comm_cons in HL. apply app_inj_tail in HL as [<- Ep].
    assert (EG : base :: frees start G = (base :: frees start B') ++ [p]) by (unfold G; rewrite frees_app; cbn [frees]; by rewrite <-Ep).
    pose proof (hm_sizes _ _ Hm) as Hs. apply sizes_app in Hs as [_ [Hs _]]. cbn [units] in Hs. rewrite Ep in Hs.
    pose proof (hm_chain _ _ Hm) as Hch. rewrite EG in Hch. apply chain_app in Hch as [_ [Hch _]]. cbn [hd] in Hch. rewrite Hch.
    apply Forall_app in HB as [HB' Hj]. apply list.Forall_cons in Hj as [Hj _]. cbn in Hj.
    destruct (first_big k (um w) (base :: frees start G)) as [Hall|(M & q & Q & EM & HM & Hq)].
    { exfalso. rewrite EG, Forall_app in Hall. destruct Hall as [_ Hall]. inversion Hall; subst. lia. }
    eapply (malloc_from_base G M q Q); try done.
    + intros Hin. rewrite Hf in Hin. rewrite list.Forall_forall in HM. specialize (HM p Hin). lia.
    + lia.
    + apply (f_equal length) in EM, EG. rewrite EM in EG. rewrite !length_app in *. cbn [length] in *.
      assert (length (frees start B') <= length B')%nat by apply frees_length. lia.
  - rewrite freed_used in * by done. cbn [join_up] in *. set (G := B ++ [Free nu]) in *.
    assert (EG : base :: frees start G = L1 ++ [p; start + span B]).
    { unfold G. rewrite frees_app. cbn [frees]. rewrite app_comm_cons, HL, <-app_assoc. done. }
    pose proof (hm_sizes _ _ Hm) as Hs. apply sizes_app in Hs as [_ [Hs _]]. cbn [units] in Hs.
    pose proof (hm_chain _ _ Hm) as Hch. rewrite EG in Hch. apply chain_app in Hch as [_ [Hch _]]. cbn [hd] in Hch. rewrite Hch.
    destruct fuel; [lia|]. eapply malloc_found; [done|done|lia].
Qed.

Lemma foreign_app B E x : foreign B x → foreign (B ++ E) x.
Proof.
  intros [(C & n & D & -> & Hx)|Hx]; [left|by right]. exists C, n, (D ++ E). split; [|done]. by rewrite <-app_assoc.
Qed.

(** Memory from [sbrk] becomes a used segment with a header. *)
Lemma hmem_extend B nu m : hmem B m → 1 <= nu → start + span B + HSIZE * nu <= RAM →
  hmem (B ++ [Used nu]) (set_size (start + span B) nu m) ∧ ∀ x, foreign B x → set_size (start + span B) nu m x = m x.
Proof using ST.
  intros [HB Ht Hc Hb Hs Hch Hf] Hnu Hr. pose proof (span_nonneg B HB). pose proof ST as [? ? _ ? _].
  set (m' := set_size _ _ _). assert (S : same_outside m m' (start + span B) (start + span B + HSIZE)) by apply set_size_same.
  assert (Hn : ∀ h, h ∈ base :: hdrs start B → ptr m' h = ptr m h ∧ size m' h = size m h).
  { intros h Hh. apply (header_frame _ _ _ _ S). left. apply elem_of_cons in Hh as [->|Hh]; [lia|]. apply hdrs_range in Hh; [lia|done]. }
  split; [split|].
  - apply Forall_app. split; [done|by constructor].
  - rewrite span_app. cbn. lia.
  - apply coalesced_mid. split; [done|]. by split.
  - by rewrite (proj2 (Hn base ltac:(set_solver))).
  - apply sizes_app. split; [eapply sizes_ext; [done|]; intros h Hh; apply Hn; set_solver|]. cbn [sizes units]. split; [|done].
    unfold m'. apply size_set_size. unfold RAM, HSIZE in *. lia.
  - rewrite frees_app. cbn [frees]. rewrite app_nil_r. eapply nodes_ext; [done|]. intros h Hh. apply Hn. pose proof (frees_hdrs start B h). set_solver.
  - rewrite frees_app. cbn [frees]. rewrite app_nil_r. unfold m'. rewrite (ld64_ext _ m); [done|]. intros x Hx. apply S. lia.
  - intros x Hx. apply S. destruct Hx as [(C & n & D & -> & Hx)|Hx]; [|lia]. rewrite span_app in *. cbn [span units] in *.
    apply Forall_app in HB as [_ HD]. inversion HD as [|? ? _ HD']; subst. pose proof (span_nonneg D HD'). lia.
Qed.

(** [morecore] fails without effect or adds a free segment at the end. *)
Lemma morecore_run B k (w : uworld σ) fuel :
  hmem B (um w) → start + span B = brk (us w) → 1 <= k → HSIZE * more k < 2 ^ 31 → (S (length B) <= fuel)%nat →
  (∃ s', morecore freep fuel k w = UOk 0 (MkU (um w) s') ∧ brk s' = brk (us w))
  ∨ ∃ m' s' L1 p, morecore freep fuel k w = UOk p (MkU m' s') ∧ base :: frees start B = L1 ++ [p] ∧ ld64 m' freep = p
      ∧ hmem (grown k B) m' ∧ brk s' = brk (us w) + HSIZE * more k ∧ ∀ x, foreign B x → m' x = um w x.
Proof using ST.
  intros Hm Hb Hk Hi Hfu. unfold morecore. fold (more k). assert (Hmk : 1 <= more k) by (unfold more; destruct (Z.ltb_spec k 4096); lia).
  pose proof (span_nonneg B (hm_pos _ _ Hm)). pose proof (brk_range (us w)) as Hbr. pose proof ST as [? ? _ _ _].
  assert (Ei : i32 (more k * HSIZE) = HSIZE * more k) by (rewrite i32_small; unfold HSIZE in *; lia). rewrite Ei.
  unfold sbrk, ecall_v, ecall. urun.
  destruct (sbrk_grows (HSIZE * more k) (us w)) as [[Er Es]|[Er Es]]; [unfold HSIZE; lia| |].
  - right. rewrite Er. rewrite (u64_small (brk (us w))) by (unfold RAM in *; lia).
    change (u64 (-1)) with (2 ^ 64 - 1). rewrite (proj2 (Z.eqb_neq _ _)) by (unfold RAM in *; lia).
    pose proof (brk_range (os_call (SSbrk (HSIZE * more k)) (us w)).2) as Hbr'. rewrite Es in Hbr'.
    destruct (hmem_extend B (more k) (um w) Hm Hmk) as [F1 F2]; [lia|]. rewrite Hb in F1, F2.
    rewrite hplus_small by (unfold RAM, HSIZE in *; lia).
    destruct (free_run B (more k) [] (MkU (set_size (brk (us w)) (more k) (um w)) (os_call (SSbrk (HSIZE * more k)) (us w)).2) fuel F1)
      as (m' & L1 & p & E & HL & Hf & Hg & Hfr); [rewrite app_nil_r; lia|].
    replace (brk (us w) + HSIZE * 1) with (start + span B + HSIZE) by (rewrite Hb; unfold HSIZE; lia). cbn [um us]. rewrite E. urun.
    exists m', (os_call (SSbrk (HSIZE * more k)) (us w)).2, L1, p. rewrite Hf. split_and!; try done.
    intros x Hx. rewrite Hfr; [by apply F2|]. by apply foreign_app.
  - left. rewrite Er. rewrite Z.eqb_refl. eexists. split; [done|done].
Qed.

(** What [malloc] does on the segments [B]: it takes [k] units of one of them,
    perhaps after having added memory, or it fails because there is none. *)
Definition malloc_post (k : Z) (B : list seg) (w : uworld σ) (r : uout σ Z) : Prop :=
  (∃ s', r = UOk 0 (MkU (um w) s') ∧ brk s' = brk (us w))
  ∨ allocates k B w r
  ∨ ∃ w1, brk (us w1) = start + span B + HSIZE * more k ∧ (∀ x, foreign B x → um w1 x = um w x) ∧ allocates k (grown k B) w1 r.

Lemma sorted_notin (P : list Z) f Q : StronglySorted Z.lt (P ++ f :: Q) → f ∉ P ∧ f ∉ Q.
Proof.
  intros So. destruct (sorted_app_inv _ _ So) as (_ & S2 & S3). apply StronglySorted_inv in S2 as [_ S2]. rewrite list.Forall_forall in S2. split; intros Hin.
  - specialize (S3 f f Hin ltac:(set_solver)). lia.
  - specialize (S2 f Hin). lia.
Qed.

(** The loop at [freep], after every block was too small. *)
Lemma malloc_more B k (w : uworld σ) fuel prevp f :
  hmem B (um w) → start + span B = brk (us w) → 1 <= k → HSIZE * more k < 2 ^ 31 → (length B + 3 <= fuel)%nat →
  ld64 (um w) freep = f → size (um w) f < k → malloc_post k B w (malloc_loop freep (S fuel) k prevp f w).
Proof using ST.
  intros Hm Hb Hk Hi Hfu Hf Hs. cbn [malloc_loop]. urun. rewrite (proj2 (Z.leb_gt _ _) Hs), Hf, Z.eqb_refl.
  destruct (morecore_run B k w fuel Hm Hb Hk Hi) as [(s' & E & Es)|(m' & s' & L1 & p & E & HL & Hf' & Hg & Es & Hfr)]; [lia| |].
  - left. exists s'. by rewrite E.
  - right; right. exists (MkU m' s'). cbn [um us]. split; [lia|]. split; [done|].
    assert (Hp : 0 < p). { destruct (node_below B p (hm_pos _ _ Hm)); [rewrite HL; set_solver|done]. }
    rewrite E. rewrite (proj2 (Z.eqb_neq p 0)) by lia. cbn [um us].
    apply (malloc_grown B k (more k) (MkU m' s') L1); try done; [|lia|apply Hm].
    unfold more. destruct (Z.ltb_spec k 4096); lia.
Qed.

(** The loop, started at [freep]. *)
Lemma malloc_loop_run B k (w : uworld σ) fuel f :
  hmem B (um w) → start + span B = brk (us w) → 1 <= k → HSIZE * more k < 2 ^ 31 → (2 * length B + 8 <= fuel)%nat →
  ld64 (um w) freep = f → malloc_post k B w (malloc_loop freep fuel k f (ptr (um w) f) w).
Proof using ST.
  intros Hm Hb Hk Hi Hfu Hf. pose proof (hm_freep _ _ Hm) as Hin. rewrite Hf in Hin.
  apply list_elem_of_split in Hin as (X & Y & HXY). pose proof (nodes_sorted B (hm_pos _ _ Hm)) as So. rewrite HXY in So.
  destruct (sorted_notin _ _ _ So) as [NX NY]. pose proof (hm_chain _ _ Hm) as Hch. rewrite HXY in Hch. apply chain_app in Hch as [HX [Hpf HY]].
  assert (Hlen : (length X + S (length Y) <= S (length B))%nat).
  { apply (f_equal length) in HXY. rewrite length_app in HXY. cbn [length] in HXY. pose proof (frees_length start B). lia. }
  rewrite Hpf. destruct (first_big k (um w) Y) as [HYs|(Y1 & q & Y2 & -> & HY1 & Hq)].
  2: { right; left. rewrite hd_app. rewrite length_app in Hlen. cbn [hd length] in *.
       apply (malloc_reach B X f Y1 q Y2); try done; [rewrite Hf; set_solver|lia]. }
  replace fuel with (length Y + (fuel - length Y))%nat by lia. rewrite malloc_scan by (try done; by rewrite Hf).
  destruct (first_big k (um w) (X ++ [f])) as [HXs|(M & q & Q & EM & HM & Hq)].
  - apply Forall_app in HXs as [HXs HfS]. inversion HfS; subst.
    assert (Ehd : hd (ld64 (um w) freep) X = base) by (destruct X; injection HXY; done).
    rewrite <-Ehd. replace (fuel - length Y)%nat with (length X + S (fuel - length Y - length X - 1))%nat by lia.
    rewrite malloc_scan by done. apply malloc_more; try done. lia.
  - right; left. assert (EN : base :: frees start B = M ++ q :: Q ++ Y).
    { rewrite HXY. change (f :: Y) with ([f] ++ Y). rewrite app_assoc, EM, <-app_assoc. done. }
    apply (malloc_from_base B M q (Q ++ Y)); try done.
    + rewrite Hf. intros HfM. pose proof EM as EM'. apply (f_equal length) in EM.
      assert (Hq' : q ∈ X ++ [f]) by (rewrite EM'; set_solver).
      assert (So' : StronglySorted Z.lt (X ++ [f])).
      { change (f :: Y) with ([f] ++ Y) in So. rewrite app_assoc in So. by apply sorted_app_inv in So as (So & _ & _). }
      pose proof (sorted_app_inv _ _ So') as (_ & _ & S3). rewrite EM' in So'. apply sorted_app_inv in So' as (_ & _ & S4).
      specialize (S4 f q HfM ltac:(set_solver)). apply elem_of_app in Hq' as [Hq'|Hq']; [specialize (S3 q f Hq' ltac:(set_solver)); lia|].
      apply list_elem_of_singleton in Hq'. lia.
    + apply (f_equal length) in EM. rewrite !length_app in EM. cbn [length] in EM. lia.
Qed.

(** ** The contract *)

(** The heap consists of the segments [B], or nothing has been allocated yet. *)
Definition heap (B : list seg) (w : uworld σ) : Prop :=
  start + span B = brk (us w) ∧ ((B = [] ∧ ld64 (um w) freep = 0) ∨ hmem B (um w)).

Lemma carved_span k B a B' : carved start k B a B' → span B' = span B.
Proof. intros (C & n & D & -> & _ & -> & _). rewrite !span_app. unfold carve. destruct (Z.eqb_spec n k); cbn [span units app]; lia. Qed.

Lemma freed_span C n D : span (freed C n D) = span C + HSIZE * n + span D.
Proof.
  destruct (ends_free_cases C) as [(C' & j & ->)|He]; [rewrite freed_free|rewrite freed_used by done];
    rewrite ?span_app; destruct D as [|[k|k] D]; cbn [join_up span units]; lia.
Qed.

Lemma grown_span k B : span (grown k B) = span B + HSIZE * more k.
Proof. unfold grown. rewrite freed_span. cbn [span]. lia. Qed.

Lemma grown_positive k B : positive B → positive (grown k B).
Proof.
  intros HB. assert (Hk : 1 <= more k) by (unfold more; destruct (Z.ltb_spec k 4096); lia). unfold grown.
  destruct (ends_free_cases B) as [(B' & j & ->)|He]; [rewrite freed_free|rewrite freed_used by done]; cbn [join_up].
  - apply Forall_app in HB as [HB' Hj]. apply list.Forall_cons in Hj as [Hj _]. apply Forall_app. split; [done|]. constructor; [cbn in *; lia|constructor].
  - apply Forall_app. split; [done|]. by constructor.
Qed.

Lemma in_used_snoc_free B j x : in_used start (B ++ [Free j]) x ↔ in_used start B x.
Proof.
  split.
  - intros (C & n & D & E & Hx). destruct D as [|s D _] using rev_ind; [by apply app_inj_tail in E as [_ E]|].
    rewrite app_comm_cons, app_assoc in E. apply app_inj_tail in E as [-> _]. by exists C, n, D.
  - intros (C & n & D & -> & Hx). exists C, n, (D ++ [Free j]). split; [|done]. by rewrite <-app_assoc.
Qed.

Lemma in_used_grown k B x : in_used start B x → in_used start (grown k B) x.
Proof.
  unfold grown. destruct (ends_free_cases B) as [(B' & j & ->)|He]; [rewrite freed_free|rewrite freed_used by done];
    cbn [join_up]; rewrite ?in_used_snoc_free; done.
Qed.

(** The block is used after the call and was not before. *)
Lemma carved_fresh k B a B' x : positive B → 1 <= k → carved start k B a B' → a <= x < a + HSIZE * k →
  in_used start B' x ∧ ¬ in_used start B x.
Proof.
  intros HB Hk (C & n & D & -> & Hkn & -> & ->) Hx. apply Forall_app in HB as [HC HD]. inversion HD as [|? ? Hn HD']; subst. split.
  - unfold carve. destruct (Z.eqb_spec n k) as [->|Hne].
    + exists C, k, D. split; [done|lia].
    + exists (C ++ [Free (n - k)]), k, D. split; [by rewrite <-app_assoc|]. rewrite span_app. cbn [span units]. lia.
  - intros Hu. destruct (in_used_free _ _ _ _ Hu HC HD' Hn) as [_ Hu']. unfold HSIZE in *. lia.
Qed.

Lemma units_for_small nbytes : 0 <= nbytes < 2 ^ 31 - 31 →
  1 <= units_for nbytes ∧ nbytes <= HSIZE * (units_for nbytes - 1) ∧ HSIZE * units_for nbytes < 2 ^ 31.
Proof.
  intros Hn. unfold units_for. rewrite (u64_small (nbytes + HSIZE - 1)) by (unfold HSIZE; lia).
  pose proof (Z.div_mod (nbytes + HSIZE - 1) HSIZE ltac:(done)). pose proof (Z.mod_pos_bound (nbytes + HSIZE - 1) HSIZE ltac:(done)).
  unfold HSIZE in *. set (q := (nbytes + 16 - 1) / 16) in *. rewrite u32_small by lia. lia.
Qed.

(** The first call sets up the list with [base] alone. *)
Lemma first_use m : start <= RAM → ld64 m freep = 0 →
  let m' := set_size base 0 (set_ptr base base (sd64 m freep base)) in
  hmem [] m' ∧ ld64 m' freep = base ∧ ∀ x, foreign [] x → m' x = m x.
Proof using ST.
  intros Hr Hf m'. pose proof ST as [b1 b2 b3 b4 b5].
  assert (S : same_outside (sd64 m freep base) m' base (base + HSIZE)) by (eapply same_outside_trans, set_size_same; apply set_ptr_same).
  assert (Ef : ld64 m' freep = base).
  { rewrite (ld64_ext _ (sd64 m freep base)) by (intros x Hx; apply S; lia). rewrite ld64_sd64. apply u64_small. unfold RAM, HSIZE in *. lia. }
  split; [split|split; [done|]].
  - constructor.
  - cbn. lia.
  - done.
  - unfold m'. by apply size_set_size.
  - done.
  - cbn. split; [|done]. unfold m'. rewrite ptr_set_size. apply ptr_set_ptr. unfold RAM, HSIZE in *. lia.
  - rewrite Ef. set_solver.
  - intros x [(C & n & D & E & _)|Hx]; [by destruct C|]. rewrite S by tauto. apply sd64_out. tauto.
Qed.

(** The call, from the list of free blocks on. *)
Lemma malloc_runs B nbytes (w : uworld σ) fuel :
  heap B w → 0 <= nbytes < 2 ^ 31 - 31 → (2 * length B + 8 <= fuel)%nat →
  ∃ w0, hmem B (um w0) ∧ us w0 = us w ∧ (∀ x, foreign B x → um w0 x = um w x)
    ∧ malloc_post (units_for nbytes) B w0 (malloc base freep fuel nbytes w).
Proof using ST.
  intros [Hb Hh] Hn Hfu. destruct (units_for_small nbytes Hn) as (U1 & U2 & U3).
  assert (U4 : HSIZE * more (units_for nbytes) < 2 ^ 31) by (unfold more; destruct (_ <? _); unfold HSIZE in *; lia).
  pose proof ST as [b1 _ _ _ _]. pose proof (brk_range (us w)) as Hbr.
  unfold malloc. urun. destruct Hh as [[-> Hf]|Hm].
  - rewrite Hf. cbn [Z.eqb um us]. cbn [span] in Hb.
    destruct (first_use (um w)) as (F1 & F2 & F3); [lia|done|].
    eexists (MkU _ (us w)). split; [exact F1|]. split; [done|]. split; [exact F3|].
    by apply (malloc_loop_run [] _ (MkU (set_size base 0 (set_ptr base base (sd64 (um w) freep base))) (us w))).
  - destruct (node_below B (ld64 (um w) freep) (hm_pos _ _ Hm) (hm_freep _ _ Hm)) as (P1 & _ & _).
    rewrite (proj2 (Z.eqb_neq _ _)) by lia. exists w. split_and!; [done|done|done|]. by apply malloc_loop_run.
Qed.

(** The state after [malloc] has returned [p]. *)
Definition served (nbytes : Z) (B : list seg) (p : Z) (w' : uworld σ) : Prop :=
  if p =? 0 then heap B w'
  else ∃ B0 B', (B0 = B ∨ B0 = grown (units_for nbytes) B) ∧ carved start (units_for nbytes) B0 (p - HSIZE) B' ∧ heap B' w'
       ∧ ∀ x, p <= x < p + nbytes → in_used start B' x ∧ ¬ in_used start B x.

Lemma allocates_served nbytes B G (w1 : uworld σ) r :
  0 <= nbytes < 2 ^ 31 - 31 → positive G → start + span G = brk (us w1) →
  (G = B ∨ G = grown (units_for nbytes) B) → (∀ x, in_used start B x → in_used start G x) →
  allocates (units_for nbytes) G w1 r →
  ∃ p w', r = UOk p w' ∧ (∀ x, foreign G x → um w' x = um w1 x) ∧ served nbytes B p w'.
Proof using ST.
  intros Hn HG Hb HGB Hin (a & B' & m' & E & Hc & Hm' & Hx). destruct (units_for_small nbytes Hn) as (U1 & U2 & U3).
  exists (a + HSIZE), (MkU m' (us w1)). split; [done|]. split; [done|].
  assert (Ha : 0 < a).
  { destruct Hc as (C & n & D & -> & Hc & _ & ->). apply Forall_app in HG as [HC _]. pose proof (span_nonneg C HC). destruct ST. unfold HSIZE in *. lia. }
  unfold served. rewrite (proj2 (Z.eqb_neq _ _)) by (unfold HSIZE; lia). exists G, B'. replace (a + HSIZE - HSIZE) with a by lia.
  split; [done|]. split; [done|]. split; [split; [by rewrite (carved_span _ _ _ _ Hc)|by right]|].
  intros x Hxr. destruct (carved_fresh (units_for nbytes) G a B' x HG U1 Hc) as [A1 A2]; [unfold HSIZE in *; lia|]. auto.
Qed.


(** C19: [free] of a block that is in use turns its segment into a free one,
    merged with the free neighbours it has, and leaves every other block
    alone. *)
Theorem free_correct C n D (w : uworld σ) fuel :
  heap (C ++ Used n :: D) w → (S (length (C ++ D)) <= fuel)%nat →
  ∃ w', free freep fuel (start + span C + HSIZE) w = UOk () w' ∧ us w' = us w ∧ heap (freed C n D) w'
    ∧ ∀ x, foreign (C ++ Free n :: D) x → um w' x = um w x.
Proof using ST.
  intros [Hb [[E _]|Hm]] Hfu; [by destruct C|]. destruct (free_run C n D w fuel Hm Hfu) as (m' & L1 & p & E & _ & _ & Hm' & Hfr).
  exists (MkU m' (us w)). split_and!; [done|done| |done]. split; [|by right]. cbn [us]. rewrite <-Hb.
  rewrite freed_span, span_app. cbn [span units]. lia.
Qed.

(** freeing a block that [malloc] has just cut out of the heap, without
    [sbrk], restores the segments as they were. *)
Theorem malloc_free_restores B nbytes p (w w' : uworld σ) fuel :
  heap B w → 0 <= nbytes < 2 ^ 31 - 31 → (2 * length B + 8 <= fuel)%nat →
  malloc base freep fuel nbytes w = UOk p w' → p ≠ 0 → brk (us w') = brk (us w) →
  ∃ w'', free freep fuel p w' = UOk () w'' ∧ heap B w''.
Proof using ST.
  intros Hh Hn Hfu E Hp Hbrk. destruct (malloc_runs B nbytes w fuel Hh Hn Hfu) as (w0 & Hm0 & Es0 & _ & Hpost). rewrite E in Hpost.
  pose proof Hh as [Hb _].
  assert (Hal : allocates (units_for nbytes) B w0 (UOk p w')).
  { destruct Hpost as [(s' & Ez & _)|[|(w1 & Hb1 & _ & (a & B' & m' & Ez & _))]]; [by injection Ez|done|]. exfalso.
    injection Ez as _ ->. cbn [us] in Hbrk. unfold more, HSIZE in Hb1. destruct (Z.ltb_spec (units_for nbytes) 4096); lia. }
  destruct Hal as (a & B' & m' & Ez & (C & n & D & -> & Hkn & -> & ->) & Hm' & _). injection Ez as -> ->.
  pose proof (hm_coal _ _ Hm0) as Hc. apply coalesced_mid in Hc as (_ & _ & Hc). destruct (Hc I) as [eC sD]. rewrite length_app in Hfu. cbn [length] in Hfu.
  unfold carve in Hm'. rewrite Es0. destruct (Z.eqb_spec n (units_for nbytes)) as [Hn'|Hne].
  - rewrite <-Hn' in *. replace (start + span C + HSIZE * (n - n) + HSIZE) with (start + span C + HSIZE) by lia. cbn [app] in Hm'.
    destruct (free_run C n D (MkU m' (us w)) fuel Hm') as (m2 & _ & _ & E2 & _ & _ & Hm2 & _); [rewrite length_app; lia|].
    exists (MkU m2 (us w)). split; [done|]. split; [done|right]. rewrite freed_used in Hm2 by done. by destruct D as [|[]].
  - cbn [app] in Hm'. change (Free (n - units_for nbytes) :: Used (units_for nbytes) :: D) with ([Free (n - units_for nbytes)] ++ Used (units_for nbytes) :: D) in Hm'.
    rewrite app_assoc in Hm'. destruct (free_run (C ++ [Free (n - units_for nbytes)]) (units_for nbytes) D (MkU m' (us w)) fuel Hm') as (m2 & _ & _ & E2 & _ & _ & Hm2 & _).
    { rewrite !length_app. cbn [length]. lia. }
    rewrite span_app in E2. cbn [span units] in E2.
    replace (start + span C + HSIZE * (n - units_for nbytes) + HSIZE) with (start + (span C + (HSIZE * (n - units_for nbytes) + 0)) + HSIZE) by lia.
    exists (MkU m2 (us w)). split; [done|]. split; [done|right]. rewrite freed_free in Hm2.
    assert (EJ : join_up (units_for nbytes) D = Free (units_for nbytes) :: D) by (by destruct D as [|[]]). rewrite EJ in Hm2.
    by replace (n - units_for nbytes + units_for nbytes) with n in Hm2 by lia.
Qed.

End heap.

(** ** Examples *)

(** A system that only has a break. *)
Record brkstate := MkBrk { bs_brk : Z }.

#[global] Instance brk_os : OS brkstate := λ c s,
  let b := Z.max 0 (Z.min (bs_brk s) RAM) in
  match c with
  | SSbrk n => if (0 <=? b + n) && (b + n <=? RAM) then (MkRet b [], MkBrk (b + n)) else (MkRet (-1) [], s)
  | _ => (MkRet (-1) [], s)
  end.

#[global, refine] Instance brk_heap : Heap brkstate := {| brk s := Z.max 0 (Z.min (bs_brk s) RAM) |}.
Proof.
  - intros s. unfold RAM. lia.
  - intros n s Hn. cbn. set (b := Z.max 0 (Z.min (bs_brk s) RAM)). assert (0 <= b <= RAM) by (unfold b, RAM; lia).
    destruct (Z.leb_spec 0 (b + n)), (Z.leb_spec (b + n) RAM); cbn; unfold RAM in *; lia.
Defined.

(** [base] at 4096, [freep] at 4120, and the heap from 20480 on. *)
Definition ex_start : uworld brkstate := MkU (λ _, 0) (MkBrk 20480).
Definition ex_after (r : uout brkstate Z) : uworld brkstate := match r with UOk _ w => w | _ => ex_start end.
Definition ex_result (r : uout brkstate Z) : option Z := match r with UOk p _ => Some p | _ => None end.
Definition ex_one : uworld brkstate := ex_after (malloc 4096 4120 8 100 ex_start).

Lemma ex_statics : statics 4096 4120 20480.
Proof. split; unfold HSIZE; lia. Qed.

Lemma ex_one_heap : heap 4096 4120 20480 [Free 4088; Used 8] ex_one.
Proof.
  split; [by vm_compute|right]. split.
  - by repeat constructor.
  - by vm_compute.
  - cbn. tauto.
  - by vm_compute.
  - by vm_compute.
  - by vm_compute.
  - assert (E : ld64 (um ex_one) 4120 = 4096) by (by vm_compute). rewrite E. apply elem_of_cons. by left.
Qed.


Lemma free_correct_witness :
  ∃ w', free 4120 4 (20480 + HSIZE * 4088 + HSIZE) ex_one = UOk () w' ∧ us w' = us ex_one ∧ heap 4096 4120 20480 [Free 4096] w'
    ∧ ∀ x, foreign 4096 4120 20480 [Free 4088; Free 8] x → um w' x = um ex_one x.
Proof. apply (free_correct 4096 4120 20480 ex_statics [Free 4088] 8 [] ex_one 4); [exact ex_one_heap|cbn; lia]. Defined.

Lemma malloc_free_restores_witness :
  ∃ p w' w'', malloc 4096 4120 20 50 ex_one = UOk p w' ∧ free 4120 20 p w' = UOk () w'' ∧ heap 4096 4120 20480 [Free 4088; Used 8] w''.
Proof.
  assert (Hp : ex_result (malloc 4096 4120 20 50 ex_one) = Some 85824) by (by vm_compute).
  assert (Hb : brk (us (ex_after (malloc 4096 4120 20 50 ex_one))) = brk (us ex_one)) by (by vm_compute).
  destruct (malloc 4096 4120 20 50 ex_one) as [p w'| | |] eqn:E; try discriminate Hp. injection Hp as ->.
  destruct (malloc_free_restores 4096 4120 20480 ex_statics [Free 4088; Used 8] 50 85824 ex_one w' 20) as (w'' & F1 & F2); [| | | | | |].
  - exact ex_one_heap.
  - lia.
  - cbn. lia.
  - exact E.
  - lia.
  - exact Hb.
  - exists 85824, w', w''. exact (conj eq_refl (conj F1 F2)).
Defined.

