(* ===== verification/Grep.v ===== *)
(** * user/grep.c

    The regular expression matcher and the loop that reads, splits into lines
    and prints.  A regular expression and a line are the lists of their
    characters up to the NUL; the matcher recurses on the expression, and its
    loops over the text on the text, so that its definitions are total. *)

From S2P Require Import Prelude Memory CString User ULib UPrintf.

(** ** The matcher *)

(** The loop of [matchstar]; [mh] is [matchhere re]. *)
Fixpoint matchstar (mh : list Z → bool) (c : Z) (text : list Z) : bool :=
  if mh text then true
  else
    match text with
    | [] => false
    | x :: text' => if negb (x =? 0) && ((x =? c) || (c =? ch ".")) then matchstar mh c text' else false
    end.

Fixpoint matchhere (re text : list Z) : bool :=
  match re with
  | [] => true
  | c :: re1 =>
    if c =? 0 then true
    else
      let rest :=
        if (c =? ch "$") && (byte0 re1 =? 0) then byte0 text =? 0
        else
          match text with
          | [] => false
          | x :: text' => if negb (x =? 0) && ((c =? ch ".") || (c =? x)) then matchhere re1 text' else false
          end in
      match re1 with
      | s :: re2 => if s =? ch "*" then matchstar (matchhere re2) c text else rest
      | [] => rest
      end
  end.

(** [do ... while( *text++ != 0)] *)
Fixpoint match_loop (re text : list Z) : bool :=
  if matchhere re text then true
  else
    match text with
    | [] => false
    | x :: text' => if x =? 0 then false else match_loop re text'
    end.

Definition match_ (re text : list Z) : bool :=
  if byte0 re =? ch "^" then matchhere (tl re) text else match_loop re text.

(** ** grep *)

Section grep.
Context `{OS σ} (buf : Z) (lim : nat).

(** [while((q = strchr(p, '\n')) != 0)]; the result is [p]. *)
Fixpoint grep_lines (fuel : nat) (pattern : list Z) (p : Z) : U σ Z :=
  match fuel with
  | O => hang
  | S fuel =>
    s ← cstring lim p;
    match strchr s 10 with
    | None => mret p
    | Some i =>
      let q := p + Z.of_nat i in
      _ ← store q 0;
      t ← cstring lim p;
      _ ← uwhen (match_ pattern t)
            (_ ← store q 10;
             _ ← write 1 p (q + 1 - p);
             mret ());
      grep_lines fuel pattern (q + 1)
    end
  end.

Fixpoint grep_loop (fuel : nat) (pattern : list Z) (fd m : Z) : U σ unit :=
  match fuel with
  | O => hang
  | S fuel =>
    n ← read fd (buf + m) (1024 - m - 1);
    if 0 <? n then
      let m := m + n in
      _ ← store (buf + m) 0;
      p ← grep_lines lim pattern buf;
      if 0 <? m then
        let m := m - (p - buf) in
        _ ← memmove buf p m;
        grep_loop fuel pattern fd m
      else grep_loop fuel pattern fd m
    else mret ()
  end.

Definition grep (fuel : nat) (pattern : list Z) (fd : Z) : U σ unit := grep_loop fuel pattern fd 0.

(** [for(i = 2; i < argc; i++)] *)
Fixpoint grep_files (fuel : nat) (pattern : list Z) (files : list (list Z)) : U σ unit :=
  match files with
  | [] => mret ()
  | f :: files =>
    fd ← open f 0;
    if fd <? 0 then
      _ ← printf (line "grep: cannot open %s") [AStr (Some f)];
      exit 1
    else
      _ ← grep fuel pattern fd;
      _ ← close fd;
      grep_files fuel pattern files
  end.

Definition main (fuel : nat) (argv : list (list Z)) : U σ unit :=
  match argv with
  | _ :: pattern :: files =>
    match files with
    | [] => _ ← grep fuel pattern 0; exit 0
    | _ => _ ← grep_files fuel pattern files; exit 0
    end
  | _ =>
    _ ← fprintf 2 (line "usage: grep pattern [file ...]") [];
    exit 1
  end.

End grep.

(** ** The meaning of a regular expression

    [here re text]: [re] matches a prefix of [text]; [$] at the end of [re]
    matches only the end of the text, and [c*] any number of characters that [c]
    matches. *)

Definition char_matches (c x : Z) : Prop := c = ch "." ∨ c = x.

Inductive here : list Z → list Z → Prop :=
| here_nil text : here [] text
| here_star c re t1 t2 : Forall (char_matches c) t1 → here re t2 → here (c :: ch "*" :: re) (t1 ++ t2)
| here_end : here [ch "$"] []
| here_char c re x text :
    hd_error re ≠ Some (ch "*") → (c = ch "$" → re ≠ []) → char_matches c x → here re text → here (c :: re) (x :: text).

Inductive matches : list Z → list Z → Prop :=
| matches_anchored re text : here re text → matches (ch "^" :: re) text
| matches_anywhere re pre suf : hd_error re ≠ Some (ch "^") → here re suf → matches re (pre ++ suf).

Definition nonul (l : list Z) : Prop := Forall (λ b, b ≠ 0) l.

Lemma matchstar_spec mh c text :
  nonul text → matchstar mh c text = true ↔ ∃ t1 t2, text = t1 ++ t2 ∧ Forall (char_matches c) t1 ∧ mh t2 = true.
Proof.
  induction text as [|x text IH]; intros Hn; simpl.
  - destruct (mh []) eqn:E.
    + split; [|done]. intros _. by exists [], [].
    + split; [done|]. intros (t1 & t2 & Ht & _ & Hm). symmetry in Ht. apply app_eq_nil in Ht as [-> ->]. congruence.
  - apply list.Forall_cons in Hn as [Hx Hn]. destruct (mh (x :: text)) eqn:E.
    + split; [|done]. intros _. by exists [], (x :: text).
    + rewrite (proj2 (Z.eqb_neq x 0)) by done. cbn [negb andb].
      destruct ((x =? c) || (c =? ch ".")) eqn:Ec.
      * rewrite IH by done. split.
        -- intros (t1 & t2 & -> & Hf & Hm). exists (x :: t1), t2. split; [done|]. split; [|done].
           apply list.Forall_cons. split; [|done]. apply orb_prop in Ec as [?%Z.eqb_eq|?%Z.eqb_eq]; [by right|by left].
        -- intros (t1 & t2 & Ht & Hf & Hm). destruct t1 as [|y t1]; simpl in Ht; [subst; congruence|].
           injection Ht as <- ->. apply list.Forall_cons in Hf as [_ Hf]. by exists t1, t2.
      * split; [done|]. intros (t1 & t2 & Ht & Hf & Hm). destruct t1 as [|y t1]; simpl in Ht; [subst; congruence|].
        injection Ht as <- ->. apply list.Forall_cons in Hf as [Hy _]. apply orb_false_iff in Ec as [E1%Z.eqb_neq E2%Z.eqb_neq].
        destruct Hy; congruence.
Qed.

Lemma matchhere_char c x : (c =? ch ".") || (c =? x) = true ↔ char_matches c x.
Proof. rewrite orb_true_iff, !Z.eqb_eq. done. Qed.

Lemma here_inv c re1 text :
  here (c :: re1) text →
  (∃ re t1 t2, re1 = ch "*" :: re ∧ text = t1 ++ t2 ∧ Forall (char_matches c) t1 ∧ here re t2)
  ∨ (c = ch "$" ∧ re1 = [] ∧ text = [])
  ∨ (∃ x t, text = x :: t ∧ hd_error re1 ≠ Some (ch "*") ∧ (c = ch "$" → re1 ≠ []) ∧ char_matches c x ∧ here re1 t).
Proof. inversion 1; subst; [left; by eauto 10|by right; left|right; right; by eauto 10]. Qed.

(** The cases without a star. *)
Lemma matchhere_plain c re1 text :
  c ≠ 0 → nonul re1 → nonul text → hd_error re1 ≠ Some (ch "*") →
  (∀ t, nonul t → matchhere re1 t = true ↔ here re1 t) →
  (if (c =? ch "$") && (byte0 re1 =? 0) then byte0 text =? 0
   else match text with
        | [] => false
        | x :: text' => if negb (x =? 0) && ((c =? ch ".") || (c =? x)) then matchhere re1 text' else false
        end) = true ↔ here (c :: re1) text.
Proof.
  intros Hc Hr Ht Hns IH. destruct ((c =? ch "$") && (byte0 re1 =? 0)) eqn:Hno.
  - apply andb_prop in Hno as [Hd%Z.eqb_eq Hb%Z.eqb_eq]. subst c. destruct re1 as [|r re1]; [|by apply list.Forall_cons in Hr as [Hr _]].
    destruct text as [|x text]; simpl; [split; [constructor|done]|]. apply list.Forall_cons in Ht as [Hx _].
    rewrite (proj2 (Z.eqb_neq x 0)) by done. split; [done|]. intros Hh. apply here_inv in Hh. naive_solver.
  - assert (c = ch "$" → re1 ≠ []) as Hdol by (by intros -> ->). destruct text as [|x text].
    { split; [done|]. intros Hh. apply here_inv in Hh as [(re & t1 & t2 & -> & _)|Hh]; [done|]. naive_solver. }
    apply list.Forall_cons in Ht as [Hx Ht]. rewrite (proj2 (Z.eqb_neq x 0)) by done. cbn [negb andb].
    destruct ((c =? ch ".") || (c =? x)) eqn:E.
    + rewrite IH by done. apply matchhere_char in E. split; [by constructor|].
      intros Hh. apply here_inv in Hh as [(re & t1 & t2 & -> & _)|Hh]; [done|]. naive_solver.
    + split; [done|]. intros Hh. apply here_inv in Hh as [(re & t1 & t2 & -> & _)|[Hh|(x' & t & Ex & _ & _ & Hm & _)]]; [done|naive_solver|].
      injection Ex as <- <-. apply matchhere_char in Hm. congruence.
Qed.

Lemma matchhere_spec re text : nonul re → nonul text → matchhere re text = true ↔ here re text.
Proof.
  remember (length re) as n eqn:Hlen. revert re text Hlen.
  induction n as [n IH] using lt_wf_ind. intros re text -> Hr Ht. destruct re as [|c re1]; [split; [constructor|done]|].
  apply list.Forall_cons in Hr as [Hc Hr]. cbn [matchhere]. rewrite (proj2 (Z.eqb_neq c 0)) by done. cbv zeta.
  pose proof (λ H, matchhere_plain c re1 text Hc Hr Ht H (λ t Hn, IH (length re1) ltac:(simpl; lia) re1 t eq_refl Hr Hn)) as Hrest.
  destruct re1 as [|s re2]; [by apply Hrest|]. destruct (Z.eqb_spec s (ch "*")) as [->|Hs]; [|apply Hrest; simpl; congruence].
  apply list.Forall_cons in Hr as [_ Hr2]. rewrite matchstar_spec by done. split.
  - intros (t1 & t2 & -> & Hf & Hm). constructor; [done|]. apply Forall_app in Ht as [_ Ht2].
    apply (IH (length re2)) in Hm; [done|simpl; lia|done..].
  - intros Hh. apply here_inv in Hh as [(re & t1 & t2 & [= <-] & -> & Hf & Hh)|Hh]; [|naive_solver].
    apply Forall_app in Ht as [_ Ht2]. exists t1, t2. split; [done|]. split; [done|].
    apply (IH (length re2)); try done. simpl. lia.
Qed.

Lemma match_loop_spec re text :
  nonul re → nonul text → match_loop re text = true ↔ ∃ pre suf, text = pre ++ suf ∧ here re suf.
Proof.
  intros Hr. induction text as [|x text IH]; intros Ht; cbn [match_loop].
  - destruct (matchhere re []) eqn:E.
    + split; [|done]. intros _. exists [], []. split; [done|]. by apply matchhere_spec.
    + split; [done|]. intros (pre & suf & Hs & Hh). symmetry in Hs. apply app_eq_nil in Hs as [-> ->].
      apply matchhere_spec in Hh; [congruence|done..].
  - pose proof Ht as Ht0. apply list.Forall_cons in Ht as [Hx Ht]. destruct (matchhere re (x :: text)) eqn:E.
    + split; [|done]. intros _. exists [], (x :: text). split; [done|]. by apply matchhere_spec.
    + rewrite (proj2 (Z.eqb_neq x 0)), IH by done. split.
      * intros (pre & suf & -> & Hh). by exists (x :: pre), suf.
      * intros (pre & suf & Hs & Hh). destruct pre as [|y pre]; simpl in Hs.
        { subst suf. apply matchhere_spec in Hh; [congruence|done..]. }
        injection Hs as <- ->. by exists pre, suf.
Qed.

(** ** Lines *)

(** The complete lines of a text and what follows the last newline. *)
Fixpoint split_lines (l : list Z) : list (list Z) * list Z :=
  match l with
  | [] => ([], [])
  | c :: l =>
    let '(ls, r) := split_lines l in
    if c =? 10 then ([] :: ls, r)
    else match ls with
         | [] => ([], c :: r)
         | x :: ls => ((c :: x) :: ls, r)
         end
  end.

(** What [grep] prints of some lines. *)
Definition printed (pattern : list Z) (ls : list (list Z)) : list Z :=
  concat ((λ l, l ++ [10]) <$> filter (λ l, match_ pattern l = true) ls).

Lemma split_no_newline r : 10 ∉ r → split_lines r = ([], r).
Proof.
  induction r as [|c r IH]; intros Hr; [done|]. rewrite not_elem_of_cons in Hr. destruct Hr as [Hc Hr]. simpl.
  rewrite IH by done. by rewrite (proj2 (Z.eqb_neq c 10)) by done.
Qed.

Lemma split_line l t : 10 ∉ l → split_lines (l ++ 10 :: t) = (l :: (split_lines t).1, (split_lines t).2).
Proof.
  induction l as [|c l IH]; intros Hl; simpl; [by destruct (split_lines t)|]. rewrite not_elem_of_cons in Hl. destruct Hl as [Hc Hl].
  rewrite IH by done. by rewrite (proj2 (Z.eqb_neq c 10)) by done.
Qed.

(** Texts by their first line. *)
Lemma lines_ind (P : list Z → Prop) :
  (∀ r, 10 ∉ r → P r) → (∀ l t, 10 ∉ l → P t → P (l ++ 10 :: t)) → ∀ t, P t.
Proof.
  intros Hr Hl t. remember (length t) as n eqn:Hn. revert t Hn. induction n as [n IH] using lt_wf_ind. intros t ->.
  destruct (decide (10 ∈ t)) as [Hin|]; [|by apply Hr].
  apply list_elem_of_split_l in Hin as (l & t' & -> & Hnl). apply Hl; [done|].
  apply (IH (length t')); [|done]. rewrite length_app. simpl. lia.
Qed.

Lemma split_app a b :
  split_lines (a ++ b) =
    ((split_lines a).1 ++ (split_lines ((split_lines a).2 ++ b)).1, (split_lines ((split_lines a).2 ++ b)).2).
Proof.
  induction a as [r Hr|l t Hl IH] using lines_ind.
  - rewrite (split_no_newline r) by done. simpl. by destruct (split_lines (r ++ b)).
  - rewrite <- app_assoc. cbn [app]. rewrite !split_line by done. simpl. by rewrite IH.
Qed.

Lemma split_rem a : 10 ∉ (split_lines a).2 ∧ (length (split_lines a).2 <= length a)%nat ∧ (nonul a → nonul (split_lines a).2).
Proof.
  induction a as [r Hr|l t Hl IH] using lines_ind.
  - rewrite (split_no_newline r) by done. done.
  - rewrite split_line by done. simpl. destruct IH as (H1 & H2 & H3). split; [done|]. rewrite length_app. simpl. split; [lia|].
    intros Hn. apply Forall_app in Hn as [_ Hn]. apply list.Forall_cons in Hn as [_ Hn]. by apply H3.
Qed.

(** Lines that fit into the buffer with their newline. *)
Definition short_lines (l : list Z) : Prop :=
  Forall (λ x, (length x <= 1022)%nat) (split_lines l).1 ∧ (length (split_lines l).2 <= 1022)%nat.

Lemma short_prefix r l : 10 ∉ r → short_lines (r ++ l) → (length r <= 1022)%nat.
Proof.
  intros Hr [H1 H2]. destruct (decide (10 ∈ l)) as [Hin|Hni].
  - apply list_elem_of_split_l in Hin as (l1 & l2 & -> & Hn). rewrite app_assoc, split_line in H1 by set_solver.
    simpl in H1. apply list.Forall_cons in H1 as [H1 _]. rewrite length_app in H1. lia.
  - rewrite split_no_newline in H2 by set_solver. simpl in H2. rewrite length_app in H2. lia.
Qed.

(** C27: the matcher decides the language of regular expressions: on C strings,
    [match] returns 1 exactly if the expression, with its anchors [^] and [$],
    its wildcard [.] and its closure [*], matches somewhere in the text. *)
Theorem match_decides (re text : list Z) : nonul re → nonul text → match_ re text = true ↔ matches re text.
Proof.
  intros Hr Ht. unfold match_. destruct (Z.eqb_spec (byte0 re) (ch "^")) as [Hh|Hh].
  - destruct re as [|c re]; [done|]. simpl in Hh. subst c. apply list.Forall_cons in Hr as [_ Hr]. cbn [tl].
    rewrite matchhere_spec by done. split; [by constructor|]. by inversion 1.
  - rewrite match_loop_spec by done. assert (hd_error re ≠ Some (ch "^")) as Hne.
    { destruct re; simpl in *; [done|]. by intros [= ->]. }
    split; [intros (pre & suf & -> & Hm); by constructor|]. inversion 1; subst; [done|]. by eauto.
Qed.

Lemma match_decides_witness : matches (str "^a.*b$") (str "axxb") ∧ ¬ matches (str "b*c$") (str "abcd").
Proof.
  split.
  - apply (match_decides (str "^a.*b$") (str "axxb")).
    + repeat (apply list.Forall_cons; split; [done|]). constructor.
    + repeat (apply list.Forall_cons; split; [done|]). constructor.
    + vm_compute. reflexivity.
  - intros Hm. apply (match_decides (str "b*c$") (str "abcd")) in Hm.
    + vm_compute in Hm. discriminate Hm.
    + repeat (apply list.Forall_cons; split; [done|]). constructor.
    + repeat (apply list.Forall_cons; split; [done|]). constructor.
Defined.

(** ** The loops *)

Lemma printed_cons pat l ls : printed pat (l :: ls) = (if match_ pat l then l ++ [10] else []) ++ printed pat ls.
Proof.
  unfold printed. rewrite filter_cons. destruct (match_ pat l).
  - by rewrite decide_True by done.
  - by rewrite decide_False by done.
Qed.

Lemma printed_app pat l1 l2 : printed pat (l1 ++ l2) = printed pat l1 ++ printed pat l2.
Proof. unfold printed. by rewrite list.filter_app, fmap_app, concat_app. Qed.

Lemma bytes_at_upd_out m a n x v : x < a ∨ a + Z.of_nat n <= x → bytes_at (upd m x v) a n = bytes_at m a n.
Proof. intros Hx. apply bytes_at_ext. intros y Hy. apply upd_ne. lia. Qed.

Section loops.
Context `{Input σ} (pat : list Z) (lim : nat).

(** One line: the NUL and, for a line that is printed, the newline again. *)
Definition line_step (l : list Z) (p : Z) (w w' : uworld σ) : Prop :=
  out 1 (us w') = out 1 (us w) ++ (if match_ pat l then l ++ [10] else [])
  ∧ (∀ fd, inp fd (us w') = inp fd (us w))
  ∧ ∀ x, x < p ∨ p + Z.of_nat (length l) < x → um w' x = um w x.

Lemma grep_line fuel l t p w :
  10 ∉ l → nonul (l ++ 10 :: t) → (length (l ++ 10%Z :: t) < lim)%nat →
  bytes_at (um w) p (length (l ++ 10 :: t)) = l ++ 10 :: t → um w (p + Z.of_nat (length (l ++ 10 :: t))) = 0 →
  ∃ w', grep_lines lim (S fuel) pat p w = grep_lines lim fuel pat (p + Z.of_nat (length l) + 1) w' ∧ line_step l p w w'.
Proof.
  intros Hl Hn Hlim Hb Hz. cbn [grep_lines]. pose proof Hn as Hn0. apply Forall_app in Hn0 as [Hnl _].
  assert (cstring lim p w = UOk (l ++ 10 :: t) w) as E1 by (unfold cstring; by rewrite (cstring_at_spec lim _ _ (l ++ 10 :: t))).
  rewrite (ubind_ok _ _ _ _ _ E1).
  assert (strchr (l ++ 10 :: t) 10 = Some (length l)) as ->.
  { apply strchr_Some; [done|]. split; [by rewrite lookup_app_r, Nat.sub_diag by lia|]. intros j b Hj Hjb.
    rewrite lookup_app_l in Hjb by done. split; [intros ->; apply Hl; by eapply list_elem_of_lookup_2|].
    by eapply Forall_lookup_1 in Hnl. }
  cbv zeta. erewrite ubind_ok by reflexivity. rewrite length_app in Hlim, Hb. simpl in Hlim, Hb.
  rewrite bytes_at_app in Hb. apply app_inj_1 in Hb as [Hb _]; [|by rewrite length_bytes_at].
  set (q := p + Z.of_nat (length l)). set (w1 := MkU (upd (um w) q (u8 0)) (us w)).
  assert (bytes_at (um w1) p (length l) = l) as Hb1 by (cbn; rewrite bytes_at_upd_out by lia; done).
  assert (cstring lim p w1 = UOk l w1) as E2.
  { unfold cstring. rewrite (cstring_at_spec lim _ _ l); [done|lia|done|done|]. apply upd_eq. }
  rewrite (ubind_ok _ _ _ _ _ E2). destruct (match_ pat l) eqn:Em; cbn [uwhen].
  - set (w2 := MkU (upd (um w1) q (u8 10)) (us w)).
    assert (bytes_at (um w2) p (Z.to_nat (q + 1 - p)) = l ++ [10]) as Hb2.
    { replace (Z.to_nat (q + 1 - p)) with (length l + 1)%nat by lia. rewrite bytes_at_app. cbn [um w2].
      rewrite bytes_at_upd_out, Hb1 by lia. f_equal. simpl. f_equal. apply upd_eq. }
    set (w3 := MkU (um w2) (os_call (SWrite 1 (l ++ [10])) (us w)).2).
    assert (write 1 p (q + 1 - p) w2 = UOk (r_val (os_call (SWrite 1 (l ++ [10])) (us w)).1) w3) as E3.
    { unfold write. erewrite ubind_ok by reflexivity. rewrite Hb2. done. }
    exists w3. split; [|split; [|split]].
    + erewrite ubind_ok; [reflexivity|]. erewrite ubind_ok by reflexivity. by rewrite (ubind_ok _ _ _ _ _ E3).
    + cbn [us w3]. rewrite Em. apply out_write.
    + intros fd. cbn [us w3]. apply inp_write.
    + intros x Hx. cbn. by rewrite !upd_ne by lia.
  - exists w1. split; [done|]. split; [cbn; by rewrite Em, app_nil_r|]. split; [done|]. intros x Hx. apply upd_ne. lia.
Qed.

Lemma grep_lines_spec t : ∀ fuel p w,
  nonul t → (length t < fuel)%nat → (length t < lim)%nat → bytes_at (um w) p (length t) = t → um w (p + Z.of_nat (length t)) = 0 →
  let r := (split_lines t).2 in let p' := p + Z.of_nat (length t) - Z.of_nat (length r) in
  ∃ w', grep_lines lim fuel pat p w = UOk p' w' ∧ bytes_at (um w') p' (length r) = r
    ∧ out 1 (us w') = out 1 (us w) ++ printed pat (split_lines t).1 ∧ (∀ fd, inp fd (us w') = inp fd (us w)).
Proof.
  induction t as [r Hr|l t Hl IH] using lines_ind; intros fuel p w Hn Hf Hlim Hb Hz.
  - rewrite (split_no_newline r) by done. simpl. replace (p + _ - _) with p by lia. exists w. destruct fuel as [|fuel]; [lia|].
    cbn [grep_lines]. assert (cstring lim p w = UOk r w) as E1 by (unfold cstring; by rewrite (cstring_at_spec lim _ _ r)).
    rewrite (ubind_ok _ _ _ _ _ E1), (proj2 (strchr_None r 10 Hn)) by done. split; [done|]. split; [done|]. by rewrite app_nil_r.
  - rewrite split_line by done. cbn [fst snd]. destruct fuel as [|fuel]; [lia|].
    destruct (grep_line fuel l t p w) as (w1 & E & Ho & Hi & Hm); [done..|]. rewrite E.
    rewrite length_app in *. cbn [length] in *. rewrite bytes_at_app in Hb. apply app_inj_1 in Hb as [_ Hb]; [|by rewrite length_bytes_at].
    cbn [bytes_at] in Hb. injection Hb as _ Hb. apply Forall_app in Hn as [_ Hn]. apply list.Forall_cons in Hn as [_ Hn].
    destruct (IH fuel (p + Z.of_nat (length l) + 1) w1) as (w2 & E2 & Hb2 & Ho2 & Hi2); [done|lia|lia| | |].
    { rewrite <- Hb at 2. apply bytes_at_ext. intros x Hx. apply Hm. lia. }
    { rewrite Hm by lia. rewrite <- Hz. f_equal. lia. }
    exists w2. rewrite E2. replace (p + _ - _) with (p + Z.of_nat (length l) + 1 + Z.of_nat (length t) - Z.of_nat (length (split_lines t).2)) by lia.
    split; [done|]. split; [done|]. rewrite Ho2, Ho, printed_cons, app_assoc. split; [done|]. intros fd. by rewrite Hi2.
Qed.

Context (buf fd : Z).

(** The bytes [r] of an unfinished line are at the start of the buffer. *)
Lemma grep_loop_spec fuel : ∀ r w,
  10 ∉ r → nonul (r ++ inp fd (us w)) → short_lines (r ++ inp fd (us w)) → (1024 <= lim)%nat →
  bytes_at (um w) buf (length r) = r → (length (inp fd (us w)) < fuel)%nat →
  ∃ w', grep_loop buf lim fuel pat fd (Z.of_nat (length r)) w = UOk () w'
    ∧ out 1 (us w') = out 1 (us w) ++ printed pat (split_lines (r ++ inp fd (us w))).1 ∧ inp fd (us w') = [].
Proof.
  induction fuel as [|fuel IH]; intros r w Hr Hn Hs Hlim Hb Hf; [lia|]. cbn [grep_loop].
  pose proof (short_prefix _ _ Hr Hs) as Hlr.
  destruct (inp_read fd (1024 - Z.of_nat (length r) - 1) (us w) ltac:(lia)) as (c & Ec & Hc & Hi & He).
  set (s1 := (os_call (SRead fd (1024 - Z.of_nat (length r) - 1)) (us w)).2) in *.
  set (w1 := MkU (st_bytes (um w) (buf + Z.of_nat (length r)) c) s1).
  assert (read fd (buf + Z.of_nat (length r)) (1024 - Z.of_nat (length r) - 1) w = UOk (Z.of_nat (length c)) w1) as E1.
  { unfold read, read_bytes. erewrite ubind_ok by reflexivity. erewrite ubind_ok by reflexivity. cbn [um us]. rewrite Ec. done. }
  rewrite (ubind_ok _ _ _ _ _ E1). assert (out 1 s1 = out 1 (us w)) as Ho1 by apply inp_read_out.
  destruct (Z.ltb_spec 0 (Z.of_nat (length c))) as [Hpos|Hzero].
  2: { assert (c = []) as -> by (apply nil_length_inv; lia). destruct (He eq_refl) as [|Ei]; [lia|]. exists w1.
       split; [done|]. rewrite Ei, app_nil_r, split_no_newline by done. cbn [us w1]. rewrite Ho1, app_nil_r. split; [done|].
       by rewrite Ei in Hi. }
  cbv zeta. set (t := r ++ c). assert (length t = (length r + length c)%nat) as Ht by apply length_app.
  rewrite <- Nat2Z.inj_add, <- Ht. erewrite ubind_ok by reflexivity.
  set (w2 := MkU (upd (um w1) (buf + Z.of_nat (length t)) (u8 0)) (us w1)).
  rewrite Hi, app_assoc in Hn, Hs. fold t in Hn, Hs.
  assert (bytes_at (um w2) buf (length t) = t) as Hb2.
  { cbn [um w2 w1]. rewrite bytes_at_upd_out by lia. rewrite Ht, bytes_at_app, bytes_at_st_bytes.
    unfold t. f_equal. rewrite bytes_at_st_bytes_disj by lia. done. }
  pose proof Hn as Hn2. apply Forall_app in Hn2 as [Hnt Hni].
  destruct (grep_lines_spec t lim buf w2) as (w3 & E3 & Hb3 & Ho3 & Hi3); [done|lia|lia|done|by cbn; rewrite upd_eq|].
  rewrite (ubind_ok _ _ _ _ _ E3). rewrite (proj2 (Z.ltb_lt 0 _)) by lia.
  destruct (split_rem t) as (Hr1 & Hr2 & Hr3). set (r' := (split_lines t).2) in *.
  replace (Z.of_nat (length t) - _) with (Z.of_nat (length r')) by lia.
  set (p' := buf + Z.of_nat (length t) - Z.of_nat (length r')) in *.
  destruct (memmove_spec buf p' (Z.of_nat (length r')) w3 ltac:(lia)) as (m4 & E4 & Hm4).
  rewrite (ubind_ok _ _ _ _ _ E4). set (w4 := MkU m4 (us w3)).
  assert (inp fd (us w4) = inp fd s1) as Hi4 by (cbn; by rewrite Hi3).
  destruct (IH r' w4) as (w5 & E5 & Ho5 & Hi5); [done| | |done| | |].
  { rewrite Hi4. apply Forall_app. split; [by apply Hr3|done]. }
  { rewrite Hi4. destruct Hs as [Hs1 Hs2]. rewrite split_app in Hs1, Hs2. apply Forall_app in Hs1 as [_ Hs1]. by split. }
  { rewrite <- Hb3 at 2. cbn [um w4]. apply list_eq. intros i. destruct (decide (i < length r')%nat) as [Hlt|].
    - rewrite !bytes_at_lookup by done. f_equal. rewrite Hm4.
      rewrite (proj2 (Z.leb_le _ _)), (proj2 (Z.ltb_lt _ _)) by lia. cbn [andb]. f_equal. lia.
    - rewrite !lookup_ge_None_2; [done|rewrite length_bytes_at; lia..]. }
  { rewrite Hi4. rewrite Hi, length_app in Hf. lia. }
  exists w5. rewrite E5. split; [done|]. split; [|done]. rewrite Ho5, Hi4. cbn [us w4]. rewrite Ho3. cbn [us w2 w1]. rewrite Ho1.
  rewrite Hi, app_assoc. fold t. rewrite (split_app t). cbn [fst]. fold r'. by rewrite printed_app, app_assoc.
Qed.

End loops.

(** C30: [grep] prints exactly the matching lines.  However the system delivers the
    input, in pieces of whatever size, if no line is longer than the buffer can
    hold with its newline and NUL, [grep] terminates at the end of the input and
    has written, in order, each complete line that the expression matches, with
    its newline, and nothing else.  Characters after the last newline are not a
    line. *)
Theorem grep_prints_matches `{Input σ} (buf fd : Z) (lim fuel : nat) (pat : list Z) (w : uworld σ) :
  let text := inp fd (us w) in
  nonul text → short_lines text → (1024 <= lim)%nat → (length text < fuel)%nat →
  ∃ w', grep buf lim fuel pat fd w = UOk () w'
    ∧ out 1 (us w') = out 1 (us w) ++ printed pat (split_lines text).1 ∧ inp fd (us w') = [].
Proof.
  intros text Hn Hs Hl Hf. apply (grep_loop_spec pat lim buf fd fuel [] w); [set_solver|done..].
Qed.

Definition demo_streams : streams := MkStreams {[ 3 := str "one" ++ [10] ++ str "two" ++ [10] ++ str "three" ]} ∅ 4.

Lemma grep_prints_matches_witness :
  ∃ w', grep 0x5000 1024 100 (str "o$") 3 (MkU (λ _, 0) demo_streams) = UOk () w' ∧ out 1 (us w') = line "two".
Proof.
  destruct (@grep_prints_matches streams _ _ _ 0x5000 3 1024 100 (str "o$") (MkU (λ _, 0) demo_streams)) as (w' & E & Ho & _).
  - repeat (apply list.Forall_cons; split; [done|]). constructor.
  - split; [repeat (apply list.Forall_cons; split; [by apply Nat.leb_le; vm_compute|]); constructor|by apply Nat.leb_le; vm_compute].
  - lia.
  - apply Nat.ltb_lt. by vm_compute.
  - exists w'. split; [exact E|]. rewrite Ho. by vm_compute.
Defined.
