(* ===== verification/UProgs.v ===== *)
(** * The small user programs

    cat, echo, init, kill, ln, ls, mkdir, pingpong, rm, sleep, trace, wc and
    zombie of user/.  [argv] is the list of the argument strings.  A loop that
    depends on what the system answers has fuel. *)

From S2P Require Import Prelude Memory CString Kernel User ULib UPrintf Grep.

Section progs.
Context `{OS σ}.

(** ** cat.c *)

Section cat.
Context (buf : Z).

Fixpoint cat (fuel : nat) (fd : Z) : U σ unit :=
  match fuel with
  | O => hang
  | S fuel =>
    n ← read fd buf 512;
    if 0 <? n then
      r ← write 1 buf n;
      if negb (r =? n) then
        _ ← fprintf 2 (line "cat: write error") [];
        exit 1
      else cat fuel fd
    else if n <? 0 then
      _ ← fprintf 2 (line "cat: read error") [];
      exit 1
    else mret ()
  end.

Fixpoint cat_files (fuel : nat) (files : list (list Z)) : U σ unit :=
  match files with
  | [] => mret ()
  | f :: files =>
    fd ← open f O_RDONLY;
    if fd <? 0 then
      _ ← fprintf 2 (line "cat: cannot open %s") [AStr (Some f)];
      exit 1
    else
      _ ← cat fuel fd;
      _ ← close fd;
      cat_files fuel files
  end.

Definition cat_main (fuel : nat) (argv : list (list Z)) : U σ unit :=
  match tl argv with
  | [] => _ ← cat fuel 0; exit 0
  | files => _ ← cat_files fuel files; exit 0
  end.

End cat.

(** ** echo.c *)

Fixpoint echo_args (args : list (list Z)) : U σ unit :=
  match args with
  | [] => mret ()
  | a :: args =>
    _ ← write_bytes 1 (cstr a);
    _ ← write_bytes 1 (match args with [] => [10] | _ => [ch " "] end);
    echo_args args
  end.

Definition echo_main (argv : list (list Z)) : U σ unit := _ ← echo_args (tl argv); exit 0.

(** ** kill.c, ln.c, mkdir.c, rm.c, sleep.c, zombie.c *)

Definition kill_main (argv : list (list Z)) : U σ unit :=
  match tl argv with
  | [] => _ ← fprintf 2 (line "usage: kill pid...") []; exit 1
  | pids => _ ← ufor pids (λ a, _ ← kill (atoi a); mret ()); exit 0
  end.

Definition ln_main (argv : list (list Z)) : U σ unit :=
  match argv with
  | [_; old; new] =>
    r ← link old new;
    _ ← uwhen (r <? 0) (fprintf 2 (line "link %s %s: failed") [AStr (Some old); AStr (Some new)]);
    exit 0
  | _ => _ ← fprintf 2 (line "Usage: ln old new") []; exit 1
  end.

(** [break] at the first failure. *)
Fixpoint mkdir_args (args : list (list Z)) : U σ unit :=
  match args with
  | [] => mret ()
  | a :: args =>
    r ← mkdir a;
    if r <? 0 then fprintf 2 (line "mkdir: %s failed to create") [AStr (Some a)] else mkdir_args args
  end.

Definition mkdir_main (argv : list (list Z)) : U σ unit :=
  match tl argv with
  | [] => _ ← fprintf 2 (line "Usage: mkdir files...") []; exit 1
  | args => _ ← mkdir_args args; exit 0
  end.

Fixpoint rm_args (args : list (list Z)) : U σ unit :=
  match args with
  | [] => mret ()
  | a :: args =>
    r ← unlink a;
    if r <? 0 then fprintf 2 (line "rm: %s failed to delete") [AStr (Some a)] else rm_args args
  end.

Definition rm_main (argv : list (list Z)) : U σ unit :=
  match tl argv with
  | [] => _ ← fprintf 2 (line "Usage: rm files...") []; exit 1
  | args => _ ← rm_args args; exit 0
  end.

Definition sleep_main (argv : list (list Z)) : U σ unit :=
  match argv with
  | [_; a] =>
    let n_ticks := atoi a in
    _ ← sleep n_ticks;
    exit 0
  | _ => _ ← fprintf 2 (line "Usage: ./sleep <n_ticks>") []; exit (-1)
  end.

Definition zombie_main : U σ unit :=
  pid ← fork;
  _ ← (if 0 <? pid then sleep 5 else mret 0);
  exit 0.

(** ** pingpong.c *)

Definition pingpong_main : U σ unit :=
  '(_, parent2child) ← pipe;
  '(_, child2parent) ← pipe;
  let byte := ch "A" in
  pid ← fork;
  if pid =? 0 then
    _ ← close parent2child.2;
    r ← read_bytes parent2child.1 1;
    let byte := hd byte (r_out r) in
    _ ← close parent2child.1;
    me ← getpid;
    _ ← printf (line "%d: received ping") [AInt me];
    _ ← close child2parent.1;
    _ ← write_bytes child2parent.2 [byte];
    _ ← close child2parent.2;
    exit 0
  else if 0 <? pid then
    _ ← close parent2child.1;
    _ ← write_bytes parent2child.2 [byte];
    _ ← close parent2child.2;
    _ ← close child2parent.2;
    _ ← read_bytes child2parent.1 1;
    _ ← close child2parent.1;
    me ← getpid;
    _ ← printf (line "%d: received pong") [AInt me];
    exit 0
  else
    _ ← fprintf 2 (line "oops, something went wrong!") [];
    exit (-1).

(** ** trace.c *)

(** The pointers before the first null one. *)
Fixpoint until_null (l : list (option (list Z))) : list (list Z) :=
  match l with
  | Some s :: l => s :: until_null l
  | _ => []
  end.

(** [stack] is what the uninitialised array [nargv] holds. *)
Definition trace_main (stack : list (option (list Z))) (argv : list (list Z)) : U σ unit :=
  match argv with
  | a0 :: a1 :: cmd :: args =>
    if (byte0 a1 <? ch "0") || (ch "9" <? byte0 a1) then
      _ ← fprintf 2 (line "Usage: %s mask command") [AStr (Some a0)];
      exit 1
    else
      r ← trace (u32 (atoi a1));
      if r <? 0 then
        _ ← fprintf 2 (line "%s: trace failed") [AStr (Some a0)];
        exit 1
      else
        let given := take (Z.to_nat (MAXARG - 2)) (cmd :: args) in
        let nargv := (Some <$> given) ++ drop (length given) stack in
        _ ← exec cmd (until_null nargv);
        exit 0
  | _ =>
    _ ← fprintf 2 (line "Usage: %s mask command") [AStr (head argv)];
    exit 1
  end.

(** ** init.c *)

(** The inner [for(;;)]: until the shell has exited. *)
Fixpoint init_wait (fuel : nat) (pid : Z) : U σ unit :=
  match fuel with
  | O => hang
  | S fuel =>
    '(wpid, _) ← wait;
    if wpid =? pid then mret ()
    else if wpid <? 0 then
      _ ← printf (line "init: wait returned an error") [];
      exit 1
    else init_wait fuel pid
  end.

Fixpoint init_loop (fuel : nat) : U σ unit :=
  match fuel with
  | O => hang
  | S fuel' =>
    _ ← printf (line "init: starting sh") [];
    pid ← fork;
    if pid <? 0 then
      _ ← printf (line "init: fork failed") [];
      exit 1
    else if pid =? 0 then
      _ ← exec (str "sh") [str "sh"];
      _ ← printf (line "init: exec sh failed") [];
      exit 1
    else
      _ ← init_wait fuel pid;
      init_loop fuel'
  end.

Definition init_main (fuel : nat) : U σ unit :=
  fd ← open (str "console") O_RDWR;
  _ ← (if fd <? 0 then
         _ ← mknod (str "console") CONSOLE 0;
         open (str "console") O_RDWR
       else mret fd);
  _ ← dup 0;
  _ ← dup 0;
  init_loop fuel.

(** ** ls.c *)

(** [for(p=path+strlen(path); p >= path && *p != '/'; p--);] from the end of the
    path backwards, and [p++]: what follows the last slash. *)
Fixpoint back_to_slash (rpath : list Z) : list Z :=
  match rpath with
  | [] => []
  | c :: rest => if c =? ch "/" then [] else c :: back_to_slash rest
  end.
Definition after_slash (path : list Z) : list Z := reverse (back_to_slash (reverse path)).

Definition fmtname (path : list Z) : list Z :=
  let p := after_slash (cstr path) in
  if DIRSIZ <=? strlen p then p
  else p ++ replicate (Z.to_nat (DIRSIZ - strlen p)) (ch " ").

(** The fields of a struct stat. *)
Definition st_ino (st : list Z) : Z := get32 st 4.
Definition st_type (st : list Z) : Z := i16 (get16 st 8).
Definition st_size (st : list Z) : Z := le_dec (take 8 (drop 16 st)).

Fixpoint ls_dir (fuel : nat) (fd : Z) (path : list Z) : U σ unit :=
  match fuel with
  | O => hang
  | S fuel =>
    r ← read_bytes fd 16;
    if negb (r_val r =? 16) then mret ()
    else if get16 (r_out r) 0 =? 0 then ls_dir fuel fd path
    else
      let buf := cstr path ++ [ch "/"] ++ cstr (take (Z.to_nat DIRSIZ) (drop 2 (r_out r))) in
      '(r, st) ← stat buf;
      if r <? 0 then
        _ ← printf (line "ls: cannot stat %s") [AStr (Some buf)];
        ls_dir fuel fd path
      else
        _ ← printf (line "%s %d %d %d") [AStr (Some (fmtname buf)); AInt (st_type st); AInt (st_ino st); AInt (st_size st)];
        ls_dir fuel fd path
  end.

Definition ls (fuel : nat) (path : list Z) : U σ unit :=
  fd ← open path O_RDONLY;
  if fd <? 0 then fprintf 2 (line "ls: cannot open %s") [AStr (Some path)]
  else
    '(r, st) ← fstat fd;
    if r <? 0 then
      _ ← fprintf 2 (line "ls: cannot stat %s") [AStr (Some path)];
      _ ← close fd;
      mret ()
    else
      _ ← (if (st_type st =? T_DEVICE) || (st_type st =? T_FILE) then
             printf (line "%s %d %d %l") [AStr (Some (fmtname path)); AInt (st_type st); AInt (st_ino st); AInt (st_size st)]
           else if st_type st =? T_DIR then
             if 512 <? strlen path + 1 + DIRSIZ + 1 then printf (line "ls: path too long") []
             else ls_dir fuel fd path
           else mret ());
      _ ← close fd;
      mret ().

Definition ls_main (fuel : nat) (argv : list (list Z)) : U σ unit :=
  match tl argv with
  | [] => _ ← ls fuel (str "."); exit 0
  | args => _ ← ufor args (ls fuel); exit 0
  end.

(** ** wc.c *)

Record wcount := MkWc { wc_l : Z; wc_w : Z; wc_c : Z; wc_inword : bool }.

Definition wc_blank : list Z := [ch " "; 13; 9; 10; 11].

(** The body of [for(i=0; i<n; i++)]. *)
Definition wc_char (s : wcount) (b : Z) : wcount :=
  let c := i32 (wc_c s + 1) in
  let l := if b =? 10 then i32 (wc_l s + 1) else wc_l s in
  match strchr wc_blank b with
  | Some _ => MkWc l (wc_w s) c false
  | None => if negb (wc_inword s) then MkWc l (i32 (wc_w s + 1)) c true else MkWc l (wc_w s) c (wc_inword s)
  end.

Section wc.
Context (buf : Z).

Fixpoint wc_loop (fuel : nat) (fd : Z) (s : wcount) : U σ (Z * wcount) :=
  match fuel with
  | O => hang
  | S fuel =>
    n ← read fd buf 512;
    if 0 <? n then
      m ← getm;
      wc_loop fuel fd (foldl wc_char s (bytes_at m buf (Z.to_nat n)))
    else mret (n, s)
  end.

Definition wc (fuel : nat) (fd : Z) (name : list Z) : U σ unit :=
  '(n, s) ← wc_loop fuel fd (MkWc 0 0 0 false);
  if n <? 0 then
    _ ← printf (line "wc: read error") [];
    exit 1
  else printf (line "%d %d %d %s") [AInt (wc_l s); AInt (wc_w s); AInt (wc_c s); AStr (Some name)].

Fixpoint wc_files (fuel : nat) (files : list (list Z)) : U σ unit :=
  match files with
  | [] => mret ()
  | f :: files =>
    fd ← open f O_RDONLY;
    if fd <? 0 then
      _ ← printf (line "wc: cannot open %s") [AStr (Some f)];
      exit 1
    else
      _ ← wc fuel fd f;
      _ ← close fd;
      wc_files fuel files
  end.

Definition wc_main (fuel : nat) (argv : list (list Z)) : U σ unit :=
  match tl argv with
  | [] => _ ← wc fuel 0 []; exit 0
  | files => _ ← wc_files fuel files; exit 0
  end.

End wc.

End progs.

(** ** What wc counts *)

Definition blank (b : Z) : bool := bool_decide (b ∈ wc_blank).

(** The maximal runs of characters that are not blank. *)
Fixpoint words_from (w : list Z) (text : list Z) : list (list Z) :=
  match text with
  | [] => if decide (w = []) then [] else [w]
  | b :: text => if blank b then (if decide (w = []) then [] else [w]) ++ words_from [] text else words_from (w ++ [b]) text
  end.
Definition words (text : list Z) : list (list Z) := words_from [] text.
Definition newlines (text : list Z) : nat := length (filter (λ b, b = 10) text).

Lemma strchr_blank b : match strchr wc_blank b with Some _ => true | None => false end = blank b.
Proof.
  unfold blank. destruct (strchr wc_blank b) as [i|] eqn:E.
  - symmetry. apply bool_decide_eq_true_2. destruct (decide (b = 0)) as [->|Hb]; [done|].
    apply strchr_Some in E as [E _]; [|done]. by eapply list_elem_of_lookup_2.
  - symmetry. apply bool_decide_eq_false_2. apply strchr_None in E; [done|]. repeat (apply list.Forall_cons; split; [done|]). constructor.
Qed.

(** The state after some text, [w] being the word that is being read. *)
Lemma wc_fold text : ∀ l k c w,
  0 <= l → 0 <= k → 0 <= c → l + Z.of_nat (length text) < 2 ^ 31 → k + Z.of_nat (length text) < 2 ^ 31 → c + Z.of_nat (length text) < 2 ^ 31 →
  ∃ b, foldl wc_char (MkWc l k c (bool_decide (w ≠ []))) text
    = MkWc (l + Z.of_nat (newlines text)) (k + Z.of_nat (length (words_from w text)) - (if decide (w = []) then 0 else 1))
        (c + Z.of_nat (length text)) b.
Proof.
  induction text as [|x text IH]; intros l k c w Hl Hk Hc Hl2 Hk2 Hc2; cbn [foldl length words_from] in *.
  { eexists. f_equal; [unfold newlines; simpl; lia|destruct (decide (w = [])); simpl; lia|lia]. }
  unfold wc_char at 2. cbn [wc_l wc_w wc_c wc_inword]. pose proof (strchr_blank x) as Hb.
  rewrite (i32_small (c + 1)), (i32_small (l + 1)), (i32_small (k + 1)) by lia.
  set (l' := if x =? 10 then l + 1 else l).
  assert (l + Z.of_nat (newlines (x :: text)) = l' + Z.of_nat (newlines text) ∧ 0 <= l' <= l + 1) as [-> Hl'].
  { unfold newlines, l'. rewrite filter_cons. destruct (Z.eqb_spec x 10).
    - rewrite decide_True by done. cbn [length]. lia.
    - rewrite decide_False by done. lia. }
  replace (c + Z.of_nat (S (length text))) with (c + 1 + Z.of_nat (length text)) by lia.
  destruct (strchr wc_blank x); rewrite <- Hb.
  - destruct (IH l' k (c + 1) []) as (b & E); [lia..|]. exists b. change (bool_decide ([] ≠ [])) with false in E. rewrite E.
    rewrite (decide_True (P := [] = [])) by done. f_equal. destruct (decide (w = [])); rewrite ?length_app; cbn [length]; lia.
  - assert (bool_decide (w ++ [x] ≠ []) = true) as Ew by (apply bool_decide_eq_true_2; by destruct w).
    destruct (bool_decide_reflect (w ≠ [])) as [Hw|Hw]; cbn [negb].
    + destruct (IH l' k (c + 1) (w ++ [x])) as (b & E); [lia..|]. exists b. rewrite Ew in E. rewrite E. f_equal.
      rewrite !decide_False; [done|done|by destruct w].
    + destruct (IH l' (k + 1) (c + 1) (w ++ [x])) as (b & E); [lia..|]. exists b. rewrite Ew in E. rewrite E. f_equal.
      rewrite decide_False by (by destruct w). destruct (decide (w = [])); [lia|done].
Qed.

Lemma newlines_le text : (newlines text <= length text)%nat.
Proof. apply length_filter. Qed.

Lemma words_from_le w text : (length (words_from w text) <= length text + (if decide (w = []) then 0 else 1))%nat.
Proof.
  revert w. induction text as [|b text IH]; intros w; cbn [words_from length].
  { destruct (decide (w = [])); simpl; lia. }
  destruct (blank b).
  - specialize (IH []). rewrite (decide_True (P := [] = [])) in IH by done. destruct (decide (w = [])); rewrite ?length_app; simpl; lia.
  - specialize (IH (w ++ [b])). rewrite decide_False in IH by (by destruct w). destruct (decide (w = [])); lia.
Qed.

Lemma words_le text : (length (words text) <= length text)%nat.
Proof. pose proof (words_from_le [] text). rewrite decide_True in H by done. unfold words. lia. Qed.

Lemma cstr_id s : Forall (λ c, 0 < c < 256) s → cstr s = s.
Proof.
  induction s as [|c s IH]; intros Hs; [done|]. apply list.Forall_cons in Hs as [Hc Hs]. simpl.
  rewrite (proj2 (Z.eqb_neq c 0)) by lia. by rewrite IH.
Qed.

Lemma wc_line_emits `{Output σ} l k c name :
  0 <= l < 2 ^ 31 → 0 <= k < 2 ^ 31 → 0 <= c < 2 ^ 31 → Forall (λ c, 0 < c < 256) name →
  emits 1 (notation l 10 true ++ [ch " "] ++ notation k 10 true ++ [ch " "] ++ notation c 10 true ++ [ch " "] ++ name ++ [10])
    (printf (line "%d %d %d %s") [AInt l; AInt k; AInt c; AStr (Some name)]).
Proof.
  intros Hl Hk Hc Hn.
  assert (printf (line "%d %d %d %s") [AInt l; AInt k; AInt c; AStr (Some name)] =
    (_ ← printint 1 (i32 l) 10 true; _ ← putc 1 (ch " "); _ ← printint 1 (i32 k) 10 true; _ ← putc 1 (ch " ");
     _ ← printint 1 (i32 c) 10 true; _ ← putc 1 (ch " "); _ ← ufor (cstr name) (putc 1); _ ← putc 1 10; mret ())) as -> by done.
  rewrite !i32_small, cstr_id by (done || lia). rewrite <- (app_nil_r [10]).
  repeat (apply emits_bind; [first [by apply printint_emits|by apply emits_putc|apply emits_ufor]|]).
  - revert Hn. apply Forall_impl. simpl. lia.
  - apply emits_nil.
Qed.

Section wc_spec.
Context `{Input σ} (buf fd : Z).

Lemma wc_loop_spec fuel : ∀ s w,
  (length (inp fd (us w)) < fuel)%nat →
  ∃ w', wc_loop buf fuel fd s w = UOk (0, foldl wc_char s (inp fd (us w))) w' ∧ ∀ fd', out fd' (us w') = out fd' (us w).
Proof.
  induction fuel as [|fuel IH]; intros s w Hf; [lia|]. cbn [wc_loop].
  destruct (inp_read fd 512 (us w) ltac:(lia)) as (c & Ec & Hc & Hi & He). set (s1 := (os_call (SRead fd 512) (us w)).2) in *.
  set (w1 := MkU (st_bytes (um w) buf c) s1).
  assert (read fd buf 512 w = UOk (Z.of_nat (length c)) w1) as E1.
  { unfold read, read_bytes. erewrite ubind_ok by reflexivity. erewrite ubind_ok by reflexivity. cbn [um us]. rewrite Ec. done. }
  rewrite (ubind_ok _ _ _ _ _ E1). assert (∀ fd', out fd' s1 = out fd' (us w)) as Ho by (intros; apply inp_read_out).
  destruct (Z.ltb_spec 0 (Z.of_nat (length c))) as [Hpos|Hzero].
  - erewrite ubind_ok by reflexivity. cbn [um w1]. rewrite Nat2Z.id, bytes_at_st_bytes.
    destruct (IH (foldl wc_char s c) w1) as (w2 & E2 & Ho2); [cbn [us w1]; rewrite Hi, length_app in Hf; lia|].
    exists w2. rewrite E2. cbn [us w1]. rewrite Hi, foldl_app. split; [done|]. intros fd'. by rewrite Ho2.
  - assert (c = []) as -> by (apply nil_length_inv; lia). destruct (He eq_refl) as [|Ei]; [done|]. exists w1.
    rewrite Ei. split; [done|]. apply Ho.
Qed.

(** [wc] counts lines, words and characters.  However the input arrives, it
    reads all of it and prints, in decimal, the number of newlines, of maximal
    runs of characters that are not blank, and of characters, provided these
    numbers are [int]s. *)
Theorem wc_counts (fuel : nat) (name : list Z) (w : uworld σ) :
  let text := inp fd (us w) in let num k := notation (Z.of_nat k) 10 true in
  (length text < fuel)%nat → Z.of_nat (length text) < 2 ^ 31 → Forall (λ c, 0 < c < 256) name →
  ∃ w', wc buf fuel fd name w = UOk () w'
    ∧ out 1 (us w') = out 1 (us w) ++ num (newlines text) ++ [ch " "] ++ num (length (words text)) ++ [ch " "]
                      ++ num (length text) ++ [ch " "] ++ name ++ [10].
Proof.
  intros text num Hf Hmax Hname. destruct (wc_loop_spec fuel (MkWc 0 0 0 false) w Hf) as (w1 & E1 & Ho1). fold text in E1.
  destruct (wc_fold text 0 0 0 [] ltac:(lia) ltac:(lia) ltac:(lia) ltac:(lia) ltac:(lia) ltac:(lia)) as (b & Ef).
  change (bool_decide ([] ≠ [])) with false in Ef. rewrite Ef in E1. fold (words text) in E1.
  rewrite (decide_True (P := [] = [])), Z.sub_0_r, !Z.add_0_l in E1 by done.
  unfold wc. rewrite (ubind_ok _ _ _ _ _ E1). cbn [Z.ltb Z.compare wc_l wc_w wc_c].
  pose proof (newlines_le text). pose proof (words_le text).
  destruct (wc_line_emits (Z.of_nat (newlines text)) (Z.of_nat (length (words text))) (Z.of_nat (length text)) name
    ltac:(lia) ltac:(lia) ltac:(lia) Hname w1) as (s & E2 & Ho2 & _).
  rewrite E2. exists (MkU (um w1) s). split; [done|]. cbn [us]. rewrite Ho2, Ho1. done.
Qed.
End wc_spec.

Definition demo_text : streams := MkStreams {[ 3 := line "a bc" ++ str " d" ]} ∅ 2.

Lemma wc_counts_witness :
  ∃ w', wc 0x5000 20 3 (str "f") (MkU (λ _, 0) demo_text) = UOk () w' ∧ out 1 (us w') = line "1 3 7 f".
Proof.
  destruct (@wc_counts streams _ _ _ 0x5000 3 20 (str "f") (MkU (λ _, 0) demo_text)) as (w' & E & Ho).
  - apply Nat.ltb_lt. by vm_compute.
  - by vm_compute.
  - repeat constructor.
  - exists w'. split; [exact E|]. rewrite Ho. by vm_compute.
Defined.
