(* ===== verification/UTests.v ===== *)
(** * The small test programs

    forktest, stressfs, sysinfotest and grind of user/.  As in UProgs.v a program
    is the view of one process, and a loop that depends on the answers of the
    system has fuel.  [do_rand], the random number generator of grind, is shown to
    compute the sequence of Park and Miller. *)

From S2P Require Import Prelude Memory CString Kernel Syscall User ULib UPrintf UProgs.

(** [if(b){ printf(fmt, ap); exit(1); }] *)
Definition oops `{OS σ} (b : bool) (fmt : list Z) (ap : list uarg) : U σ unit :=
  if b then _ ← printf fmt ap; exit 1 else mret ().

(** ** The generator of grind.c *)

(** [*ctx] after the call, which is also the value returned. *)
Definition do_rand (ctx : Z) : Z :=
  let x := ctx mod 0x7ffffffe + 1 in
  let hi := Z.quot x 127773 in
  let lo := Z.rem x 127773 in
  let x := i64 (16807 * lo - 2836 * hi) in
  let x := if x <? 0 then x + 0x7fffffff else x in
  x - 1.

Section tests.
Context `{OS σ}.

(** ** forktest.c *)

Definition print (s : list Z) : U σ unit := _ ← write_bytes 1 (cstr s); mret ().

(** The first loop: how often [fork] succeeded. *)
Fixpoint forktest_fork (k : nat) (n : Z) : U σ Z :=
  match k with
  | O => mret n
  | S k =>
    pid ← fork;
    if pid <? 0 then mret n
    else if pid =? 0 then exit 0
    else forktest_fork k (n + 1)
  end.

Definition forktest : U σ unit :=
  print (line "fork test");;
  n ← forktest_fork 1000 0;
  if n =? 1000 then print (line "fork claimed to work N times!");; exit 1
  else
    ufor (seqZ 0 n) (λ _,
      '(r, _) ← wait;
      if r <? 0 then print (line "wait stopped early");; exit 1 else mret ());;
    '(r, _) ← wait;
    if negb (r =? -1) then print (line "wait got too many");; exit 1
    else print (line "fork test OK").

Definition forktest_main : U σ unit := forktest;; exit 0.

(** ** stressfs.c *)

(** [for(i = 0; i < 4; i++) if(fork() > 0) break;] *)
Fixpoint stressfs_fork (k : nat) (i : Z) : U σ Z :=
  match k with
  | O => mret i
  | S k => pid ← fork; if 0 <? pid then mret i else stressfs_fork k (i + 1)
  end.

Definition stressfs_main : U σ unit :=
  printf (line "stressfs starting") [];;
  let data := replicate 512 (ch "a") in
  i ← stressfs_fork 4 0;
  printf (line "write %d") [AInt i];;
  let path := str "stressfs" ++ [ch "0" + i] in
  fd ← open path (Z.lor O_CREATE O_RDWR);
  ufor (seqZ 0 20) (λ _, _ ← write_bytes fd data; mret ());;
  close fd;;
  printf (line "read") [];;
  fd ← open path O_RDONLY;
  ufor (seqZ 0 20) (λ _, _ ← read_bytes fd 512; mret ());;
  close fd;;
  wait;;
  exit 0.

(** ** sysinfotest.c *)

(** The fields of a struct sysinfo. *)
Definition freemem (info : list Z) : Z := le_dec (take 8 info).
Definition nproc (info : list Z) : Z := le_dec (take 8 (drop 8 info)).

(** Into a variable of the caller, or to an address. *)
Definition sinfo (info : option Z) : U σ (list Z) :=
  '(r, l) ← match info with None => sysinfo | Some a => r ← raw SYS_sysinfo [RReg a]; mret (r, []) end;
  oops (r <? 0) (str "FAIL: sysinfo failed") [];;
  mret l.

Section fuel.
Context (fuel : nat).

Definition countfree : U σ Z :=
  sz0 ← sbrk 0;
  n ← uiter fuel (λ n,
    r ← sbrk PGSIZE;
    mret (if u64 r =? 0xffffffffffffffff then inr n else inl (i32 (n + PGSIZE)))) 0;
  info ← sinfo None;
  oops (negb (freemem info =? 0)) (line "FAIL: there is no free mem, but sysinfo.freemem=%d") [AInt (freemem info)];;
  top ← sbrk 0;
  sbrk (i32 (- u64 (top - sz0)));;
  mret n.

Definition testmem : U σ unit :=
  n ← countfree;
  let n := u64 n in
  info ← sinfo None;
  oops (negb (freemem info =? n)) (line "FAIL: free mem %d (bytes) instead of %d") [AInt (freemem info); AInt n];;
  r ← sbrk PGSIZE;
  oops (u64 r =? 0xffffffffffffffff) (str "sbrk failed") [];;
  info ← sinfo None;
  oops (negb (freemem info =? u64 (n - PGSIZE))) (line "FAIL: free mem %d (bytes) instead of %d") [AInt (u64 (n - PGSIZE)); AInt (freemem info)];;
  r ← sbrk (- PGSIZE);
  oops (u64 r =? 0xffffffffffffffff) (str "sbrk failed") [];;
  info ← sinfo None;
  oops (negb (freemem info =? n)) (line "FAIL: free mem %d (bytes) instead of %d") [AInt n; AInt (freemem info)].

Definition testcall : U σ unit :=
  '(r, _) ← sysinfo;
  oops (r <? 0) (line "FAIL: sysinfo failed") [];;
  r ← raw SYS_sysinfo [RReg 0xeaeb0b5b00002f5e];
  oops (negb (u64 r =? 0xffffffffffffffff)) (line "FAIL: sysinfo succeeded with bad argument") [].

Definition testproc : U σ unit :=
  info ← sinfo None;
  let n := nproc info in
  pid ← fork;
  oops (pid <? 0) (line "sysinfotest: fork failed") [];;
  if pid =? 0 then
    info ← sinfo None;
    oops (negb (nproc info =? u64 (n + 1))) (line "sysinfotest: FAIL nproc is %d instead of %d") [AInt (nproc info); AInt (u64 (n + 1))];;
    exit 0
  else
    wait;;
    info ← sinfo None;
    oops (negb (nproc info =? n)) (line "sysinfotest: FAIL nproc is %d instead of %d") [AInt (nproc info); AInt n].

Definition testbad : U σ unit :=
  pid ← fork;
  oops (pid <? 0) (line "sysinfotest: fork failed") [];;
  if pid =? 0 then sinfo (Some 0);; exit 0
  else
    '(_, xstatus) ← wait;
    if xstatus =? -1 then exit 0
    else
      printf (line "sysinfotest: testbad succeeded %d") [AInt xstatus];;
      exit xstatus.

Definition sysinfotest_main : U σ unit :=
  printf (line "sysinfotest: start") [];;
  testcall;;
  testmem;;
  testproc;;
  printf (line "sysinfotest: OK") [];;
  exit 0.

(** ** grind.c *)

(** The addresses of the static variables [rand_next] and [buf]. *)
Context (rand_next buf : Z).

Definition rand : U σ Z :=
  m ← getm;
  let x := do_rand (ld64 m rand_next) in
  putm (λ m, sd64 m rand_next (u64 x));;
  mret (i32 x).

Definition fork_failed : list Z := line "grind: fork failed".
Definition rdwr : Z := Z.lor O_CREATE O_RDWR.

(** The choices 1 to 12 of [go]: files and directories.  [fd] is the file
    that is kept open; the result is its new value. *)
Definition go_files (what fd : Z) : U σ Z :=
  if what =? 1 then f ← open (str "grindir/../a") rdwr; close f;; mret fd
  else if what =? 2 then f ← open (str "grindir/../grindir/../b") rdwr; close f;; mret fd
  else if what =? 3 then unlink (str "grindir/../a");; mret fd
  else if what =? 4 then
    r ← chdir (str "grindir");
    oops (negb (r =? 0)) (line "grind: chdir grindir failed") [];;
    unlink (str "../b");;
    chdir (str "/");;
    mret fd
  else if what =? 5 then close fd;; open (str "/grindir/../a") rdwr
  else if what =? 6 then close fd;; open (str "/./grindir/./../b") rdwr
  else if what =? 7 then write fd buf 999;; mret fd
  else if what =? 8 then read fd buf 999;; mret fd
  else if what =? 9 then
    mkdir (str "grindir/../a");;
    f ← open (str "a/../a/./a") rdwr;
    close f;;
    unlink (str "a/a");;
    mret fd
  else if what =? 10 then
    mkdir (str "/../b");;
    f ← open (str "grindir/../b/b") rdwr;
    close f;;
    unlink (str "b/b");;
    mret fd
  else if what =? 11 then
    unlink (str "b");;
    link (str "../grindir/./../a") (str "../b");;
    mret fd
  else if what =? 12 then
    unlink (str "../grindir/../a");;
    link (str ".././b") (str "/grindir/../a");;
    mret fd
  else mret fd.

(** [pid = fork()], where the child runs [child]. *)
Definition spawn (child : U σ unit) : U σ Z :=
  pid ← fork;
  if pid =? 0 then child;; exit 0
  else oops (pid <? 0) fork_failed [];; mret pid.

(** The choices 13 to 20: processes, memory and pipes. *)
Definition go_procs (what break0 : Z) : U σ unit :=
  if what =? 13 then spawn (mret ());; wait;; mret ()
  else if what =? 14 then spawn (fork;; fork;; mret ());; wait;; mret ()
  else if what =? 15 then sbrk 6011;; mret ()
  else if what =? 16 then
    top ← sbrk 0;
    uwhen (u64 break0 <? u64 top) (top ← sbrk 0; sbrk (i32 (- (top - break0)));; mret ())
  else if what =? 17 then
    pid ← spawn (f ← open (str "a") rdwr; close f;; mret ());
    r ← chdir (str "../grindir/..");
    oops (negb (r =? 0)) (line "grind: chdir failed") [];;
    kill pid;;
    wait;; mret ()
  else if what =? 18 then spawn (me ← getpid; kill me;; mret ());; wait;; mret ()
  else if what =? 19 then
    '(r, fds) ← pipe;
    oops (r <? 0) (line "grind: pipe failed") [];;
    spawn (
      fork;; fork;;
      r ← write_bytes fds.2 (str "x");
      uwhen (negb (r =? 1)) (printf (line "grind: pipe write failed") []);;
      r ← read_bytes fds.1 1;
      uwhen (negb (r_val r =? 1)) (printf (line "grind: pipe read failed") []));;
    close fds.1;;
    close fds.2;;
    wait;; mret ()
  else if what =? 20 then
    spawn (
      unlink (str "a");;
      mkdir (str "a");;
      chdir (str "a");;
      unlink (str "../a");;
      open (str "x") rdwr;;
      unlink (str "x");; mret ());;
    wait;; mret ()
  else mret ().

(** The choice 21. *)
Definition go_create : U σ unit :=
  unlink (str "c");;
  fd1 ← open (str "c") rdwr;
  oops (fd1 <? 0) (line "grind: create c failed") [];;
  r ← write_bytes fd1 (str "x");
  oops (negb (r =? 1)) (line "grind: write c failed") [];;
  '(r, st) ← fstat fd1;
  oops (negb (r =? 0)) (line "grind: fstat failed") [];;
  oops (negb (st_size st =? 1)) (line "grind: fstat reports wrong size %d") [AInt (i32 (st_size st))];;
  oops (200 <? st_ino st) (line "grind: fstat reports crazy i-number %d") [AInt (st_ino st)];;
  close fd1;;
  unlink (str "c");;
  mret ().

(** [if(b){ fprintf(2, msg); exit(n); }] *)
Definition die2 (b : bool) (msg : list Z) (n : Z) : U σ unit := if b then _ ← fprintf 2 msg []; exit n else mret ().

(** [buf[i]] after a read of one byte into it. *)
Definition byte_read (r : sysret) : Z := hd 0 (r_out r).

(** The choice 22: echo hi | cat. *)
Definition go_pipeline : U σ unit :=
  '(r, aa) ← pipe;
  die2 (r <? 0) (line "grind: pipe failed") 1;;
  '(r, bb) ← pipe;
  die2 (r <? 0) (line "grind: pipe failed") 1;;
  pid1 ← fork;
  if pid1 =? 0 then
    close bb.1;; close bb.2;; close aa.1;; close 1;;
    r ← dup aa.2;
    die2 (negb (r =? 1)) (line "grind: dup failed") 1;;
    close aa.2;;
    exec (str "grindir/../echo") [str "echo"; str "hi"];;
    fprintf 2 (line "grind: echo: not found") [];;
    exit 2
  else
    die2 (pid1 <? 0) fork_failed 3;;
    pid2 ← fork;
    if pid2 =? 0 then
      close aa.2;; close bb.1;; close 0;;
      r ← dup aa.1;
      die2 (negb (r =? 0)) (line "grind: dup failed") 4;;
      close aa.1;; close 1;;
      r ← dup bb.2;
      die2 (negb (r =? 1)) (line "grind: dup failed") 5;;
      close bb.2;;
      exec (str "/cat") [str "cat"];;
      fprintf 2 (line "grind: cat: not found") [];;
      exit 6
    else
      die2 (pid2 <? 0) fork_failed 7;;
      close aa.1;; close aa.2;; close bb.2;;
      b0 ← read_bytes bb.1 1;
      b1 ← read_bytes bb.1 1;
      b2 ← read_bytes bb.1 1;
      let buf := [byte_read b0; byte_read b1; byte_read b2; 0] in
      close bb.1;;
      '(_, st1) ← wait;
      '(_, st2) ← wait;
      oops (negb (st1 =? 0) || negb (st2 =? 0) || negb (strcmp buf (line "hi" ++ [0]) =? 0))
        (str "grind: exec pipeline failed %d %d " ++ [34] ++ str "%s" ++ [34; 10]) [AInt st1; AInt st2; AStr (Some buf)].

(** The [while(1)] of [go], with the state [(fd, iters)]. *)
Definition go (which_child : Z) : U σ unit :=
  break0 ← sbrk 0;
  mkdir (str "grindir");;
  r ← chdir (str "grindir");
  oops (negb (r =? 0)) (line "grind: chdir grindir failed") [];;
  chdir (str "/");;
  uiter fuel (λ '(fd, iters),
    let iters := u64 (iters + 1) in
    uwhen (iters mod 500 =? 0) (write_bytes 1 (if negb (which_child =? 0) then str "B" else str "A");; mret ());;
    x ← rand;
    let what := Z.rem x 23 in
    fd ← go_files what fd;
    go_procs what break0;;
    uwhen (what =? 21) go_create;;
    uwhen (what =? 22) go_pipeline;;
    mret (inl (fd, iters))) (-1, 0).

Definition iter : U σ unit :=
  unlink (str "a");;
  unlink (str "b");;
  pid1 ← fork;
  oops (pid1 <? 0) fork_failed [];;
  if pid1 =? 0 then
    putm (λ m, sd64 m rand_next (Z.lxor (ld64 m rand_next) 31));;
    go 0;;
    exit 0
  else
    pid2 ← fork;
    oops (pid2 <? 0) fork_failed [];;
    if pid2 =? 0 then
      putm (λ m, sd64 m rand_next (Z.lxor (ld64 m rand_next) 7177));;
      go 1;;
      exit 0
    else
      '(r, st) ← wait;
      let st1 := if r <? 0 then -1 else st in
      uwhen (negb (st1 =? 0)) (kill pid1;; kill pid2;; mret ());;
      wait;;
      exit 0.

Definition grind_main : U σ unit :=
  uiter fuel (λ _ : unit,
    pid ← fork;
    if pid =? 0 then iter;; exit 0
    else
      uwhen (0 <? pid) (wait;; mret ());;
      sleep 20;;
      putm (λ m, sd64 m rand_next (u64 (ld64 m rand_next + 1)));;
      mret (inl ())) ().

End fuel.
End tests.

(** ** The generator computes the sequence of Park and Miller *)

(** The step of Schrage: [16807 * x] modulo 2^31 - 1 from the quotient and the
    remainder of [x] by 127773, without exceeding 31 bits. *)
Lemma schrage x hi lo :
  0 < x < 0x7fffffff → x = 127773 * hi + lo → 0 <= lo < 127773 →
  let y := 16807 * lo - 2836 * hi in
  - 0x7fffffff < y < 0x7fffffff ∧ y ≠ 0 ∧ 16807 * x = 0x7fffffff * hi + y.
Proof.
  intros Hx E Hlo y. subst y. assert (0 <= hi <= 16807) by lia. split; [lia|]. split; [|lia].
  intros Ey. assert (hi = 16807 * (5790 * lo - 977 * hi)) as Ehi by lia.
  set (k := 5790 * lo - 977 * hi) in *. assert (k = 0 ∨ k = 1) as [Ek|Ek] by lia; lia.
Qed.

Lemma do_rand_spec (ctx : Z) :
  do_rand ctx + 1 = (16807 * (ctx mod 0x7ffffffe + 1)) mod 0x7fffffff ∧ 0 <= do_rand ctx <= 0x7ffffffd.
Proof.
  unfold do_rand. set (x := ctx mod 0x7ffffffe + 1).
  assert (0 < x < 0x7fffffff) as Hx by (pose proof (Z.mod_pos_bound ctx 0x7ffffffe ltac:(lia)); lia). clearbody x.
  rewrite Z.quot_div_nonneg, Z.rem_mod_nonneg by lia.
  destruct (schrage x (x / 127773) (x mod 127773)) as (Hy & Hne & E); [done|apply Z.div_mod; lia|apply Z.mod_pos_bound; lia|].
  set (y := 16807 * (x mod 127773) - 2836 * (x / 127773)) in *. clearbody y.
  assert (i64 y = y) as -> by (apply sx_small; lia).
  destruct (Z.ltb_spec y 0).
  - split; [|lia]. apply Z.mod_unique_pos with (x / 127773 - 1); lia.
  - split; [|lia]. apply Z.mod_unique_pos with (x / 127773); lia.
Qed.

(** C40: the random numbers of grind are those of Park and Miller: with the state
    shifted by one, a call multiplies it by 7^5 modulo the prime 2^31 - 1.  The
    result is in the range the comment promises, so nothing overflows, for every
    value of the state. *)
Theorem do_rand_park_miller (ctx : Z) :
  do_rand ctx + 1 = (16807 * (ctx mod 0x7ffffffe + 1)) mod 0x7fffffff ∧ 0 <= do_rand ctx <= 0x7ffffffd.
Proof. exact (do_rand_spec ctx). Qed.

(** No two states of the generator have the same successor. *)
Theorem do_rand_injective c c' :
  0 <= c < 0x7ffffffe → 0 <= c' < 0x7ffffffe → do_rand c = do_rand c' → c = c'.
Proof.
  intros Hc Hc' E. destruct (do_rand_spec c) as [R _]. destruct (do_rand_spec c') as [R' _].
  rewrite E, R' in R. rewrite !(Z.mod_small _ 0x7ffffffe) in R by done.
  apply (f_equal (λ z, (1407677000 * z) mod 0x7fffffff)) in R. rewrite !Zmult_mod_idemp_r in R.
  rewrite !Z.mul_assoc in R. change (1407677000 * 16807) with (1 + 11017 * 0x7fffffff) in R.
  rewrite !(Z.mul_add_distr_r 1), <-!(Z.mul_assoc 11017), !(Z.mul_comm 0x7fffffff), !Z.mul_assoc, !Z.mod_add, !Z.mul_1_l, !Z.mod_small in R by lia. lia.
Qed.
