(* ===== verification/Usertests.v ===== *)
(** * user/usertests.c

    The test suite of the system calls, test by test, and the driver that runs
    each test in a process of its own.  A loop that depends on the answers of the
    system has the fuel [fuel]; [for(;;);] is [hang].

    A test may touch memory the process does not have: [access] says which bytes
    it may read and write, and an access it may not make is a fault, for which the
    kernel kills the process with status -1 ([usertrap]).

    The theorems are about the writer and the reader of [pipe1]. *)

From S2P Require Import Prelude Memory CString Kernel Syscall User ULib UPrintf Umalloc UProgs UTests.

Definition BUFSZ : Z := (MAXOPBLOCKS + 2) * BSIZE.

(** Memory of a system for the tests: may the process read, or write, the byte at
    an address? *)
Class Access (σ : Type) := access : σ → Z → bool → bool.

Section access.
Context `{Access σ}.

(** [*a], and [*a = v], for a [char *a]. *)
Definition peek (a : Z) : U σ Z := λ w, if access (us w) (u64 a) false then UOk (um w (u64 a)) w else UExit (-1) w.
Definition poke (a v : Z) : U σ unit := λ w, if access (us w) (u64 a) true then UOk () (MkU (upd (um w) (u64 a) (u8 v)) (us w)) else UExit (-1) w.

(** The string at an address, for [%s]. *)
Fixpoint peek_string (fuel : nat) (a : Z) : U σ (list Z) :=
  match fuel with
  | O => hang
  | S fuel => c ← peek a; if c =? 0 then mret [] else l ← peek_string fuel (a + 1); mret (c :: l)
  end.
End access.

(** [while(1)] with a body that does not leave it. *)
Definition forever {σ} (fuel : nat) (c : U σ unit) : U σ unit := uiter fuel (λ _ : unit, c;; mret (inl ())) ().

(** An argument of [%s]. *)
Definition sa (s : list Z) : uarg := AStr (Some s).

Definition bad_ptr : Z := 0xffffffffffffffff.

(** ** pipe1 *)

(** What the child writes: [seq] goes on from one write to the next. *)
Definition pipe1_block (seq : Z) : list Z := u8 <$> seqZ seq 1033.

Section usertests.
Context `{OS σ} `{Access σ} (fuel : nat).
(** The static arrays [buf] and [uninit], and the variables of umalloc.c. *)
Context (buf uninit base freep : Z).
(** The stack pointer, the address of the code, and what the stack holds where it
    is not initialised. *)
Context (sp text : Z) (junk : list Z).

Definition wr : Z := Z.lor O_CREATE O_WRONLY.
Definition rw : Z := Z.lor O_CREATE O_RDWR.

(** [wait(&xstatus); exit(xstatus);] *)
Definition wait_exit : U σ unit := '(_, xstatus) ← wait; exit xstatus.

(** ** Wild pointers *)

Definition copyin (s : list Z) : U σ unit :=
  ufor [0x80000000; 0xffffffffffffffff] (λ addr,
    fd ← open (str "copyin1") wr;
    oops (fd <? 0) (line "open(copyin1) failed") [];;
    n ← raw SYS_write [RReg fd; RReg addr; RReg 8192];
    oops (0 <=? n) (line "write(fd, %p, 8192) returned %d, not -1") [AInt addr; AInt n];;
    close fd;;
    unlink (str "copyin1");;
    n ← raw SYS_write [RReg 1; RReg addr; RReg 8192];
    oops (0 <? n) (line "write(1, %p, 8192) returned %d, not -1 or 0") [AInt addr; AInt n];;
    '(r, fds) ← pipe;
    oops (r <? 0) (line "pipe() failed") [];;
    n ← raw SYS_write [RReg fds.2; RReg addr; RReg 8192];
    oops (0 <? n) (line "write(pipe, %p, 8192) returned %d, not -1 or 0") [AInt addr; AInt n];;
    close fds.1;;
    close fds.2;;
    mret ()).

Definition copyout (s : list Z) : U σ unit :=
  ufor [0x80000000; 0xffffffffffffffff] (λ addr,
    fd ← open (str "README") 0;
    oops (fd <? 0) (line "open(README) failed") [];;
    n ← raw SYS_read [RReg fd; RReg addr; RReg 8192];
    oops (0 <? n) (line "read(fd, %p, 8192) returned %d, not -1 or 0") [AInt addr; AInt n];;
    close fd;;
    '(r, fds) ← pipe;
    oops (r <? 0) (line "pipe() failed") [];;
    n ← write_bytes fds.2 (str "x");
    oops (negb (n =? 1)) (line "pipe write failed") [];;
    n ← raw SYS_read [RReg fds.1; RReg addr; RReg 8192];
    oops (0 <? n) (line "read(pipe, %p, 8192) returned %d, not -1 or 0") [AInt addr; AInt n];;
    close fds.1;;
    close fds.2;;
    mret ()).

Definition copyinstr1 (s : list Z) : U σ unit :=
  ufor [0x80000000; 0xffffffffffffffff] (λ addr,
    fd ← raw SYS_open [RReg addr; RReg wr];
    oops (0 <=? fd) (line "open(%p) returned %d, not -1") [AInt addr; AInt fd]).

Definition copyinstr2 (s : list Z) : U σ unit :=
  let b := replicate (Z.to_nat MAXPATH) (ch "x") in
  ret ← unlink b;
  oops (negb (ret =? -1)) (line "unlink(%s) returned %d, not -1") [sa b; AInt ret];;
  fd ← open b wr;
  oops (negb (fd =? -1)) (line "open(%s) returned %d, not -1") [sa b; AInt fd];;
  ret ← link b b;
  oops (negb (ret =? -1)) (line "link(%s, %s) returned %d, not -1") [sa b; sa b; AInt ret];;
  ret ← exec b [str "xx"];
  oops (negb (ret =? -1)) (line "exec(%s) returned %d, not -1") [sa b; AInt fd];;
  pid ← fork;
  oops (pid <? 0) (line "fork failed") [];;
  if pid =? 0 then
    let big := replicate (Z.to_nat PGSIZE) (ch "x") in
    ret ← exec (str "echo") [big; big; big];
    oops (negb (ret =? -1)) (line "exec(echo, BIG) returned %d, not -1") [AInt fd];;
    exit 747
  else
    '(r, st) ← wait;
    let st := if r <? 0 then 0 else st in
    oops (negb (st =? 747)) (line "exec(echo, BIG) succeeded, should have failed") [].

Definition copyinstr3 (s : list Z) : U σ unit :=
  sbrk 8192;;
  top ← sbrk 0;
  uwhen (negb (u64 top mod PGSIZE =? 0)) (sbrk (PGSIZE - u64 top mod PGSIZE);; mret ());;
  top ← sbrk 0;
  oops (negb (u64 top mod PGSIZE =? 0)) (line "oops") [];;
  let b := u64 (top - 1) in
  poke b (ch "x");;
  ret ← raw SYS_unlink [RReg b];
  uwhen (negb (ret =? -1)) (l ← peek_string fuel b; oops true (line "unlink(%s) returned %d, not -1") [sa l; AInt ret]);;
  fd ← raw SYS_open [RReg b; RReg wr];
  uwhen (negb (fd =? -1)) (l ← peek_string fuel b; oops true (line "open(%s) returned %d, not -1") [sa l; AInt fd]);;
  ret ← raw SYS_link [RReg b; RReg b];
  uwhen (negb (ret =? -1)) (l ← peek_string fuel b; oops true (line "link(%s, %s) returned %d, not -1") [sa l; sa l; AInt ret]);;
  ret ← raw_exec SYS_exec [RReg b; RArgv [RStr (str "xx"); RReg 0]];
  uwhen (negb (ret =? -1)) (l ← peek_string fuel b; oops true (line "exec(%s) returned %d, not -1") [sa l; AInt fd]).

Definition rwsbrk (s : list Z) : U σ unit :=
  a ← sbrk 8192;
  oops (u64 a =? bad_ptr) (line "sbrk(rwsbrk) failed") [];;
  r ← sbrk (-8192);
  oops (u64 r =? bad_ptr) (line "sbrk(rwsbrk) shrink failed") [];;
  fd ← open (str "rwsbrk") wr;
  oops (fd <? 0) (line "open(rwsbrk) failed") [];;
  n ← raw SYS_write [RReg fd; RReg (u64 (a + 4096)); RReg 1024];
  oops (0 <=? n) (line "write(fd, %p, 1024) returned %d, not -1") [AInt (u64 (a + 4096)); AInt n];;
  close fd;;
  unlink (str "rwsbrk");;
  fd ← open (str "README") O_RDONLY;
  oops (fd <? 0) (line "open(rwsbrk) failed") [];;
  n ← raw SYS_read [RReg fd; RReg (u64 (a + 4096)); RReg 10];
  oops (0 <=? n) (line "read(fd, %p, 10) returned %d, not -1") [AInt (u64 (a + 4096)); AInt n];;
  close fd;;
  exit 0.

(** ** Truncation *)

Definition truncate1 (s : list Z) : U σ unit :=
  unlink (str "truncfile");;
  fd1 ← open (str "truncfile") (Z.lor wr O_TRUNC);
  write_bytes fd1 (str "abcd");;
  close fd1;;
  fd2 ← open (str "truncfile") O_RDONLY;
  r ← read_bytes fd2 32;
  oops (negb (r_val r =? 4)) (line "%s: read %d bytes, wanted 4") [sa s; AInt (r_val r)];;
  fd1 ← open (str "truncfile") (Z.lor O_WRONLY O_TRUNC);
  fd3 ← open (str "truncfile") O_RDONLY;
  r ← read_bytes fd3 32;
  uwhen (negb (r_val r =? 0))
    (printf (line "aaa fd3=%d") [AInt fd3];; oops true (line "%s: read %d bytes, wanted 0") [sa s; AInt (r_val r)]);;
  r ← read_bytes fd2 32;
  uwhen (negb (r_val r =? 0))
    (printf (line "bbb fd2=%d") [AInt fd2];; oops true (line "%s: read %d bytes, wanted 0") [sa s; AInt (r_val r)]);;
  write_bytes fd1 (str "abcdef");;
  r ← read_bytes fd3 32;
  oops (negb (r_val r =? 6)) (line "%s: read %d bytes, wanted 6") [sa s; AInt (r_val r)];;
  r ← read_bytes fd2 32;
  oops (negb (r_val r =? 2)) (line "%s: read %d bytes, wanted 2") [sa s; AInt (r_val r)];;
  unlink (str "truncfile");;
  close fd1;;
  close fd2;;
  close fd3;;
  mret ().

Definition truncate2 (s : list Z) : U σ unit :=
  unlink (str "truncfile");;
  fd1 ← open (str "truncfile") (Z.lor (Z.lor O_CREATE O_TRUNC) O_WRONLY);
  write_bytes fd1 (str "abcd");;
  fd2 ← open (str "truncfile") (Z.lor O_TRUNC O_WRONLY);
  n ← write_bytes fd1 (str "x");
  oops (negb (n =? -1)) (line "%s: write returned %d, expected -1") [sa s; AInt n];;
  unlink (str "truncfile");;
  close fd1;;
  close fd2;;
  mret ().

Definition truncate3 (s : list Z) : U σ unit :=
  f ← open (str "truncfile") (Z.lor (Z.lor O_CREATE O_TRUNC) O_WRONLY);
  close f;;
  pid ← fork;
  oops (pid <? 0) (line "%s: fork failed") [sa s];;
  if pid =? 0 then
    ufor (seqZ 0 100) (λ _,
      fd ← open (str "truncfile") O_WRONLY;
      oops (fd <? 0) (line "%s: open failed") [sa s];;
      n ← write_bytes fd (str "1234567890");
      oops (negb (n =? 10)) (line "%s: write got %d, expected 10") [sa s; AInt n];;
      close fd;;
      fd ← open (str "truncfile") O_RDONLY;
      read_bytes fd 32;;
      close fd;;
      mret ());;
    exit 0
  else
    ufor (seqZ 0 150) (λ _,
      fd ← open (str "truncfile") (Z.lor (Z.lor O_CREATE O_WRONLY) O_TRUNC);
      oops (fd <? 0) (line "%s: open failed") [sa s];;
      n ← write_bytes fd (str "xxx");
      oops (negb (n =? 3)) (line "%s: write got %d, expected 3") [sa s; AInt n];;
      close fd;;
      mret ());;
    '(_, xstatus) ← wait;
    unlink (str "truncfile");;
    exit xstatus.

(** ** Directories in use *)

Definition iputtest (s : list Z) : U σ unit :=
  r ← mkdir (str "iputdir");
  oops (r <? 0) (line "%s: mkdir failed") [sa s];;
  r ← chdir (str "iputdir");
  oops (r <? 0) (line "%s: chdir iputdir failed") [sa s];;
  r ← unlink (str "../iputdir");
  oops (r <? 0) (line "%s: unlink ../iputdir failed") [sa s];;
  r ← chdir (str "/");
  oops (r <? 0) (line "%s: chdir / failed") [sa s].

Definition exitiputtest (s : list Z) : U σ unit :=
  pid ← fork;
  oops (pid <? 0) (line "%s: fork failed") [sa s];;
  if pid =? 0 then
    r ← mkdir (str "iputdir");
    oops (r <? 0) (line "%s: mkdir failed") [sa s];;
    r ← chdir (str "iputdir");
    oops (r <? 0) (line "%s: child chdir failed") [sa s];;
    r ← unlink (str "../iputdir");
    oops (r <? 0) (line "%s: unlink ../iputdir failed") [sa s];;
    exit 0
  else wait_exit.

Definition openiputtest (s : list Z) : U σ unit :=
  r ← mkdir (str "oidir");
  oops (r <? 0) (line "%s: mkdir oidir failed") [sa s];;
  pid ← fork;
  oops (pid <? 0) (line "%s: fork failed") [sa s];;
  if pid =? 0 then
    fd ← open (str "oidir") O_RDWR;
    oops (0 <=? fd) (line "%s: open directory for write succeeded") [sa s];;
    exit 0
  else
    sleep 1;;
    r ← unlink (str "oidir");
    oops (negb (r =? 0)) (line "%s: unlink failed") [sa s];;
    wait_exit.

(** ** Simple file system tests *)

Definition opentest (s : list Z) : U σ unit :=
  fd ← open (str "echo") 0;
  oops (fd <? 0) (line "%s: open echo failed!") [sa s];;
  close fd;;
  fd ← open (str "doesnotexist") 0;
  oops (0 <=? fd) (line "%s: open doesnotexist succeeded!") [sa s].

Definition writetest (s : list Z) : U σ unit :=
  fd ← open (str "small") rw;
  oops (fd <? 0) (line "%s: error: creat small failed!") [sa s];;
  ufor (seqZ 0 100) (λ i,
    r ← write_bytes fd (str "aaaaaaaaaa");
    oops (negb (r =? 10)) (line "%s: error: write aa %d new file failed") [sa s; AInt i];;
    r ← write_bytes fd (str "bbbbbbbbbb");
    oops (negb (r =? 10)) (line "%s: error: write bb %d new file failed") [sa s; AInt i]);;
  close fd;;
  fd ← open (str "small") O_RDONLY;
  oops (fd <? 0) (line "%s: error: open small failed!") [sa s];;
  i ← read fd buf (100 * 10 * 2);
  oops (negb (i =? 100 * 10 * 2)) (line "%s: read failed") [sa s];;
  close fd;;
  r ← unlink (str "small");
  oops (r <? 0) (line "%s: unlink small failed") [sa s].

(** The first [int] of [buf]. *)
Definition buf_int : U σ Z := m ← getm; mret (i32 (ld32 m buf)).

Definition writebig (s : list Z) : U σ unit :=
  fd ← open (str "big") rw;
  oops (fd <? 0) (line "%s: error: creat big failed!") [sa s];;
  ufor (seqZ 0 MAXFILE) (λ i,
    putm (λ m, sd32 m buf i);;
    r ← write fd buf BSIZE;
    oops (negb (r =? BSIZE)) (line "%s: error: write big file failed") [sa s; AInt i]);;
  close fd;;
  fd ← open (str "big") O_RDONLY;
  oops (fd <? 0) (line "%s: error: open big failed!") [sa s];;
  uiter fuel (λ n,
    i ← read fd buf BSIZE;
    if i =? 0 then
      oops (n =? MAXFILE - 1) (str "%s: read only %d blocks from big") [sa s; AInt n];;
      mret (inr ())
    else
      oops (negb (i =? BSIZE)) (line "%s: read failed %d") [sa s; AInt i];;
      x ← buf_int;
      oops (negb (x =? n)) (line "%s: read content of block %d is %d") [sa s; AInt n; AInt x];;
      mret (inl (n + 1))) 0;;
  close fd;;
  r ← unlink (str "big");
  oops (r <? 0) (line "%s: unlink big failed") [sa s].

Definition createtest (s : list Z) : U σ unit :=
  ufor (seqZ 0 52) (λ i, fd ← open [ch "a"; ch "0" + i] rw; close fd;; mret ());;
  ufor (seqZ 0 52) (λ i, unlink [ch "a"; ch "0" + i];; mret ()).

Definition dirtest (s : list Z) : U σ unit :=
  r ← mkdir (str "dir0");
  oops (r <? 0) (line "%s: mkdir failed") [sa s];;
  r ← chdir (str "dir0");
  oops (r <? 0) (line "%s: chdir dir0 failed") [sa s];;
  r ← chdir (str "..");
  oops (r <? 0) (line "%s: chdir .. failed") [sa s];;
  r ← unlink (str "dir0");
  oops (r <? 0) (line "%s: unlink dir0 failed") [sa s].

Definition exectest (s : list Z) : U σ unit :=
  unlink (str "echo-ok");;
  pid ← fork;
  oops (pid <? 0) (line "%s: fork failed") [sa s];;
  uwhen (pid =? 0) (
    close 1;;
    fd ← open (str "echo-ok") wr;
    oops (fd <? 0) (line "%s: create failed") [sa s];;
    oops (negb (fd =? 1)) (line "%s: wrong fd") [sa s];;
    r ← exec (str "echo") [str "echo"; str "OK"];
    oops (r <? 0) (line "%s: exec echo failed") [sa s]);;
  '(r, xstatus) ← wait;
  uwhen (negb (r =? pid)) (printf (line "%s: wait failed!") [sa s]);;
  uwhen (negb (xstatus =? 0)) (exit xstatus);;
  fd ← open (str "echo-ok") O_RDONLY;
  oops (fd <? 0) (line "%s: open failed") [sa s];;
  r ← read_bytes fd 2;
  oops (negb (r_val r =? 2)) (line "%s: read failed") [sa s];;
  unlink (str "echo-ok");;
  if (nth 0 (r_out r) 0 =? ch "O") && (nth 1 (r_out r) 0 =? ch "K") then exit 0
  else oops true (line "%s: wrong output") [sa s].

(** ** Pipes and processes *)

Definition pipe1_write (s : list Z) (fd : Z) : U σ unit :=
  ufor (seqZ 0 5) (λ n,
    putm (λ m, st_bytes m buf (pipe1_block (1033 * n)));;
    r ← write fd buf 1033;
    oops (negb (r =? 1033)) (line "%s: pipe1 oops 1") [sa s]).

(** [for(i = 0; i < n; i++)] over the bytes read: [seq] after it, or [None] for
    the [return]. *)
Fixpoint pipe1_compare (l : list Z) (seq : Z) : option Z :=
  match l with
  | [] => Some seq
  | b :: l => if negb (Z.land b 0xff =? Z.land seq 0xff) then None else pipe1_compare l (i32 (seq + 1))
  end.

(** The body of the [while] of the parent, with the state [(seq, cc, total)]: the
    loop ends with [total], or with [None] for the [return]. *)
Definition pipe1_step (s : list Z) (fd : Z) : Z * Z * Z → U σ (Z * Z * Z + option Z) := λ '(seq, cc, total),
  n ← read fd buf cc;
  if 0 <? n then
    m ← getm;
    match pipe1_compare (bytes_at m buf (Z.to_nat n)) seq with
    | None => printf (line "%s: pipe1 oops 2") [sa s];; mret (inr None)
    | Some seq =>
      let cc := i32 (cc * 2) in
      mret (inl (seq, if BUFSZ <? cc then BUFSZ else cc, i32 (total + n)))
    end
  else mret (inr (Some total)).

Definition pipe1_read (s : list Z) (fd : Z) : U σ (option Z) := uiter fuel (pipe1_step s fd) (0, 1, 0).

Definition pipe1 (s : list Z) : U σ unit :=
  '(r, fds) ← pipe;
  oops (negb (r =? 0)) (line "%s: pipe() failed") [sa s];;
  pid ← fork;
  if pid =? 0 then
    close fds.1;;
    pipe1_write s fds.2;;
    exit 0
  else if 0 <? pid then
    close fds.2;;
    r ← pipe1_read s fds.1;
    match r with
    | None => mret ()
    | Some total =>
      oops (negb (total =? 5 * 1033)) (line "%s: pipe1 oops 3 total %d") [AInt total];;
      close fds.1;;
      wait_exit
    end
  else oops true (line "%s: fork() failed") [sa s].

Definition killstatus (s : list Z) : U σ unit :=
  ufor (seqZ 0 100) (λ _,
    pid1 ← fork;
    oops (pid1 <? 0) (line "%s: fork failed") [sa s];;
    if pid1 =? 0 then
      forever fuel (getpid;; mret ());;
      exit 0
    else
      sleep 1;;
      kill pid1;;
      '(_, xst) ← wait;
      oops (negb (xst =? -1)) (line "%s: status should be -1") [sa s]);;
  exit 0.

Definition preempt (s : list Z) : U σ unit :=
  pid1 ← fork;
  oops (pid1 <? 0) (str "%s: fork failed") [sa s];;
  uwhen (pid1 =? 0) hang;;
  pid2 ← fork;
  oops (pid2 <? 0) (line "%s: fork failed") [sa s];;
  uwhen (pid2 =? 0) hang;;
  '(_, pfds) ← pipe;
  pid3 ← fork;
  oops (pid3 <? 0) (line "%s: fork failed") [sa s];;
  uwhen (pid3 =? 0) (
    close pfds.1;;
    r ← write_bytes pfds.2 (str "x");
    uwhen (negb (r =? 1)) (printf (str "%s: preempt write error") [sa s]);;
    close pfds.2;;
    hang);;
  close pfds.2;;
  r ← read pfds.1 buf BUFSZ;
  if negb (r =? 1) then printf (str "%s: preempt read error") [sa s]
  else
    close pfds.1;;
    printf (str "kill... ") [];;
    kill pid1;;
    kill pid2;;
    kill pid3;;
    printf (str "wait... ") [];;
    wait;;
    wait;;
    wait;;
    mret ().

Definition exitwait (s : list Z) : U σ unit :=
  ufor (seqZ 0 100) (λ i,
    pid ← fork;
    oops (pid <? 0) (line "%s: fork failed") [sa s];;
    if negb (pid =? 0) then
      '(r, xstate) ← wait;
      oops (negb (r =? pid)) (line "%s: wait wrong pid") [sa s];;
      oops (negb (i =? xstate)) (line "%s: wait wrong exit status") [sa s]
    else exit i).

Definition reparent (s : list Z) : U σ unit :=
  master_pid ← getpid;
  ufor (seqZ 0 200) (λ _,
    pid ← fork;
    oops (pid <? 0) (line "%s: fork failed") [sa s];;
    if negb (pid =? 0) then
      '(r, _) ← wait;
      oops (negb (r =? pid)) (line "%s: wait wrong pid") [sa s]
    else
      pid2 ← fork;
      uwhen (pid2 <? 0) (kill master_pid;; exit 1);;
      exit 0);;
  exit 0.

Definition twochildren (s : list Z) : U σ unit :=
  ufor (seqZ 0 1000) (λ _,
    pid1 ← fork;
    oops (pid1 <? 0) (line "%s: fork failed") [sa s];;
    if pid1 =? 0 then exit 0
    else
      pid2 ← fork;
      oops (pid2 <? 0) (line "%s: fork failed") [sa s];;
      if pid2 =? 0 then exit 0 else wait;; wait;; mret ()).

Definition forkfork (s : list Z) : U σ unit :=
  ufor (seqZ 0 2) (λ _,
    pid ← fork;
    oops (pid <? 0) (str "%s: fork failed") [sa s];;
    uwhen (pid =? 0) (
      ufor (seqZ 0 200) (λ _,
        pid1 ← fork;
        uwhen (pid1 <? 0) (exit 1);;
        uwhen (pid1 =? 0) (exit 0);;
        wait;; mret ());;
      exit 0));;
  ufor (seqZ 0 2) (λ _,
    '(_, xstatus) ← wait;
    oops (negb (xstatus =? 0)) (str "%s: fork in child failed") [sa s]).

Definition forkforkfork (s : list Z) : U σ unit :=
  unlink (str "stopforking");;
  pid ← fork;
  oops (pid <? 0) (str "%s: fork failed") [sa s];;
  uwhen (pid =? 0) (
    forever fuel (
      fd ← open (str "stopforking") 0;
      uwhen (0 <=? fd) (exit 0);;
      r ← fork;
      uwhen (r <? 0) (f ← open (str "stopforking") rw; close f;; mret ()));;
    exit 0);;
  sleep 20;;
  f ← open (str "stopforking") rw;
  close f;;
  wait;;
  sleep 10;;
  mret ().

Definition reparent2 (s : list Z) : U σ unit :=
  ufor (seqZ 0 800) (λ _,
    pid1 ← fork;
    oops (pid1 <? 0) (line "fork failed") [];;
    uwhen (pid1 =? 0) (fork;; fork;; exit 0);;
    wait;; mret ());;
  exit 0.

Definition mem_ (s : list Z) : U σ unit :=
  pid ← fork;
  if pid =? 0 then
    m1 ← uiter fuel (λ m1,
      m2 ← malloc base freep fuel 10001;
      if negb (m2 =? 0) then putm (λ m, sd64 m m2 m1);; mret (inl m2)
      else mret (inr m1)) 0;
    uiter fuel (λ m1,
      if negb (m1 =? 0) then
        m ← getm;
        let m2 := ld64 m m1 in
        free freep fuel m1;;
        mret (inl m2)
      else mret (inr ())) m1;;
    m1 ← malloc base freep fuel (1024 * 20);
    oops (m1 =? 0) (line "couldn't allocate mem?!!") [sa s];;
    free freep fuel m1;;
    exit 0
  else
    '(_, xstatus) ← wait;
    uwhen (xstatus =? -1) (exit 0);;
    exit xstatus.

(** ** More file system tests *)

(** An array after a read into it. *)
Definition filled_by (r : sysret) (old : list Z) : list Z := r_out r ++ drop (length (r_out r)) old.

Definition count (c : Z) (l : list Z) : Z := Z.of_nat (length (filter (λ b, b = c) l)).

Definition sharedfd (s : list Z) : U σ unit :=
  unlink (str "sharedfd");;
  fd ← open (str "sharedfd") rw;
  oops (fd <? 0) (str "%s: cannot open sharedfd for writing") [sa s];;
  pid ← fork;
  let b := replicate 10 (if pid =? 0 then ch "c" else ch "p") in
  ufor (seqZ 0 1000) (λ _,
    r ← write_bytes fd b;
    oops (negb (r =? 10)) (line "%s: write sharedfd failed") [sa s]);;
  (if pid =? 0 then exit 0
   else '(_, xstatus) ← wait; uwhen (negb (xstatus =? 0)) (exit xstatus));;
  close fd;;
  fd ← open (str "sharedfd") 0;
  oops (fd <? 0) (line "%s: cannot open sharedfd for reading") [sa s];;
  '(nc, np) ← uiter fuel (λ '(b, nc, np),
    r ← read_bytes fd 10;
    let b := filled_by r b in
    mret (if 0 <? r_val r then inl (b, nc + count (ch "c") b, np + count (ch "p") b) else inr (nc, np))) (b, 0, 0);
  close fd;;
  unlink (str "sharedfd");;
  if (nc =? 1000 * 10) && (np =? 1000 * 10) then exit 0
  else oops true (line "%s: nc/np test fails") [sa s].

Definition fourfiles (s : list Z) : U σ unit :=
  let name (pi : Z) := [ch "f"; ch "0" + pi] in
  ufor (seqZ 0 4) (λ pi,
    let fname := name pi in
    unlink fname;;
    pid ← fork;
    oops (pid <? 0) (line "fork failed") [sa s];;
    uwhen (pid =? 0) (
      fd ← open fname rw;
      oops (fd <? 0) (line "create failed") [sa s];;
      memset buf (ch "0" + pi) 500;;
      ufor (seqZ 0 12) (λ _,
        n ← write fd buf 500;
        oops (negb (n =? 500)) (line "write failed %d") [AInt n]);;
      exit 0));;
  ufor (seqZ 0 4) (λ _, '(_, xstatus) ← wait; uwhen (negb (xstatus =? 0)) (exit xstatus));;
  ufor (seqZ 0 4) (λ i,
    let fname := name i in
    fd ← open fname 0;
    total ← uiter fuel (λ total,
      n ← read fd buf BUFSZ;
      if 0 <? n then
        m ← getm;
        oops (negb (forallb (λ b, b =? ch "0" + i) (bytes_at m buf (Z.to_nat n)))) (line "wrong char") [sa s];;
        mret (inl (i32 (total + n)))
      else mret (inr total)) 0;
    close fd;;
    oops (negb (total =? 12 * 500)) (line "wrong length %d") [AInt total];;
    unlink fname;;
    mret ()).

Definition createdelete (s : list Z) : U σ unit :=
  ufor (seqZ 0 4) (λ pi,
    pid ← fork;
    oops (pid <? 0) (line "fork failed") [sa s];;
    uwhen (pid =? 0) (
      ufor (seqZ 0 20) (λ i,
        fd ← open [ch "p" + pi; ch "0" + i] rw;
        oops (fd <? 0) (line "%s: create failed") [sa s];;
        close fd;;
        uwhen ((0 <? i) && (i mod 2 =? 0)) (
          r ← unlink [ch "p" + pi; ch "0" + i / 2];
          oops (r <? 0) (line "%s: unlink failed") [sa s]));;
      exit 0));;
  ufor (seqZ 0 4) (λ _, '(_, xstatus) ← wait; uwhen (negb (xstatus =? 0)) (exit 1));;
  ufor (seqZ 0 20) (λ i, ufor (seqZ 0 4) (λ pi,
    let name := [ch "p" + pi; ch "0" + i] in
    fd ← open name 0;
    (if ((i =? 0) || (20 / 2 <=? i)) && (fd <? 0) then
       oops true (line "%s: oops createdelete %s didn't exist") [sa s; sa name]
     else oops ((1 <=? i) && (i <? 20 / 2) && (0 <=? fd)) (line "%s: oops createdelete %s did exist") [sa s; sa name]);;
    uwhen (0 <=? fd) (close fd;; mret ())));;
  ufor (seqZ 0 20) (λ i, ufor (seqZ 0 4) (λ _, unlink [ch "p" + i; ch "0" + i];; mret ())).

(** [buf[i]] *)
Definition buf_at (i : Z) : U σ Z := load (buf + i).

Definition unlinkread (s : list Z) : U σ unit :=
  fd ← open (str "unlinkread") rw;
  oops (fd <? 0) (line "%s: create unlinkread failed") [sa s];;
  write_bytes fd (str "hello");;
  close fd;;
  fd ← open (str "unlinkread") O_RDWR;
  oops (fd <? 0) (line "%s: open unlinkread failed") [sa s];;
  r ← unlink (str "unlinkread");
  oops (negb (r =? 0)) (line "%s: unlink unlinkread failed") [sa s];;
  fd1 ← open (str "unlinkread") rw;
  write_bytes fd1 (str "yyy");;
  close fd1;;
  r ← read fd buf BUFSZ;
  oops (negb (r =? 5)) (str "%s: unlinkread read failed") [sa s];;
  c ← buf_at 0;
  oops (negb (c =? ch "h")) (line "%s: unlinkread wrong data") [sa s];;
  r ← write fd buf 10;
  oops (negb (r =? 10)) (line "%s: unlinkread write failed") [sa s];;
  close fd;;
  unlink (str "unlinkread");;
  mret ().

Definition linktest (s : list Z) : U σ unit :=
  unlink (str "lf1");;
  unlink (str "lf2");;
  fd ← open (str "lf1") rw;
  oops (fd <? 0) (line "%s: create lf1 failed") [sa s];;
  r ← write_bytes fd (str "hello");
  oops (negb (r =? 5)) (line "%s: write lf1 failed") [sa s];;
  close fd;;
  r ← link (str "lf1") (str "lf2");
  oops (r <? 0) (line "%s: link lf1 lf2 failed") [sa s];;
  unlink (str "lf1");;
  r ← open (str "lf1") 0;
  oops (0 <=? r) (line "%s: unlinked lf1 but it is still there!") [sa s];;
  fd ← open (str "lf2") 0;
  oops (fd <? 0) (line "%s: open lf2 failed") [sa s];;
  r ← read fd buf BUFSZ;
  oops (negb (r =? 5)) (line "%s: read lf2 failed") [sa s];;
  close fd;;
  r ← link (str "lf2") (str "lf2");
  oops (0 <=? r) (line "%s: link lf2 lf2 succeeded! oops") [sa s];;
  unlink (str "lf2");;
  r ← link (str "lf2") (str "lf1");
  oops (0 <=? r) (line "%s: link non-existent succeeded! oops") [sa s];;
  r ← link (str ".") (str "lf1");
  oops (0 <=? r) (line "%s: link . lf1 succeeded! oops") [sa s].

(** The scan of the directory in [concreate]: the state is the entry [de], the
    flags [fa] and the number of files. *)
Definition concreate_scan (s : list Z) (fd : Z) : U σ Z :=
  uiter fuel (λ '(de, fa, n),
    r ← read_bytes fd 16;
    if 0 <? r_val r then
      let de := filled_by r de in
      let name := drop 2 de in
      if get16 de 0 =? 0 then mret (inl (de, fa, n))
      else if (nth 0 name 0 =? ch "C") && (nth 2 name 0 =? 0) then
        let i := nth 1 name 0 - ch "0" in
        oops ((i <? 0) || (40 <=? i)) (line "%s: concreate weird file %s") [sa s; sa (cstr name)];;
        oops (fa !!! Z.to_nat i) (line "%s: concreate duplicate file %s") [sa s; sa (cstr name)];;
        mret (inl (de, <[Z.to_nat i := true]> fa, n + 1))
      else mret (inl (de, fa, n))
    else mret (inr n)) (take 16 junk, replicate 40 false, 0).

Definition concreate (s : list Z) : U σ unit :=
  let file (i : Z) := [ch "C"; ch "0" + i] in
  ufor (seqZ 0 40) (λ i,
    unlink (file i);;
    pid ← fork;
    (if negb (pid =? 0) && (i mod 3 =? 1) then link (str "C0") (file i);; mret ()
     else if (pid =? 0) && (i mod 5 =? 1) then link (str "C0") (file i);; mret ()
     else
       fd ← open (file i) rw;
       oops (fd <? 0) (line "concreate create %s failed") [sa (file i)];;
       close fd;; mret ());;
    if pid =? 0 then exit 0
    else '(_, xstatus) ← wait; uwhen (negb (xstatus =? 0)) (exit 1));;
  fd ← open (str ".") 0;
  n ← concreate_scan s fd;
  close fd;;
  oops (negb (n =? 40)) (line "%s: concreate not enough files in directory listing") [sa s];;
  ufor (seqZ 0 40) (λ i,
    pid ← fork;
    oops (pid <? 0) (line "%s: fork failed") [sa s];;
    (if (i mod 3 =? 0) && (pid =? 0) || (i mod 3 =? 1) && negb (pid =? 0) then
       ufor (seqZ 0 6) (λ _, f ← open (file i) 0; close f;; mret ())
     else ufor (seqZ 0 6) (λ _, unlink (file i);; mret ()));;
    if pid =? 0 then exit 0 else wait;; mret ()).

(** [x] is unsigned. *)
Definition linkunlink (s : list Z) : U σ unit :=
  unlink (str "x");;
  pid ← fork;
  oops (pid <? 0) (line "%s: fork failed") [sa s];;
  uiter 101 (λ '(i, x),
    if i <? 100 then
      let x := u32 (x * 1103515245 + 12345) in
      (if x mod 3 =? 0 then f ← open (str "x") (Z.lor O_RDWR O_CREATE); close f;; mret ()
       else if x mod 3 =? 1 then link (str "cat") (str "x");; mret ()
       else unlink (str "x");; mret ());;
      mret (inl (i + 1, x))
    else mret (inr ())) (0, if negb (pid =? 0) then 1 else 97);;
  if negb (pid =? 0) then wait;; mret () else exit 0.

(** The file operations of [subdir]. *)
Definition subdir_files (s : list Z) : U σ unit :=
  unlink (str "ff");;
  r ← mkdir (str "dd");
  oops (negb (r =? 0)) (line "%s: mkdir dd failed") [sa s];;
  fd ← open (str "dd/ff") rw;
  oops (fd <? 0) (line "%s: create dd/ff failed") [sa s];;
  write_bytes fd (str "ff");;
  close fd;;
  r ← unlink (str "dd");
  oops (0 <=? r) (line "%s: unlink dd (non-empty dir) succeeded!") [sa s];;
  r ← mkdir (str "/dd/dd");
  oops (negb (r =? 0)) (line "subdir mkdir dd/dd failed") [sa s];;
  fd ← open (str "dd/dd/ff") rw;
  oops (fd <? 0) (line "%s: create dd/dd/ff failed") [sa s];;
  write_bytes fd (str "FF");;
  close fd;;
  fd ← open (str "dd/dd/../ff") 0;
  oops (fd <? 0) (line "%s: open dd/dd/../ff failed") [sa s];;
  cc ← read fd buf BUFSZ;
  c ← buf_at 0;
  oops (negb (cc =? 2) || negb (c =? ch "f")) (line "%s: dd/dd/../ff wrong content") [sa s];;
  close fd;;
  r ← link (str "dd/dd/ff") (str "dd/dd/ffff");
  oops (negb (r =? 0)) (line "link dd/dd/ff dd/dd/ffff failed") [sa s];;
  r ← unlink (str "dd/dd/ff");
  oops (negb (r =? 0)) (line "%s: unlink dd/dd/ff failed") [sa s];;
  r ← open (str "dd/dd/ff") O_RDONLY;
  oops (0 <=? r) (line "%s: open (unlinked) dd/dd/ff succeeded") [sa s];;
  r ← chdir (str "dd");
  oops (negb (r =? 0)) (line "%s: chdir dd failed") [sa s];;
  r ← chdir (str "dd/../../dd");
  oops (negb (r =? 0)) (line "%s: chdir dd/../../dd failed") [sa s];;
  r ← chdir (str "dd/../../../dd");
  oops (negb (r =? 0)) (line "chdir dd/../../dd failed") [sa s];;
  r ← chdir (str "./..");
  oops (negb (r =? 0)) (line "%s: chdir ./.. failed") [sa s];;
  fd ← open (str "dd/dd/ffff") 0;
  oops (fd <? 0) (line "%s: open dd/dd/ffff failed") [sa s];;
  r ← read fd buf BUFSZ;
  oops (negb (r =? 2)) (line "%s: read dd/dd/ffff wrong len") [sa s];;
  close fd;;
  mret ().

(** What [subdir] expects to fail, and its cleaning up. *)
Definition subdir_errors (s : list Z) : U σ unit :=
  r ← open (str "dd/dd/ff") O_RDONLY;
  oops (0 <=? r) (line "%s: open (unlinked) dd/dd/ff succeeded!") [sa s];;
  r ← open (str "dd/ff/ff") rw;
  oops (0 <=? r) (line "%s: create dd/ff/ff succeeded!") [sa s];;
  r ← open (str "dd/xx/ff") rw;
  oops (0 <=? r) (line "%s: create dd/xx/ff succeeded!") [sa s];;
  r ← open (str "dd") O_CREATE;
  oops (0 <=? r) (line "%s: create dd succeeded!") [sa s];;
  r ← open (str "dd") O_RDWR;
  oops (0 <=? r) (line "%s: open dd rdwr succeeded!") [sa s];;
  r ← open (str "dd") O_WRONLY;
  oops (0 <=? r) (line "%s: open dd wronly succeeded!") [sa s];;
  r ← link (str "dd/ff/ff") (str "dd/dd/xx");
  oops (r =? 0) (line "%s: link dd/ff/ff dd/dd/xx succeeded!") [sa s];;
  r ← link (str "dd/xx/ff") (str "dd/dd/xx");
  oops (r =? 0) (line "%s: link dd/xx/ff dd/dd/xx succeeded!") [sa s];;
  r ← link (str "dd/ff") (str "dd/dd/ffff");
  oops (r =? 0) (line "%s: link dd/ff dd/dd/ffff succeeded!") [sa s];;
  r ← mkdir (str "dd/ff/ff");
  oops (r =? 0) (line "%s: mkdir dd/ff/ff succeeded!") [sa s];;
  r ← mkdir (str "dd/xx/ff");
  oops (r =? 0) (line "%s: mkdir dd/xx/ff succeeded!") [sa s];;
  r ← mkdir (str "dd/dd/ffff");
  oops (r =? 0) (line "%s: mkdir dd/dd/ffff succeeded!") [sa s];;
  r ← unlink (str "dd/xx/ff");
  oops (r =? 0) (line "%s: unlink dd/xx/ff succeeded!") [sa s];;
  r ← unlink (str "dd/ff/ff");
  oops (r =? 0) (line "%s: unlink dd/ff/ff succeeded!") [sa s];;
  r ← chdir (str "dd/ff");
  oops (r =? 0) (line "%s: chdir dd/ff succeeded!") [sa s];;
  r ← chdir (str "dd/xx");
  oops (r =? 0) (line "%s: chdir dd/xx succeeded!") [sa s];;
  r ← unlink (str "dd/dd/ffff");
  oops (negb (r =? 0)) (line "%s: unlink dd/dd/ff failed") [sa s];;
  r ← unlink (str "dd/ff");
  oops (negb (r =? 0)) (line "%s: unlink dd/ff failed") [sa s];;
  r ← unlink (str "dd");
  oops (r =? 0) (line "%s: unlink non-empty dd succeeded!") [sa s];;
  r ← unlink (str "dd/dd");
  oops (r <? 0) (line "%s: unlink dd/dd failed") [sa s];;
  r ← unlink (str "dd");
  oops (r <? 0) (line "%s: unlink dd failed") [sa s].

Definition subdir (s : list Z) : U σ unit := subdir_files s;; subdir_errors s.

Definition bigwrite (s : list Z) : U σ unit :=
  unlink (str "bigwrite");;
  uiter (S (Z.to_nat BUFSZ)) (λ sz,
    if sz <? (MAXOPBLOCKS + 2) * BSIZE then
      fd ← open (str "bigwrite") rw;
      oops (fd <? 0) (line "%s: cannot create bigwrite") [sa s];;
      ufor (seqZ 0 2) (λ _,
        cc ← write fd buf sz;
        oops (negb (cc =? sz)) (line "%s: write(%d) ret %d") [sa s; AInt sz; AInt cc]);;
      close fd;;
      unlink (str "bigwrite");;
      mret (inl (sz + 471))
    else mret (inr ())) 499.

Definition bigfile (s : list Z) : U σ unit :=
  unlink (str "bigfile.dat");;
  fd ← open (str "bigfile.dat") rw;
  oops (fd <? 0) (str "%s: cannot create bigfile") [sa s];;
  ufor (seqZ 0 20) (λ i,
    memset buf i 600;;
    r ← write fd buf 600;
    oops (negb (r =? 600)) (line "%s: write bigfile failed") [sa s]);;
  close fd;;
  fd ← open (str "bigfile.dat") 0;
  oops (fd <? 0) (line "%s: cannot open bigfile") [sa s];;
  total ← uiter fuel (λ '(i, total),
    cc ← read fd buf (600 / 2);
    oops (cc <? 0) (line "%s: read bigfile failed") [sa s];;
    if cc =? 0 then mret (inr total)
    else
      oops (negb (cc =? 600 / 2)) (line "%s: short read bigfile") [sa s];;
      a ← buf_at 0;
      b ← buf_at (600 / 2 - 1);
      oops (negb (a =? i / 2) || negb (b =? i / 2)) (line "%s: read bigfile wrong data") [sa s];;
      mret (inl (i + 1, i32 (total + cc)))) (0, 0);
  close fd;;
  oops (negb (total =? 20 * 600)) (line "%s: read bigfile wrong total") [sa s];;
  unlink (str "bigfile.dat");;
  mret ().

Definition fourteen (s : list Z) : U σ unit :=
  r ← mkdir (str "12345678901234");
  oops (negb (r =? 0)) (line "%s: mkdir 12345678901234 failed") [sa s];;
  r ← mkdir (str "12345678901234/123456789012345");
  oops (negb (r =? 0)) (line "%s: mkdir 12345678901234/123456789012345 failed") [sa s];;
  fd ← open (str "123456789012345/123456789012345/123456789012345") O_CREATE;
  oops (fd <? 0) (line "%s: create 123456789012345/123456789012345/123456789012345 failed") [sa s];;
  close fd;;
  fd ← open (str "12345678901234/12345678901234/12345678901234") 0;
  oops (fd <? 0) (line "%s: open 12345678901234/12345678901234/12345678901234 failed") [sa s];;
  close fd;;
  r ← mkdir (str "12345678901234/12345678901234");
  oops (r =? 0) (line "%s: mkdir 12345678901234/12345678901234 succeeded!") [sa s];;
  r ← mkdir (str "123456789012345/12345678901234");
  oops (r =? 0) (line "%s: mkdir 12345678901234/123456789012345 succeeded!") [sa s];;
  unlink (str "123456789012345/12345678901234");;
  unlink (str "12345678901234/12345678901234");;
  unlink (str "12345678901234/12345678901234/12345678901234");;
  unlink (str "123456789012345/123456789012345/123456789012345");;
  unlink (str "12345678901234/123456789012345");;
  unlink (str "12345678901234");;
  mret ().

Definition rmdot (s : list Z) : U σ unit :=
  r ← mkdir (str "dots");
  oops (negb (r =? 0)) (line "%s: mkdir dots failed") [sa s];;
  r ← chdir (str "dots");
  oops (negb (r =? 0)) (line "%s: chdir dots failed") [sa s];;
  r ← unlink (str ".");
  oops (r =? 0) (line "%s: rm . worked!") [sa s];;
  r ← unlink (str "..");
  oops (r =? 0) (line "%s: rm .. worked!") [sa s];;
  r ← chdir (str "/");
  oops (negb (r =? 0)) (line "%s: chdir / failed") [sa s];;
  r ← unlink (str "dots/.");
  oops (r =? 0) (line "%s: unlink dots/. worked!") [sa s];;
  r ← unlink (str "dots/..");
  oops (r =? 0) (line "%s: unlink dots/.. worked!") [sa s];;
  r ← unlink (str "dots");
  oops (negb (r =? 0)) (line "%s: unlink dots failed!") [sa s].

Definition dirfile (s : list Z) : U σ unit :=
  fd ← open (str "dirfile") O_CREATE;
  oops (fd <? 0) (line "%s: create dirfile failed") [sa s];;
  close fd;;
  r ← chdir (str "dirfile");
  oops (r =? 0) (line "%s: chdir dirfile succeeded!") [sa s];;
  fd ← open (str "dirfile/xx") 0;
  oops (0 <=? fd) (line "%s: create dirfile/xx succeeded!") [sa s];;
  fd ← open (str "dirfile/xx") O_CREATE;
  oops (0 <=? fd) (line "%s: create dirfile/xx succeeded!") [sa s];;
  r ← mkdir (str "dirfile/xx");
  oops (r =? 0) (line "%s: mkdir dirfile/xx succeeded!") [sa s];;
  r ← unlink (str "dirfile/xx");
  oops (r =? 0) (line "%s: unlink dirfile/xx succeeded!") [sa s];;
  r ← link (str "README") (str "dirfile/xx");
  oops (r =? 0) (line "%s: link to dirfile/xx succeeded!") [sa s];;
  r ← unlink (str "dirfile");
  oops (negb (r =? 0)) (line "%s: unlink dirfile failed!") [sa s];;
  fd ← open (str ".") O_RDWR;
  oops (0 <=? fd) (line "%s: open . for writing succeeded!") [sa s];;
  fd ← open (str ".") 0;
  r ← write_bytes fd (str "x");
  oops (0 <? r) (line "%s: write . succeeded!") [sa s];;
  close fd;;
  mret ().

Definition iref (s : list Z) : U σ unit :=
  ufor (seqZ 0 (NINODE + 1)) (λ _,
    r ← mkdir (str "irefd");
    oops (negb (r =? 0)) (line "%s: mkdir irefd failed") [sa s];;
    r ← chdir (str "irefd");
    oops (negb (r =? 0)) (line "%s: chdir irefd failed") [sa s];;
    mkdir [];;
    link (str "README") [];;
    fd ← open [] O_CREATE;
    uwhen (0 <=? fd) (close fd;; mret ());;
    fd ← open (str "xx") O_CREATE;
    uwhen (0 <=? fd) (close fd;; mret ());;
    unlink (str "xx");;
    mret ());;
  ufor (seqZ 0 (NINODE + 1)) (λ _, chdir (str "..");; unlink (str "irefd");; mret ());;
  chdir (str "/");;
  mret ().

(** The first loop is that of the program forktest. *)
Definition forktest (s : list Z) : U σ unit :=
  n ← forktest_fork 1000 0;
  oops (n =? 0) (line "%s: no fork at all!") [sa s];;
  oops (n =? 1000) (line "%s: fork claimed to work 1000 times!") [sa s];;
  ufor (seqZ 0 n) (λ _, '(r, _) ← wait; oops (r <? 0) (line "%s: wait stopped early") [sa s]);;
  '(r, _) ← wait;
  oops (negb (r =? -1)) (line "%s: wait got too many") [sa s].

(** ** Memory *)

(** [for(p = a; p < top; p += 4096) *p = v;] *)
Definition poke_pages (a top v : Z) : U σ unit :=
  uiter fuel (λ p, if p <? top then poke p v;; mret (inl (u64 (p + 4096))) else mret (inr ())) a.

Definition sbrkbasic (s : list Z) : U σ unit :=
  let TOOMUCH := 1024 * 1024 * 1024 in
  pid ← fork;
  oops (pid <? 0) (line "fork failed in sbrkbasic") [];;
  uwhen (pid =? 0) (
    a ← sbrk TOOMUCH;
    uwhen (u64 a =? bad_ptr) (exit 0);;
    poke_pages (u64 a) (u64 (a + TOOMUCH)) 99;;
    exit 1);;
  '(_, xstatus) ← wait;
  oops (xstatus =? 1) (line "%s: too much memory allocated!") [sa s];;
  a ← sbrk 0;
  a ← uiter 5001 (λ '(i, a),
    if i <? 5000 then
      b ← sbrk 1;
      oops (negb (u64 b =? a)) (line "%s: sbrk test failed %d %x %x") [sa s; AInt i; AInt a; AInt b];;
      poke b 1;;
      mret (inl (i + 1, u64 (b + 1)))
    else mret (inr a)) (0, u64 a);
  pid ← fork;
  oops (pid <? 0) (line "%s: sbrk test fork failed") [sa s];;
  sbrk 1;;
  c ← sbrk 1;
  oops (negb (u64 c =? u64 (a + 1))) (line "%s: sbrk test failed post-fork") [sa s];;
  uwhen (pid =? 0) (exit 0);;
  wait_exit.

Definition BIG : Z := 100 * 1024 * 1024.

Definition sbrkmuch (s : list Z) : U σ unit :=
  oldbrk ← sbrk 0;
  a ← sbrk 0;
  p ← sbrk (i32 (u64 (BIG - a)));
  oops (negb (u64 p =? u64 a)) (line "%s: sbrk test failed to grow big address space; enough phys mem?") [sa s];;
  eee ← sbrk 0;
  poke_pages (u64 a) (u64 eee) 1;;
  let lastaddr := BIG - 1 in
  poke lastaddr 99;;
  a ← sbrk 0;
  c ← sbrk (- PGSIZE);
  oops (u64 c =? bad_ptr) (line "%s: sbrk could not deallocate") [sa s];;
  c ← sbrk 0;
  oops (negb (u64 c =? u64 (a - PGSIZE))) (line "%s: sbrk deallocation produced wrong address, a %x c %x") [sa s; AInt a; AInt c];;
  a ← sbrk 0;
  c ← sbrk PGSIZE;
  (if negb (u64 c =? u64 a) then oops true (line "%s: sbrk re-allocation failed, a %x c %x") [sa s; AInt a; AInt c]
   else
     top ← sbrk 0;
     oops (negb (u64 top =? u64 (a + PGSIZE))) (line "%s: sbrk re-allocation failed, a %x c %x") [sa s; AInt a; AInt c]);;
  x ← peek lastaddr;
  oops (x =? 99) (line "%s: sbrk de-allocation didn't really deallocate") [sa s];;
  a ← sbrk 0;
  top ← sbrk 0;
  c ← sbrk (i32 (- (top - oldbrk)));
  oops (negb (u64 c =? u64 a)) (line "%s: sbrk downsize failed, a %x c %x") [sa s; AInt a; AInt c].

Definition kernmem (s : list Z) : U σ unit :=
  ufor (seqZ 0 40) (λ k,
    let a := KERNBASE + 50000 * k in
    pid ← fork;
    oops (pid <? 0) (line "%s: fork failed") [sa s];;
    uwhen (pid =? 0) (x ← peek a; oops true (line "%s: oops could read %x = %x") [sa s; AInt a; AInt x]);;
    '(_, xstatus) ← wait;
    uwhen (negb (xstatus =? -1)) (exit 1)).

(** [a <<= 1] ends at 0 after at most 64 rounds. *)
Definition MAXVAplus (s : list Z) : U σ unit :=
  uiter 65 (λ a,
    if negb (a =? 0) then
      pid ← fork;
      oops (pid <? 0) (line "%s: fork failed") [sa s];;
      uwhen (pid =? 0) (poke a 99;; oops true (line "%s: oops wrote %x") [sa s; AInt a]);;
      '(_, xstatus) ← wait;
      uwhen (negb (xstatus =? -1)) (exit 1);;
      mret (inl (u64 (Z.shiftl a 1)))
    else mret (inr ())) MAXVA.

Definition sbrkfail (s : list Z) : U σ unit :=
  '(r, fds) ← pipe;
  oops (negb (r =? 0)) (line "%s: pipe() failed") [sa s];;
  pids ← uiter 11 (λ pids,
    if Z.of_nat (length pids) <? 10 then
      pid ← fork;
      uwhen (pid =? 0) (
        top ← sbrk 0;
        sbrk (i32 (u64 (BIG - top)));;
        write_bytes fds.2 (str "x");;
        forever fuel (sleep 1000;; mret ()));;
      uwhen (negb (pid =? -1)) (read_bytes fds.1 1;; mret ());;
      mret (inl (pids ++ [pid]))
    else mret (inr pids)) [];
  c ← sbrk PGSIZE;
  ufor pids (λ pid, uwhen (negb (pid =? -1)) (kill pid;; wait;; mret ()));;
  oops (u64 c =? bad_ptr) (line "%s: failed sbrk leaked memory") [sa s];;
  pid ← fork;
  oops (pid <? 0) (line "%s: fork failed") [sa s];;
  uwhen (pid =? 0) (
    a ← sbrk 0;
    sbrk (10 * BIG);;
    n ← uiter fuel (λ '(i, n),
      if i <? 10 * BIG then x ← peek (a + i); mret (inl (i + PGSIZE, i32 (n + x)))
      else mret (inr n)) (0, 0);
    oops true (line "%s: allocate a lot of memory succeeded %d") [sa s; AInt n]);;
  '(_, xstatus) ← wait;
  uwhen (negb (xstatus =? -1) && negb (xstatus =? 2)) (exit 1).

Definition sbrkarg (s : list Z) : U σ unit :=
  a ← sbrk PGSIZE;
  fd ← open (str "sbrk") wr;
  unlink (str "sbrk");;
  oops (fd <? 0) (line "%s: open sbrk failed") [sa s];;
  n ← raw SYS_write [RReg fd; RReg (u64 a); RReg PGSIZE];
  oops (n <? 0) (line "%s: write sbrk failed") [sa s];;
  close fd;;
  a ← sbrk PGSIZE;
  r ← raw SYS_pipe [RReg (u64 a)];
  oops (negb (r =? 0)) (line "%s: pipe() failed") [sa s].

(** The addresses from 0 to 1100*1024, by pages. *)
Definition validatetest (s : list Z) : U σ unit :=
  let hi := 1100 * 1024 in
  ufor (seqZ 0 (hi / PGSIZE + 1)) (λ k,
    r ← raw SYS_link [RStr (str "nosuchfile"); RReg (PGSIZE * k)];
    oops (negb (r =? -1)) (line "%s: link should not succeed") [sa s]).

Definition bsstest (s : list Z) : U σ unit :=
  ufor (seqZ 0 10000) (λ i,
    x ← load (uninit + i);
    oops (negb (x =? 0)) (line "%s: bss test failed") [sa s]).

Definition bigargtest (s : list Z) : U σ unit :=
  unlink (str "bigarg-ok");;
  pid ← fork;
  if pid =? 0 then
    exec (str "echo") (replicate (Z.to_nat (MAXARG - 1)) (line "bigargs test: failed" ++ replicate 199 (ch " ")));;
    fd ← open (str "bigarg-ok") O_CREATE;
    close fd;;
    exit 0
  else
    oops (pid <? 0) (line "%s: bigargtest: fork failed") [sa s];;
    '(_, xstatus) ← wait;
    uwhen (negb (xstatus =? 0)) (exit xstatus);;
    fd ← open (str "bigarg-ok") 0;
    oops (fd <? 0) (line "%s: bigarg test failed!") [sa s];;
    close fd;;
    mret ().

(** The name of the file number [nfiles] of [fsfull]. *)
Definition fsfull_name (nfiles : Z) : list Z :=
  [ch "f"; u8 (ch "0" + Z.quot nfiles 1000); ch "0" + Z.quot (Z.rem nfiles 1000) 100; ch "0" + Z.quot (Z.rem nfiles 100) 10; ch "0" + Z.rem nfiles 10].

Definition fsfull : U σ unit :=
  printf (line "fsfull test") [];;
  nfiles ← uiter fuel (λ nfiles,
    let name := fsfull_name nfiles in
    printf (line "writing %s") [sa name];;
    fd ← open name rw;
    if fd <? 0 then printf (line "open %s failed") [sa name];; mret (inr nfiles)
    else
      total ← uiter fuel (λ total,
        cc ← write fd buf BSIZE;
        mret (if cc <? BSIZE then inr total else inl (i32 (total + cc)))) 0;
      printf (line "wrote %d bytes") [AInt total];;
      close fd;;
      mret (if total =? 0 then inr nfiles else inl (nfiles + 1))) 0;
  ufor (reverse (seqZ 0 (nfiles + 1))) (λ nfiles, unlink (fsfull_name nfiles);; mret ());;
  printf (line "fsfull test finished") [].

Definition argptest (s : list Z) : U σ unit :=
  fd ← open (str "init") O_RDONLY;
  oops (fd <? 0) (line "%s: open failed") [sa s];;
  top ← sbrk 0;
  raw SYS_read [RReg fd; RReg (u64 (top - 1)); RReg (-1)];;
  close fd;;
  mret ().

(** [wait(&xstatus)], and [exit(0)] if the kernel killed the child. *)
Definition wait_killed : U σ unit :=
  '(_, xstatus) ← wait;
  if xstatus =? -1 then exit 0 else exit xstatus.

Definition stacktest (s : list Z) : U σ unit :=
  pid ← fork;
  if pid =? 0 then
    x ← peek (sp - PGSIZE);
    oops true (line "%s: stacktest: read below stack %p") [sa s; AInt x]
  else
    oops (pid <? 0) (line "%s: fork failed") [sa s];;
    wait_killed.

(** The store of an int at address 0 faults at its first byte or not at all. *)
Definition textwrite (s : list Z) : U σ unit :=
  pid ← fork;
  if pid =? 0 then
    poke 0 10;; poke 1 0;; poke 2 0;; poke 3 0;;
    exit 1
  else
    oops (pid <? 0) (line "%s: fork failed") [sa s];;
    wait_killed.

Definition big : Z := 0xeaeb0b5b00002f5e.

Definition pgbug (s : list Z) : U σ unit :=
  raw_exec SYS_exec [RReg big; RArgv [RReg 0]];;
  raw SYS_pipe [RReg big];;
  exit 0.

(** The children of the first two blocks may have no code left to return to. *)
Definition sbrkbugs (s : list Z) : U σ unit :=
  pid ← fork;
  oops (pid <? 0) (line "fork failed") [];;
  uwhen (pid =? 0) (
    sz ← sbrk 0;
    sbrk (i32 (- i32 sz));;
    peek text;;
    exit 0);;
  wait;;
  pid ← fork;
  oops (pid <? 0) (line "fork failed") [];;
  uwhen (pid =? 0) (
    sz ← sbrk 0;
    sbrk (i32 (- (i32 sz - 3500)));;
    peek text;;
    exit 0);;
  wait;;
  pid ← fork;
  oops (pid <? 0) (line "fork failed") [];;
  uwhen (pid =? 0) (
    top ← sbrk 0;
    sbrk (i32 (u64 (10 * 4096 + 2048 - top)));;
    sbrk (-10);;
    exit 0);;
  wait;;
  exit 0.

Definition sbrklast (s : list Z) : U σ unit :=
  top ← sbrk 0;
  uwhen (negb (u64 top mod 4096 =? 0)) (sbrk (4096 - u64 top mod 4096);; mret ());;
  sbrk 4096;;
  sbrk 10;;
  sbrk (-20);;
  top ← sbrk 0;
  let p := u64 (top - 64) in
  poke p (ch "x");;
  poke (p + 1) 0;;
  path ← peek_string fuel p;
  fd ← open path (Z.lor O_RDWR O_CREATE);
  write fd p 1;;
  close fd;;
  fd ← open path O_RDWR;
  poke p 0;;
  read fd p 1;;
  c ← peek p;
  uwhen (negb (c =? ch "x")) (exit 1).

Definition sbrk8000 (s : list Z) : U σ unit :=
  sbrk (i32 0x80000004);;
  top ← sbrk 0;
  x ← peek (top - 1);
  poke (top - 1) (x + 1).

Definition badarg (s : list Z) : U σ unit :=
  uiter (Z.to_nat 50001) (λ i,
    if i <? 50000 then raw_exec SYS_exec [RStr (str "echo"); RArgv [RReg 0xffffffff; RReg 0]];; mret (inl (i + 1))
    else mret (inr ())) 0;;
  exit 0.

Definition quicktests : list ((list Z → U σ unit) * list Z) :=
  [(copyin, str "copyin"); (copyout, str "copyout"); (copyinstr1, str "copyinstr1"); (copyinstr2, str "copyinstr2");
   (copyinstr3, str "copyinstr3"); (rwsbrk, str "rwsbrk"); (truncate1, str "truncate1"); (truncate2, str "truncate2");
   (truncate3, str "truncate3"); (openiputtest, str "openiput"); (exitiputtest, str "exitiput"); (iputtest, str "iput");
   (opentest, str "opentest"); (writetest, str "writetest"); (writebig, str "writebig"); (createtest, str "createtest");
   (dirtest, str "dirtest"); (exectest, str "exectest"); (pipe1, str "pipe1"); (killstatus, str "killstatus");
   (preempt, str "preempt"); (exitwait, str "exitwait"); (reparent, str "reparent"); (twochildren, str "twochildren");
   (forkfork, str "forkfork"); (forkforkfork, str "forkforkfork"); (reparent2, str "reparent2"); (mem_, str "mem");
   (sharedfd, str "sharedfd"); (fourfiles, str "fourfiles"); (createdelete, str "createdelete"); (unlinkread, str "unlinkread");
   (linktest, str "linktest"); (concreate, str "concreate"); (linkunlink, str "linkunlink"); (subdir, str "subdir");
   (bigwrite, str "bigwrite"); (bigfile, str "bigfile"); (fourteen, str "fourteen"); (rmdot, str "rmdot");
   (dirfile, str "dirfile"); (iref, str "iref"); (forktest, str "forktest"); (sbrkbasic, str "sbrkbasic");
   (sbrkmuch, str "sbrkmuch"); (kernmem, str "kernmem"); (MAXVAplus, str "MAXVAplus"); (sbrkfail, str "sbrkfail");
   (sbrkarg, str "sbrkarg"); (validatetest, str "validatetest"); (bsstest, str "bsstest"); (bigargtest, str "bigargtest");
   (argptest, str "argptest"); (stacktest, str "stacktest"); (textwrite, str "textwrite"); (pgbug, str "pgbug");
   (sbrkbugs, str "sbrkbugs"); (sbrklast, str "sbrklast"); (sbrk8000, str "sbrk8000"); (badarg, str "badarg")].

(** ** Tests that take a fair bit of time *)

Definition bigdir (s : list Z) : U σ unit :=
  let name (i : Z) := [ch "x"; ch "0" + i / 64; ch "0" + i mod 64] in
  unlink (str "bd");;
  fd ← open (str "bd") O_CREATE;
  oops (fd <? 0) (line "%s: bigdir create failed") [sa s];;
  close fd;;
  ufor (seqZ 0 500) (λ i,
    r ← link (str "bd") (name i);
    oops (negb (r =? 0)) (line "%s: bigdir link(bd, %s) failed") [sa s; sa (name i)]);;
  unlink (str "bd");;
  ufor (seqZ 0 500) (λ i,
    r ← unlink (name i);
    oops (negb (r =? 0)) (str "%s: bigdir unlink failed") [sa s]).

Definition manywrites (s : list Z) : U σ unit :=
  ufor (seqZ 0 4) (λ ci,
    pid ← fork;
    oops (pid <? 0) (line "fork failed") [];;
    uwhen (pid =? 0) (
      let name := [ch "b"; ch "a" + ci] in
      unlink name;;
      ufor (seqZ 0 30) (λ _,
        ufor (seqZ 0 (ci + 1)) (λ _,
          fd ← open name rw;
          oops (fd <? 0) (line "%s: cannot create %s") [sa s; sa name];;
          cc ← write fd buf BUFSZ;
          oops (negb (cc =? BUFSZ)) (line "%s: write(%d) ret %d") [sa s; AInt BUFSZ; AInt cc];;
          close fd;;
          mret ());;
        unlink name;;
        mret ());;
      unlink name;;
      exit 0));;
  ufor (seqZ 0 4) (λ _,
    '(r, st) ← wait;
    let st := if r <? 0 then 0 else st in
    uwhen (negb (st =? 0)) (exit st));;
  exit 0.

Definition badwrite (s : list Z) : U σ unit :=
  unlink (str "junk");;
  ufor (seqZ 0 600) (λ _,
    fd ← open (str "junk") wr;
    oops (fd <? 0) (line "open junk failed") [];;
    raw SYS_write [RReg fd; RReg 0xffffffffff; RReg 1];;
    close fd;;
    unlink (str "junk");;
    mret ());;
  fd ← open (str "junk") wr;
  oops (fd <? 0) (line "open junk failed") [];;
  r ← write_bytes fd (str "x");
  oops (negb (r =? 1)) (line "write failed") [];;
  close fd;;
  unlink (str "junk");;
  exit 0.

Definition execout (s : list Z) : U σ unit :=
  ufor (seqZ 0 15) (λ avail,
    pid ← fork;
    oops (pid <? 0) (line "fork failed") [];;
    if pid =? 0 then
      uiter fuel (λ _ : unit,
        a ← sbrk 4096;
        if u64 a =? bad_ptr then mret (inr ()) else poke (a + 4096 - 1) 1;; mret (inl ())) ();;
      ufor (seqZ 0 avail) (λ _, sbrk (-4096);; mret ());;
      close 1;;
      exec (str "echo") [str "echo"; str "x"];;
      exit 0
    else wait;; mret ());;
  exit 0.

Definition big_name (fi : Z) : list Z := str "big" ++ [u8 (ch "0" + fi)].
Definition zz_name (i : Z) : list Z := str "zz" ++ [ch "0" + i / 32; ch "0" + i mod 32].
Definition trunc : Z := Z.lor rw O_TRUNC.

(** The loop over [i < n] that creates the files zz.. until one cannot be made. *)
Definition create_zz (n : Z) : U σ unit :=
  uiter (S (Z.to_nat n)) (λ i,
    if i <? n then
      unlink (zz_name i);;
      fd ← open (zz_name i) trunc;
      if fd <? 0 then mret (inr ()) else close fd;; mret (inl (i + 1))
    else mret (inr ())) 0.

Definition diskfull (s : list Z) : U σ unit :=
  unlink (str "diskfulldir");;
  fi ← uiter fuel (λ fi,
    let name := big_name fi in
    unlink name;;
    fd ← open name trunc;
    if fd <? 0 then printf (line "%s: could not create file %s") [sa s; sa name];; mret (inr fi)
    else
      done ← uiter (S (Z.to_nat MAXFILE)) (λ i,
        if i <? MAXFILE then
          r ← write_bytes fd (take (Z.to_nat BSIZE) junk);
          if negb (r =? BSIZE) then close fd;; mret (inr true) else mret (inl (i + 1))
        else mret (inr false)) 0;
      close fd;;
      mret (if done : bool then inr (fi + 1) else inl (fi + 1))) 0;
  create_zz 128;;
  r ← mkdir (str "diskfulldir");
  uwhen (r =? 0) (printf (line "%s: mkdir(diskfulldir) unexpectedly succeeded!") []);;
  unlink (str "diskfulldir");;
  ufor (seqZ 0 128) (λ i, unlink (zz_name i);; mret ());;
  ufor (seqZ 0 fi) (λ i, unlink (big_name i);; mret ()).

Definition outofinodes (s : list Z) : U σ unit :=
  create_zz (32 * 32);;
  ufor (seqZ 0 (32 * 32)) (λ i, unlink (zz_name i);; mret ()).

Definition slowtests : list ((list Z → U σ unit) * list Z) :=
  [(bigdir, str "bigdir"); (manywrites, str "manywrites"); (badwrite, str "badwrite"); (execout, str "execout");
   (diskfull, str "diskfull"); (outofinodes, str "outofinodes")].

(** ** The driver *)

Definition run (f : list Z → U σ unit) (s : list Z) : U σ bool :=
  printf (str "test %s: ") [sa s];;
  pid ← fork;
  oops (pid <? 0) (line "runtest: fork error") [];;
  if pid =? 0 then f s;; exit 0
  else
    '(_, xstatus) ← wait;
    (if negb (xstatus =? 0) then printf (line "FAILED") [] else printf (line "OK") []);;
    mret (xstatus =? 0).

Fixpoint runtests (tests : list ((list Z → U σ unit) * list Z)) (justone : option (list Z)) : U σ Z :=
  match tests with
  | [] => mret 0
  | (f, s) :: tests =>
    if match justone with None => true | Some j => strcmp s j =? 0 end then
      ok ← run f s;
      if negb ok then printf (line "SOME TESTS FAILED") [];; mret 1 else runtests tests justone
    else runtests tests justone
  end.

(** The child reports each page it gets with a byte, the parent counts them. *)
Definition countfree : U σ Z :=
  '(r, fds) ← pipe;
  oops (r <? 0) (line "pipe() failed in countfree()") [];;
  pid ← fork;
  oops (pid <? 0) (line "fork failed in countfree()") [];;
  uwhen (pid =? 0) (
    close fds.1;;
    uiter fuel (λ _ : unit,
      a ← sbrk 4096;
      if u64 a =? bad_ptr then mret (inr ())
      else
        poke (a + 4096 - 1) 1;;
        r ← write_bytes fds.2 (str "x");
        oops (negb (r =? 1)) (line "write() failed in countfree()") [];;
        mret (inl ())) ();;
    exit 0);;
  close fds.2;;
  n ← uiter fuel (λ n,
    r ← read_bytes fds.1 1;
    oops (r_val r <? 0) (line "read() failed in countfree()") [];;
    mret (if r_val r =? 0 then inr n else inl (i32 (n + 1)))) 0;
  close fds.1;;
  wait;;
  mret n.

Definition drivetests (quick continuous : Z) (justone : option (list Z)) : U σ Z :=
  uiter fuel (λ _ : unit,
    printf (line "usertests starting") [];;
    free0 ← countfree;
    r ← runtests quicktests justone;
    if negb (r =? 0) && negb (continuous =? 2) then mret (inr 1)
    else
      r ← (if quick =? 0 then
             uwhen (match justone with None => true | _ => false end) (printf (line "usertests slow tests starting") []);;
             runtests slowtests justone
           else mret 0);
      if negb (r =? 0) && negb (continuous =? 2) then mret (inr 1)
      else
        free1 ← countfree;
        uwhen (free1 <? free0) (printf (line "FAILED -- lost some free pages %d (out of %d)") [AInt free1; AInt free0]);;
        if (free1 <? free0) && negb (continuous =? 2) then mret (inr 1)
        else mret (if negb (continuous =? 0) then inl () else inr 0)) ().

(** [argv] includes the name of the program. *)
Definition usertests_main (argv : list (list Z)) : U σ unit :=
  '(quick, continuous, justone) ← match argv with
    | [_; a] =>
      if strcmp a (str "-q") =? 0 then mret (1, 0, None)
      else if strcmp a (str "-c") =? 0 then mret (0, 1, None)
      else if strcmp a (str "-C") =? 0 then mret (0, 2, None)
      else if negb (hd 0 a =? ch "-") then mret (0, 0, Some a)
      else printf (line "Usage: usertests [-c] [-C] [-q] [testname]") [];; exit 1
    | _ :: _ :: _ => printf (line "Usage: usertests [-c] [-C] [-q] [testname]") [];; exit 1
    | _ => mret (0, 0, None)
    end;
  r ← drivetests quick continuous justone;
  uwhen (negb (r =? 0)) (exit 1);;
  printf (line "ALL TESTS PASSED") [];;
  exit 0.

End usertests.

(** ** What pipe1 tests *)

(** A computation that comes back. *)
Definition returns {σ} (c : U σ unit) : Prop := ∀ w, ∃ w', c w = UOk () w'.

Section returns.
Context `{OS σ}.

Lemma returns_bind (c c' : U σ unit) : returns c → returns c' → returns (c;; c').
Proof. intros Hc Hc' w. destruct (Hc w) as [w1 E]. destruct (Hc' w1) as [w2 E']. exists w2. by rewrite (ubind_ok _ _ _ _ _ E). Qed.

Lemma returns_ufor fd l : returns (ufor l (putc fd)).
Proof. induction l as [|c l IH]; [intros w; by exists w|]. cbn [ufor]. apply returns_bind; [|done]. intros w. by eexists. Qed.

Lemma returns_plain fd fmt : Forall (λ c, c ≠ ch "%") fmt → returns (vprintf fd fmt false []).
Proof.
  induction 1 as [|c fmt Hc _ IH]; cbn [vprintf]; [intros w; by exists w|]. destruct (c =? 0); [intros w; by exists w|].
  destruct (Z.eqb_spec c (ch "%")); [done|]. cbn [negb]. apply returns_bind; [|exact IH]. intros w. by eexists.
Qed.

Lemma returns_oops2 (s : list Z) : returns (printf (line "%s: pipe1 oops 2") [sa s]).
Proof.
  apply (returns_bind (ufor (cstr s) (putc 1)) (vprintf 1 (line ": pipe1 oops 2") false [])); [apply returns_ufor|].
  apply returns_plain. by vm_compute; repeat constructor.
Qed.
End returns.

(** The first [n] bytes of the sequence from [k] on. *)
Definition pipe1_bytes (k : Z) (n : nat) : list Z := u8 <$> seqZ k (Z.of_nat n).

Lemma pipe1_bytes_S k n : pipe1_bytes k (S n) = u8 k :: pipe1_bytes (k + 1) n.
Proof. unfold pipe1_bytes. rewrite seqZ_cons by lia. cbn. do 3 f_equal; lia. Qed.

Lemma pipe1_bytes_app k n n' : pipe1_bytes k (n + n') = pipe1_bytes k n ++ pipe1_bytes (k + Z.of_nat n) n'.
Proof. unfold pipe1_bytes. rewrite <-fmap_app, <-seqZ_app by lia. do 2 f_equal. lia. Qed.

Lemma length_pipe1_bytes k n : length (pipe1_bytes k n) = n.
Proof. unfold pipe1_bytes. rewrite length_fmap, length_seqZ. lia. Qed.

Lemma pipe1_compare_spec l : ∀ seq,
  0 <= seq → seq + Z.of_nat (length l) < 2 ^ 31 →
  pipe1_compare l seq = if decide (u8 <$> l = pipe1_bytes seq (length l)) then Some (seq + Z.of_nat (length l)) else None.
Proof.
  induction l as [|b l IH]; intros seq H0 H1; cbn [pipe1_compare length] in *; [by rewrite Z.add_0_r|].
  rewrite pipe1_bytes_S. change 0xff with (Z.ones 8). rewrite !Z.land_ones by lia. change (b mod 2 ^ 8) with (u8 b). change (seq mod 2 ^ 8) with (u8 seq).
  cbn [fmap list_fmap]. destruct (Z.eqb_spec (u8 b) (u8 seq)) as [E|E]; cbn [negb].
  - rewrite i32_small by lia. rewrite IH by lia. rewrite E. replace (seq + Z.of_nat (S (length l))) with (seq + 1 + Z.of_nat (length l)) by lia.
    by apply decide_ext; split; [intros ->|intros [= ->]].
  - rewrite decide_False; [done|]. by intros [= ? ?].
Qed.

(** The writer sends its five blocks. *)
Theorem pipe1_write_sends `{Output σ} (buf : Z) (s : list Z) (fd : Z) (w : uworld σ) :
  ∃ w', pipe1_write buf s fd w = UOk () w' ∧ out fd (us w') = out fd (us w) ++ concat (pipe1_block <$> [0; 1033; 2066; 3099; 4132]).
Proof.
  unfold pipe1_write. change (seqZ 0 5) with [0; 1; 2; 3; 4]. change [0; 1033; 2066; 3099; 4132] with (Z.mul 1033 <$> [0; 1; 2; 3; 4]).
  generalize [0; 1; 2; 3; 4] as ns. intros ns. revert w. induction ns as [|n ns IH]; intros w; cbn [ufor].
  { exists w. split; [done|]. cbn. by rewrite app_nil_r. }
  set (blk := pipe1_block (1033 * n)). set (m1 := st_bytes (um w) buf blk).
  assert (Hlen : length blk = Z.to_nat 1033) by (unfold blk, pipe1_block; by rewrite length_fmap, length_seqZ).
  assert (Eb : bytes_at m1 buf (Z.to_nat 1033) = blk) by (unfold m1; rewrite <-Hlen; apply bytes_at_st_bytes).
  set (w1 := MkU m1 (os_call (SWrite fd blk) (us w)).2).
  assert (Ew : write fd buf 1033 (MkU m1 (us w)) = UOk 1033 w1).
  { unfold write. rewrite (ubind_ok _ _ m1 (MkU m1 (us w)) (MkU m1 (us w))) by done. rewrite Eb. unfold write_bytes, ecall_v.
    rewrite (ubind_ok _ _ (os_call (SWrite fd blk) (us w)).1 _ w1) by done. unfold mret, U_ret. by rewrite write_all, Hlen. }
  destruct (IH w1) as (w' & E & Ho). exists w'. split.
  - rewrite (ubind_ok _ _ () w w1); [exact E|]. rewrite (ubind_ok _ _ () w (MkU m1 (us w))) by done. by rewrite (ubind_ok _ _ _ _ _ Ew).
  - rewrite Ho. change (us w1) with (os_call (SWrite fd blk) (us w)).2. rewrite out_write. cbn [fmap list_fmap concat]. by rewrite app_assoc.
Qed.

Section pipe1.
Context `{Input σ} (buf : Z) (s : list Z) (fd : Z).

Lemma pipe1_loop fuel : ∀ k cc (w : uworld σ),
  0 <= k → k + Z.of_nat (length (inp fd (us w))) < 2 ^ 31 → (length (inp fd (us w)) < fuel)%nat → 0 < cc <= BUFSZ →
  ∃ w', uiter fuel (pipe1_step buf s fd) (k, cc, k) w
    = UOk (if decide (u8 <$> inp fd (us w) = pipe1_bytes k (length (inp fd (us w)))) then Some (k + Z.of_nat (length (inp fd (us w)))) else None) w'.
Proof.
  induction fuel as [|fuel IH]; intros k cc w Hk Hk1 Hf Hcc; [lia|]. cbn [uiter].
  destruct (inp_read fd cc (us w) ltac:(lia)) as (l & E & Hl & Hi & He). set (s' := (os_call (SRead fd cc) (us w)).2) in *.
  set (w1 := MkU (st_bytes (um w) buf l) s').
  assert (Er : read fd buf cc w = UOk (Z.of_nat (length l)) w1).
  { unfold read, read_bytes, ecall, mbind, U_bind, mret, U_ret, putm. cbn [um us]. by rewrite E. }
  rewrite Hi, length_app in *. destruct l as [|b l].
  { destruct (He eq_refl) as [->|Hn]; [lia|]. cbn [app] in Hn. cbn [app length] in *. rewrite Hn in *.
    assert (Es : pipe1_step buf s fd (k, cc, k) w = UOk (inr (Some k)) w1) by (unfold pipe1_step; by rewrite (ubind_ok _ _ _ _ _ Er)).
    exists w1. rewrite (ubind_ok _ _ _ _ _ Es). cbn. by rewrite Z.add_0_r. }
  set (l1 := b :: l) in *. assert (0 < length l1)%nat as Hpos by (cbn; lia). clearbody l1.
  assert (Ec : pipe1_step buf s fd (k, cc, k) w = match pipe1_compare l1 k with
    | None => (printf (line "%s: pipe1 oops 2") [sa s];; mret (inr None)) w1
    | Some q => UOk (inl (q, if BUFSZ <? i32 (cc * 2) then BUFSZ else i32 (cc * 2), i32 (k + Z.of_nat (length l1)))) w1 end).
  { unfold pipe1_step. rewrite (ubind_ok _ _ _ _ _ Er). destruct (Z.ltb_spec 0 (Z.of_nat (length l1))) as [_|]; [|lia].
    rewrite (ubind_ok _ _ (um w1) w1 w1) by done. rewrite Nat2Z.id. unfold w1 at 1. cbn [um]. rewrite bytes_at_st_bytes. by destruct (pipe1_compare l1 k). }
  rewrite pipe1_compare_spec in Ec by lia. rewrite pipe1_bytes_app, fmap_app.
  destruct (decide (u8 <$> l1 = pipe1_bytes k (length l1))) as [El|El].
  - rewrite (ubind_ok _ _ _ _ _ Ec). cbv iota beta. assert (BUFSZ = 12288) as HB by done. rewrite !i32_small by lia.
    destruct (IH (k + Z.of_nat (length l1)) (if BUFSZ <? cc * 2 then BUFSZ else cc * 2) w1) as (w' & E'); [lia| | | |].
    + change (us w1) with s'. lia.
    + change (us w1) with s'. lia.
    + destruct (Z.ltb_spec BUFSZ (cc * 2)); lia.
    + exists w'. rewrite E'. change (us w1) with s'. f_equal. rewrite El. replace (k + Z.of_nat (length l1 + length (inp fd s'))) with (k + Z.of_nat (length l1) + Z.of_nat (length (inp fd s'))) by lia.
      apply decide_ext. split; [by intros ->|by intros ?%app_inv_head].
  - destruct (returns_oops2 s w1) as (w' & E'). rewrite (ubind_ok _ _ _ _ _ E') in Ec. exists w'. rewrite (ubind_ok _ _ _ _ _ Ec). cbn. rewrite decide_False; [done|].
    intros Ha. apply El. apply (f_equal (take (length l1))) in Ha. rewrite !take_app_le in Ha by (rewrite ?length_fmap, ?length_pipe1_bytes; lia).
    rewrite !take_ge in Ha by (rewrite ?length_fmap, ?length_pipe1_bytes; lia). done.
Qed.

(** the reader of the test pipe1 accepts what arrives, whatever pieces [read]
    returns it in, exactly if it is the sequence the writer sends: no byte is
    lost, duplicated, reordered or changed. *)
Theorem pipe1_read_decides (fuel : nat) (w : uworld σ) :
  Z.of_nat (length (inp fd (us w))) < 2 ^ 31 → (length (inp fd (us w)) < fuel)%nat →
  ∃ r w', pipe1_read fuel buf s fd w = UOk r w'
    ∧ (r = Some (5 * 1033) ↔ u8 <$> inp fd (us w) = concat (pipe1_block <$> [0; 1033; 2066; 3099; 4132])).
Proof.
  intros Hl Hf. destruct (pipe1_loop fuel 0 1 w) as (w' & E); [lia|lia|done|by vm_compute|]. eexists _, w'. split; [exact E|].
  assert (concat (pipe1_block <$> [0; 1033; 2066; 3099; 4132]) = pipe1_bytes 0 (Z.to_nat 5165)) as -> by (by vm_compute).
  case_decide as Hd; split.
  - intros Hn. apply (inj Some) in Hn. rewrite Hd. f_equal. lia.
  - intros Hs. rewrite Hs in Hd. apply (f_equal length) in Hs. rewrite length_fmap, length_pipe1_bytes in Hs. rewrite Hs. done.
  - done.
  - intros Hs. exfalso. apply Hd. rewrite Hs. f_equal. apply (f_equal length) in Hs. by rewrite length_fmap, length_pipe1_bytes in Hs.
Qed.
End pipe1.

Lemma pipe1_read_decides_witness :
  ∃ r w', pipe1_read 6000 4096 (str "pipe1") 3 (MkU (λ _, 0) (MkStreams {[3 := pipe1_bytes 0 (Z.to_nat 5165)]} ∅ 99)) = UOk r w' ∧ r = Some 5165.
Proof.
  destruct (pipe1_read_decides 4096 (str "pipe1") 3 6000 (MkU (λ _, 0) (MkStreams {[3 := pipe1_bytes 0 (Z.to_nat 5165)]} ∅ 99))) as (r & w' & E & R).
  - by vm_compute.
  - apply Nat.ltb_lt. by vm_compute.
  - exists r, w'. split; [exact E|]. apply R. by vm_compute.
Defined.
