(* ===== verification/Sh.v ===== *)
(** * user/sh.c

    The shell.  The command line is the buffer [s], a list of characters ended by
    the NUL at [es]; pointers into it are positions.  A command tree refers to a
    string by the positions of its start and end, as the C structs do, and
    [nulterminate] writes the NULs into the buffer.  [malloc] is taken to
    succeed, as the code takes it to.

    Running a command is the view of one process: [fork] returns what the system
    answers, 0 in the child. *)

From S2P Require Import Prelude Memory CString Kernel User ULib UPrintf.

Definition MAXARGS : nat := 10.

(** Command trees with strings of type [A]: a pair of positions, [argv[i]] with
    [eargv[i]] or [file] with [efile], or the string itself. *)
Inductive tree (A : Type) :=
| EXEC (argv : list A)
| REDIR (c : tree A) (file : A) (mode fd : Z)
| PIPE (left right : tree A)
| LIST (left right : tree A)
| BACK (c : tree A).
Arguments EXEC {A}.
Arguments REDIR {A}.
Arguments PIPE {A}.
Arguments LIST {A}.
Arguments BACK {A}.

Definition cmd : Type := tree (nat * nat).
Definition redir : Type := (nat * nat) * Z * Z.

(** ** Parsing *)

(** A parser returns a value, panics with a message, or is out of fuel. *)
Inductive presult (A : Type) := POk (a : A) | PPanic (msg : string) | PFuel.
Arguments POk {A}.
Arguments PPanic {A}.
Arguments PFuel {A}.

#[global] Instance presult_ret : MRet presult := @POk.
#[global] Instance presult_bind : MBind presult := λ A B f r,
  match r with
  | POk a => f a
  | PPanic m => PPanic m
  | PFuel => PFuel
  end.

Definition whitespace : list Z := [ch " "; 9; 13; 10; 11].
Definition symbols : list Z := str "<|>&;()".

Definition inset (l : list Z) (c : Z) : bool := match strchr l c with Some _ => true | None => false end.

Section parse.
Context (s : list Z) (es : nat).

(** The character at a position; the NUL from the end on. *)
Definition at_ (i : nat) : Z := default 0 (s !! i).

(** [while(s < es && strchr(whitespace, *s)) s++;] *)
Fixpoint skip_while (p : Z → bool) (k : nat) (i : nat) : nat :=
  match k with
  | O => i
  | S k => if (i <? es)%nat && p (at_ i) then skip_while p k (S i) else i
  end.
Definition skip_space (i : nat) : nat := skip_while (inset whitespace) (es - i) i.

(** The token kind, its start and end, and the position after it. *)
Definition gettoken (ps : nat) : Z * (nat * nat) * nat :=
  let i := skip_space ps in
  let q := i in
  let c := at_ i in
  let '(ret, i) :=
    if c =? 0 then (0, i)
    else if existsb (Z.eqb c) (str "|();&<") then (c, S i)
    else if c =? ch ">" then
      if at_ (S i) =? ch ">" then (ch "+", S (S i)) else (c, S i)
    else (ch "a", skip_while (λ c, negb (inset whitespace c) && negb (inset symbols c)) (es - i) i) in
  (ret, (q, i), skip_space i).

Definition peek (toks : string) (ps : nat) : bool * nat :=
  let i := skip_space ps in
  (negb (at_ i =? 0) && inset (str toks) (at_ i), i).

(** [while(peek(ps, es, "<>"))]; the result is the list of redirections, the last
    one first, which becomes the outermost [redircmd]. *)
Fixpoint parseredirs (fuel : nat) (ps : nat) (acc : list redir) : presult (list redir * nat) :=
  match fuel with
  | O => PFuel
  | S fuel =>
    let '(b, ps) := peek "<>" ps in
    if b then
      let '(tok, _, ps) := gettoken ps in
      let '(k, (q, eq), ps) := gettoken ps in
      if negb (k =? ch "a") then PPanic "missing file for redirection"
      else
        parseredirs fuel ps
          (if tok =? ch "<" then ((q, eq), O_RDONLY, 0) :: acc
           else if tok =? ch ">" then ((q, eq), Z.lor O_WRONLY (Z.lor O_CREATE O_TRUNC), 1) :: acc
           else if tok =? ch "+" then ((q, eq), Z.lor O_WRONLY O_CREATE, 1) :: acc
           else acc)
    else POk (acc, ps)
  end.

Definition redirect (c : cmd) (rs : list redir) : cmd :=
  foldr (λ r c, let '(file, mode, fd) := r in REDIR c file mode fd) c rs.

(** The loop of [parseexec].  The [execcmd] is filled while [ret] already points
    to the redirections around it: [rs] are these, [args] its arguments so far. *)
Fixpoint parseargs (fuel : nat) (ps : nat) (args : list (nat * nat)) (rs : list redir) : presult (cmd * nat) :=
  match fuel with
  | O => PFuel
  | S fuel =>
    let '(b, ps) := peek "|)&;" ps in
    if negb b then
      let '(tok, (q, eq), ps) := gettoken ps in
      if tok =? 0 then POk (redirect (EXEC args) rs, ps)
      else if negb (tok =? ch "a") then PPanic "syntax"
      else
        let args := args ++ [(q, eq)] in
        if (MAXARGS <=? length args)%nat then PPanic "too many args"
        else
          '(rs, ps) ← parseredirs (S es) ps rs;
          parseargs fuel ps args rs
    else POk (redirect (EXEC args) rs, ps)
  end.

(** [while(peek(ps, es, "&"))] *)
Fixpoint parseback (fuel : nat) (c : cmd) (ps : nat) : presult (cmd * nat) :=
  match fuel with
  | O => PFuel
  | S fuel =>
    let '(b, ps) := peek "&" ps in
    if b then let '(_, _, ps) := gettoken ps in parseback fuel (BACK c) ps
    else POk (c, ps)
  end.

Fixpoint parseline (fuel : nat) (ps : nat) : presult (cmd * nat) :=
  match fuel with
  | O => PFuel
  | S fuel =>
    '(c, ps) ← parsepipe fuel ps;
    '(c, ps) ← parseback (S es) c ps;
    let '(b, ps) := peek ";" ps in
    if b then
      let '(_, _, ps) := gettoken ps in
      '(r, ps) ← parseline fuel ps;
      POk (LIST c r, ps)
    else POk (c, ps)
  end
with parsepipe (fuel : nat) (ps : nat) : presult (cmd * nat) :=
  match fuel with
  | O => PFuel
  | S fuel =>
    '(c, ps) ← parseexec fuel ps;
    let '(b, ps) := peek "|" ps in
    if b then
      let '(_, _, ps) := gettoken ps in
      '(r, ps) ← parsepipe fuel ps;
      POk (PIPE c r, ps)
    else POk (c, ps)
  end
with parseexec (fuel : nat) (ps : nat) : presult (cmd * nat) :=
  match fuel with
  | O => PFuel
  | S fuel =>
    let '(b, ps) := peek "(" ps in
    if b then parseblock fuel ps
    else
      '(rs, ps) ← parseredirs (S es) ps [];
      parseargs (S es) ps [] rs
  end
with parseblock (fuel : nat) (ps : nat) : presult (cmd * nat) :=
  match fuel with
  | O => PFuel
  | S fuel =>
    let '(b, ps) := peek "(" ps in
    if negb b then PPanic "parseblock"
    else
      let '(_, _, ps) := gettoken ps in
      '(c, ps) ← parseline fuel ps;
      let '(b, ps) := peek ")" ps in
      if negb b then PPanic "syntax - missing )"
      else
        let '(_, _, ps) := gettoken ps in
        '(rs, ps) ← parseredirs (S es) ps [];
        POk (redirect c rs, ps)
  end.

End parse.

(** ** nulterminate *)

Fixpoint nulterminate (c : cmd) (s : list Z) : list Z :=
  match c with
  | EXEC argv => foldl (λ s a, <[a.2 := 0]> s) s argv
  | REDIR c file _ _ => <[file.2 := 0]> (nulterminate c s)
  | PIPE l r => nulterminate r (nulterminate l s)
  | LIST l r => nulterminate r (nulterminate l s)
  | BACK c => nulterminate c s
  end.

(** The depth of the recursion is at most four calls for each character. *)
Definition parse_fuel (s : list Z) : nat := (4 * length s + 8)%nat.

(** The tree and the position where the parser stopped. *)
Definition parse (s : list Z) : presult (cmd * nat) :=
  let es := Z.to_nat (strlen s) in
  '(c, ps) ← parseline s es (parse_fuel s) 0;
  POk (c, (peek s es "" ps).2).

Section sh.
Context `{OS σ}.

Definition panic {A} (msg : list Z) : U σ A :=
  _ ← fprintf 2 (line "%s") [AStr (Some msg)];
  exit 1.

(** The tree and the buffer with its NULs. *)
Definition parsecmd (s : list Z) : U σ (cmd * list Z) :=
  match parse s with
  | PFuel => hang
  | PPanic msg => panic (str msg)
  | POk (c, ps) =>
    if negb (ps =? Z.to_nat (strlen s))%nat then
      _ ← fprintf 2 (line "leftovers: %s") [AStr (Some (drop ps s))];
      panic (str "syntax")
    else mret (c, nulterminate c (s ++ [0]))
  end.

(** ** Running commands *)

Definition fork1 : U σ Z :=
  pid ← fork;
  if pid =? -1 then panic (str "fork") else mret pid.

(** The C string that starts at a position of the buffer. *)
Definition string_at (buf : list Z) (q : nat) : list Z := cstr (drop q buf).

Fixpoint runcmd (buf : list Z) (c : cmd) : U σ unit :=
  match c with
  | EXEC [] => exit 1
  | EXEC ((q, _) :: _ as argv) =>
    let path := string_at buf q in
    _ ← exec path ((λ a, string_at buf a.1) <$> argv);
    _ ← fprintf 2 (line "exec %s failed") [AStr (Some path)];
    exit 0
  | REDIR c (file, _) mode fd =>
    _ ← close fd;
    r ← open (string_at buf file) mode;
    if r <? 0 then
      _ ← fprintf 2 (line "open %s failed") [AStr (Some (string_at buf file))];
      exit 1
    else runcmd buf c
  | LIST l r =>
    pid ← fork1;
    if pid =? 0 then runcmd buf l
    else
      _ ← wait;
      runcmd buf r
  | PIPE l r =>
    '(ret, p) ← pipe;
    if ret <? 0 then panic (str "pipe")
    else
      pid ← fork1;
      if pid =? 0 then
        _ ← close 1;
        _ ← dup p.2;
        _ ← close p.1;
        _ ← close p.2;
        runcmd buf l
      else
        pid ← fork1;
        if pid =? 0 then
          _ ← close 0;
          _ ← dup p.1;
          _ ← close p.1;
          _ ← close p.2;
          runcmd buf r
        else
          _ ← close p.1;
          _ ← close p.2;
          _ ← wait;
          _ ← wait;
          exit 0
  | BACK c =>
    pid ← fork1;
    if pid =? 0 then runcmd buf c else exit 0
  end.

(** ** The read loop *)

Section main.
Context (buf : Z).

Definition getcmd (nbuf : Z) : U σ Z :=
  _ ← write_bytes 2 (str "$ ");
  _ ← memset buf 0 nbuf;
  _ ← gets buf nbuf;
  b ← load buf;
  mret (if b =? 0 then -1 else 0).

Fixpoint open_console (fuel : nat) : U σ unit :=
  match fuel with
  | O => hang
  | S fuel =>
    fd ← open (str "console") O_RDWR;
    if 0 <=? fd then
      if 3 <=? fd then _ ← close fd; mret () else open_console fuel
    else mret ()
  end.

Fixpoint sh_loop (fuel : nat) : U σ unit :=
  match fuel with
  | O => hang
  | S fuel =>
    r ← getcmd 100;
    if 0 <=? r then
      s ← cstring 100 buf;
      if (byte0 s =? ch "c") && (byte0 (tl s) =? ch "d") && (byte0 (tl (tl s)) =? ch " ") then
        _ ← store (buf + strlen s - 1) 0;
        let dir := drop 3 (take (length s - 1) s) in
        r ← chdir dir;
        _ ← uwhen (r <? 0) (fprintf 2 (line "cannot cd %s") [AStr (Some dir)]);
        sh_loop fuel
      else
        pid ← fork1;
        if pid =? 0 then
          '(c, s) ← parsecmd s;
          runcmd s c
        else
          _ ← wait;
          sh_loop fuel
    else exit 0
  end.

Definition sh_main (fuel : nat) : U σ unit := _ ← open_console fuel; sh_loop fuel.

End main.
End sh.
