(* ===== verification/ShSpec.v ===== *)
(** * The parser of the shell

    The parser of sh.c terminates on every command line; the strings of a parsed
    command, once NUL-terminated in place, are the words of the line; and every
    command can be written as a line that parses to it. *)

From S2P Require Import Prelude Memory CString Kernel User ULib UPrintf Grep Sh.

(** The strings of a tree, in the order of the line. *)
Fixpoint tokens {A} (c : tree A) : list A :=
  match c with
  | EXEC argv => argv
  | REDIR c file _ _ => tokens c ++ [file]
  | PIPE l r => tokens l ++ tokens r
  | LIST l r => tokens l ++ tokens r
  | BACK c => tokens c
  end.

Fixpoint tmap {A B} (f : A → B) (c : tree A) : tree B :=
  match c with
  | EXEC argv => EXEC (f <$> argv)
  | REDIR c file mode fd => REDIR (tmap f c) (f file) mode fd
  | PIPE l r => PIPE (tmap f l) (tmap f r)
  | LIST l r => LIST (tmap f l) (tmap f r)
  | BACK c => BACK (tmap f c)
  end.

Lemma tmap_ext {A B} (f g : A → B) c : (∀ a, a ∈ tokens c → f a = g a) → tmap f c = tmap g c.
Proof.
  induction c as [argv|c IH file mode fd|l IHl r IHr|l IHl r IHr|c IH]; cbn [tokens tmap]; intros E.
  - f_equal. apply list_fmap_ext. intros i a Ha. apply E. by eapply list_elem_of_lookup_2.
  - f_equal; [apply IH; set_solver|apply E; set_solver].
  - f_equal; [apply IHl|apply IHr]; set_solver.
  - f_equal; [apply IHl|apply IHr]; set_solver.
  - f_equal. by apply IH.
Qed.

(** A character of a word. *)
Definition word_char (c : Z) : bool := negb (inset whitespace c) && negb (inset symbols c).

Lemma inset_spec l c : nonul l → inset l c = true ↔ c ∈ l.
Proof.
  intros Hl. unfold inset. pose proof (strchr_None l c Hl) as H. destruct (strchr l c) as [i|].
  - split; [|done]. intros _. apply dec_stable. intros Hn. apply H in Hn. done.
  - split; [done|]. intros Hc. exfalso. by apply (proj1 H).
Qed.

Lemma symbols_cases c : inset symbols c = existsb (Z.eqb c) (str "|();&<") || (c =? ch ">").
Proof.
  apply eq_bool_prop_intro. rewrite !Is_true_true, inset_spec, orb_true_iff, existsb_exists, Z.eqb_eq.
  2: { repeat (apply list.Forall_cons; split; [done|]). constructor. }
  split.
  - intros Hc. repeat (apply elem_of_cons in Hc as [->|Hc]; [first [by right|left; eexists; split; [|by apply Z.eqb_refl]; vm_compute; tauto]|]).
    by apply elem_of_nil in Hc.
  - intros [(x & Hx & ->%Z.eqb_eq)| ->]; [|by vm_compute; set_solver]. simpl in Hx. destruct_or?; subst; vm_compute; set_solver.
Qed.

Section positions.
Context (s : list Z).
Hypothesis Hs : nonul s.
Local Notation es := (length s).
Local Notation at_ := (at_ s).

Lemma at_nonzero i : at_ i ≠ 0 ↔ (i < es)%nat.
Proof.
  unfold Sh.at_. destruct (s !! i) as [c|] eqn:E; simpl.
  - apply lookup_lt_Some in E as Hi. split; [done|]. intros _. by eapply Forall_lookup_1 in Hs.
  - apply lookup_ge_None in E. split; [done|lia].
Qed.

Lemma skip_while_spec p k i :
  (i <= es)%nat → (es - i <= k)%nat →
  let j := skip_while s es p k i in
  (i <= j <= es)%nat ∧ (∀ x, (i <= x < j)%nat → p (at_ x) = true) ∧ (j = es ∨ p (at_ j) = false).
Proof.
  revert i. induction k as [|k IH]; intros i Hi Hk; cbn [skip_while].
  { split; [lia|]. split; [lia|]. left. lia. }
  destruct (Nat.ltb_spec i es) as [Hlt|Hge]; cbn [andb]; [|split; [lia|]; split; [lia|left; lia]].
  destruct (p (at_ i)) eqn:Ep; [|split; [lia|]; split; [lia|by right]].
  destruct (IH (S i)) as (H1 & H2 & H3); [lia|lia|]. split; [lia|]. split; [|done].
  intros x Hx. destruct (decide (x = i)) as [->|]; [done|]. apply H2. lia.
Qed.

(** A word of the line: it is not empty and cannot be extended to the right. *)
Definition token (t : nat * nat) : Prop :=
  (t.1 < t.2 <= es)%nat ∧ (∀ i, (t.1 <= i < t.2)%nat → word_char (at_ i) = true)
  ∧ (t.2 = es ∨ word_char (at_ t.2) = false).

Lemma skip_space_spec ps : (ps <= es)%nat → let i := skip_space s es ps in
  (ps <= i <= es)%nat ∧ (i = es ∨ inset whitespace (at_ i) = false).
Proof. intros Hp. destruct (skip_while_spec (inset whitespace) (es - ps) ps Hp) as (H1 & _ & H3); [lia|]. done. Qed.

Lemma gettoken_spec ps : (ps <= es)%nat →
  let '(tok, (q, e), ps') := gettoken s es ps in
  (ps <= q)%nat ∧ (e <= ps' <= es)%nat ∧ (tok = 0 → q = e) ∧ (tok ≠ 0 → (q < e)%nat) ∧ (tok = ch "a" → token (q, e)).
Proof.
  intros Hp. unfold gettoken. destruct (skip_space_spec ps Hp) as [Hi1 Hi2]. set (i := skip_space s es ps) in *.
  assert (∀ j, (j <= es)%nat → (j <= skip_space s es j <= es)%nat) as Hsk by (intros j Hj; by apply skip_space_spec).
  destruct (Z.eqb_spec (at_ i) 0) as [Hz|Hnz].
  { specialize (Hsk i). split; [lia|]. split; [lia|]. split; [done|]. split; [done|]. done. }
  apply at_nonzero in Hnz as Hlt. destruct (existsb _ _) eqn:Ex.
  { pose proof (Hsk (S i)). split; [lia|]. split; [lia|]. split; [done|]. split; [lia|]. intros E. exfalso. by rewrite E in Ex. }
  destruct (Z.eqb_spec (at_ i) (ch ">")) as [Hg|Hng].
  { destruct (Z.eqb_spec (at_ (S i)) (ch ">")) as [Hg2|_].
    - assert (S i < es)%nat by (apply at_nonzero; by rewrite Hg2). pose proof (Hsk (S (S i))).
      split; [lia|]. split; [lia|]. split; [done|]. split; [lia|]. done.
    - pose proof (Hsk (S i)). split; [lia|]. split; [lia|]. split; [done|]. split; [lia|]. intros E. by rewrite Hg in E. }
  destruct (skip_while_spec (λ c, negb (inset whitespace c) && negb (inset symbols c)) (es - i) i) as (J1 & J2 & J3); [lia|lia|].
  set (j := skip_while _ _ _ _ _) in *. pose proof (Hsk j). assert (i < j)%nat as Hij.
  { destruct (decide (j = i)) as [Ej|]; [|lia]. rewrite Ej in J3. destruct J3 as [|J3]; [lia|].
    destruct Hi2 as [|Hi2]; [lia|]. rewrite Hi2, symbols_cases, Ex, (proj2 (Z.eqb_neq _ _) Hng) in J3. done. }
  split; [lia|]. split; [lia|]. split; [done|]. split; [lia|]. intros _. split; [simpl; lia|]. split; [done|]. by destruct J3; [left|right].
Qed.

Lemma peek_spec toks ps : (ps <= es)%nat → let '(b, i) := peek s es toks ps in (ps <= i <= es)%nat ∧ (b = true → (i < es)%nat).
Proof.
  intros Hp. unfold peek. destruct (skip_space_spec ps Hp) as [Hi _]. split; [done|].
  intros [Hn _]%andb_prop. apply at_nonzero. by apply negb_true_iff, Z.eqb_neq in Hn.
Qed.

Lemma skip_space_idem ps : (ps <= es)%nat → skip_space s es (skip_space s es ps) = skip_space s es ps.
Proof.
  intros Hp. destruct (skip_space_spec ps Hp) as [Hi1 Hi2]. set (i := skip_space s es ps) in *. unfold skip_space.
  destruct (es - i)%nat as [|k] eqn:Ek; [done|]. cbn [skip_while]. destruct Hi2 as [|Hi2]; [lia|]. by rewrite Hi2, andb_false_r.
Qed.

(** After a successful [peek], [gettoken] takes at least one character. *)
Lemma peek_gettoken toks ps i :
  (ps <= es)%nat → peek s es toks ps = (true, i) →
  let '(tok, (q, e), ps') := gettoken s es i in (i < ps' <= es)%nat ∧ (ps <= i < es)%nat.
Proof.
  intros Hp Hk. pose proof (peek_spec toks ps Hp) as Hi. rewrite Hk in Hi. destruct Hi as [Hi Hlt]. specialize (Hlt eq_refl).
  pose proof (gettoken_spec i ltac:(lia)) as Hg. pose proof (skip_space_idem ps Hp) as Eid.
  unfold peek in Hk. injection Hk as Hb <-. set (i := skip_space s es ps) in *.
  assert ((gettoken s es i).1.1 ≠ 0) as Hne.
  { unfold gettoken. rewrite Eid. apply at_nonzero in Hlt. rewrite (proj2 (Z.eqb_neq _ 0)) by done.
    destruct (existsb _ _); [done|].
    destruct (_ =? ch ">"); [|done]. by destruct (_ =? ch ">"). }
  destruct (gettoken s es i) as [[tok [q e]] ps']. destruct Hg as (G1 & G2 & _ & G4 & _). specialize (G4 Hne). lia.
Qed.

(** ** Termination and tokens *)

(** A result that is not out of fuel; a value satisfies [Q] and ends at a
    position from [ps] on. *)
Definition good {A} (Q : A → Prop) (ps : nat) (r : presult (A * nat)) : Prop :=
  match r with
  | POk (a, ps') => (ps <= ps' <= es)%nat ∧ Q a
  | PPanic _ => True
  | PFuel => False
  end.

Lemma good_bind {A B} (Q : A → Prop) (R : B → Prop) ps r (f : A * nat → presult (B * nat)) :
  good Q ps r → (∀ a ps', (ps <= ps' <= es)%nat → Q a → good R ps (f (a, ps'))) → good R ps (r ≫= f).
Proof. destruct r as [[a ps']| |]; simpl; [|done..]. intros [H1 H2] Hf. by apply Hf. Qed.

Lemma good_from {A} (Q : A → Prop) ps ps' r : (ps <= ps')%nat → good Q ps' r → good Q ps r.
Proof. destruct r as [[a ps'']| |]; simpl; [|done..]. intros ? [? ?]. split; [lia|done]. Qed.

Definition tree_ok (c : cmd) : Prop := Forall token (tokens c).
Definition redirs_ok (rs : list redir) : Prop := Forall (λ r, token r.1.1) rs.

Lemma redirect_ok c rs : tree_ok c → redirs_ok rs → tree_ok (redirect c rs).
Proof.
  intros Hc. induction rs as [|[[f m] fd] rs IH]; intros Hr; [done|]. apply list.Forall_cons in Hr as [Hf Hr].
  unfold tree_ok. simpl. apply Forall_app. split; [by apply IH|]. by constructor.
Qed.

Lemma parseredirs_good fuel ps acc :
  (ps <= es)%nat → (es - ps < fuel)%nat → redirs_ok acc → good redirs_ok ps (parseredirs s es fuel ps acc).
Proof.
  revert ps acc. induction fuel as [|fuel IH]; intros ps acc Hp Hf Ha; [lia|]. cbn [parseredirs].
  pose proof (peek_spec "<>" ps Hp) as Hk. destruct (peek s es "<>" ps) as [[|] i] eqn:Ek; [|split; [apply Hk|done]].
  pose proof (peek_gettoken _ _ _ Hp Ek) as Hg. destruct (gettoken s es i) as [[tok [q0 e0]] ps1] eqn:E1.
  pose proof (gettoken_spec ps1 ltac:(lia)) as Hg2. destruct (gettoken s es ps1) as [[k [q e]] ps2] eqn:E2.
  destruct Hg2 as (G1 & G2 & G3 & G4 & G5). destruct (Z.eqb_spec k (ch "a")) as [->|]; [|done]. cbn [negb].
  specialize (G5 eq_refl). specialize (G4 ltac:(done)). apply (good_from _ _ ps2); [lia|]. apply IH; [lia|lia|].
  repeat case_match; try (by constructor); done.
Qed.

Lemma parseargs_good fuel ps args rs :
  (ps <= es)%nat → (es - ps < fuel)%nat → Forall token args → redirs_ok rs → good tree_ok ps (parseargs s es fuel ps args rs).
Proof.
  revert ps args rs. induction fuel as [|fuel IH]; intros ps args rs Hp Hf Ha Hr; [lia|]. cbn [parseargs].
  pose proof (peek_spec "|)&;" ps Hp) as Hk. destruct (peek s es "|)&;" ps) as [b i]. destruct Hk as [Hi _].
  destruct b; cbn [negb]; [split; [done|]; by apply redirect_ok|].
  pose proof (gettoken_spec i ltac:(lia)) as Hg. destruct (gettoken s es i) as [[tok [q e]] ps1]. destruct Hg as (G1 & G2 & G3 & G4 & G5).
  destruct (Z.eqb_spec tok 0) as [->|Hnz]; [split; [specialize (G3 eq_refl); lia|]; by apply redirect_ok|].
  destruct (Z.eqb_spec tok (ch "a")) as [->|]; [|done]. cbn [negb]. specialize (G5 eq_refl). specialize (G4 Hnz).
  destruct (MAXARGS <=? _)%nat; [done|]. apply (good_from _ _ ps1); [lia|].
  eapply good_bind; [apply (parseredirs_good _ _ rs); [lia|lia|done]|]. intros rs' ps2 Hp2 Hr2.
  apply (good_from _ _ ps2); [lia|]. apply IH; [lia|lia| |done]. apply Forall_app. split; [done|by constructor].
Qed.

Lemma parseback_good fuel c ps : (ps <= es)%nat → (es - ps < fuel)%nat → tree_ok c → good tree_ok ps (parseback s es fuel c ps).
Proof.
  revert c ps. induction fuel as [|fuel IH]; intros c ps Hp Hf Hc; [lia|]. cbn [parseback].
  pose proof (peek_spec "&" ps Hp) as Hk. destruct (peek s es "&" ps) as [[|] i] eqn:Ek; [|split; [apply Hk|done]].
  pose proof (peek_gettoken _ _ _ Hp Ek) as Hg. destruct (gettoken s es i) as [[tok [q e]] ps1].
  apply (good_from _ _ ps1); [lia|]. apply IH; [lia|lia|done].
Qed.

Lemma parse_good fuel : ∀ ps, (ps <= es)%nat →
  ((4 * (es - ps) + 4 <= fuel)%nat → good tree_ok ps (parseline s es fuel ps))
  ∧ ((4 * (es - ps) + 3 <= fuel)%nat → good tree_ok ps (parsepipe s es fuel ps))
  ∧ ((4 * (es - ps) + 2 <= fuel)%nat → good tree_ok ps (parseexec s es fuel ps))
  ∧ ((4 * (es - ps) + 1 <= fuel)%nat → good tree_ok ps (parseblock s es fuel ps)).
Proof.
  induction fuel as [|fuel IH]; intros ps Hp; [split_and!; lia|]. split_and!; intros Hf;
    cbn [parseline parsepipe parseexec parseblock].
  - eapply good_bind; [apply IH; [done|lia]|]. intros c ps1 Hp1 Hc.
    eapply good_bind; [eapply good_from; [|apply parseback_good; [| |exact Hc]]; lia|]. intros c2 ps2 Hp2 Hc2.
    pose proof (peek_spec ";" ps2 ltac:(lia)) as Hk. destruct (peek s es ";" ps2) as [[|] i] eqn:Ek; [|split; [lia|done]].
    pose proof (λ H, peek_gettoken _ _ _ H Ek) as Hg. specialize (Hg ltac:(lia)). destruct (gettoken s es i) as [[tok [q e]] ps3].
    eapply good_bind; [eapply good_from; [|apply IH]; lia|]. intros r ps4 Hp4 Hr. split; [lia|]. by apply Forall_app.
  - eapply good_bind; [apply IH; [done|lia]|]. intros c ps1 Hp1 Hc.
    pose proof (peek_spec "|" ps1 ltac:(lia)) as Hk. destruct (peek s es "|" ps1) as [[|] i] eqn:Ek; [|split; [lia|done]].
    pose proof (λ H, peek_gettoken _ _ _ H Ek) as Hg. specialize (Hg ltac:(lia)). destruct (gettoken s es i) as [[tok [q e]] ps3].
    eapply good_bind; [eapply good_from; [|apply IH]; lia|]. intros r ps4 Hp4 Hr. split; [lia|]. by apply Forall_app.
  - pose proof (peek_spec "(" ps Hp) as Hk. destruct (peek s es "(" ps) as [[|] i] eqn:Ek.
    + eapply good_from; [|apply IH]; lia.
    + eapply good_bind; [eapply good_from; [|apply parseredirs_good; [| |constructor]]; lia|]. intros rs ps1 Hp1 Hrs.
      eapply good_from; [|apply parseargs_good; [| |constructor|done]]; lia.
  - pose proof (peek_spec "(" ps Hp) as Hk. destruct (peek s es "(" ps) as [[|] i] eqn:Ek; [|done]. cbn [negb].
    pose proof (λ H, peek_gettoken _ _ _ H Ek) as Hg. specialize (Hg ltac:(lia)). destruct (gettoken s es i) as [[tok [q e]] ps1].
    eapply good_bind; [eapply good_from; [|apply IH]; lia|]. intros c ps2 Hp2 Hc.
    pose proof (peek_spec ")" ps2 ltac:(lia)) as Hk2. destruct (peek s es ")" ps2) as [[|] i2] eqn:Ek2; [|done]. cbn [negb].
    pose proof (λ H, peek_gettoken _ _ _ H Ek2) as Hg2. specialize (Hg2 ltac:(lia)). destruct (gettoken s es i2) as [[tok2 [q2 e2]] ps3].
    eapply good_bind; [eapply good_from; [|apply parseredirs_good; [| |constructor]]; lia|]. intros rs ps4 Hp4 Hrs.
    split; [lia|]. by apply redirect_ok.
Qed.
End positions.

Lemma strlen_nonul s : nonul s → Z.of_nat (length s) < 2 ^ 31 → strlen s = Z.of_nat (length s).
Proof.
  intros Hs Hl. unfold strlen. assert (∀ n, 0 <= n → n + Z.of_nat (length s) < 2 ^ 31 → strlen_loop s n = n + Z.of_nat (length s)) as E.
  { clear Hl. induction s as [|c s IH]; intros n Hn Hmax; simpl in *; [lia|]. apply list.Forall_cons in Hs as [Hc Hs].
    rewrite (proj2 (Z.eqb_neq c 0)), i32_small, IH by (done || lia). lia. }
  rewrite E by lia. rewrite u32_small by lia. lia.
Qed.

(** C28: the parser terminates on every command line: it recurses at most four
    levels deep for every character, so that with this fuel it always returns,
    either a panic for a syntax error or a command and a position of the line. *)
Theorem parse_terminates (s : list Z) :
  nonul s → Z.of_nat (length s) < 2 ^ 31 →
  match parse s with
  | POk (_, ps) => (ps <= length s)%nat
  | PPanic _ => True
  | PFuel => False
  end.
Proof.
  intros Hs Hl. unfold parse. rewrite strlen_nonul, Nat2Z.id by done.
  destruct (parse_good s Hs (parse_fuel s) 0 ltac:(lia)) as [Hg _]. specialize (Hg ltac:(unfold parse_fuel; lia)).
  destruct (parseline s (length s) (parse_fuel s) 0) as [[c ps]| |]; [|done..]. cbn. destruct Hg as [Hp _].
  apply (skip_space_spec s ps). lia.
Qed.

Lemma parse_terminates_witness : match parse (str "(ls > f; wc) | x &") with POk (_, ps) => (ps <= 18)%nat | PPanic _ => True | PFuel => False end.
Proof.
  apply (parse_terminates (str "(ls > f; wc) | x &")).
  - repeat (apply list.Forall_cons; split; [done|]). constructor.
  - by vm_compute.
Defined.

(** ** nulterminate *)

Definition ends (c : cmd) : list nat := (tokens c).*2.

Lemma nul_fold (l : list (nat * nat)) (buf : list Z) i :
  foldl (λ s a, <[a.2 := 0]> s) buf l !! i = if decide (i ∈ l.*2) then (λ _, 0) <$> buf !! i else buf !! i.
Proof.
  revert buf. induction l as [|[q e] l IH]; intros buf; cbn [foldl fmap list_fmap snd].
  { rewrite decide_False by set_solver. done. }
  rewrite IH. destruct (decide (i = e)) as [->|Hne].
  - rewrite (decide_True (P := e ∈ e :: _)) by set_solver.
    destruct (decide (e < length buf)%nat) as [Hlt|Hge].
    + rewrite list_lookup_insert_eq by done. destruct (lookup_lt_is_Some_2 buf e Hlt) as [x ->]. by destruct (decide _).
    + rewrite !lookup_ge_None_2; [by destruct (decide _)|lia|rewrite length_insert; lia].
  - rewrite list_lookup_insert_ne by done. destruct (decide (i ∈ l.*2)).
    + by rewrite decide_True by set_solver.
    + by rewrite decide_False by set_solver.
Qed.

Lemma ends_app (i : nat) (A B : list nat) (x : option Z) :
  (if decide (i ∈ B) then (λ _, 0) <$> (if decide (i ∈ A) then (λ _, 0) <$> x else x) else if decide (i ∈ A) then (λ _, 0) <$> x else x)
  = if decide (i ∈ A ++ B) then (λ _, 0) <$> x else x.
Proof.
  destruct (decide (i ∈ A ++ B)) as [H|H]; rewrite elem_of_app in H; destruct (decide (i ∈ A)), (decide (i ∈ B)); try tauto.
  by destruct x.
Qed.

Lemma nulterminate_lookup c buf i :
  nulterminate c buf !! i = if decide (i ∈ ends c) then (λ _, 0) <$> buf !! i else buf !! i.
Proof.
  revert buf. unfold ends. induction c as [argv|c IH file mode fd|l IHl r IHr|l IHl r IHr|c IH]; intros buf; cbn [nulterminate tokens].
  - apply nul_fold.
  - rewrite fmap_app. destruct (decide (i = file.2)) as [->|Hne].
    + rewrite (decide_True (P := file.2 ∈ _)) by set_solver. destruct (decide (file.2 < length (nulterminate c buf))%nat) as [Hlt|Hge].
      * rewrite list_lookup_insert_eq by done. destruct (lookup_lt_is_Some_2 _ _ Hlt) as [x Hx]. rewrite IH in Hx.
        destruct (decide (file.2 ∈ _)); [|by rewrite Hx]. by destruct (buf !! file.2).
      * rewrite lookup_ge_None_2 by (rewrite length_insert; lia). pose proof (IH buf) as E. rewrite lookup_ge_None_2 in E by lia.
        destruct (decide (file.2 ∈ _)); [by destruct (buf !! file.2)|by rewrite <- E].
    + rewrite list_lookup_insert_ne, IH by done. destruct (decide (i ∈ (tokens c).*2)).
      * by rewrite decide_True by set_solver.
      * by rewrite decide_False by set_solver.
  - rewrite fmap_app, IHr, IHl. apply ends_app.
  - rewrite fmap_app, IHr, IHl. apply ends_app.
  - apply IH.
Qed.

Lemma cstr_prefix l r : nonul l → cstr (l ++ 0 :: r) = l.
Proof.
  induction l as [|c l IH]; intros Hl; simpl; [done|]. apply list.Forall_cons in Hl as [Hc Hl].
  rewrite (proj2 (Z.eqb_neq c 0)) by done. by rewrite IH.
Qed.

(** The word of the line between two positions. *)
Definition word_of (s : list Z) (t : nat * nat) : list Z := take (t.2 - t.1) (drop t.1 s).

(** The NULs cut the line exactly into its words. *)
Lemma nulterminate_word s c t :
  nonul s → tree_ok s c → t ∈ tokens c → string_at (nulterminate c (s ++ [0])) t.1 = word_of s t.
Proof.
  intros Hs Hc Ht. unfold tree_ok in Hc. rewrite list.Forall_forall in Hc. destruct (Hc t Ht) as (Hq & Hw & He). destruct t as [q e]. cbn [fst snd] in *.
  set (buf := nulterminate c (s ++ [0])).
  assert (∀ i, (q <= i < e)%nat → buf !! i = s !! i) as Hin.
  { intros i Hi. unfold buf. rewrite nulterminate_lookup. rewrite decide_False; [by rewrite lookup_app_l by lia|].
    unfold ends. intros (t' & E & Ht')%list_elem_of_fmap. destruct (Hc t' Ht') as (_ & _ & [Hes|Hnw]); [lia|].
    rewrite <- E, Hw in Hnw; done. }
  assert (buf !! e = Some 0) as Hend.
  { unfold buf. rewrite nulterminate_lookup, decide_True.
    - destruct (lookup_lt_is_Some_2 (s ++ [0]) e) as [x ->]; [rewrite length_app; simpl; lia|done].
    - apply list_elem_of_fmap. by exists (q, e). }
  unfold string_at. assert (drop q buf = word_of s (q, e) ++ 0 :: drop (S e) buf) as ->.
  { assert (length (word_of s (q, e)) = (e - q)%nat) as Hlw by (unfold word_of; rewrite length_take, length_drop; simpl; lia).
    apply list_eq. intros i. rewrite lookup_drop. destruct (decide (i < e - q)%nat) as [Hi|Hi].
    - rewrite lookup_app_l by lia. unfold word_of. cbn [fst snd]. rewrite lookup_take_lt, lookup_drop by lia. apply Hin. lia.
    - rewrite lookup_app_r, Hlw by lia. destruct (i - (e - q))%nat as [|k] eqn:Ek.
      + replace (q + i)%nat with e by lia. done.
      + simpl. rewrite lookup_drop. f_equal. lia. }
  apply cstr_prefix. unfold word_of. apply Forall_take, Forall_drop, Hs.
Qed.

(** the strings of a parsed command are the words of the line.  When the
    parser has accepted a line, the NULs that [nulterminate] stores into the
    line's own buffer end every argument and file name exactly where its word
    ends, and cut into no other word. *)
Theorem nulterminate_strings (s : list Z) (c : cmd) (ps : nat) :
  nonul s → Z.of_nat (length s) < 2 ^ 31 → parse s = POk (c, ps) →
  tmap (λ t, string_at (nulterminate c (s ++ [0])) t.1) c = tmap (word_of s) c
  ∧ Forall (λ t, word_of s t ≠ [] ∧ Forall (λ b, word_char b = true) (word_of s t)) (tokens c).
Proof.
  intros Hs Hl Hp. assert (tree_ok s c) as Hc.
  { unfold parse in Hp. rewrite strlen_nonul, Nat2Z.id in Hp by done.
    destruct (parse_good s Hs (parse_fuel s) 0 ltac:(lia)) as [Hg _]. specialize (Hg ltac:(unfold parse_fuel; lia)).
    destruct (parseline s (length s) (parse_fuel s) 0) as [[c' ps']| |]; [|done..]. cbn in Hp. injection Hp as <- _. apply Hg. }
  split.
  - apply tmap_ext. intros t Ht. by apply nulterminate_word.
  - eapply Forall_impl; [|exact Hc]. intros [q e] (Hq & Hw & _). cbn [fst snd] in *. unfold word_of. cbn [fst snd]. split.
    + intros E. apply (f_equal length) in E. rewrite length_take, length_drop in E. simpl in E. lia.
    + apply Forall_lookup_2. intros i b Hi. apply lookup_take_Some in Hi as [Hi Hlt]. rewrite lookup_drop in Hi.
      specialize (Hw (q + i)%nat ltac:(lia)). unfold at_ in Hw. by rewrite Hi in Hw.
Qed.

Lemma nulterminate_strings_witness :
  tmap (λ t, string_at (nulterminate (REDIR (EXEC [(0, 2); (6, 8)]%nat) (4, 5)%nat 513 1) (str "ls>>f -l" ++ [0])) t.1)
    (REDIR (EXEC [(0, 2); (6, 8)]%nat) (4, 5)%nat 513 1)
  = REDIR (EXEC [str "ls"; str "-l"]) (str "f") 513 1.
Proof.
  destruct (nulterminate_strings (str "ls>>f -l") (REDIR (EXEC [(0, 2); (6, 8)]%nat) (4, 5)%nat 513 1) 8) as [E _].
  - repeat (apply list.Forall_cons; split; [done|]). constructor.
  - by vm_compute.
  - vm_compute. reflexivity.
  - exact E.
Defined.

(** ** Printing commands *)

(** The redirection symbol for a mode and a descriptor. *)
Definition redir_op (mode fd : Z) : list Z :=
  if fd =? 0 then str "<"
  else if mode =? Z.lor O_WRONLY (Z.lor O_CREATE O_TRUNC) then str ">" else str ">>".

Definition redir_ok (mode fd : Z) : Prop :=
  (mode = O_RDONLY ∧ fd = 0) ∨ (mode = Z.lor O_WRONLY (Z.lor O_CREATE O_TRUNC) ∧ fd = 1) ∨ (mode = Z.lor O_WRONLY O_CREATE ∧ fd = 1).

(** The words and symbols of a command, every part in parentheses. *)
Fixpoint toks (c : tree (list Z)) : list (list Z) :=
  match c with
  | EXEC argv => argv
  | REDIR c file mode fd => str "(" :: toks c ++ [str ")"; redir_op mode fd; file]
  | PIPE l r => str "(" :: toks l ++ [str ")"; str "|"; str "("] ++ toks r ++ [str ")"]
  | LIST l r => str "(" :: toks l ++ [str ")"; str ";"; str "("] ++ toks r ++ [str ")"]
  | BACK c => str "(" :: toks c ++ [str ")"; str "&"]
  end.

Definition text (ts : list (list Z)) : list Z := concat ((λ t, t ++ [ch " "]) <$> ts).
Definition print (c : tree (list Z)) : list Z := text (toks c).

Definition is_word (w : list Z) : Prop := w ≠ [] ∧ Forall (λ b, b ≠ 0 ∧ word_char b = true) w.

Fixpoint printable (c : tree (list Z)) : Prop :=
  match c with
  | EXEC argv => (length argv < MAXARGS)%nat ∧ Forall is_word argv
  | REDIR c file mode fd => printable c ∧ is_word file ∧ redir_ok mode fd
  | PIPE l r => printable l ∧ printable r
  | LIST l r => printable l ∧ printable r
  | BACK c => printable c
  end.

(** The kind [gettoken] returns for a token. *)
Inductive lex : list Z → Z → Prop :=
| lex_word w : is_word w → lex w (ch "a")
| lex_symbol c : c ∈ str "|();&<>" → lex [c] c
| lex_append : lex (str ">>") (ch "+").

Definition lexical (ts : list (list Z)) : Prop := Forall (λ t, ∃ k, lex t k) ts.

Lemma symbol_chars c : c ∈ str "|();&<>" → inset whitespace c = false ∧ c ≠ 0 ∧ (c ≠ ch ">" → existsb (Z.eqb c) (str "|();&<") = true).
Proof.
  intros Hc. repeat (apply elem_of_cons in Hc as [->|Hc]; [by split_and!|]). by apply elem_of_nil in Hc.
Qed.

Lemma lex_first t k : lex t k → ∃ c t', t = c :: t' ∧ inset whitespace c = false ∧ c ≠ 0.
Proof.
  intros [w [Hw1 Hw2]|c Hc|].
  - destruct w as [|c w]; [done|]. apply list.Forall_cons in Hw2 as [[Hc Hw] _]. exists c, w. split; [done|]. split; [|done].
    unfold word_char in Hw. by apply andb_prop in Hw as [Hw%negb_true_iff _].
  - destruct (symbol_chars c Hc) as (H1 & H2 & _). by exists c, [].
  - by exists (ch ">"), [ch ">"].
Qed.

Lemma text_cons t ts : text (t :: ts) = t ++ ch " " :: text ts.
Proof. unfold text. cbn [fmap list_fmap concat]. by rewrite <- app_assoc. Qed.

Lemma length_text ts : (length ts <= length (text ts))%nat.
Proof. induction ts as [|t ts IH]; [done|]. rewrite text_cons, length_app. simpl. lia. Qed.

Lemma text_app l1 l2 : text (l1 ++ l2) = text l1 ++ text l2.
Proof. unfold text. by rewrite fmap_app, concat_app. Qed.

Section printing.
Context (s : list Z).
Hypothesis Hs : nonul s.
Local Notation es := (length s).

(** The rest of the line, from a position, consists of these tokens. *)
Definition at_toks (ps : nat) (ts : list (list Z)) : Prop := (ps <= es)%nat ∧ drop ps s = text ts ∧ lexical ts.

Lemma at_drop ps i : at_ s (ps + i) = default 0 (drop ps s !! i).
Proof. unfold at_. by rewrite lookup_drop. Qed.

Lemma at_toks_first ps t ts : at_toks ps (t :: ts) → at_ s ps = byte0 t ∧ (ps + length t < es)%nat.
Proof.
  intros (Hp & Hd & Hl). apply list.Forall_cons in Hl as [[k Hk] _]. destruct (lex_first _ _ Hk) as (c & t' & -> & _). split.
  - rewrite <- (Nat.add_0_r ps), at_drop, Hd, text_cons. done.
  - apply (f_equal length) in Hd. rewrite length_drop, text_cons, length_app in Hd. simpl in *. lia.
Qed.

Lemma skip_at ps ts : at_toks ps ts → skip_space s es ps = ps.
Proof.
  intros Ht. unfold skip_space. destruct (es - ps)%nat as [|k] eqn:Ek; [done|]. cbn [skip_while].
  destruct ts as [|t ts].
  { destruct Ht as (_ & Hd & _). apply (f_equal length) in Hd. rewrite length_drop in Hd. simpl in Hd. lia. }
  destruct (at_toks_first _ _ _ Ht) as [Ha _]. destruct Ht as (_ & _ & Hl). apply list.Forall_cons in Hl as [[k' Hk] _].
  destruct (lex_first _ _ Hk) as (c & t' & -> & Hc & _). rewrite Ha. simpl byte0. by rewrite Hc, andb_false_r.
Qed.

Lemma at_toks_next ps t ts : at_toks ps (t :: ts) → at_toks (ps + length t + 1) ts ∧ at_ s (ps + length t) = ch " ".
Proof.
  intros Ht. destruct (at_toks_first _ _ _ Ht) as [_ Hlen]. destruct Ht as (Hp & Hd & Hl). apply list.Forall_cons in Hl as [_ Hl].
  rewrite text_cons in Hd. split; [split; [lia|]; split; [|done]|].
  - rewrite <- Nat.add_assoc, <- drop_drop, Hd. rewrite <- drop_drop, drop_app_length. done.
  - rewrite at_drop, Hd, lookup_app_r, Nat.sub_diag by lia. done.
Qed.

Lemma skip_after ps t ts : at_toks ps (t :: ts) → skip_space s es (ps + length t) = (ps + length t + 1)%nat.
Proof.
  intros Ht. destruct (at_toks_first _ _ _ Ht) as [_ Hlen]. destruct (at_toks_next _ _ _ Ht) as [Hn Ha].
  unfold skip_space. destruct (es - (ps + length t))%nat as [|k] eqn:Ek; [lia|]. cbn [skip_while].
  rewrite (proj2 (Nat.ltb_lt _ _)), Ha by done. cbn [andb]. change (inset whitespace (ch " ")) with true. cbv iota.
  replace k with (es - (ps + length t + 1))%nat by lia. replace (S (ps + length t)) with (ps + length t + 1)%nat by lia.
  apply (skip_at _ ts Hn).
Qed.

Lemma skip_word ps w ts :
  at_toks ps (w :: ts) → is_word w → skip_while s es (λ c, negb (inset whitespace c) && negb (inset symbols c)) (es - ps) ps = (ps + length w)%nat.
Proof.
  intros Ht [_ Hw]. destruct (at_toks_first _ _ _ Ht) as [_ Hlen]. destruct (at_toks_next _ _ _ Ht) as [_ Ha].
  destruct Ht as (Hp & Hd & _).
  destruct (skip_while_spec s (λ c, negb (inset whitespace c) && negb (inset symbols c)) (es - ps) ps Hp) as (J1 & J2 & J3); [lia|].
  set (j := skip_while _ _ _ _ _) in *. destruct (Nat.lt_total j (ps + length w)) as [Hlt|[|Hgt]]; [|done|].
  - exfalso. destruct J3 as [|J3]; [lia|]. destruct (lookup_lt_is_Some_2 w (j - ps)) as [b Hb]; [lia|].
    eapply Forall_lookup_1 in Hw as [_ Hwc]; [|exact Hb]. replace j with (ps + (j - ps))%nat in J3 by lia.
    rewrite at_drop, Hd, text_cons, lookup_app_l, Hb in J3 by lia. unfold word_char in Hwc. simpl in J3. congruence.
  - exfalso. specialize (J2 (ps + length w)%nat ltac:(lia)). by rewrite Ha in J2.
Qed.

Lemma gettoken_at ps t k ts :
  at_toks ps (t :: ts) → lex t k →
  gettoken s es ps = (k, (ps, (ps + length t)%nat), (ps + length t + 1)%nat) ∧ at_toks (ps + length t + 1) ts.
Proof.
  intros Ht Hk. destruct (at_toks_first _ _ _ Ht) as [Ha Hlen]. split; [|by apply at_toks_next].
  unfold gettoken. rewrite (skip_at _ _ Ht), Ha. pose proof (skip_after _ _ _ Ht) as Hsk. inversion Hk as [w Hw|c Hc|]; subst.
  - pose proof Hw as [Hne Hwc]. destruct t as [|c t]; [done|]. apply list.Forall_cons in Hwc as [[Hc0 Hc] _]. simpl byte0.
    rewrite (proj2 (Z.eqb_neq c 0)) by done. unfold word_char in Hc. apply andb_prop in Hc as [_ Hc%negb_true_iff].
    rewrite symbols_cases in Hc. apply orb_false_iff in Hc as [-> ->]. by rewrite (skip_word _ _ _ Ht Hw), Hsk.
  - simpl byte0. destruct (symbol_chars _ Hc) as (_ & Hc0 & Hcs). rewrite (proj2 (Z.eqb_neq k 0)) by done.
    simpl length in Hsk. replace (ps + 1)%nat with (S ps) in Hsk by lia. simpl length. replace (ps + 1)%nat with (S ps) by lia.
    destruct (Z.eqb_spec k (ch ">")) as [->|Hng]; [|by rewrite Hcs, Hsk].
    destruct (at_toks_next _ _ _ Ht) as [_ Hsp]. simpl length in Hsp. replace (ps + 1)%nat with (S ps) in Hsp by lia.
    rewrite Hsp. change (existsb (Z.eqb (ch ">")) (str "|();&<")) with false. change (ch " " =? ch ">") with false.
    cbv iota beta. by rewrite Hsk.
  - assert (at_ s (S ps) = ch ">") as Hg.
    { destruct Ht as (_ & Hd & _). replace (S ps) with (ps + 1)%nat by lia. by rewrite at_drop, Hd, text_cons. }
    change (byte0 (str ">>")) with (ch ">"). rewrite Hg. change (length (str ">>")) with 2%nat in *.
    change (existsb (Z.eqb (ch ">")) (str "|();&<")) with false. change (ch ">" =? ch ">") with true. change (ch ">" =? 0) with false.
    cbv iota beta. replace (ps + 2)%nat with (S (S ps)) in Hsk |- * by lia. by rewrite Hsk.
Qed.

Lemma peek_at cs ps ts :
  at_toks ps ts → peek s es cs ps = (match ts with [] => false | t :: _ => inset (str cs) (byte0 t) end, ps).
Proof.
  intros Ht. unfold peek. rewrite (skip_at _ _ Ht). f_equal. destruct ts as [|t ts].
  - destruct Ht as (Hp & Hd & _). assert (at_ s ps = 0) as ->; [|done]. rewrite <- (Nat.add_0_r ps), at_drop, Hd. done.
  - destruct (at_toks_first _ _ _ Ht) as [-> _]. destruct Ht as (_ & _ & Hl). apply list.Forall_cons in Hl as [[k Hk] _].
    destruct (lex_first _ _ Hk) as (c & t' & -> & _ & Hc). simpl. by rewrite (proj2 (Z.eqb_neq c 0)).
Qed.

Lemma word_of_at ps t ts : at_toks ps (t :: ts) → word_of s (ps, (ps + length t)%nat) = t.
Proof.
  intros (_ & Hd & _). unfold word_of. cbn [fst snd]. rewrite Hd, text_cons. replace (ps + length t - ps)%nat with (length t) by lia.
  apply take_app_length.
Qed.

(** ** Parsing what was printed *)

(** The parser's equations. *)
Lemma parseline_S fuel ps : parseline s es (S fuel) ps =
  ('(c, ps) ← parsepipe s es fuel ps;
   '(c, ps) ← parseback s es (S es) c ps;
   let '(b, ps) := peek s es ";" ps in
   if b then let '(_, _, ps) := gettoken s es ps in '(r, ps) ← parseline s es fuel ps; POk (LIST c r, ps)
   else POk (c, ps)).
Proof. done. Qed.

Lemma parsepipe_S fuel ps : parsepipe s es (S fuel) ps =
  ('(c, ps) ← parseexec s es fuel ps;
   let '(b, ps) := peek s es "|" ps in
   if b then let '(_, _, ps) := gettoken s es ps in '(r, ps) ← parsepipe s es fuel ps; POk (PIPE c r, ps)
   else POk (c, ps)).
Proof. done. Qed.

Lemma parseexec_S fuel ps : parseexec s es (S fuel) ps =
  let '(b, ps) := peek s es "(" ps in
  if b then parseblock s es fuel ps
  else '(rs, ps) ← parseredirs s es (S es) ps []; parseargs s es (S es) ps [] rs.
Proof. done. Qed.

Lemma parseblock_S fuel ps : parseblock s es (S fuel) ps =
  let '(b, ps) := peek s es "(" ps in
  if negb b then PPanic "parseblock"
  else
    let '(_, _, ps) := gettoken s es ps in
    '(c, ps) ← parseline s es fuel ps;
    let '(b, ps) := peek s es ")" ps in
    if negb b then PPanic "syntax - missing )"
    else
      let '(_, _, ps) := gettoken s es ps in
      '(rs, ps) ← parseredirs s es (S es) ps [];
      POk (redirect c rs, ps).
Proof. done. Qed.

(** What may follow a command: the end of the line or a closing parenthesis. *)
Definition stop (ts : list (list Z)) : Prop := match ts with [] => True | t :: _ => t = str ")" end.

(** The first character of what follows is none of these. *)
Definition no_head (cs : string) (ts : list (list Z)) : Prop :=
  match ts with [] => True | t :: _ => inset (str cs) (byte0 t) = false end.

Lemma stop_no_head cs ts : inset (str cs) (ch ")") = false → stop ts → no_head cs ts.
Proof. destruct ts as [|t ts]; [done|]. simpl. by intros ? ->. Qed.

(** No symbol begins a word. *)
Lemma word_head cs w : forallb (inset symbols) (str cs) = true → is_word w → inset (str cs) (byte0 w) = false.
Proof.
  intros Hcs [Hw1 Hw2]. destruct w as [|c w]; [done|]. apply list.Forall_cons in Hw2 as [[Hc0 Hc] _].
  apply andb_prop in Hc as [_ Hc%negb_true_iff]. simpl. apply not_true_iff_false. intros Hin. unfold inset in Hin.
  destruct (strchr (str cs) c) as [i|] eqn:E; [|done]. apply strchr_Some in E as [E _]; [|done].
  rewrite forallb_forall in Hcs. rewrite (Hcs c) in Hc; [done|]. apply list_elem_of_In. by eapply list_elem_of_lookup_2.
Qed.

Lemma peek_no cs ps ts : at_toks ps ts → no_head cs ts → peek s es cs ps = (false, ps).
Proof. intros Ht Hn. rewrite (peek_at _ _ _ Ht). destruct ts; [done|]. simpl in Hn. by rewrite Hn. Qed.

Lemma peek_yes (cs : string) ps t ts : at_toks ps (t :: ts) → inset (str cs) (byte0 t) = true → peek s es cs ps = (true, ps).
Proof. intros Ht Hn. by rewrite (peek_at _ _ _ Ht), Hn. Qed.

Lemma redirs_none ps ts acc : at_toks ps ts → no_head "<>" ts → parseredirs s es (S es) ps acc = POk (acc, ps).
Proof. intros Ht Hn. cbn [parseredirs]. by rewrite (peek_no _ _ _ Ht Hn). Qed.

Lemma redirs_one ps mode fd file ts :
  at_toks ps (redir_op mode fd :: file :: ts) → is_word file → redir_ok mode fd → no_head "<>" ts →
  ∃ t ps', parseredirs s es (S es) ps [] = POk ([(t, mode, fd)], ps') ∧ at_toks ps' ts ∧ word_of s t = file.
Proof.
  intros Ht Hf Hr Hn. destruct (at_toks_first _ _ _ Ht) as [_ Hlen].
  assert (∃ k, lex (redir_op mode fd) k ∧ inset (str "<>") (byte0 (redir_op mode fd)) = true
    ∧ ∀ A (a b c d : A), (if k =? ch "<" then a else if k =? ch ">" then b else if k =? ch "+" then c else d)
                         = if fd =? 0 then a else if mode =? Z.lor O_WRONLY (Z.lor O_CREATE O_TRUNC) then b else c) as (k & Hk & Hp & Hsel).
  { destruct Hr as [[-> ->]|[[-> ->]|[-> ->]]].
    - exists (ch "<"). split; [apply lex_symbol; vm_compute; set_solver|done].
    - exists (ch ">"). split; [apply lex_symbol; vm_compute; set_solver|done].
    - exists (ch "+"). split; [apply lex_append|done]. }
  destruct (gettoken_at _ _ _ _ Ht Hk) as [E1 Ht1]. destruct (gettoken_at _ _ _ _ Ht1 (lex_word _ Hf)) as [E2 Ht2].
  eexists _, _. split; [|split; [exact Ht2|by eapply word_of_at]].
  destruct es as [|n] eqn:En; [lia|]. cbn [parseredirs]. rewrite <- En in *.
  rewrite (peek_yes _ _ _ _ Ht Hp), E1, E2. change (negb (ch "a" =? ch "a")) with false. cbv iota.
  rewrite (peek_no _ _ _ Ht2 Hn), Hsel. destruct Hr as [[-> ->]|[[-> ->]|[-> ->]]]; done.
Qed.

Lemma args_words ws post : ∀ fuel ps args,
  at_toks ps (ws ++ post) → Forall is_word ws → stop post → (length args + length ws < MAXARGS)%nat → (length ws < fuel)%nat →
  ∃ ts ps', parseargs s es fuel ps args [] = POk (EXEC (args ++ ts), ps') ∧ word_of s <$> ts = ws ∧ at_toks ps' post.
Proof.
  induction ws as [|w ws IH]; intros [|fuel] ps args Ht Hw Hst Hmax Hf; try (simpl in Hf; lia); cbn [parseargs].
  - exists [], ps. rewrite app_nil_r. simpl in Ht. destruct post as [|t post].
    + rewrite (peek_no "|)&;" _ _ Ht I). cbn [negb]. unfold gettoken. rewrite (skip_at _ _ Ht).
      assert (at_ s ps = 0) as ->.
      { destruct Ht as (_ & Hd & _). rewrite <- (Nat.add_0_r ps), at_drop, Hd. done. }
      cbn [Z.eqb]. by rewrite (skip_at _ _ Ht).
    + simpl in Hst. subst t. by rewrite (peek_yes "|)&;" _ _ _ Ht).
  - apply list.Forall_cons in Hw as [Hw1 Hw]. simpl app in Ht.
    rewrite (peek_no "|)&;" _ _ Ht) by (by apply word_head). cbn [negb].
    destruct (gettoken_at _ _ _ _ Ht (lex_word _ Hw1)) as [E1 Ht1]. rewrite E1. change (ch "a" =? 0) with false.
    change (negb (ch "a" =? ch "a")) with false. cbv iota. rewrite (proj2 (Nat.leb_gt _ _)) by (rewrite length_app; simpl in *; lia).
    rewrite (redirs_none _ _ _ Ht1).
    2: { destruct ws as [|w' ws]; [by apply stop_no_head|]. apply list.Forall_cons in Hw as [Hw2 _].
         by apply word_head. }
    cbn [mbind presult_bind].
    destruct (IH fuel _ (args ++ [(ps, (ps + length w)%nat)]) Ht1 Hw Hst) as (ts & ps' & E & Ew & Ht'); [rewrite length_app; simpl in *; lia|simpl in Hf; lia|].
    exists ((ps, (ps + length w)%nat) :: ts), ps'. rewrite E, <- app_assoc. split; [done|]. split; [|done].
    cbn [fmap list_fmap]. rewrite Ew. f_equal. by eapply word_of_at.
Qed.

Lemma line_end c ps post : at_toks ps post → stop post →
  parseback s es (S es) c ps = POk (c, ps) ∧ peek s es ";" ps = (false, ps) ∧ peek s es "|" ps = (false, ps).
Proof.
  intros Ht Hst. cbn [parseback]. by rewrite !(peek_no _ _ _ Ht) by (by apply stop_no_head).
Qed.

(** A printed command parses back, whatever may follow it. *)
Definition parses (c : tree (list Z)) : Prop := ∀ fuel ps post,
  at_toks ps (toks c ++ post) → stop post → (4 * length (toks c) + 4 <= fuel)%nat →
  ∃ t ps', parseline s es fuel ps = POk (t, ps') ∧ at_toks ps' post ∧ tmap (word_of s) t = c.

Lemma block_parses c fuel ps rest :
  parses c → at_toks ps (str "(" :: toks c ++ str ")" :: rest) → (4 * length (toks c) + 6 <= fuel)%nat →
  ∃ t ps', parseexec s es fuel ps = ('(rs, ps) ← parseredirs s es (S es) ps' []; POk (redirect t rs, ps))
    ∧ at_toks ps' rest ∧ tmap (word_of s) t = c.
Proof.
  intros Hc Ht Hf. destruct fuel as [|[|fuel]]; [lia..|].
  assert (∀ c, c ∈ str "|();&<>" → lex [c] c) as Hsym by (intros; by apply lex_symbol).
  destruct (gettoken_at _ _ _ _ Ht (Hsym (ch "(") ltac:(vm_compute; set_solver))) as [E1 Ht1].
  destruct (Hc fuel _ (str ")" :: rest) Ht1 eq_refl ltac:(lia)) as (t & ps1 & E2 & Ht2 & Em).
  destruct (gettoken_at _ _ _ _ Ht2 (Hsym (ch ")") ltac:(vm_compute; set_solver))) as [E3 Ht3].
  exists t, (ps1 + 1 + 1)%nat. split; [|done].
  rewrite parseexec_S, (peek_yes "(" _ _ _ Ht), parseblock_S, (peek_yes "(" _ _ _ Ht) by done. cbn [negb]. rewrite E1, E2.
  cbn [mbind presult_bind]. rewrite (peek_yes ")" _ _ _ Ht2) by done. cbn [negb]. by rewrite E3.
Qed.

Lemma block_only c fuel ps rest :
  parses c → at_toks ps (str "(" :: toks c ++ str ")" :: rest) → no_head "<>" rest → (4 * length (toks c) + 6 <= fuel)%nat →
  ∃ t ps', parseexec s es fuel ps = POk (t, ps') ∧ at_toks ps' rest ∧ tmap (word_of s) t = c.
Proof.
  intros Hc Ht Hn Hf. destruct (block_parses c fuel ps rest Hc Ht Hf) as (t & ps' & E & Ht' & Em).
  exists t, ps'. rewrite E, (redirs_none _ _ _ Ht' Hn). done.
Qed.

(** The symbol that joins two parts. *)
Lemma sym_next ps c ts : at_toks ps ([c] :: ts) → c ∈ str "|();&<>" →
  ∃ q, gettoken s es ps = (c, q, (ps + 1 + 1)%nat) ∧ at_toks (ps + 1 + 1) ts.
Proof. intros Ht Hc. destruct (gettoken_at _ _ _ _ Ht (lex_symbol c Hc)) as [E Ht']. eexists. done. Qed.

Lemma exec_parses argv : (length argv < MAXARGS)%nat → Forall is_word argv → parses (EXEC argv).
Proof.
  intros Hl Hw fuel ps post Ht Hst Hf. cbn [toks] in *. destruct fuel as [|[|[|fuel]]]; [lia..|].
  assert (∀ cs, forallb (inset symbols) (str cs) = true → inset (str cs) (ch ")") = false → no_head cs (argv ++ post)) as Hh.
  { intros cs H1 H2. destruct argv as [|w argv]; [by apply stop_no_head|]. apply list.Forall_cons in Hw as [Hw _]. by apply word_head. }
  assert (length argv < S es)%nat as Hes.
  { destruct Ht as (Hp & Hd & _). apply (f_equal length) in Hd. rewrite length_drop, text_app, length_app in Hd.
    pose proof (length_text argv). lia. }
  destruct (args_words argv post (S es) ps [] Ht Hw Hst Hl Hes) as (ts & ps' & E & Ew & Ht').
  exists (EXEC ts), ps'. destruct (line_end (EXEC ts) ps' post Ht' Hst) as (L1 & L2 & L3).
  rewrite parseline_S, parsepipe_S, parseexec_S, (peek_no "(" _ _ Ht) by (by apply Hh).
  rewrite (redirs_none _ _ _ Ht) by (by apply Hh). cbn [mbind presult_bind]. rewrite E. cbn [app mbind presult_bind]. rewrite L3. cbn [mbind presult_bind]. rewrite L1. cbn [mbind presult_bind]. rewrite L2.
  split; [done|]. split; [done|]. cbn. by rewrite Ew.
Qed.

Lemma redir_parses c file mode fd : parses c → is_word file → redir_ok mode fd → parses (REDIR c file mode fd).
Proof.
  intros Hc Hw Hr fuel ps post Ht Hst Hf. cbn [toks] in *. rewrite <- app_comm_cons, <- app_assoc in Ht. cbn [length] in Hf. rewrite length_app in Hf.
  destruct fuel as [|[|fuel]]; [lia..|].
  destruct (block_parses c fuel ps _ Hc Ht ltac:(simpl in Hf; lia)) as (t & ps1 & E & Ht1 & Em).
  destruct (redirs_one _ _ _ _ _ Ht1 Hw Hr) as (q & ps2 & E2 & Ht2 & Ew); [by apply stop_no_head|].
  exists (REDIR t q mode fd), ps2. destruct (line_end (REDIR t q mode fd) ps2 post Ht2 Hst) as (L1 & L2 & L3).
  rewrite parseline_S, parsepipe_S, E, E2. cbn [mbind presult_bind redirect foldr]. rewrite L3. cbn [mbind presult_bind]. rewrite L1. cbn [mbind presult_bind]. rewrite L2.
  split; [done|]. split; [done|]. cbn. by rewrite Em, Ew.
Qed.

Lemma back_parses c : parses c → parses (BACK c).
Proof.
  intros Hc fuel ps post Ht Hst Hf. cbn [toks] in *. rewrite <- app_comm_cons, <- app_assoc in Ht. cbn [length] in Hf. rewrite length_app in Hf.
  destruct fuel as [|[|fuel]]; [lia..|].
  destruct (block_only c fuel ps _ Hc Ht eq_refl ltac:(simpl in Hf; lia)) as (t & ps1 & E & Ht1 & Em).
  destruct (sym_next _ (ch "&") _ Ht1 ltac:(vm_compute; set_solver)) as (q & E2 & Ht2).
  exists (BACK t), (ps1 + 1 + 1)%nat. destruct (line_end (BACK t) _ post Ht2 Hst) as (L1 & L2 & _).
  rewrite parseline_S, parsepipe_S, E. cbn [mbind presult_bind]. rewrite (peek_no "|" _ _ Ht1) by done. cbn [mbind presult_bind].
  assert (parseback s es (S es) t ps1 = parseback s es es (BACK t) (ps1 + 1 + 1)) as ->.
  { cbn [parseback]. by rewrite (peek_yes "&" _ _ _ Ht1), E2 by done. }
  destruct (at_toks_first _ _ _ Ht1) as [_ Hlen].
  assert (parseback s es es (BACK t) (ps1 + 1 + 1) = POk (BACK t, (ps1 + 1 + 1)%nat)) as ->.
  { destruct es as [|n] eqn:En; [lia|]. cbn [parseback]. rewrite <- En. by rewrite (peek_no "&" _ _ Ht2) by (by apply stop_no_head). }
  cbn [mbind presult_bind]. rewrite L2. split; [done|]. split; [done|]. cbn. by rewrite Em.
Qed.

(** The right part of a pipe or list, in its parentheses. *)
Lemma pipe_tail c fuel ps post :
  parses c → at_toks ps (str "(" :: toks c ++ str ")" :: post) → stop post → (4 * length (toks c) + 7 <= fuel)%nat →
  ∃ t ps', parsepipe s es fuel ps = POk (t, ps') ∧ at_toks ps' post ∧ tmap (word_of s) t = c.
Proof.
  intros Hc Ht Hst Hf. destruct fuel as [|fuel]; [lia|].
  destruct (block_only c fuel ps post Hc Ht) as (t & ps' & E & Ht' & Em); [by apply stop_no_head|lia|].
  exists t, ps'. destruct (line_end t ps' post Ht' Hst) as (_ & _ & L3). rewrite parsepipe_S, E. cbn [mbind presult_bind]. by rewrite L3.
Qed.

Lemma pipe_parses l r : parses l → parses r → parses (PIPE l r).
Proof.
  intros Hl Hr fuel ps post Ht Hst Hf. cbn [toks] in *. rewrite <- app_comm_cons, <- !app_assoc in Ht. cbn [length app] in Hf, Ht.
  rewrite !length_app in Hf. cbn [length] in Hf. rewrite length_app in Hf. destruct fuel as [|[|fuel]]; [lia..|].
  destruct (block_only l fuel ps _ Hl Ht eq_refl ltac:(lia)) as (t & ps1 & E & Ht1 & Em).
  destruct (sym_next _ (ch "|") _ Ht1 ltac:(vm_compute; set_solver)) as (q & E2 & Ht2).
  destruct (pipe_tail r fuel _ post Hr Ht2 Hst ltac:(lia)) as (t2 & ps2 & E3 & Ht3 & Em2).
  exists (PIPE t t2), ps2. destruct (line_end (PIPE t t2) ps2 post Ht3 Hst) as (L1 & L2 & _).
  rewrite parseline_S, parsepipe_S, E. cbn [mbind presult_bind]. rewrite (peek_yes "|" _ _ _ Ht1), E2, E3 by done.
  cbn [mbind presult_bind]. rewrite L1. cbn [mbind presult_bind]. rewrite L2. split; [done|]. split; [done|]. cbn. by rewrite Em, Em2.
Qed.

Lemma list_parses l r : parses l → parses r → parses (LIST l r).
Proof.
  intros Hl Hr fuel ps post Ht Hst Hf. cbn [toks] in *. rewrite <- app_comm_cons, <- !app_assoc in Ht. cbn [length app] in Hf, Ht.
  rewrite !length_app in Hf. cbn [length] in Hf. rewrite length_app in Hf. destruct fuel as [|[|fuel]]; [lia..|].
  destruct (block_only l fuel ps _ Hl Ht eq_refl ltac:(lia)) as (t & ps1 & E & Ht1 & Em).
  destruct (sym_next _ (ch ";") _ Ht1 ltac:(vm_compute; set_solver)) as (q & E2 & Ht2).
  destruct (pipe_tail r fuel _ post Hr Ht2 Hst ltac:(lia)) as (t2 & ps2 & E3 & Ht3 & Em2).
  exists (LIST t t2), ps2. destruct (line_end t2 ps2 post Ht3 Hst) as (L1 & L2 & _).
  rewrite parseline_S, parsepipe_S, E. cbn [mbind presult_bind]. rewrite (peek_no "|" _ _ Ht1) by done. cbn [mbind presult_bind].
  assert (parseback s es (S es) t ps1 = POk (t, ps1)) as -> by (cbn [parseback]; by rewrite (peek_no "&" _ _ Ht1) by done).
  cbn [mbind presult_bind]. rewrite (peek_yes ";" _ _ _ Ht1), E2 by done.
  rewrite parseline_S, E3. cbn [mbind presult_bind]. rewrite L1. cbn [mbind presult_bind]. rewrite L2.
  split; [done|]. split; [done|]. cbn. by rewrite Em, Em2.
Qed.

Lemma printable_parses c : printable c → parses c.
Proof.
  induction c as [argv|c IH file mode fd|l IHl r IHr|l IHl r IHr|c IH]; cbn [printable].
  - intros [H1 H2]. by apply exec_parses.
  - intros (H1 & H2 & H3). apply redir_parses; [by apply IH|done|done].
  - intros [H1 H2]. apply pipe_parses; [by apply IHl|by apply IHr].
  - intros [H1 H2]. apply list_parses; [by apply IHl|by apply IHr].
  - intros H. apply back_parses. by apply IH.
Qed.
End printing.

Lemma redir_op_lex mode fd : redir_ok mode fd → ∃ k, lex (redir_op mode fd) k.
Proof.
  intros [[-> ->]|[[-> ->]|[-> ->]]]; [exists (ch "<")|exists (ch ">")|exists (ch "+"); apply lex_append]; apply lex_symbol; vm_compute; set_solver.
Qed.

Lemma toks_lexical c : printable c → lexical (toks c).
Proof.
  assert (∀ x, x ∈ str "|();&<>" → ∃ k, lex [x] k) as Hsym by (intros x Hx; exists x; by constructor).
  unfold lexical. induction c as [argv|c IH file mode fd|l IHl r IHr|l IHl r IHr|c IH]; cbn [printable toks].
  - intros [_ Hw]. eapply Forall_impl; [|exact Hw]. intros w Hw'. exists (ch "a"). by constructor.
  - intros (H1 & H2 & H3). repeat first [apply list.Forall_cons; split|apply Forall_app; split|constructor];
      try (apply Hsym; vm_compute; set_solver); [by apply IH|by apply redir_op_lex|exists (ch "a"); by constructor].
  - intros [H1 H2]. repeat first [apply list.Forall_cons; split|apply Forall_app; split]; try (apply Hsym; vm_compute; set_solver); auto.
  - intros [H1 H2]. repeat first [apply list.Forall_cons; split|apply Forall_app; split]; try (apply Hsym; vm_compute; set_solver); auto.
  - intros H. repeat first [apply list.Forall_cons; split|apply Forall_app; split]; try (apply Hsym; vm_compute; set_solver); auto.
Qed.

Lemma text_nonul ts : lexical ts → nonul (text ts).
Proof.
  induction ts as [|t ts IH]; intros Hl; [constructor|]. apply list.Forall_cons in Hl as [[k Hk] Hl]. rewrite text_cons.
  apply Forall_app. split; [|apply list.Forall_cons; split; [done|by apply IH]]. destruct Hk as [w [_ Hw]|c Hc|].
  - eapply Forall_impl; [|exact Hw]. by intros b [? _].
  - apply list.Forall_cons. split; [by apply symbol_chars|constructor].
  - repeat (apply list.Forall_cons; split; [done|]). constructor.
Qed.

(** C29: every command can be written as a command line: printed with parentheses
    around its parts, any tree of simple commands with fewer than MAXARGS words,
    redirections, pipes, lists and background jobs parses, to the end of the
    line, into the same tree, whose strings in the NUL-terminated buffer are the
    original words. *)
Theorem parse_print (c : tree (list Z)) :
  printable c → Z.of_nat (length (print c)) < 2 ^ 31 →
  ∃ t, parse (print c) = POk (t, length (print c))
    ∧ tmap (λ w, string_at (nulterminate t (print c ++ [0])) w.1) t = c.
Proof.
  intros Hc Hl. pose proof (toks_lexical c Hc) as Hlex. pose proof (text_nonul _ Hlex) as Hs. fold (print c) in Hs.
  assert (at_toks (print c) 0 (toks c ++ [])) as Ht.
  { rewrite app_nil_r. split; [lia|]. done. }
  destruct (printable_parses (print c) Hs c Hc (parse_fuel (print c)) 0%nat [] Ht I) as (t & ps & E & Ht' & Em).
  { unfold parse_fuel, print. pose proof (length_text (toks c)). lia. }
  assert (ps = length (print c)) as ->.
  { destruct Ht' as (Hp & Hd & _). apply (f_equal length) in Hd. rewrite length_drop in Hd. simpl in Hd. lia. }
  exists t. assert (parse (print c) = POk (t, length (print c))) as Ep.
  { unfold parse. rewrite strlen_nonul, Nat2Z.id, E by done. cbn [mbind presult_bind]. unfold peek. by rewrite (skip_at _ _ _ Ht'). }
  split; [done|]. trans (tmap (word_of (print c)) t); [|done]. apply tmap_ext. intros w Hw. apply nulterminate_word; [done| |done].
  destruct (parse_good (print c) Hs (parse_fuel (print c)) 0 ltac:(lia)) as [Hg _]. specialize (Hg ltac:(unfold parse_fuel; lia)).
  rewrite E in Hg. apply Hg.
Qed.

Definition demo_tree : tree (list Z) :=
  LIST (PIPE (EXEC [str "ls"; str "-l"]) (BACK (EXEC []))) (REDIR (EXEC [str "wc"]) (str "f") 0x201 1).

Lemma parse_print_witness :
  ∃ t, parse (str "( ( ls -l ) | ( ( ) & ) ) ; ( ( wc ) >> f ) ") = POk (t, 44%nat)
    ∧ tmap (λ w, string_at (nulterminate t (print demo_tree ++ [0])) w.1) t = demo_tree.
Proof.
  destruct (parse_print demo_tree) as (t & E & Em).
  - unfold demo_tree. cbn [printable]. assert (∀ w, forallb (λ b, negb (b =? 0) && word_char b) w = true → w ≠ [] → is_word w) as Hw.
    { intros w H1 H2. split; [done|]. rewrite forallb_forall in H1. apply list.Forall_forall. intros b Hb.
      apply list_elem_of_In, H1, andb_prop in Hb as [Hb1%negb_true_iff%Z.eqb_neq Hb2]. done. }
    split; [split; [split|split; [|constructor]]|split; [split|split]].
    + apply Nat.ltb_lt. reflexivity.
    + apply list.Forall_cons. split; [by apply Hw|]. apply list.Forall_cons. split; [by apply Hw|constructor].
    + apply Nat.ltb_lt. reflexivity.
    + apply Nat.ltb_lt. reflexivity.
    + apply list.Forall_cons. split; [by apply Hw|constructor].
    + by apply Hw.
    + right. right. done.
  - by vm_compute.
  - exists t. split; [exact E|exact Em].
Defined.
