(* ===== verification/Mkfs.v ===== *)
(** * mkfs/mkfs.c

    The program that builds the file system image.  The image file is a map from
    sectors to their contents; reading a sector that has not been written, past
    the end of the file, fails.  A failed assertion and [die] end the program:
    [None].  The host is little-endian, and its system calls succeed otherwise;
    the pieces in which [read] delivers an input file are given with the file. *)

From S2P Require Import Prelude Memory CString Kernel ULib Fs.

Definition NINODES : Z := 200.
Definition nbitmap : Z := FSSIZE / (BSIZE * 8) + 1.
Definition ninodeblocks : Z := NINODES / IPB + 1.
Definition nlog : Z := LOGSIZE.
Definition nmeta : Z := 2 + nlog + ninodeblocks + nbitmap.
Definition nblocks : Z := FSSIZE - nmeta.

(** [fsfd], [freeinode] and [freeblock]. *)
Record mkfs := MkMkfs {
  m_img : gmap Z (list Z);
  m_freeinode : Z;
  m_freeblock : Z
}.

Definition M (A : Type) : Type := mkfs → option (A * mkfs).
#[global] Instance M_ret : MRet M := λ A a s, Some (a, s).
#[global] Instance M_bind : MBind M := λ A B f c s, '(a, s) ← c s; f a s.

Definition die {A} : M A := λ _, None.
Definition massert (b : bool) : M unit := if b then mret () else die.

Definition xshort (x : Z) : Z := le_dec [x mod 256; Z.shiftr x 8 mod 256].
Definition xint (x : Z) : Z := le_dec [x mod 256; Z.shiftr x 8 mod 256; Z.shiftr x 16 mod 256; Z.shiftr x 24 mod 256].

(** The superblock that [main] sets up. *)
Definition sb : superblock :=
  MkSuperblock FSMAGIC (xint FSSIZE) (xint nblocks) (xint NINODES) (xint nlog) (xint 2) (xint (2 + nlog))
    (xint (2 + nlog + ninodeblocks)).

Definition enc_superblock (b : superblock) : list Z :=
  le_enc 4 (sb_magic b) ++ le_enc 4 (sb_size b) ++ le_enc 4 (sb_nblocks b) ++ le_enc 4 (sb_ninodes b)
  ++ le_enc 4 (sb_nlog b) ++ le_enc 4 (sb_logstart b) ++ le_enc 4 (sb_inodestart b) ++ le_enc 4 (sb_bmapstart b).

Definition wsect (sec : Z) (buf : list Z) : M unit := λ s,
  Some ((), MkMkfs (<[sec := buf]> (m_img s)) (m_freeinode s) (m_freeblock s)).

Definition rsect (sec : Z) : M (list Z) := λ s,
  match m_img s !! sec with
  | Some buf => Some (buf, s)
  | None => None
  end.

Definition winode (inum : Z) (ip : dinode) : M unit :=
  let bn := IBLOCK inum sb in
  buf ← rsect bn;
  wsect bn (splice (dinode_off inum) (enc_dinode ip) buf).

Definition rinode (inum : Z) : M dinode :=
  buf ← rsect (IBLOCK inum sb);
  mret (get_dinode buf (dinode_off inum)).

(** [freeinode++] and [freeblock++] *)
Definition next_inode : M Z := λ s, Some (m_freeinode s, MkMkfs (m_img s) (u32 (m_freeinode s + 1)) (m_freeblock s)).
Definition next_block : M Z := λ s, Some (m_freeblock s, MkMkfs (m_img s) (m_freeinode s) (u32 (m_freeblock s + 1))).

Definition ialloc (type : Z) : M Z :=
  inum ← next_inode;
  winode inum (MkDinode (i16 (xshort type)) 0 0 (i16 (xshort 1)) (xint 0) (replicate 13 0)) ≫= λ _,
  mret inum.

(** [for(i = 0; i < used; i++) buf[i/8] = buf[i/8] | (0x1 << (i%8));] *)
Definition bitmap_of (used : Z) : list Z :=
  foldl (λ buf i, alter (λ x, u8 (Z.lor x (Z.shiftl 1 (i mod 8)))) (Z.to_nat (i / 8)) buf)
    (replicate (Z.to_nat BSIZE) 0) (seqZ 0 used).

Definition balloc (used : Z) : M unit :=
  massert (used <? BSIZE * 8) ≫= λ _,
  wsect (sb_bmapstart sb) (bitmap_of used).

(** The block of the file that holds block number [fbn], allocated if need be;
    the inode may get a new address. *)
Definition iappend_block (din : dinode) (fbn : Z) : M (dinode * Z) :=
  if fbn <? NDIRECT then
    din ← (if xint (di_addrs din !!! Z.to_nat fbn) =? 0 then
             b ← next_block;
             mret (din <| di_addrs ::= <[Z.to_nat fbn := xint b]> |>)
           else mret din);
    mret (din, xint (di_addrs din !!! Z.to_nat fbn))
  else
    din ← (if xint (di_addrs din !!! Z.to_nat NDIRECT) =? 0 then
             b ← next_block;
             mret (din <| di_addrs ::= <[Z.to_nat NDIRECT := xint b]> |>)
           else mret din);
    let a := xint (di_addrs din !!! Z.to_nat NDIRECT) in
    indirect ← rsect a;
    let o := (4 * Z.to_nat (fbn - NDIRECT))%nat in
    indirect ← (if get32 indirect o =? 0 then
                  b ← next_block;
                  let indirect := set32 o (xint b) indirect in
                  wsect a indirect ≫= λ _,
                  mret indirect
                else mret indirect);
    mret (din, xint (get32 indirect o)).

(** [while(n > 0)]; [p] is what is left to append. *)
Fixpoint iappend_loop (fuel : nat) (din : dinode) (off : Z) (p : list Z) : M (dinode * Z) :=
  match fuel with
  | O => die
  | S fuel =>
    if 0 <? Z.of_nat (length p) then
      let fbn := off / BSIZE in
      massert (fbn <? MAXFILE) ≫= λ _,
      '(din, x) ← iappend_block din fbn;
      let n1 := Z.min (Z.of_nat (length p)) ((fbn + 1) * BSIZE - off) in
      buf ← rsect x;
      wsect x (splice (Z.to_nat (off - fbn * BSIZE)) (take (Z.to_nat n1) p) buf) ≫= λ _,
      iappend_loop fuel din (u32 (off + n1)) (drop (Z.to_nat n1) p)
    else mret (din, off)
  end.

(** Every iteration takes at least one byte. *)
Definition iappend (inum : Z) (p : list Z) : M unit :=
  din ← rinode inum;
  '(din, off) ← iappend_loop (S (length p)) din (xint (di_size din)) p;
  winode inum (din <| di_size := xint off |>).

Definition dirent (inum : Z) (name : list Z) : list Z :=
  enc_dirent (xshort inum) (strncpy (replicate (Z.to_nat DIRSIZ) 0) name DIRSIZ).

(** [get rid of "user/"], and of a leading underscore. *)
Definition without_user (arg : list Z) : list Z := if strncmp arg (str "user/") 5 =? 0 then drop 5 arg else arg.
Definition without_underscore (name : list Z) : list Z := if byte0 name =? ch "_" then tl name else name.

Fixpoint append_pieces (inum : Z) (pieces : list (list Z)) : M unit :=
  match pieces with
  | [] => mret ()
  | buf :: pieces => iappend inum buf ≫= λ _, append_pieces inum pieces
  end.

(** The input files: their names on the command line and the pieces read. *)
Fixpoint add_files (rootino : Z) (files : list (list Z * list (list Z))) : M unit :=
  match files with
  | [] => mret ()
  | (arg, pieces) :: files =>
    let shortname := without_user arg in
    massert (negb (bool_decide (ch "/" ∈ shortname))) ≫= λ _,
    let shortname := without_underscore shortname in
    inum ← ialloc T_FILE;
    iappend rootino (dirent inum shortname) ≫= λ _,
    append_pieces inum pieces ≫= λ _,
    add_files rootino files
  end.

(** The first part of [main]: every sector is zeroed and the superblock written. *)
Definition format : M unit :=
  (λ s, Some ((), MkMkfs (m_img s) (m_freeinode s) nmeta)) ≫= λ _,
  (λ s, Some ((), MkMkfs (foldl (λ m i, <[i := replicate (Z.to_nat BSIZE) 0]> m) (m_img s) (seqZ 0 FSSIZE)) (m_freeinode s) (m_freeblock s))) ≫= λ _,
  wsect 1 (splice 0 (enc_superblock sb) (replicate (Z.to_nat BSIZE) 0)).

(** The rest: the root directory, the files, and the bitmap. *)
Definition populate (files : list (list Z * list (list Z))) : M unit :=
  rootino ← ialloc T_DIR;
  massert (rootino =? ROOTINO) ≫= λ _,
  iappend rootino (dirent rootino (str ".")) ≫= λ _,
  iappend rootino (dirent rootino (str "..")) ≫= λ _,
  add_files rootino files ≫= λ _,
  din ← rinode rootino;
  let off := xint (di_size din) in
  let off := u32 ((off / BSIZE + 1) * BSIZE) in
  winode rootino (din <| di_size := xint off |>) ≫= λ _,
  s ← (λ s, Some (m_freeblock s, s));
  balloc s.

Definition main (files : list (list Z * list (list Z))) : M unit := format ≫= λ _, populate files.

Definition mkfs_start : mkfs := MkMkfs ∅ 1 0.
