(* ===== verification/MkfsSpec.v ===== *)
(** * The image that mkfs builds

    mkfs appends to files of the image it is building.  Its in-memory state
    refines a map from inode numbers to the type and the bytes of a file; the
    image it leaves satisfies what the kernel's file system relies on (FsSpec.v,
    FileSpec.v), and holds every input file. *)

From S2P Require Import Prelude Memory CString Kernel Kalloc Vm Sched Sleeplock Bio BufList BioSpec Log LogSpec LogGroup.
From S2P Require Import TxnSpec Uart Printf Copy Fs FsSpec FileSpec ULib Mkfs.

Local Notation fssb := Mkfs.sb.

(** ** Views that agree on every block *)

Section same_view.
Context (V V' : Z → list Z).
Hypothesis HV : ∀ b, V b = V' b.

Lemma slot_addr_ext x j : slot_addr V x j = slot_addr V' x j.
Proof. unfold slot_addr. by rewrite HV. Qed.

Lemma used_ext sb n : used V sb n = used V' sb n.
Proof. unfold used. by rewrite HV. Qed.

Lemma fbyte_ext x i : fbyte V x i = fbyte V' x i.
Proof. unfold fbyte. by rewrite slot_addr_ext, HV. Qed.

Lemma mapped_ext x : mapped V x → mapped V' x.
Proof. intros Hm bn H1 H2. rewrite <- slot_addr_ext. by apply Hm. Qed.

Lemma file_ok_ext sb x : file_ok V sb x → file_ok V' sb x.
Proof.
  intros [H1 H2 H3 H4]. split; [done|done| |].
  - intros j Hj. rewrite <- slot_addr_ext. intros Hs. destruct (H3 j Hj Hs). split; [done|]. by rewrite <- used_ext.
  - intros j j' Hj Hj'. rewrite <- !slot_addr_ext. by apply H4.
Qed.

Lemma grows_ext sb j n V0 x x' : grows sb j n V0 x V x' → grows sb j n V0 x V' x'.
Proof.
  intros [G1 G2 G3 G4 G5 G6]. split; try done.
  - intros j' Hj'. rewrite <- slot_addr_ext. by apply G1.
  - intros b Hb. rewrite <- used_ext. by apply G2.
  - by rewrite <- HV.
  - intros b Hb Hn Hi. rewrite <- slot_addr_ext in Hi. rewrite <- HV. by apply G4.
Qed.

Lemma wrote_ext sb off bytes V0 x x' : wrote sb off bytes V0 x V x' → wrote sb off bytes V0 x V' x'.
Proof.
  intros [G1 G2 G3 G4 G5 G6]. split; try done.
  - intros i Hi. rewrite <- fbyte_ext. by apply G1.
  - intros i Hi. rewrite <- slot_addr_ext. by apply G2.
  - intros j Hj Hs. rewrite <- slot_addr_ext. by apply G3.
  - intros b Hb Hu. rewrite <- used_ext. by apply G4.
  - intros b Hb Hu Hn. destruct (G5 b Hb Hu Hn) as [E1 E2]. rewrite <- HV. split; [done|]. intros j Hj. rewrite <- slot_addr_ext. by apply E2.
Qed.
End same_view.

(** ** The image as the kernel sees it *)

Definition zeros : list Z := replicate (Z.to_nat BSIZE) 0.
Definition img_view (s : mkfs) (b : Z) : list Z := default zeros (m_img s !! b).

(** The image with the bitmap that [balloc] will write at the end. *)
Definition W (s : mkfs) : Z → list Z := <[sb_bmapstart fssb := bitmap_of (m_freeblock s)]> (img_view s).

Lemma fssb_eq : fssb = MkSuperblock FSMAGIC 2000 1954 200 30 2 32 45.
Proof. reflexivity. Qed.

Lemma fssb_ok : sb_ok fssb.
Proof. rewrite fssb_eq. by split. Qed.

Lemma xint_u32 x : 0 <= x < 2 ^ 32 → xint x = x.
Proof.
  intros Hx. unfold xint. cbn [le_dec]. rewrite !Z.shiftr_div_pow2 by done.
  change (2 ^ 8) with 256. change (2 ^ 16) with (256 * 256). change (2 ^ 24) with (256 * 256 * 256).
  rewrite <- !Z.div_div by done. change (2 ^ 32) with (256 * (256 * (256 * 256))) in Hx.
  pose proof (Z.div_mod x 256 ltac:(done)). pose proof (Z.div_mod (x / 256) 256 ltac:(done)).
  pose proof (Z.div_mod (x / 256 / 256) 256 ltac:(done)). rewrite (Z.mod_small (x / 256 / 256 / 256)); [lia|].
  split; [repeat apply Z.div_pos; lia|]. repeat (apply Z.div_lt_upper_bound; [done|]). lia.
Qed.

(** *** The bitmap *)

Lemma bitmap_succ k : 0 <= k → Forall is_byte (bitmap_of k) ∧ length (bitmap_of k) = Z.to_nat BSIZE ∧ bitmap_of (k + 1) = set_bit k (bitmap_of k).
Proof.
  intros Hk. assert (∀ k, 0 <= k → bitmap_of (k + 1)
    = alter (λ x, u8 (Z.lor x (Z.shiftl 1 (k mod 8)))) (Z.to_nat (k / 8)) (bitmap_of k)) as Hs.
  { intros k' Hk'. unfold bitmap_of. rewrite seqZ_app, foldl_app by lia. rewrite Z.add_0_l. change (seqZ k' 1) with [k']. done. }
  assert (Forall is_byte (bitmap_of k) ∧ length (bitmap_of k) = Z.to_nat BSIZE) as [H1 H2].
  { revert k Hk. apply natlike_ind.
    - split; [|done]. apply Forall_replicate. done.
    - intros x Hx [IH1 IH2]. unfold Z.succ. rewrite Hs by done. split; [|by rewrite length_alter].
      apply Forall_alter; [done|]. intros y _ _. apply (Z.mod_pos_bound _ 256). done. }
  split; [done|]. split; [done|]. rewrite Hs by done. unfold set_bit. apply alter_ext_at. intros y Hy.
  eapply Forall_lookup_1 in H1 as Hb; [|exact Hy]. pose proof (Z.mod_pos_bound k 8 ltac:(done)).
  apply Z.mod_small. split; [apply Z.lor_nonneg; unfold is_byte in Hb; rewrite Z.shiftl_nonneg; lia|].
  apply Z.log2_lt_cancel. change (Z.log2 (2 ^ 8)) with 8.
  rewrite Z.log2_lor by (unfold is_byte in Hb; rewrite ?Z.shiftl_nonneg; lia).
  rewrite Z.shiftl_1_l, Z.log2_pow2 by lia. destruct (Z.eq_dec y 0) as [->|Hy0]; [simpl; lia|].
  assert (Z.log2 y < 8); [|lia]. apply Z.log2_lt_pow2; unfold is_byte in Hb; lia.
Qed.

Lemma bitmap_bit k b : 0 <= k <= 8192 → 0 <= b < 8192 → bit_of (bitmap_of k) b = (b <? k).
Proof.
  intros [Hk Hk2] Hb. revert k Hk Hk2. apply (natlike_ind (λ k, k <= 8192 → bit_of (bitmap_of k) b = (b <? k))).
  - intros _. rewrite (proj2 (Z.ltb_ge b 0)) by lia. change (bitmap_of 0) with (replicate (Z.to_nat BSIZE) 0). unfold bit_of.
    rewrite lookup_total_replicate_2; [apply Z.bits_0|]. change (Z.to_nat BSIZE) with 1024%nat.
    assert (b / 8 < 1024) by (apply Z.div_lt_upper_bound; lia). pose proof (Z.div_pos b 8 ltac:(lia) ltac:(done)). lia.
  - intros k Hk IH Hmax. destruct (bitmap_succ k Hk) as (_ & Hl & Es). unfold Z.succ in *. rewrite Es, bit_of_set_bit by (rewrite ?Hl; change (Z.of_nat (Z.to_nat BSIZE)) with 1024; lia).
    rewrite IH by lia. destruct (decide (b = k)) as [->|]; [symmetry; apply Z.ltb_lt; lia|].
    destruct (Z.ltb_spec b k), (Z.ltb_spec b (k + 1)); lia || done.
Qed.

(** ** The invariant of the image *)

Lemma M_bind_inv {A B} (c : M A) (f : A → M B) s r s' :
  (c ≫= f) s = Some (r, s') → ∃ a s1, c s = Some (a, s1) ∧ f a s1 = Some (r, s').
Proof. unfold mbind, M_bind. intros E. apply bind_Some in E as ([a s1] & E1 & E2). by exists a, s1. Qed.

Ltac minv_bind H := let E := fresh "E" in apply M_bind_inv in H as (? & ? & E & H).

(** All sectors are there; those from [freeblock] on are zero. *)
Record core (s : mkfs) : Prop := {
  co_dom : ∀ b, is_Some (m_img s !! b) ↔ 0 <= b < FSSIZE;
  co_len : ∀ b buf, m_img s !! b = Some buf → length buf = Z.to_nat BSIZE;
  co_free : nmeta <= m_freeblock s <= FSSIZE;
  co_zero : ∀ b, m_freeblock s <= b → img_view s b = zeros
}.

Lemma img_len s b : core s → length (img_view s b) = Z.to_nat BSIZE.
Proof.
  intros Hc. unfold img_view. destruct (m_img s !! b) as [buf|] eqn:E; [by eapply co_len|]. apply length_replicate.
Qed.

Lemma img_lookup s b buf : m_img s !! b = Some buf → img_view s b = buf.
Proof. intros E. unfold img_view. by rewrite E. Qed.

Lemma W_data s b : b ≠ 45 → W s b = img_view s b.
Proof. intros Hb. apply fn_lookup_insert_ne. rewrite fssb_eq. cbn. congruence. Qed.

Lemma W_len s : core s → blocks_ok (W s).
Proof.
  intros Hc b. unfold W. destruct (decide (b = sb_bmapstart fssb)) as [->|Hb].
  - rewrite fn_lookup_insert. destruct (bitmap_succ (m_freeblock s)) as (_ & Hl & _); [|done].
    destruct (co_free _ Hc). change nmeta with 46 in *. lia.
  - rewrite fn_lookup_insert_ne by done. by apply img_len.
Qed.

Lemma BBLOCK_45 b : 0 <= b < 8192 → BBLOCK b fssb = 45 ∧ b mod BPB = b.
Proof.
  intros Hb. rewrite fssb_eq. unfold BBLOCK. cbn [sb_bmapstart]. change BPB with 8192.
  rewrite Z.div_small, Z.mod_small by lia. done.
Qed.

Lemma W_used s b : core s → 0 <= b < FSSIZE → used (W s) fssb b = (b <? m_freeblock s).
Proof.
  intros Hc Hb. change FSSIZE with 2000 in Hb. destruct (BBLOCK_45 b ltac:(lia)) as [E1 E2]. unfold used, W. rewrite E1, E2.
  change (sb_bmapstart fssb) with 45. rewrite fn_lookup_insert. destruct (co_free _ Hc). change FSSIZE with 2000 in *. change nmeta with 46 in *.
  apply bitmap_bit; lia.
Qed.

(** [freeblock++] as long as there are blocks. *)
Definition bump (s : mkfs) : mkfs := MkMkfs (m_img s) (m_freeinode s) (m_freeblock s + 1).

Lemma bump_core s : core s → m_freeblock s < FSSIZE → core (bump s) ∧ allocs fssb (m_freeblock s) (W s) (W (bump s)).
Proof.
  intros Hc Hlt. pose proof Hc as [H1 H2 H3 H4]. assert (core (bump s)) as Hc'.
  { split; [done|done|cbn [bump m_freeblock]; lia|]. intros b Hb. apply H4. cbn [bump m_freeblock] in Hb. lia. }
  split; [done|]. change nmeta with 46 in H3. change FSSIZE with 2000 in *.
  assert (∀ b, b ≠ 45 → W (bump s) b = W s b) as Hw by (intros b Hb; by rewrite !W_data).
  split.
  - rewrite fssb_eq. unfold dstart. cbn [sb_size sb_nblocks]. lia.
  - rewrite W_used by (done || change FSSIZE with 2000; lia). apply Z.ltb_ge. lia.
  - intros b Hb. change (sb_size fssb) with 2000 in Hb. rewrite !W_used by (done || change FSSIZE with 2000; lia). cbn [bump m_freeblock].
    destruct (decide (b = m_freeblock s)) as [->|]; [apply Z.ltb_lt; lia|].
    destruct (Z.ltb_spec b (m_freeblock s)), (Z.ltb_spec b (m_freeblock s + 1)); lia || done.
  - rewrite W_data by lia. apply H4. lia.
  - intros b Hb Hd. apply Hw. change (dstart fssb) with 46 in Hd. lia.
Qed.

(** Storing a sector that is in use. *)
Definition put (b : Z) (buf : list Z) (s : mkfs) : mkfs := MkMkfs (<[b := buf]> (m_img s)) (m_freeinode s) (m_freeblock s).

Lemma put_view b buf s c : img_view (put b buf s) c = if decide (c = b) then buf else img_view s c.
Proof.
  unfold img_view. cbn [put m_img]. destruct (decide (c = b)) as [->|]; [by rewrite lookup_insert_eq|by rewrite lookup_insert_ne].
Qed.

Lemma put_core b buf s :
  core s → 0 <= b < m_freeblock s → b ≠ 45 → length buf = Z.to_nat BSIZE →
  core (put b buf s) ∧ ∀ c, (<[b := buf]> (W s)) c = W (put b buf s) c.
Proof.
  intros [H1 H2 H3 H4] Hb Hne Hl. split; [split|].
  - intros c. cbn [put m_img]. destruct (decide (c = b)) as [->|].
    + rewrite lookup_insert_eq. split; [lia|by eauto].
    + rewrite lookup_insert_ne by done. apply H1.
  - intros c buf'. cbn [put m_img]. destruct (decide (c = b)) as [->|]; [rewrite lookup_insert_eq; by intros [= <-]|].
    rewrite lookup_insert_ne by done. apply H2.
  - done.
  - intros c Hc. cbn [put m_freeblock] in Hc. rewrite put_view, decide_False by lia. by apply H4.
  - intros c. destruct (decide (c = 45)) as [->|Hc].
    + rewrite fn_lookup_insert_ne by congruence. unfold W. by rewrite !fn_lookup_insert.
    + rewrite (W_data (put b buf s)), put_view by done. destruct (decide (c = b)) as [->|]; [by rewrite fn_lookup_insert|].
      rewrite fn_lookup_insert_ne by congruence. by apply W_data.
Qed.

(** ** The block of a file *)

(** The inode that the kernel would make of a dinode. *)
Definition xino (inum : Z) (d : dinode) : inode :=
  MkInode ROOTDEV inum 0 (MkSleeplock 0 0) 1 (di_type d) (di_major d) (di_minor d) (di_nlink d) (di_size d) (di_addrs d).

(** A step that may allocate blocks but leaves the metadata alone. *)
Record mstep (s s' : mkfs) : Prop := {
  ms_inode : m_freeinode s' = m_freeinode s;
  ms_free : m_freeblock s <= m_freeblock s';
  ms_meta : ∀ b, b < nmeta → img_view s' b = img_view s b
}.

Lemma mstep_refl s : mstep s s.
Proof. by split. Qed.

Lemma mstep_trans s1 s2 s3 : mstep s1 s2 → mstep s2 s3 → mstep s1 s3.
Proof. intros [A1 A2 A3] [B1 B2 B3]. split; [congruence|lia|]. intros b Hb. rewrite B3 by done. by apply A3. Qed.

Lemma addr_small s i d j : core s → file_ok (W s) fssb (xino i d) → 0 <= j <= NDIRECT → xint (di_addrs d !!! Z.to_nat j) = di_addrs d !!! Z.to_nat j.
Proof.
  intros Hc Hf Hj. apply xint_u32. pose proof (dinode_ok_addrs fssb fssb_ok _ _ Hf) as Ha. cbn [xino i_addrs] in Ha.
  eapply Forall_lookup_total_1 in Ha; [exact Ha|]. pose proof (fo_len _ _ _ Hf) as Hl. cbn [xino i_addrs] in Hl. unfold NDIRECT in Hj. lia.
Qed.

Lemma next_block_inv s b s' : core s → next_block s = Some (b, s') → b = m_freeblock s ∧ s' = bump s ∧ xint b = b.
Proof.
  intros Hc [= <- <-]. destruct (co_free _ Hc) as [H1 H2]. change nmeta with 46 in H1. change FSSIZE with 2000 in H2.
  split; [done|]. split; [unfold bump; by rewrite u32_small by lia|apply xint_u32; lia].
Qed.

(** A new address in the inode. *)
Lemma ensure_slot i j d d' s s' :
  core s → file_ok (W s) fssb (xino i d) → 0 <= j <= NDIRECT →
  (if xint (di_addrs d !!! Z.to_nat j) =? 0 then b ← next_block; mret (d <| di_addrs ::= <[Z.to_nat j := xint b]> |>) else mret d) s = Some (d', s') →
  is_Some (m_img s' !! (di_addrs d' !!! Z.to_nat j)) →
  core s' ∧ mstep s s' ∧ file_ok (W s') fssb (xino i d') ∧ extends fssb (W s) (xino i d) (W s') (xino i d')
  ∧ di_addrs d' !!! Z.to_nat j ≠ 0.
Proof.
  intros Hc Hf Hj E Hx. rewrite (addr_small _ _ _ _ Hc Hf Hj) in E.
  destruct (Z.eqb_spec (di_addrs d !!! Z.to_nat j) 0) as [Hz|Hnz].
  - minv_bind E. injection E as <- <-. destruct (next_block_inv _ _ _ Hc E0) as (-> & -> & Eb). rewrite Eb in *.
    assert ((di_addrs (d <| di_addrs ::= <[Z.to_nat j:=m_freeblock s]> |>)) !!! Z.to_nat j = m_freeblock s) as En.
    { rsimpl. apply list_lookup_total_insert_eq. pose proof (fo_len _ _ _ Hf) as Hl. cbn [xino i_addrs] in Hl. unfold NDIRECT in Hj. lia. }
    rewrite En in Hx. apply (co_dom _ Hc) in Hx as [_ Hlt]. destruct (bump_core s Hc Hlt) as [Hc' Hal].
    pose proof (al_data _ _ _ _ Hal) as Hd. assert (0 < dstart fssb) as Hd0 by done.
    assert (slot_addr (W s) (xino i d) j = 0) as Hs0.
    { unfold slot_addr. rewrite (proj2 (Z.leb_le j NDIRECT)) by lia. exact Hz. }
    pose proof (grow_direct fssb j _ _ _ (xino i d) Hal Hf Hs0 Hd0 Hj) as Hg.
    change ((xino i d) <| i_addrs ::= <[Z.to_nat j:=m_freeblock s]> |>) with (xino i (d <| di_addrs ::= <[Z.to_nat j:=m_freeblock s]> |>)) in Hg.
    assert (0 <= j < NSLOT) as Hjr by (change NSLOT with 269; unfold NDIRECT in Hj; lia). pose proof (al_free _ _ _ _ Hal) as Hfr.
    split; [done|]. split; [split; [done|cbn [bump m_freeblock]; lia|done]|].
    split; [by eapply grow_file_ok|]. split; [by eapply grow_extends|]. rewrite En. change (dstart fssb) with 46 in Hd. lia.
  - injection E as <- <-. split; [done|]. split; [apply mstep_refl|]. split; [done|]. split; [apply extends_refl|done].
Qed.

(** A new entry of the indirect block. *)
Lemma ensure_entry i j d s indirect' s' :
  core s → file_ok (W s) fssb (xino i d) → NDIRECT < j < NSLOT →
  let a := di_addrs d !!! Z.to_nat NDIRECT in let o := (4 * Z.to_nat (j - NDIRECT - 1))%nat in
  a ≠ 0 →
  (if get32 (img_view s a) o =? 0 then
     b ← next_block;
     wsect a (set32 o (xint b) (img_view s a)) ≫= λ _,
     mret (set32 o (xint b) (img_view s a))
   else mret (img_view s a)) s = Some (indirect', s') →
  is_Some (m_img s' !! xint (get32 indirect' o)) →
  core s' ∧ mstep s s' ∧ file_ok (W s') fssb (xino i d) ∧ extends fssb (W s) (xino i d) (W s') (xino i d)
  ∧ xint (get32 indirect' o) = slot_addr (W s') (xino i d) j ∧ slot_addr (W s') (xino i d) j ≠ 0.
Proof.
  intros Hc Hf Hj a o Ha E Hx. assert (0 < dstart fssb) as Hd0 by done.
  assert (0 <= j < NSLOT) as Hjr by (change NDIRECT with 12 in Hj; lia).
  destruct (fo_data _ _ _ Hf NDIRECT ltac:(done) Ha) as [Hda Hua]. change (slot_addr (W s) (xino i d) NDIRECT) with a in Hda, Hua.
  change (dstart fssb) with 46 in Hda. change (sb_size fssb) with 2000 in Hda.
  rewrite W_used in Hua by (done || change FSSIZE with 2000; lia). apply Z.ltb_lt in Hua.
  assert (slot_addr (W s) (xino i d) j = get32 (img_view s a) o) as Es.
  { unfold slot_addr. rewrite (proj2 (Z.leb_gt j NDIRECT)) by lia. change (i_addrs (xino i d) !!! Z.to_nat NDIRECT) with a.
    rewrite (proj2 (Z.eqb_neq a 0) Ha). by rewrite W_data by lia. }
  assert (length (img_view s a) = 1024%nat) as Hla by (by apply img_len).
  assert (o + 4 <= 1024)%nat as Ho by (unfold o; change NSLOT with 269 in Hj; change NDIRECT with 12 in *; lia).
  rewrite <- Es in E. destruct (Z.eqb_spec (slot_addr (W s) (xino i d) j) 0) as [Hz|Hnz].
  - minv_bind E. minv_bind E. injection E as <- <-. destruct (next_block_inv _ _ _ Hc E0) as (-> & -> & Eb). rewrite Eb in *.
    assert (x2 = put a (set32 o (m_freeblock s) (img_view s a)) (bump s)) as -> by (injection E1 as _ <-; done). clear E1.
    destruct (co_free _ Hc) as [F1 F2]. change nmeta with 46 in F1. change FSSIZE with 2000 in F2.
    rewrite get32_set32, u32_small, Eb in Hx by lia.
    assert (m_freeblock s < FSSIZE) as Hlt.
    { cbn [put bump m_img] in Hx. rewrite lookup_insert_ne in Hx by lia. by apply (co_dom _ Hc) in Hx as [_ Hx]. }
    destruct (bump_core s Hc Hlt) as [Hc1 Hal]. pose proof (al_data _ _ _ _ Hal) as Hd. pose proof (al_free _ _ _ _ Hal) as Hfr.
    destruct (put_core a (set32 o (m_freeblock s) (img_view s a)) (bump s) Hc1) as [Hc2 Hw];
      [cbn [bump m_freeblock]; lia|lia|rewrite length_set32; [done|lia]|].
    pose proof (grow_indirect fssb j _ _ _ (xino i d) fssb_ok (W_len _ Hc) Hal Hf Hz Hd0 Hj Ha) as Hg.
    change (ind_block (xino i d)) with a in Hg. rewrite (W_data s a) in Hg by lia. fold o in Hg. apply (grows_ext _ _ Hw) in Hg.
    split; [done|]. split.
    { split; [done|cbn [put bump m_freeblock]; lia|]. intros b Hb. rewrite put_view, decide_False; [done|]. change nmeta with 46 in Hb. lia. }
    split; [by eapply grow_file_ok|]. split; [by eapply grow_extends|].
    rewrite (gr_slot _ _ _ _ _ _ _ Hg) by done. rewrite decide_True by done. rewrite get32_set32, u32_small, Eb by lia. split; [done|].
    change (dstart fssb) with 46 in Hd. lia.
  - injection E as <- <-. split; [done|]. split; [apply mstep_refl|]. split; [done|]. split; [apply extends_refl|]. split; [|done].
    rewrite <- Es. apply xint_u32. destruct (fo_data _ _ _ Hf j Hjr Hnz) as [Hdj _]. change (sb_size fssb) with 2000 in Hdj. change (dstart fssb) with 46 in Hdj. lia.
Qed.

Lemma rsect_inv b s buf s' : rsect b s = Some (buf, s') → s' = s ∧ m_img s !! b = Some buf.
Proof. unfold rsect. destruct (m_img s !! b); [|done]. by intros [= <- <-]. Qed.

Lemma iappend_block_spec i d fbn s d' x s' :
  core s → file_ok (W s) fssb (xino i d) → 0 <= fbn < MAXFILE →
  iappend_block d fbn s = Some ((d', x), s') → is_Some (m_img s' !! x) →
  core s' ∧ mstep s s' ∧ file_ok (W s') fssb (xino i d') ∧ extends fssb (W s) (xino i d) (W s') (xino i d')
  ∧ x = slot_addr (W s') (xino i d') (slot_of fbn) ∧ x ≠ 0.
Proof.
  intros Hc Hf Hfbn E Hx. unfold iappend_block in E. unfold slot_of. change MAXFILE with 268 in Hfbn.
  destruct (Z.ltb_spec fbn NDIRECT) as [Hlt|Hge].
  - minv_bind E. injection E as -> <- ->.
    assert (∀ d1 s1, core s1 → file_ok (W s1) fssb (xino i d1) → xint (di_addrs d1 !!! Z.to_nat fbn) = di_addrs d1 !!! Z.to_nat fbn) as Hsm
      by (intros; eapply addr_small; [done|done|lia]).
    assert (xint (di_addrs d' !!! Z.to_nat fbn) = di_addrs d' !!! Z.to_nat fbn) as Exi.
    { clear Hx. pose proof E0 as E1. rewrite (Hsm _ _ Hc Hf) in E1. destruct (Z.eqb_spec (di_addrs d !!! Z.to_nat fbn) 0); [|injection E1 as <- _; by eapply Hsm].
      minv_bind E1. injection E1 as <- _. destruct (next_block_inv _ _ _ Hc E) as (-> & _ & Eb). rsimpl. rewrite Eb.
      rewrite list_lookup_total_insert_eq; [done|]. pose proof (fo_len _ _ _ Hf) as Hl. cbn [xino i_addrs] in Hl. unfold NDIRECT in *. lia. }
    rewrite Exi in *. destruct (ensure_slot i fbn d d' s s' Hc Hf ltac:(lia) E0 Hx) as (Hc' & Hm & Hf' & He & Hn0).
    split; [done|]. split; [done|]. split; [done|]. split; [done|]. split; [|done].
    unfold slot_addr. by rewrite (proj2 (Z.leb_le fbn NDIRECT)) by lia.
  - minv_bind E. minv_bind E. apply rsect_inv in E1 as [-> Eind]. minv_bind E. injection E as -> <- ->.
    assert (is_Some (m_img x1 !! (di_addrs d' !!! Z.to_nat NDIRECT)) ∧ xint (di_addrs d' !!! Z.to_nat NDIRECT) = di_addrs d' !!! Z.to_nat NDIRECT) as [Hxa Exa].
    { pose proof E0 as E2. rewrite (addr_small _ _ _ NDIRECT Hc Hf) in E2 by done. destruct (Z.eqb_spec (di_addrs d !!! Z.to_nat NDIRECT) 0).
      - minv_bind E2. injection E2 as <- <-. destruct (next_block_inv _ _ _ Hc E) as (-> & -> & Eb). rewrite Eb in Eind. rsimpl in Eind. rsimpl.
        rewrite list_lookup_total_insert_eq in * by (pose proof (fo_len _ _ _ Hf) as Hl; cbn [xino i_addrs] in Hl; unfold NDIRECT in *; lia).
        rewrite Eb in *. by eauto.
      - injection E2 as <- <-. rewrite (addr_small _ _ _ NDIRECT Hc Hf) in Eind |- * by done. by eauto. }
    destruct (ensure_slot i NDIRECT d d' s x1 Hc Hf ltac:(done) E0 Hxa) as (Hc1 & Hm1 & Hf1 & He1 & Hn1).
    rewrite Exa in Eind, E1. pose proof (img_lookup _ _ _ Eind) as Ev. rewrite <- Ev in E1.
    change (fbn - NDIRECT) with (fbn - 12) in *. replace (fbn - 12) with (fbn + 1 - NDIRECT - 1) in * by (change NDIRECT with 12; lia).
    destruct (ensure_entry i (fbn + 1) d' x1 _ _ Hc1 Hf1 ltac:(change NSLOT with 269; lia) Hn1 E1 Hx) as (Hc2 & Hm2 & Hf2 & He2 & Ex & Hn2).
    split; [done|]. split; [by eapply mstep_trans|]. split; [done|]. split; [by eapply extends_trans|]. rewrite <- Ex in Hn2. done.
Qed.

(** ** Appending *)

Lemma iappend_loop_spec i fuel : ∀ d off p s d' off' s',
  core s → file_ok (W s) fssb (xino i d) → 0 <= off <= MAXFILE * BSIZE →
  iappend_loop fuel d off p s = Some ((d', off'), s') →
  off' = off + Z.of_nat (length p) ∧ off' <= MAXFILE * BSIZE ∧ core s' ∧ mstep s s' ∧ file_ok (W s') fssb (xino i d')
  ∧ wrote fssb off p (W s) (xino i d) (W s') (xino i d').
Proof.
  assert (MAXFILE * BSIZE = 274432) as EM by done.
  induction fuel as [|fuel IH]; intros d off p s d' off' s' Hc Hf Hoff E; [done|]. cbn [iappend_loop] in E.
  destruct (Z.ltb_spec 0 (Z.of_nat (length p))) as [Hp|Hp].
  2: { injection E as <- <- <-. assert (p = []) as -> by (apply nil_length_inv; lia). split; [simpl; lia|]. split; [lia|].
       split; [done|]. split; [apply mstep_refl|]. split; [done|]. apply extends_wrote, extends_refl. }
  apply M_bind_inv in E as (u0 & s0 & E0 & E). unfold massert in E0. destruct (Z.ltb_spec (off / BSIZE) MAXFILE) as [Hfbn|]; [|done]. injection E0 as _ <-.
  pose proof (Z.div_pos off BSIZE ltac:(lia) ltac:(done)) as Hdp. pose proof (Z.div_mod off BSIZE ltac:(done)) as Hdm.
  pose proof (Z.mod_pos_bound off BSIZE ltac:(done)) as Hmb.
  apply M_bind_inv in E as ([d1 x] & x1 & E0 & E). apply M_bind_inv in E as (buf & s2 & E1 & E). apply rsect_inv in E1 as [-> Ebuf].
  apply M_bind_inv in E as (u1 & s2 & E1 & E). injection E1 as _ Es2. symmetry in Es2.
  destruct (iappend_block_spec i d (off / BSIZE) s d1 x x1 Hc Hf ltac:(lia) E0 ltac:(by eauto)) as (Hc1 & Hm1 & Hf1 & He1 & Ex & Hnz).
  set (n1 := Z.min (Z.of_nat (length p)) ((off / BSIZE + 1) * BSIZE - off)) in *.
  replace (off - off / BSIZE * BSIZE) with (off mod BSIZE) in * by lia.
  assert (0 < n1 ∧ n1 <= Z.of_nat (length p) ∧ off mod BSIZE + n1 <= BSIZE ∧ off + n1 <= 274432) as (Hn1 & Hn2 & Hn3 & Hn4).
  { unfold n1. change MAXFILE with 268 in Hfbn. change BSIZE with 1024 in *. lia. }
  assert (length (take (Z.to_nat n1) p) = Z.to_nat n1) as Hlt by (rewrite length_take; lia).
  pose proof (img_lookup _ _ _ Ebuf) as Ev. rewrite <- Ev in Es2.
  destruct (slot_of_range (off / BSIZE) ltac:(lia)) as [Hsr _]. rewrite Ex in Hnz. destruct (fo_data _ _ _ Hf1 _ Hsr Hnz) as [Hd Hu]. rewrite <- Ex in Hd, Hu, Hnz.
  change (dstart fssb) with 46 in Hd. change (sb_size fssb) with 2000 in Hd. rewrite W_used in Hu by (done || change FSSIZE with 2000; lia). apply Z.ltb_lt in Hu.
  assert (W x1 x = img_view x1 x) as EW by (apply W_data; lia).
  pose proof (bw_wrote fssb (W x1) (xino i d1) off (take (Z.to_nat n1) p) fssb_ok (W_len _ Hc1) Hf1 ltac:(done) ltac:(lia) Hfbn ltac:(lia)) as Hbw.
  pose proof (bw_file_ok fssb (W x1) (xino i d1) off (take (Z.to_nat n1) p) fssb_ok Hf1 ltac:(done) ltac:(lia) Hfbn) as Hbf.
  rewrite <- Ex, EW in Hbw, Hbf. specialize (Hbw Hnz). specialize (Hbf Hnz).
  destruct (put_core x (splice (Z.to_nat (off mod BSIZE)) (take (Z.to_nat n1) p) (img_view x1 x)) x1 Hc1) as [Hc2 Hw2]; [lia|lia| |].
  { rewrite length_splice; [by apply img_len|]. rewrite (img_len _ _ Hc1), Hlt. change BSIZE with 1024 in *. lia. }
  apply (wrote_ext _ _ Hw2) in Hbw. apply (file_ok_ext _ _ Hw2) in Hbf. fold (put x (splice (Z.to_nat (off mod BSIZE)) (take (Z.to_nat n1) p) (img_view x1 x)) x1) in Es2.
  rewrite <- Es2 in Hc2, Hbw, Hbf. rewrite u32_small in E by lia.
  destruct (IH d1 (off + n1) (drop (Z.to_nat n1) p) _ d' off' s' Hc2 Hbf ltac:(lia) E) as (Eo & Ho & Hc3 & Hm3 & Hf3 & Hw3).
  rewrite length_drop in Eo. split; [lia|]. split; [done|]. split; [done|]. split; [|split; [done|]].
  - eapply mstep_trans; [exact Hm1|]. eapply mstep_trans; [|exact Hm3]. rewrite Es2. split; [done|done|].
    intros b Hb. rewrite put_view, decide_False; [done|]. change nmeta with 46 in Hb. lia.
  - pose proof (wrote_trans fssb off (take (Z.to_nat n1) p) (drop (Z.to_nat n1) p) (W s) (xino i d) (W s2) (xino i d1) (W s') (xino i d')) as Ht.
    rewrite take_drop, Hlt, length_drop, Z2Nat.id in Ht by lia. apply Ht; [|done|lia|lia].
    apply (wrote_trans fssb off [] (take (Z.to_nat n1) p) _ _ (W x1) (xino i d1)); [by apply extends_wrote| |lia|cbn [length]; lia].
    simpl length. rewrite Z.add_0_r. exact Hbw.
Qed.

(** ** Storing inodes *)

Lemma IBLOCK_eq i : 0 <= i < NINODES → IBLOCK i fssb = i / 16 + 32 ∧ 32 <= i / 16 + 32 < 45.
Proof.
  intros Hi. change NINODES with 200 in Hi. rewrite fssb_eq. unfold IBLOCK. cbn [sb_inodestart]. change IPB with 16.
  pose proof (Z.div_pos i 16 ltac:(lia) ltac:(done)). assert (i / 16 < 13) by (apply Z.div_lt_upper_bound; lia).
  rewrite u32_small by lia. lia.
Qed.

(** Two inodes in one block are 64 bytes apart. *)
Lemma get_dinode_other (o o' : nat) d data :
  length (enc_dinode d) = 64%nat → (o + 64 <= length data)%nat → (o' + 64 <= o ∨ o + 64 <= o')%nat →
  get_dinode (splice o (enc_dinode d) data) o' = get_dinode data o'.
Proof.
  intros Hl Ho Hd. unfold get_dinode, get16, get32.
  assert (∀ k n, (k + n <= 64)%nat → take n (drop (o' + k) (splice o (enc_dinode d) data)) = take n (drop (o' + k) data)) as E.
  { intros k n Hk. apply take_drop_splice_disj; rewrite ?Hl; lia. }
  rewrite <- (Nat.add_0_r o') at 1. rewrite !E by lia. rewrite Nat.add_0_r. f_equal. apply list_fmap_ext.
  intros k j Hj. apply lookup_seq in Hj as [-> Hj]. f_equal. rewrite <- Nat.add_assoc. apply E. lia.
Qed.

Lemma dinode_off_apart i i' : 0 <= i → 0 <= i' → i ≠ i' → i / 16 = i' / 16 → (dinode_off i' + 64 <= dinode_off i ∨ dinode_off i + 64 <= dinode_off i')%nat.
Proof.
  intros Hi Hi' Hne He. unfold dinode_off. change IPB with 16. change DINODE_SIZE with 64.
  pose proof (Z.div_mod i 16 ltac:(done)). pose proof (Z.div_mod i' 16 ltac:(done)).
  pose proof (Z.mod_pos_bound i 16 ltac:(done)). pose proof (Z.mod_pos_bound i' 16 ltac:(done)). lia.
Qed.

Lemma winode_spec i d s s' :
  core s → 0 <= i < NINODES → dinode_ok d → winode i d s = Some ((), s') →
  core s' ∧ (∀ b, (<[IBLOCK i fssb := img_view s' (IBLOCK i fssb)]> (W s)) b = W s' b) ∧ m_freeinode s' = m_freeinode s ∧ m_freeblock s' = m_freeblock s
  ∧ (∀ b, b < 32 → img_view s' b = img_view s b)
  ∧ ∀ i', 0 <= i' < NINODES → disk_inode fssb (img_view s') i' = if decide (i' = i) then d else disk_inode fssb (img_view s) i'.
Proof.
  intros Hc Hi Hd E. destruct (IBLOCK_eq i Hi) as [Eb Hb]. unfold winode in E. minv_bind E. apply rsect_inv in E0 as [-> Ebuf].
  assert (s' = put (IBLOCK i fssb) (splice (dinode_off i) (enc_dinode d) (img_view s (IBLOCK i fssb))) s) as ->.
  { rewrite (img_lookup _ _ _ Ebuf). injection E as <-. done. }
  clear E. pose proof (length_enc_dinode d (do_len _ Hd)) as Hl. pose proof (dinode_off_range i) as Ho.
  pose proof (img_len s (IBLOCK i fssb) Hc) as Hlen. destruct (co_free _ Hc) as [F1 F2]. change nmeta with 46 in F1.
  set (buf := splice (dinode_off i) (enc_dinode d) (img_view s (IBLOCK i fssb))).
  assert (length buf = Z.to_nat BSIZE) as Hlb by (unfold buf; rewrite length_splice; [done|rewrite Hlen, Hl; done]).
  destruct (put_core (IBLOCK i fssb) buf s Hc ltac:(lia) ltac:(lia) Hlb) as [Hc' Hw].
  split; [done|]. split; [|split; [done|split; [done|split]]].
  - intros b. rewrite put_view, decide_True by done. apply Hw.
  - intros b Hb2. rewrite put_view, decide_False by lia. done.
  - intros i' Hi'. destruct (IBLOCK_eq i' Hi') as [Eb' Hb']. unfold disk_inode. rewrite put_view.
    destruct (decide (i' = i)) as [->|Hne].
    + rewrite decide_True by done. apply dinode_roundtrip; [done|]. by rewrite Hlen.
    + destruct (decide (IBLOCK i' fssb = IBLOCK i fssb)) as [Es|]; [|done]. rewrite Es. apply get_dinode_other; [done|by rewrite Hlen|].
      apply dinode_off_apart; lia.
Qed.

(** ** Refinement

    The abstract state: the type and the bytes of every inode made so far. *)

Notation files := (gmap Z (Z * list Z)).

Record file_is (s : mkfs) (i ty : Z) (bs : list Z) : Prop := {
  fs_type : di_type (disk_inode fssb (img_view s) i) = ty;
  fs_size : di_size (disk_inode fssb (img_view s) i) = Z.of_nat (length bs);
  fs_max : Z.of_nat (length bs) <= MAXFILE * BSIZE;
  fs_dinode : dinode_ok (disk_inode fssb (img_view s) i);
  fs_ok : file_ok (W s) fssb (xino i (disk_inode fssb (img_view s) i));
  fs_mapped : mapped (W s) (xino i (disk_inode fssb (img_view s) i));
  fs_bytes : ∀ k, (k < length bs)%nat → fbyte (W s) (xino i (disk_inode fssb (img_view s) i)) (Z.of_nat k) = bs !!! k
}.

(** Two inodes share no block. *)
Definition apart (V : Z → list Z) (x y : inode) : Prop :=
  ∀ j j', 0 <= j < NSLOT → 0 <= j' < NSLOT → slot_addr V y j' ≠ 0 → slot_addr V x j ≠ slot_addr V y j'.

Record refines (s : mkfs) (fs : files) : Prop := {
  rf_core : core s;
  rf_next : 1 <= m_freeinode s <= NINODES;
  rf_dom : ∀ i, is_Some (fs !! i) ↔ 1 <= i < m_freeinode s;
  rf_file : ∀ i ty bs, fs !! i = Some (ty, bs) → file_is s i ty bs;
  rf_apart : ∀ i i', is_Some (fs !! i) → is_Some (fs !! i') → i ≠ i' →
    apart (W s) (xino i (disk_inode fssb (img_view s) i)) (xino i' (disk_inode fssb (img_view s) i'));
  rf_super : img_view s 1 = splice 0 (enc_superblock fssb) zeros
}.

(** Writing one file leaves a file that shares no block with it as it was. *)
Section other.
Context (sb : superblock) (off : Z) (bytes : list Z) (V V' : Z → list Z) (x x' y : inode).
Hypothesis Hw : wrote sb off bytes V x V' x'.
Hypothesis Hy : file_ok V sb y.
Hypothesis Ha : apart V x y.

Lemma other_data j : 0 <= j < NSLOT → slot_addr V y j ≠ 0 →
  V' (slot_addr V y j) = V (slot_addr V y j) ∧ ∀ j', 0 <= j' < NSLOT → slot_addr V' x' j' ≠ slot_addr V y j.
Proof.
  intros Hj Hn. destruct (fo_data _ _ _ Hy j Hj Hn) as [Hd Hu]. apply (wr_other _ _ _ _ _ _ _ Hw); [done|done|].
  intros j' Hj'. by apply Ha.
Qed.

Lemma other_slot j : 0 <= j < NSLOT → slot_addr V' y j = slot_addr V y j.
Proof.
  intros Hj. unfold slot_addr. destruct (j <=? NDIRECT); [done|].
  destruct (Z.eqb_spec (i_addrs y !!! Z.to_nat NDIRECT) 0) as [|Hi]; [done|].
  destruct (other_data NDIRECT ltac:(done) Hi) as [E _]. change (slot_addr V y NDIRECT) with (i_addrs y !!! Z.to_nat NDIRECT) in E.
  by rewrite E.
Qed.

Lemma other_file_ok : file_ok V' sb y.
Proof.
  split; [apply Hy|apply Hy| |].
  - intros j Hj. rewrite other_slot by done. intros Hn. destruct (fo_data _ _ _ Hy j Hj Hn) as [Hd Hu].
    split; [done|]. by apply (wr_used _ _ _ _ _ _ _ Hw).
  - intros j j' Hj Hj'. rewrite !other_slot by done. by apply (fo_inj _ _ _ Hy).
Qed.

Lemma other_apart : apart V' x' y ∧ apart V' y x'.
Proof.
  split; intros j j' Hj Hj'; rewrite other_slot by done; intros Hn.
  - by apply other_data.
  - intros E. rewrite <- E in Hn. destruct (other_data j Hj Hn) as [_ Hd]. by apply (Hd j').
Qed.

Lemma other_fbyte k : 0 <= k < MAXFILE * BSIZE → fbyte V' y k = fbyte V y k.
Proof.
  intros Hk. destruct (slot_of_range _ (bn_range k Hk)) as [Hs _]. unfold fbyte. rewrite other_slot by done.
  destruct (Z.eqb_spec (slot_addr V y (slot_of (k / BSIZE))) 0) as [|Hn]; [done|]. by destruct (other_data _ Hs Hn) as [-> _].
Qed.

Lemma other_mapped : i_size y <= MAXFILE * BSIZE → mapped V y → mapped V' y.
Proof.
  intros Hs Hm bn Hb Hlt. assert (0 <= bn < MAXFILE) as Hbn by (unfold BSIZE in *; lia). destruct (slot_of_range _ Hbn) as [Hr _].
  rewrite other_slot by done. by apply Hm.
Qed.
End other.

Lemma apart_ext V V' x y : (∀ b, V b = V' b) → apart V x y → apart V' x y.
Proof. intros E Ha j j' Hj Hj'. rewrite <- !(slot_addr_ext V V' E). by apply Ha. Qed.

(** Storing an inode does not touch the blocks of files. *)
Lemma apart_meta V x y b data :
  file_ok V fssb x → file_ok V fssb y → 0 <= b < sb_bmapstart fssb → apart V x y → apart (<[b := data]> V) x y.
Proof.
  intros Hx Hy Hb Ha j j' Hj Hj'. rewrite !(mw_slot fssb fssb_ok) by done. by apply Ha.
Qed.

(** ** The operations refine operations on the abstract files *)

Lemma rinode_inv i s d s' : core s → rinode i s = Some (d, s') → s' = s ∧ d = disk_inode fssb (img_view s) i.
Proof.
  intros Hc E. unfold rinode in E. minv_bind E. apply rsect_inv in E0 as [-> Eb]. injection E as <- <-. split; [done|].
  unfold disk_inode. by rewrite (img_lookup _ _ _ Eb).
Qed.

(** The whole of an append, as a write into the file. *)
Lemma iappend_wrote i p s s' :
  core s → 0 <= i < NINODES → let d := disk_inode fssb (img_view s) i in let off := di_size d in
  dinode_ok d → file_ok (W s) fssb (xino i d) → off <= MAXFILE * BSIZE → iappend i p s = Some ((), s') →
  off + Z.of_nat (length p) <= MAXFILE * BSIZE ∧ core s' ∧ m_freeinode s' = m_freeinode s ∧ (∀ b, b < 32 → img_view s' b = img_view s b)
  ∧ ∃ d1, (∀ i', 0 <= i' < NINODES → disk_inode fssb (img_view s') i' =
            if decide (i' = i) then d1 <| di_size := off + Z.of_nat (length p) |> else disk_inode fssb (img_view s) i')
    ∧ file_ok (W s') fssb (xino i d1) ∧ wrote fssb off p (W s) (xino i d) (W s') (xino i d1)
    ∧ dinode_ok (d1 <| di_size := off + Z.of_nat (length p) |>) ∧ di_type d1 = di_type d.
Proof.
  intros Hc Hi d off Hd Hf Hmax E. assert (MAXFILE * BSIZE = 274432) as EM by done. destruct (IBLOCK_eq i Hi) as [Eb Hb].
  unfold iappend in E. apply M_bind_inv in E as (d0 & s0 & E0 & E). destruct (rinode_inv _ _ _ _ Hc E0) as [-> ->]. fold d in E.
  pose proof (do_size _ Hd) as Hds. rewrite xint_u32 in E by done. fold off in E, Hds.
  apply M_bind_inv in E as ([d1 off'] & s1 & E1 & E).
  destruct (iappend_loop_spec i _ d off p s d1 off' s1 Hc Hf ltac:(lia) E1) as (Eo & Ho & Hc1 & Hm1 & Hf1 & Hw1). subst off'.
  rewrite xint_u32 in E by lia.
  pose proof (wr_inode _ _ _ _ _ _ _ Hw1) as Ex. injection Ex as Ety Ema Emi Enl Esz.
  assert (dinode_ok (d1 <| di_size := off + Z.of_nat (length p) |>)) as Hd1.
  { destruct Hd as [D1 D2 D3 D4 D5 D6 D7]. split; rsimpl; rewrite ?Ety, ?Ema, ?Emi, ?Enl; try done; [lia|apply (fo_len _ _ _ Hf1)|].
    exact (dinode_ok_addrs fssb fssb_ok _ _ Hf1). }
  destruct (winode_spec i _ s1 s' Hc1 Hi Hd1 E) as (Hc2 & Hw & Hfi & Hfb & Hlow & Hdi). destruct Hm1 as [M1 M2 M3].
  assert (0 <= IBLOCK i fssb < sb_bmapstart fssb) as Hbr by (change (sb_bmapstart fssb) with 45; lia).
  split; [done|]. split; [done|]. split; [congruence|]. split.
  { intros b Hb2. rewrite Hlow by done. apply M3. change nmeta with 46. lia. }
  exists d1. split; [|split; [|split; [|split]]].
  - intros i' Hi'. rewrite Hdi by done. destruct (decide (i' = i)); [done|]. destruct (IBLOCK_eq i' Hi') as [Eb' Hb'].
    unfold disk_inode. rewrite M3; [done|]. change nmeta with 46. lia.
  - eapply file_ok_ext; [exact Hw|]. by apply (mw_file_ok fssb fssb_ok).
  - eapply wrote_ext; [exact Hw|]. rewrite <- (app_nil_r p). eapply wrote_trans; [exact Hw1| |lia|cbn [length]; lia].
    by apply extends_wrote, (mw_extends fssb fssb_ok).
  - done.
  - done.
Qed.

Lemma iappend_refines s fs i ty bs p s' :
  refines s fs → fs !! i = Some (ty, bs) → iappend i p s = Some ((), s') → refines s' (<[i := (ty, bs ++ p)]> fs).
Proof.
  intros [Hc Hn Hdom Hfile Hap Hsup] Hfi E. destruct (Hfile i ty bs Hfi) as [F1 F2 F3 F4 F5 F6 F7].
  assert (∀ i, is_Some (fs !! i) → 0 <= i < NINODES) as Hrange by (intros i' Hi'; apply Hdom in Hi'; lia).
  assert (is_Some (fs !! i)) as Hsi by (by eexists). pose proof (Hrange i Hsi) as Hi.
  destruct (iappend_wrote i p s s' Hc Hi F4 F5 ltac:(by rewrite F2) E) as (Hmax & Hc' & Hfr & Hlow & d1 & Hdi & Hf1 & Hw & Hd1 & Ety).
  rewrite F2 in *. set (d := disk_inode fssb (img_view s) i) in *. set (n := Z.of_nat (length bs)) in *.
  pose proof (Hdi i Hi) as Edi. rewrite decide_True in Edi by done.
  assert (∀ i', i' ≠ i → is_Some (fs !! i') → disk_inode fssb (img_view s') i' = disk_inode fssb (img_view s) i') as Hoth.
  { intros i' Hne Hs. rewrite Hdi, decide_False by (auto || done). done. }
  assert (∀ i', is_Some (fs !! i') → ∃ ty bs, file_is s i' ty bs) as Hfis by (intros i' [[ty' bs'] Hs]; eauto).
  split; [done|by rewrite Hfr| | | |].
  - intros i'. rewrite Hfr. destruct (decide (i' = i)) as [->|]; [rewrite lookup_insert_eq; split; [by intros; apply Hdom|by eauto]|].
    by rewrite lookup_insert_ne.
  - intros i' ty' bs' Hl. destruct (decide (i' = i)) as [->|Hne].
    + rewrite lookup_insert_eq in Hl. injection Hl as <- <-.
      split; rewrite ?Edi, ?length_app, ?Nat2Z.inj_add; fold n; [by rewrite <- F1, <- Ety|done|done|done| | |].
      * by apply (file_ok_size fssb _ (xino i d1)).
      * pose proof (wrote_mapped fssb n p _ _ _ _ Hw F6) as Hm. cbn [xino i_size] in Hm. rewrite F2 in Hm.
        rewrite Z.max_r in Hm by lia. apply Hm; lia.
      * intros k Hk. change (fbyte (W s') (xino i d1) (Z.of_nat k) = (bs ++ p) !!! k).
        rewrite (wr_bytes _ _ _ _ _ _ _ Hw) by lia. destruct (decide (n <= Z.of_nat k < n + Z.of_nat (length p))).
        -- rewrite lookup_total_app_r by lia. f_equal. lia.
        -- rewrite lookup_total_app_l by lia. apply F7. lia.
    + rewrite lookup_insert_ne in Hl by done. pose proof (Hfile i' ty' bs' Hl) as [G1 G2 G3 G4 G5 G6 G7].
      assert (is_Some (fs !! i')) as Hsi' by (by eexists). pose proof (Hap i i' Hsi Hsi' ltac:(done)) as Ha.
      pose proof (Hoth i' Hne Hsi') as Eo. split; rewrite ?Eo; [done|done|done|done| | |].
      * by eapply other_file_ok.
      * eapply other_mapped; [exact Hw|done|done| |done]. cbn [xino i_size]. by rewrite G2.
      * intros k Hk. rewrite (other_fbyte _ _ _ _ _ _ _ _ Hw G5 Ha) by lia. by apply G7.
  - assert (∀ i', i' ≠ i → is_Some (fs !! i') → let y := xino i' (disk_inode fssb (img_view s) i') in file_ok (W s) fssb y ∧ apart (W s) (xino i d) y) as Hy.
    { intros i' Hne Hs. destruct (Hfis i' Hs) as (ty' & bs' & [G1 G2 G3 G4 G5 G6 G7]). split; [done|]. by apply Hap. }
    intros i1 i2 H1 H2 Hne. apply lookup_insert_is_Some in H1. apply lookup_insert_is_Some in H2.
    destruct (decide (i1 = i)) as [->|N1], (decide (i2 = i)) as [->|N2]; [done| | |].
    + destruct H2 as [|[_ H2]]; [congruence|]. destruct (Hy i2 N2 H2) as [Y1 Y2]. rewrite Edi, Hoth by done. exact (proj1 (other_apart _ _ _ _ _ _ _ _ Hw Y1 Y2)).
    + destruct H1 as [|[_ H1]]; [congruence|]. destruct (Hy i1 N1 H1) as [Y1 Y2]. rewrite Edi, Hoth by done. exact (proj2 (other_apart _ _ _ _ _ _ _ _ Hw Y1 Y2)).
    + destruct H1 as [|[_ H1]]; [congruence|]. destruct H2 as [|[_ H2]]; [congruence|]. rewrite !Hoth by done.
      destruct (Hy i1 N1 H1) as [Y1 Y2], (Hy i2 N2 H2) as [Z1 Z2]. intros j j' Hj Hj'.
      rewrite (other_slot _ _ _ _ _ _ _ _ Hw Y1 Y2), (other_slot _ _ _ _ _ _ _ _ Hw Z1 Z2) by done. by apply Hap.
  - rewrite Hlow by lia. done.
Qed.

(** Storing an inode that is not in use, or only its size: no file changes. *)
Lemma meta_file s s' i ty bs b :
  0 <= b < sb_bmapstart fssb → (∀ c, (<[b := img_view s' b]> (W s)) c = W s' c) →
  disk_inode fssb (img_view s') i = disk_inode fssb (img_view s) i → file_is s i ty bs → file_is s' i ty bs.
Proof.
  intros Hb Hw Ed [F1 F2 F3 F4 F5 F6 F7]. assert (MAXFILE * BSIZE = 274432) as EM by done.
  pose proof (mw_extends fssb fssb_ok _ _ b (img_view s' b) F5 Hb) as He.
  pose proof (extends_wrote fssb 0 _ _ _ _ He) as Hwr. split; rewrite ?Ed; [done|done|done|done| | |].
  - eapply file_ok_ext; [exact Hw|]. by apply (mw_file_ok fssb fssb_ok).
  - eapply mapped_ext; [exact Hw|]. intros bn Hbn Hlt. cbn [xino i_size] in Hlt. rewrite F2 in Hlt.
    assert (0 <= bn < MAXFILE) as Hr by (change MAXFILE with 268; unfold BSIZE in *; lia). destruct (slot_of_range _ Hr) as [Hs _].
    rewrite (mw_slot fssb fssb_ok _ _ _ _ F5 Hb) by done. apply F6; [done|]. cbn [xino i_size]. by rewrite F2.
  - intros k Hk. rewrite <- (fbyte_ext _ _ Hw), (wr_bytes _ _ _ _ _ _ _ Hwr) by lia. rewrite decide_False by (simpl; lia). by apply F7.
Qed.

Definition new_inode (ty : Z) : dinode := MkDinode ty 0 0 1 0 (replicate 13 0).

Lemma new_inode_slot V i ty j : 0 <= j < NSLOT → slot_addr V (xino i (new_inode ty)) j = 0.
Proof.
  intros Hj. unfold slot_addr. cbn [xino i_addrs new_inode di_addrs].
  destruct (Z.leb_spec j NDIRECT); [|done]. apply lookup_total_replicate_2. change NDIRECT with 12 in *. lia.
Qed.

Lemma ialloc_refines s fs ty inum s' :
  refines s fs → m_freeinode s < NINODES → ty = T_FILE ∨ ty = T_DIR → ialloc ty s = Some (inum, s') →
  inum = m_freeinode s ∧ m_freeinode s' = m_freeinode s + 1 ∧ refines s' (<[inum := (ty, [])]> fs).
Proof.
  intros [Hc Hn Hdom Hfile Hap Hsup] Hlt Hty E. change NINODES with 200 in *. unfold ialloc in E.
  apply M_bind_inv in E as (i & s1 & E1 & E). apply M_bind_inv in E as ([] & s2 & E2 & E). injection E as <- <-.
  injection E1 as <- <-. rewrite (u32_small (m_freeinode s + 1)) in E2 by lia. set (i := m_freeinode s) in *. set (s1 := MkMkfs (m_img s) (i + 1) (m_freeblock s)) in *.
  assert (core s1) as Hc1 by (destruct Hc; by split).
  assert (MkDinode (i16 (xshort ty)) 0 0 (i16 (xshort 1)) (xint 0) (replicate 13 0) = new_inode ty) as Ed by (by destruct Hty as [-> | ->]).
  rewrite Ed in E2. assert (dinode_ok (new_inode ty)) as Hd.
  { split; cbn [new_inode di_type di_major di_minor di_nlink di_size di_addrs]; try done; [by destruct Hty as [-> | ->]|].
    apply Forall_replicate. lia. }
  destruct (winode_spec i _ s1 s2 Hc1 ltac:(change NINODES with 200; lia) Hd E2) as (Hc2 & Hw & Hfi & Hfb & Hlow & Hdi).
  destruct (IBLOCK_eq i ltac:(change NINODES with 200; lia)) as [Eb Hb].
  assert (0 <= IBLOCK i fssb < sb_bmapstart fssb) as Hbr by (change (sb_bmapstart fssb) with 45; lia).
  assert (∀ c, (<[IBLOCK i fssb := img_view s2 (IBLOCK i fssb)]> (W s)) c = W s2 c) as Hws by exact Hw.
  assert (∀ i', is_Some (fs !! i') → i' ≠ i ∧ disk_inode fssb (img_view s2) i' = disk_inode fssb (img_view s) i') as Hoth.
  { intros i' Hs. apply Hdom in Hs. split; [lia|]. rewrite Hdi by (change NINODES with 200; lia). rewrite decide_False by lia. done. }
  pose proof (Hdi i ltac:(change NINODES with 200; lia)) as Edi. rewrite decide_True in Edi by done.
  split; [done|]. split; [done|]. split; [done|rewrite Hfi; cbn [s1 m_freeinode]; change NINODES with 200; lia| | | |].
  - intros i'. rewrite Hfi. cbn [s1 m_freeinode]. rewrite lookup_insert_is_Some, Hdom. split; [intros [<-|[_ ?]]; lia|].
    intros Hi'. destruct (decide (i = i')); [by left|right; lia].
  - intros i' ty' bs' Hl. destruct (decide (i' = i)) as [->|Hne].
    + rewrite lookup_insert_eq in Hl. injection Hl as <- <-. split; rewrite ?Edi; [done|done|done|done| | |].
      * split; [done|done| |].
        -- intros j Hj. by rewrite new_inode_slot.
        -- intros j j' Hj Hj' _. by rewrite new_inode_slot.
      * intros bn Hbn Hs. exfalso. cbn in Hs. unfold BSIZE in Hs. lia.
      * simpl. lia.
    + rewrite lookup_insert_ne in Hl by done. eapply meta_file; [exact Hbr|exact Hws| |by apply Hfile].
      apply Hoth. by eexists.
  - intros i1 i2 H1 H2 Hne. apply lookup_insert_is_Some in H1. apply lookup_insert_is_Some in H2.
    assert (∀ i', is_Some (fs !! i') → file_ok (W s) fssb (xino i' (disk_inode fssb (img_view s) i'))) as Hok.
    { intros i' [[ty' bs'] Hs]. by apply (fs_ok s i' ty' bs'), Hfile. }
    destruct (decide (i1 = i)) as [->|N1].
    { rewrite Edi. intros j j' Hj Hj' Hn'. rewrite new_inode_slot by done. congruence. }
    destruct (decide (i2 = i)) as [->|N2].
    { rewrite Edi. intros j j' Hj Hj'. by rewrite new_inode_slot. }
    destruct H1 as [|[_ H1]]; [congruence|]. destruct H2 as [|[_ H2]]; [congruence|].
    destruct (Hoth i1 H1) as [_ ->], (Hoth i2 H2) as [_ ->]. eapply apart_ext; [exact Hws|]. apply apart_meta; auto.
  - rewrite Hlow by lia. done.
Qed.

Lemma iappend_freeinode s fs i ty bs p s' :
  refines s fs → fs !! i = Some (ty, bs) → iappend i p s = Some ((), s') → m_freeinode s' = m_freeinode s.
Proof.
  intros [Hc Hn Hdom Hfile _ _] Hi E. destruct (Hfile i ty bs Hi) as [F1 F2 F3 F4 F5 F6 F7].
  assert (0 <= i < NINODES) as Hr by (assert (1 <= i < m_freeinode s); [by apply Hdom; eexists|lia]).
  by destruct (iappend_wrote i p s s' Hc Hr F4 F5 ltac:(by rewrite F2) E) as (_ & _ & Hf & _).
Qed.

Lemma append_pieces_refines i ty pieces : ∀ s fs bs s',
  refines s fs → fs !! i = Some (ty, bs) → append_pieces i pieces s = Some ((), s') →
  refines s' (<[i := (ty, bs ++ concat pieces)]> fs) ∧ m_freeinode s' = m_freeinode s.
Proof.
  induction pieces as [|p pieces IH]; intros s fs bs s' Hr Hi E; cbn [append_pieces concat] in *.
  - injection E as <-. rewrite app_nil_r, insert_id by done. done.
  - apply M_bind_inv in E as ([] & s1 & E1 & E). pose proof (iappend_refines _ _ _ _ _ _ _ Hr Hi E1) as Hr1.
    destruct (IH s1 _ (bs ++ p) s' Hr1) as [Hr2 Hn2]; [by rewrite lookup_insert_eq|done|]. rewrite insert_insert_eq, <- app_assoc in Hr2.
    split; [done|]. rewrite Hn2. by eapply iappend_freeinode.
Qed.

(** The directory entries of the input files, numbered from [n] on. *)
Fixpoint entries (n : Z) (inputs : list (list Z * list (list Z))) : list Z :=
  match inputs with
  | [] => []
  | (arg, _) :: inputs => dirent n (without_underscore (without_user arg)) ++ entries (n + 1) inputs
  end.

Lemma add_files_refines inputs : ∀ s fs rb s',
  refines s fs → fs !! ROOTINO = Some (T_DIR, rb) → m_freeinode s + Z.of_nat (length inputs) <= NINODES →
  add_files ROOTINO inputs s = Some ((), s') →
  ∃ fs', refines s' fs' ∧ fs' !! ROOTINO = Some (T_DIR, rb ++ entries (m_freeinode s) inputs)
    ∧ (∀ k arg pieces, inputs !! k = Some (arg, pieces) → fs' !! (m_freeinode s + Z.of_nat k) = Some (T_FILE, concat pieces))
    ∧ (∀ i, i ≠ ROOTINO → i < m_freeinode s → fs' !! i = fs !! i).
Proof.
  induction inputs as [|[arg pieces] inputs IH]; intros s fs rb s' Hr Hroot Hmax E; cbn [add_files entries] in *.
  { injection E as <-. exists fs. rewrite app_nil_r. split; [done|]. split; [done|]. split; [|done]. intros k arg pieces Hk. by rewrite lookup_nil in Hk. }
  cbn [length] in Hmax. apply M_bind_inv in E as ([] & s0 & E0 & E). unfold massert in E0.
  destruct (negb _); [|done]. injection E0 as <-. apply M_bind_inv in E as (inum & s1 & E1 & E).
  destruct (ialloc_refines s fs T_FILE inum s1 Hr ltac:(lia) ltac:(by left) E1) as (-> & Hn1 & Hr1).
  assert (ROOTINO < m_freeinode s) as Hlt by (assert (1 <= ROOTINO < m_freeinode s); [by apply (rf_dom _ _ Hr); eexists|lia]).
  apply M_bind_inv in E as ([] & s2 & E2 & E).
  assert ((<[m_freeinode s := (T_FILE, [])]> fs) !! ROOTINO = Some (T_DIR, rb)) as Hroot1 by (by rewrite lookup_insert_ne by lia).
  pose proof (iappend_refines _ _ _ _ _ _ _ Hr1 Hroot1 E2) as Hr2. pose proof (iappend_freeinode _ _ _ _ _ _ _ Hr1 Hroot1 E2) as Hn2.
  apply M_bind_inv in E as ([] & s3 & E3 & E).
  destruct (append_pieces_refines (m_freeinode s) T_FILE pieces s2 _ [] s3 Hr2) as [Hr3 Hn3];
    [by rewrite lookup_insert_ne, lookup_insert_eq by lia|done|]. cbn [app] in Hr3.
  assert (m_freeinode s3 = m_freeinode s + 1) as Hn by congruence.
  destruct (IH s3 _ (rb ++ dirent (m_freeinode s) (without_underscore (without_user arg))) s' Hr3) as (fs' & Hr' & Hroot' & Hfiles & Hold);
    [by rewrite lookup_insert_ne, lookup_insert_eq by lia|lia|done|]. rewrite Hn in *.
  exists fs'. split; [done|]. split; [by rewrite app_assoc|]. split.
  - intros [|k] arg' pieces' Hk.
    + injection Hk as <- <-. rewrite Z.add_0_r, Hold by lia. by rewrite lookup_insert_eq.
    + cbn in Hk. rewrite <- (Hfiles k arg' pieces' Hk). f_equal. lia.
  - intros i Hi Hlt'. rewrite Hold by lia. by rewrite !lookup_insert_ne by lia.
Qed.

(** *** The start *)

Lemma foldl_insert_lookup (z : list Z) l (m : gmap Z (list Z)) b :
  foldl (λ m i, <[i := z]> m) m l !! b = if decide (b ∈ l) then Some z else m !! b.
Proof.
  revert m. induction l as [|i l IH]; intros m; cbn [foldl]; [by rewrite decide_False by set_solver|].
  rewrite IH. destruct (decide (b ∈ l)); [by rewrite decide_True by set_solver|].
  destruct (decide (b = i)) as [->|]; [by rewrite decide_True, lookup_insert_eq by set_solver|].
  by rewrite decide_False, lookup_insert_ne by set_solver.
Qed.

Definition blank_image : gmap Z (list Z) :=
  <[1 := splice 0 (enc_superblock fssb) zeros]> (foldl (λ m i, <[i := zeros]> m) ∅ (seqZ 0 FSSIZE)).

Lemma blank_lookup b : blank_image !! b = if decide (b = 1) then Some (splice 0 (enc_superblock fssb) zeros)
  else if decide (0 <= b < FSSIZE) then Some zeros else None.
Proof.
  unfold blank_image. destruct (decide (b = 1)) as [->|]; [by rewrite lookup_insert_eq|].
  rewrite lookup_insert_ne, foldl_insert_lookup by done. rewrite (decide_ext (b ∈ seqZ 0 FSSIZE) (0 <= b < FSSIZE)); [done|].
  rewrite elem_of_seqZ. change FSSIZE with 2000. lia.
Qed.

Lemma blank_refines : refines (MkMkfs blank_image 1 nmeta) ∅.
Proof.
  assert (∀ b, img_view (MkMkfs blank_image 1 nmeta) b = if decide (b = 1) then splice 0 (enc_superblock fssb) zeros else zeros) as Hv.
  { intros b. unfold img_view. cbn [m_img]. rewrite blank_lookup. destruct (decide (b = 1)); [done|]. by destruct (decide _). }
  split; [split| | | | |].
  - intros b. cbn [m_img]. rewrite blank_lookup. destruct (decide (b = 1)) as [->|]; [split; [by intros; change FSSIZE with 2000|by eauto]|].
    destruct (decide (0 <= b < FSSIZE)); [split; [done|by eauto]|split; [by intros []|done]].
  - intros b buf. cbn [m_img]. rewrite blank_lookup. destruct (decide (b = 1)); [by intros [= <-]|]. destruct (decide _); [by intros [= <-]|done].
  - done.
  - intros b Hb. rewrite Hv, decide_False; [done|]. change (m_freeblock _) with 46 in Hb. lia.
  - done.
  - intros i. rewrite lookup_empty. split; [by intros []|]. cbn [m_freeinode]. lia.
  - intros i ty bs. by rewrite lookup_empty.
  - intros i i' []. by rewrite lookup_empty in H.
  - by rewrite Hv.
Qed.

Lemma super_roundtrip : dec_superblock (splice 0 (enc_superblock fssb) zeros) = fssb.
Proof. vm_compute. reflexivity. Qed.

(** *** The end *)

(** The files of the finished image, seen as the kernel sees them. *)
Record in_image (V : Z → list Z) (i ty : Z) (bs : list Z) (x : inode) : Prop := {
  ii_type : i_type x = ty;
  ii_ok : file_ok V fssb x;
  ii_bytes : fbytes V x 0 (Z.of_nat (length bs)) = bs
}.

Lemma file_in_image s V i ty bs :
  (∀ b, V b = W s b) → 0 <= i < NINODES → file_is s i ty bs →
  let x := xino i (disk_inode fssb V i) in
  in_image V i ty bs x ∧ i_size x = Z.of_nat (length bs) ∧ mapped V x ∧ disk_inode fssb V i = disk_inode fssb (img_view s) i.
Proof.
  intros HV Hi [F1 F2 F3 F4 F5 F6 F7]. destruct (IBLOCK_eq i Hi) as [Eb Hb].
  assert (disk_inode fssb V i = disk_inode fssb (img_view s) i) as Ed by (unfold disk_inode; by rewrite HV, W_data by lia).
  assert (∀ b, W s b = V b) as HV' by (intros; by rewrite HV). cbv zeta. rewrite Ed.
  split; [split|split; [done|split; [|done]]].
  - done.
  - by eapply file_ok_ext.
  - apply list_eq_same_length with (n := length bs); [done|unfold fbytes; rewrite length_fmap, length_seqZ; lia|].
    intros k y z Hk Hy Hz. unfold fbytes in Hy. rewrite list_lookup_fmap, lookup_seqZ_lt in Hy by lia. injection Hy as <-.
    rewrite Z.add_0_l, (fbyte_ext _ _ HV), F7 by done. by apply list_lookup_total_correct.
  - by eapply mapped_ext.
Qed.

Lemma massert_inv b s u s' : massert b s = Some (u, s') → s' = s.
Proof. unfold massert. destruct b; [|done]. by intros [= <- <-]. Qed.

(** The steps of [main] up to the end of the input files. *)
Lemma main_files inputs s :
  main inputs mkfs_start = Some ((), s) → Z.of_nat (length inputs) + 2 <= NINODES →
  ∃ s3 s4 fs d, refines s3 fs ∧ fs !! ROOTINO = Some (T_DIR, dirent 1 (str ".") ++ dirent 1 (str "..") ++ entries 2 inputs)
    ∧ (∀ k arg pieces, inputs !! k = Some (arg, pieces) → fs !! (2 + Z.of_nat k) = Some (T_FILE, concat pieces))
    ∧ d = disk_inode fssb (img_view s3) ROOTINO
    ∧ winode ROOTINO (d <| di_size := xint (u32 ((xint (di_size d) / BSIZE + 1) * BSIZE)) |>) s3 = Some ((), s4)
    ∧ s = put 45 (bitmap_of (m_freeblock s4)) s4.
Proof.
  intros E Hn. change NINODES with 200 in Hn. assert (populate inputs (MkMkfs blank_image 1 nmeta) = Some ((), s)) as E' by (rewrite <- E; reflexivity).
  clear E. rename E' into E. unfold populate in E.
  apply M_bind_inv in E as (root & s1 & E1 & E).
  destruct (ialloc_refines _ _ T_DIR root s1 blank_refines ltac:(done) ltac:(by right) E1) as (-> & Hn1 & Hr1). cbn [m_freeinode] in *.
  apply M_bind_inv in E as ([] & s1' & E2 & E). apply massert_inv in E2 as ->.
  apply M_bind_inv in E as ([] & s2 & E2 & E).
  pose proof (iappend_refines _ _ _ _ _ _ _ Hr1 (lookup_insert_eq _ _ _) E2) as Hr2. pose proof (iappend_freeinode _ _ _ _ _ _ _ Hr1 (lookup_insert_eq _ _ _) E2) as Hn2.
  apply M_bind_inv in E as ([] & s3 & E3 & E).
  pose proof (iappend_refines _ _ _ _ _ _ _ Hr2 (lookup_insert_eq _ _ _) E3) as Hr3. pose proof (iappend_freeinode _ _ _ _ _ _ _ Hr2 (lookup_insert_eq _ _ _) E3) as Hn3.
  apply M_bind_inv in E as ([] & s4 & E4 & E). assert (m_freeinode s3 = 2) as Hi2 by (rewrite Hn3, Hn2, Hn1; done).
  destruct (add_files_refines inputs s3 _ _ s4 Hr3 (lookup_insert_eq _ _ _) ltac:(change NINODES with 200; lia) E4) as (fs & Hr4 & Hroot & Hfiles & _).
  rewrite Hi2 in *. apply M_bind_inv in E as (d & s5 & E5 & E). destruct (rinode_inv _ _ _ _ (rf_core _ _ Hr4) E5) as [-> ->].
  apply M_bind_inv in E as ([] & s6 & E6 & E). apply M_bind_inv in E as (fb & s7 & E7 & E). injection E7 as <- <-.
  unfold balloc in E. apply M_bind_inv in E as ([] & s8 & E8 & E). apply massert_inv in E8 as ->.
  assert (s = put 45 (bitmap_of (m_freeblock s6)) s6) as Es
    by exact (eq_sym (f_equal (λ r, match r with Some q => q.2 | None => s end) E)).
  exists s4, s6, fs, (disk_inode fssb (img_view s4) ROOTINO). split; [exact Hr4|]. rewrite <- app_assoc in Hroot. split; [exact Hroot|]. split; [exact Hfiles|].
  split; [reflexivity|]. split; [exact E6|exact Es].
Qed.

Lemma image_facts (inputs : list (list Z * list (list Z))) (s : mkfs) :
  main inputs mkfs_start = Some ((), s) → Z.of_nat (length inputs) + 2 <= NINODES →
  let V := img_view s in
  dec_superblock (V 1) = fssb ∧ sb_ok fssb ∧ blocks_ok V ∧ meta_used V fssb
  ∧ (∀ b, 0 <= b < FSSIZE → used V fssb b = (b <? m_freeblock s))
  ∧ (∀ k arg pieces, inputs !! k = Some (arg, pieces) →
       let i := 2 + Z.of_nat k in let x := xino i (disk_inode fssb V i) in
       in_image V i T_FILE (concat pieces) x ∧ i_size x = Z.of_nat (length (concat pieces)) ∧ i_size x <= MAXFILE * BSIZE ∧ mapped V x)
  ∧ in_image V ROOTINO T_DIR (dirent 1 (str ".") ++ dirent 1 (str "..") ++ entries 2 inputs) (xino ROOTINO (disk_inode fssb V ROOTINO)).
Proof.
  intros E Hn V. destruct (main_files inputs s E Hn) as (s3 & s4 & fs & d & [Hc Hni Hdom Hfile Hap Hsup] & Hroot & Hfiles & Ed & E4 & Es). clear E.
  change NINODES with 200 in Hn. destruct (Hfile _ _ _ Hroot) as [F1 F2 F3 F4 F5 F6 F7]. rewrite <- Ed in *.
  set (rb := dirent 1 (str ".") ++ dirent 1 (str "..") ++ entries 2 inputs) in *. assert (MAXFILE * BSIZE = 274432) as EM by done.
  rewrite F2, (xint_u32 (Z.of_nat (length rb))) in E4 by lia.
  assert (0 <= Z.of_nat (length rb) / BSIZE <= 268) as Hdiv.
  { split; [apply Z.div_pos; [lia|done]|]. apply Z.div_le_upper_bound; [done|]. change BSIZE with 1024. lia. }
  rewrite u32_small, xint_u32 in E4 by (change BSIZE with 1024 in *; lia). set (sz := (Z.of_nat (length rb) / BSIZE + 1) * BSIZE) in *.
  assert (dinode_ok (d <| di_size := sz |>)) as Hd'.
  { destruct F4 as [D1 D2 D3 D4 D5 D6 D7]. split; rsimpl; try done. unfold sz. change BSIZE with 1024 in *. lia. }
  destruct (winode_spec ROOTINO _ s3 s4 Hc ltac:(done) Hd' E4) as (Hc4 & Hw & Hfi & Hfb & Hlow & Hdi).
  assert (∀ b, V b = W s4 b) as HV.
  { intros b. unfold V. rewrite Es, put_view. unfold W. change (sb_bmapstart fssb) with 45. destruct (decide (b = 45)) as [->|]; [by rewrite fn_lookup_insert|].
    by rewrite fn_lookup_insert_ne. }
  assert (0 <= IBLOCK ROOTINO fssb < sb_bmapstart fssb) as Hbr by done.
  split; [unfold V; rewrite Es, put_view, decide_False, Hlow, Hsup by done; apply super_roundtrip|]. split; [apply fssb_ok|].
  split; [intros b; rewrite HV; by apply W_len|].
  assert (∀ b, 0 <= b < FSSIZE → used V fssb b = (b <? m_freeblock s)) as Hu.
  { intros b Hb. rewrite (used_ext _ _ HV), W_used by done. by rewrite Es. }
  split; [|split; [done|split]].
  - intros b Hb. destruct (co_free _ Hc4) as [G1 _]. change nmeta with 46 in G1. change (dstart fssb) with 46 in Hb.
    rewrite Hu by (change FSSIZE with 2000; lia). rewrite Es. cbn [put m_freeblock]. apply Z.ltb_lt. lia.
  - intros k arg pieces Hk i x. pose proof (Hfiles k arg pieces Hk) as Hl. apply lookup_lt_Some in Hk.
    assert (0 <= i < NINODES) as Hi by (unfold i; change NINODES with 200; lia).
    assert (file_is s4 i T_FILE (concat pieces)) as Hfi4.
    { eapply meta_file; [exact Hbr|exact Hw| |by apply Hfile]. rewrite Hdi, decide_False by (done || unfold i, ROOTINO; lia). done. }
    destruct (file_in_image s4 V i _ _ HV Hi Hfi4) as (H1 & H2 & H3 & _).
    split; [done|]. split; [done|]. split; [|done]. unfold x. rewrite H2. apply Hfi4.
  - pose proof (Hdi ROOTINO ltac:(done)) as Edr. rewrite decide_True in Edr by done.
    assert (disk_inode fssb V ROOTINO = d <| di_size := sz |>) as EV by (unfold disk_inode; rewrite HV, W_data by done; exact Edr).
    rewrite EV. pose proof (mw_extends fssb fssb_ok _ _ (IBLOCK ROOTINO fssb) (img_view s4 (IBLOCK ROOTINO fssb)) F5 Hbr) as He.
    pose proof (extends_wrote fssb 0 _ _ _ _ He) as Hwr. assert (∀ b, W s4 b = V b) as HV' by (intros; by rewrite HV). split.
    + exact F1.
    + apply (file_ok_size fssb V (xino ROOTINO d)). eapply file_ok_ext; [exact HV'|]. eapply file_ok_ext; [exact Hw|]. by apply (mw_file_ok fssb fssb_ok).
    + apply list_eq_same_length with (n := length rb); [done|unfold fbytes; rewrite length_fmap, length_seqZ; lia|].
      intros k y z Hk Hy Hz. unfold fbytes in Hy. rewrite list_lookup_fmap, lookup_seqZ_lt in Hy by lia. injection Hy as <-.
      change (fbyte V (xino ROOTINO d) (0 + Z.of_nat k) = z).
      rewrite Z.add_0_l, (fbyte_ext _ _ HV), <- (fbyte_ext _ _ Hw), (wr_bytes _ _ _ _ _ _ _ Hwr) by lia.
      rewrite decide_False by (simpl; lia). rewrite F7 by done. by apply list_lookup_total_correct.
Qed.


(** The kernel's inode may differ from [xino] in the fields that are only in memory. *)
Lemma file_ok_same V sb x y : i_dev y = i_dev x → i_addrs y = i_addrs x → file_ok V sb x → file_ok V sb y.
Proof.
  intros E1 E2 [H1 H2 H3 H4]. assert (∀ j, slot_addr V y j = slot_addr V x j) as Es by (intros j; unfold slot_addr; by rewrite E2).
  split; [congruence|congruence| |].
  - intros j Hj. rewrite Es. by apply H3.
  - intros j j' Hj Hj'. rewrite !Es. by apply H4.
Qed.

(** C17: the kernel reads from an image what mkfs put into it.  With the image of
    a successful run of mkfs as the disk, [readi] on the inode of an input file
    delivers the file, byte for byte. *)
Theorem image_readi `{DS : DiskSpec} (p : nat) (pid sz : Z) (F : kstate) (ip : nat) (T : tstate) (x : inode) (m : nat) (w : world)
    (inputs : list (list Z * list (list Z))) (s : mkfs) (k : nat) (arg : list Z) (pieces : list (list Z)) :
  main inputs mkfs_start = Some ((), s) → Z.of_nat (length inputs) + 2 <= NINODES → inputs !! k = Some (arg, pieces) →
  (ip < length (k_itable F))%nat → t_view T = img_view s → t_open T = ∅ → t_dirty T = ∅ → buffers 1 T →
  i_dev x = ROOTDEV → dinode_of x = disk_inode Mkfs.sb (img_view s) (2 + Z.of_nat k) →
  let n := Z.of_nat (length (concat pieces)) in
  ftxn p pid sz F ip T x (m + readi_reads n) w →
  ∃ w', readi ip DLocal 0 n w = Ok (n, concat pieces) w' ∧ ftxn p pid sz F ip T x m w'.
Proof.
  intros E Hn Hk Hip HT Ho Hdy Hb Hdev Hx n Ht. 
  destruct (image_facts inputs s E Hn) as (_ & _ & _ & _ & _ & Hf & _). destruct (Hf k arg pieces Hk) as ([I1 I2 I3] & I4 & I5 & I6).
  clear E Hf. rewrite <- HT, <- Hx in *.
  assert (file_ok (t_view T) fssb x) as Hf by (by eapply file_ok_same; [| |exact I2]).
  assert (i_size x = n) as Hsz by exact I4.
  assert (mapped (t_view T) x) as Hmp by exact I6. rewrite I4 in I5.
  assert (MAXFILE * BSIZE = 274432) as EM by done.
  destruct (readi_spec p pid sz F ip fssb Hip fssb_ok T x m 0 n w) as (w' & Er & Ht'); try done; try lia.
  exists w'. split; [|done]. rewrite Er. assert (read_count x 0 n = n) as ->.
  { unfold read_count. rewrite Hsz, (proj2 (Z.ltb_ge n 0)), (proj2 (Z.leb_gt (2 ^ 32) (0 + n))) by lia. cbn [orb]. lia. }
  do 2 f_equal. exact I3.
Qed.

(** *** Witnesses *)

Definition demo_inputs : list (list Z * list (list Z)) :=
  [(str "user/_cat", [str "ab"; str "cd"]); (str "README", [])].

Lemma demo_succeeds : ∃ s, main demo_inputs mkfs_start = Some ((), s).
Proof.
  assert ((match main demo_inputs mkfs_start with Some _ => true | None => false end) = true) as E by (vm_compute; reflexivity).
  destruct (main demo_inputs mkfs_start) as [[[] s]|]; [by exists s|discriminate E].
Qed.


(** A kernel whose disk is the image, with the inode of a file in its table. *)
Definition image_inode (s : mkfs) (i : Z) : inode := xino i (disk_inode Mkfs.sb (img_view s) i).
Definition image_world0 (s : mkfs) (i : Z) : world :=
  MkWorld (boot_kstate <| k_disk := MkDisk (img_view s) [] |> <| k_sb := Mkfs.sb |> <| k_itable ::= <[0%nat := image_inode s i]> |>
             <| k_log := MkLog 2 30 1 0 1 0 (replicate 30 0) |>) ∅ (Some 0%nat) [].
Definition image_t (s : mkfs) : tstate := MkT (img_view s) (img_view s) [] ∅ ∅ ∅ 1.

Lemma image_world_ok s i m :
  blocks_ok (img_view s) →
  ∃ w, @ftxn sync_rw sync_spec 0 0 30 (frame (ks (image_world0 s i))) 0 (image_t s) (image_inode s i) m w.
Proof.
  intros Hl. destruct (binit_rep 0 (image_world0 s i)) as (c & E & HR).
  { reflexivity. }
  { exact boot_bufs_unused. }
  { exact Hl. }
  exists (on_bc (λ _, c) (image_world0 s i)). split; [|done|].
  - exists (fresh (img_view s) []). split; [|by split].
    split; [|done|done|exact HR]. split; [done|done|done|by vm_compute; lia|done].
  - split; try done. cbn. constructor.
Qed.

Lemma image_readi_witness : ∃ w w', @readi sync_rw 0 DLocal 0 4 w = Ok (4, str "abcd") w'.
Proof.
  destruct demo_succeeds as [s E]. destruct (image_facts demo_inputs s E) as (_ & _ & Hl & _); [by vm_compute|].
  destruct (image_world_ok s 2 (0 + readi_reads 4) Hl) as [w Hw]. exists w.
  destruct (@image_readi sync_rw sync_spec 0 0 30 (frame (ks (image_world0 s 2))) 0 (image_t s) (image_inode s 2) 0 w
    demo_inputs s 0 (str "user/_cat") [str "ab"; str "cd"]) as (w' & Er & _).
  - exact E.
  - by vm_compute.
  - reflexivity.
  - apply Nat.ltb_lt. reflexivity.
  - reflexivity.
  - reflexivity.
  - reflexivity.
  - vm_compute. lia.
  - reflexivity.
  - reflexivity.
  - exact Hw.
  - exists w'. exact Er.
Defined.
